(* ===== verification/_CoqProject ===== *)
-Q . S2P
Prelude.v
Select.v
Multislice.v
Chains.v
MapInterface.v
LinkedList.v
AvlTree.v
AvlShape.v
AvlBalance.v
AvlMap.v
OrderedMap.v
Stream.v
SharedData.v
StreamProof.v
StreamMain.v
Caches.v
DatasetCache.v
FileCache.v
FileCacheProof.v
FileCacheMain.v
ShadowCache.v
ProcessPool.v
ProcessPoolProof.v
ProcessPoolMain.v
Bytes.v
Msgpack.v
MsgpackFormat.v
H5.v
PackStore.v
NumpyType.v
NumpyTypeProof.v
PackContents.v
PackContentsProof.v
PackAttributes.v
Points.v
PackDataset.v
PackDatasetProof.v
PackDatasetMain.v
PackObject.v
PackObjectProof.v
PackDecode.v
H5File.v
H5Access.v
NumpyTypeMain.v
PackMain.v
Pipe.v
Requests.v
RequestsProof.v
RequestsMain.v
Startup.v
StartupMain.v
Jobs.v
EndToEnd.v
Sessions.v
Reader.v
ReaderMain.v
Lifetimes.v
LifetimesMain.v
Jni.v
JniMain.v
