(* ===== verification/Prelude.v ===== *)
(** * hdfstream: a verification development for the C streaming library

    The repository is a C library (src/src) that reads HDF5 files in a pool of
    reader processes, a Java interface to it (src/jni) and web applications in
    Java (src/webapp, src/virtual_directory).  This development models the C
    code and the theorems say what it does.

    ** The program

    A client starts the library with [hdfstream_new], opens a stream for slices
    of a dataset or for an object of a file, reads it in chunks and closes it
    (src/src/lib/hdfstream.c).  Each stream is served by a reader process
    (src/src/reader/hdfstream_reader.c), one of a pool
    (src/src/util/process_pool.c) that threads share: the library prefers one
    that has the file and the dataset open, which it knows from a shadow copy of
    the reader's cache (src/src/hdf5/file_cache.c, dataset_cache.c, compiled
    twice).  Requests and answers go through pipes
    (src/src/util/worker_process.c).  The reader packs the data to MessagePack
    (src/src/hdf5) and writes it to a ring of buffers in shared memory, from
    which the library reads it.  The caches use an ordered map, which is made of
    an AVL tree and a linked list (src/src/util).

    ** How C is modelled

    A function that changes memory is a function in the monad [M] below, from a
    store to a result and a store.  Undefined behaviour is [None], and so is a
    failed [assert] or [verify], a loop that runs out of fuel and a NULL or
    dangling pointer that is used; a statement [f x s = Some (r, s')] therefore
    says that the call is safe and returns.  A struct is a Record, the structs
    of one type that a component allocates are a finite map from addresses
    ([heap_of]); [malloc] gives a fresh address and does not fail, as the code
    assumes almost everywhere.  [goto cleanup] behind the macro [check] of
    verify.h is the notation [check!].  [size_t] and [hsize_t] are integers with
    the reduction modulo 2^64 ([u64]) written where the code can wrap around,
    [int] has [s32], and products of [int]s that overflow are undefined.
    Processes that share memory, and threads, are step relations.

    The HDF5 library, msgpack, the operating system and the Java VM are
    parameters.  [H5Space] (Select.v), [H5Lib] (H5.v), [H5Files] (Caches.v),
    [Msgpack] and [Packer] (Msgpack.v) are classes of operations, and the
    classes of laws beside them say what the code relies on; each has an
    instance (H5File.v, FileCacheMain.v and RequestsMain.v, MsgpackFormat.v,
    Jobs.v) at which the theorems are evaluated.  [H5ContentsLaws] (H5Access.v)
    says that the handles of [H5Files] are identifiers of [H5Lib]: a dataset
    that the cache has open is the one that the packing code reads.  Calls of the operating system
    ask a list of answers, so that a theorem about every list is one about every
    way in which they can fail.

    ** The files

    Containers (src/src/util).  Chains.v: doubly linked sequences of addresses.
    LinkedList.v: linked_list.c.  MapInterface.v: the class [KVMap] of what
    ordered_map.c relies on from its tree.  AvlTree.v, AvlShape.v, AvlBalance.v,
    AvlMap.v: avltree.c, as pointers, as trees, with its rotations, as a map;
    AvlMap.v has the instance of [KVMap].  OrderedMap.v: ordered_map.c, over any
    [KVMap].

    Caches.  Caches.v: handles of files and datasets and who owns them.
    DatasetCache.v, FileCache.v: dataset_cache.c and file_cache.c, for the reader
    and as shadow copy, with what hdfstream.c and hdfstream_reader.c do with
    them.  FileCacheProof.v, FileCacheMain.v: they are least-recently-used
    lists.  ShadowCache.v: the copy agrees with the original.

    Packing (src/src/hdf5).  Bytes.v: bytes and strings.  Msgpack.v,
    MsgpackFormat.v: MessagePack, a decoder.  Select.v, Multislice.v: select.c,
    multislice.c.  H5.v, H5File.v, H5Access.v: the HDF5 library, a concrete one,
    and how the handles of the caches are objects of it.
    PackStore.v: the store and the rules of the calls.  NumpyType.v (with Proof
    and Main): native_type.c, type_mapping.c, pack_numpy_type.c.  PackContents.v
    (Proof): pack_contents.c.  PackAttributes.v: pack_attributes.c.  Points.v:
    the points of a request in order.  PackDataset.v (Proof, Main):
    pack_dataset.c.  PackObject.v (Proof): pack_object.c, pack_group.c,
    pack_soft_link.c, pack_unknown.c.  PackDecode.v: what is written can be
    decoded.  PackMain.v: the theorems.

    The stream.  Stream.v: msgpack_chunkbuffer.c, [hdfstream_read_chunk] and
    [hdfstream_close_stream] as programs of atomic operations on the ring.
    SharedData.v: shared_data.c.  StreamProof.v: each side against what it may
    assume of the other, and the invariant of both.  StreamMain.v: the theorems.

    Processes.  ProcessPool.v (Proof, Main): the critical sections of
    process_pool.c, and threads as a step relation.  Pipe.v: messages through
    pipes, of worker_process.c.  Startup.v (Main): starting and ending a reader
    process, shared_memory.c, reader_data.c.  Lifetimes.v (Main): starting and
    freeing the library, the list of pools.

    Requests.  Requests.v (Proof, Main): opening a stream, at both ends of the
    pipes.  Jobs.v: what the reader packs for a request, as a packer of
    Stream.v.  EndToEnd.v: from the call to the data.  Sessions.v: one request
    after the other.  Reader.v (Main): the reader process from its command line
    to its end, with the packing of each stream.  Jni.v (Main): the functions that Java calls.

    ** What the theorems show

    The properties are numbered in the order of their importance; the comment
    of each begins with its number.

    - The whole (C1, C2, C5 to C8).  A call that gives a stream is answered: in
      every interleaving of the two processes the client gets bytes that decode
      to the contents of the dataset at its slices, or to the description of its
      object; the dataset is the one that the caller named.  A worker serves any number of requests.  Requests arrive as they
      were sent, however the pipes split them.  The reader process answers
      requests, packs a stream for each that succeeds, and expires files in any
      order until it is told to exit or the library is gone, and gives back what
      it has acquired.  C1 and C6, which run the packing functions, need the
      conditions of these (below).  Opening a stream from C or from Java leaves
      the library in order whatever fails.
    - The stream (C3, C4, C19, C24, C34).  No deadlock, race or overflow;
      everything is delivered in order; a client may stop early and a worker may
      die.  One theorem is about what goes wrong when a signal interrupts the
      writer.
    - Processes and the life of objects (C9 to C13, C35 to C37, C39).  The pool
      is safe for any number of threads, loses no worker and assigns the best
      one; starting a process is all or nothing; the library never dies from
      SIGPIPE; the memory of pools is freed once.  One theorem is about a thread
      that waits for ever.
    - Packing (C14 to C18, C20, C21, C40).  Every path releases what it acquired;
      packing terminates on cyclic groups; the output decodes to what was asked
      for and does not depend on the buffer size; types are described so that
      the description determines them.  The theorems about data have conditions
      that the code does not test.  Of the file ([dataset_ok], [file_ok]): fewer
      than 2^62 bytes in a dataset, no variable-length string that was never
      written, attributes that have a value.  Of a request ([request_fits]): the
      rank of the dataset, complete arrays, no end of a slice that wraps around
      2^64, no row whose size is a multiple of 2^64 bytes.  C40 shows that the
      last is needed: for every dataset, a request without it is either an error
      of a library call or a division by zero.
    - Selections (C25 to C28).  Valid requests are exactly those accepted, up to
      a wrap-around that one theorem describes; the buffers together are the
      slices, in order.
    - Caches and containers (C22, C23, C29 to C33, C38).  Each is a refinement of
      a list or a finite map, for every client that keeps the preconditions.

    ** Fuel

    The trees and lists take their fuel from the size of their heap, which is
    more than any walk without repetition.  Pipes take it from the number of
    answers that are left; after the last answer every call succeeds in full.
    [multislice_select_next_buffer_data] moves past at least one slice in each
    turn ([fill_fuel]), and the theorem about reading a whole request shows that
    the number of rows is enough turns.  [recursion_fuel] is one more than the
    recursion limit of pack_object.c.  [type_fuel] bounds the nesting of
    datatypes: it is a parameter, and [dataset_ok] and [file_ok] ask that the
    types of the file are not nested deeper.  The loop that drains a stream
    needs two turns more than there are bytes ([sizes_ok]); [job_packer] needs
    as many as the job makes writes; [process_pool_cleanup] as many as there are
    pools; [command_loop] has one turn for each value of its clock, and the
    theorem about the process gives it one for each request and each expiry.
    The theorems that use fuel give a bound that is enough.

    ** Not modelled

    - Memory that runs out: [malloc] gives a block, also where the code looks at
      its result.
    - Blocking of the pipes and the scheduling of threads: a step may be taken
      at any time, and theorems about the pipes say what a call does when it
      returns.  [fork], [exec], [waitpid] and signals are answers of the
      operating system.
    - The reader may expire files between requests in the theorems about the
      caches and about the reader process, not in those about both processes;
      after an expiry the shadow copy is no longer exact, which is what the code
      intends.
    - The reader process on its own (Reader.v) packs its streams with writes
      that return any results; what these writes do to the ring is
      [write_stream], and both sides of the ring together are EndToEnd.v and
      Sessions.v, where the jobs of the requests are recorded ([start_job]) and
      then run as packers.
    - The [int] counters of hits and misses of a file cache and of items of a
      linked list are integers without bound.
    - [process_pool_wait_and_lock] asserts that [sem_wait] returns 0; a wait
      that a signal interrupts, and then ends the process, is not a step of
      ProcessPool.v.
    - src/src/util/verify.c (used by the unit tests), the parameters of HDF5's
      chunk cache, the setting of HDF5's error output and [malloc_trim].
    - The Java code, the tests, the test data and the build files. *)
From stdpp Require Import base tactics numbers list gmap relations.

(** ** Results of C code

    A C function is modelled as a function into [option]: [None] is the
    undefined behaviour of the language (a null or dangling pointer is
    dereferenced, an array is read out of range, an [assert] fails) or a loop
    that ran out of fuel.  A theorem that states [f x = Some r] therefore
    also states that the call is memory safe and terminates.  Pure functions
    use the [option] monad of stdpp; functions that change a store use the
    monad [M S] below. *)

Definition M (S A : Type) : Type := S → option (A * S).

Definition ret {S A} (a : A) : M S A := λ s, Some (a, s).
Definition bind {S A B} (m : M S A) (k : A → M S B) : M S B :=
  λ s, match m s with Some (a, s') => k a s' | None => None end.
Definition ub {S A} : M S A := λ _, None.
Definition gets {S A} (f : S → A) : M S A := λ s, Some (f s, s).
Definition modify {S} (f : S → S) : M S () := λ s, Some ((), f s).
Definition lift {S A} (o : option A) : M S A :=
  λ s, match o with Some a => Some (a, s) | None => None end.
Definition when {S} (b : bool) (m : M S ()) : M S () := if b then m else ret ().
(** [assert(b)] of the C library, in a build where it is active. *)
Definition assertM {S} (b : bool) : M S () := if b then ret () else ub.

Declare Scope M_scope.
Delimit Scope M_scope with M.
Notation "'let!' x := m 'in' k" := (bind m (λ x, k))
  (at level 10, x name, m at level 100, k at level 200,
   format "'[v' 'let!'  x  :=  m  'in' '/' k ']'") : M_scope.
Notation "'do!' m 'in' k" := (bind m (λ _, k))
  (at level 10, m at level 100, k at level 200,
   format "'[v' 'do!'  m  'in' '/' k ']'") : M_scope.

(** util/verify.h: [check(x)] jumps to the cleanup block, which is given after
    [else], if the return code is not zero. *)
Notation "'check!' m 'else' c 'in' k" :=
  (bind m (λ r, if (r =? 0)%Z then k else c))
  (at level 10, m at level 100, c at level 100, k at level 200,
   format "'[v' 'check!'  m  'else'  c  'in' '/' k ']'") : M_scope.
Open Scope M_scope.

(** A [while] loop: the condition may read the store, the body returns the
    new values of the local variables. *)
Fixpoint whileM {S A} (fuel : nat) (cond : A → M S bool) (body : A → M S A)
    (a : A) : M S A :=
  match fuel with
  | 0 => ub
  | S n => let! c := cond a in
           if (c : bool) then let! a' := body a in whileM n cond body a'
           else ret a
  end.

(** The same for functions without a store. *)
Fixpoint while {A} (fuel : nat) (cond : A → bool) (body : A → option A) (a : A)
    : option A :=
  match fuel with
  | 0 => None
  | S n => if cond a then a' ← body a; while n cond body a' else Some a
  end.

(** [for(i = lo; i < lo+n; i += 1)] over local variables [a]. *)
Fixpoint for_range {A} (n : nat) (lo : Z) (body : Z → A → option A) (a : A)
    : option A :=
  match n with
  | 0 => Some a
  | S n' => a' ← body lo a; for_range n' (lo + 1)%Z body a'
  end.

(** A loop of tests in which the first test that fails makes the function
    return: [Some true] when every test passed. *)
Fixpoint all_range (n : nat) (lo : Z) (test : Z → option bool) : option bool :=
  match n with
  | 0 => Some true
  | S n' => b ← test lo; if (b : bool) then all_range n' (lo + 1)%Z test else Some false
  end.

(** The same when the tests may change the store. *)
Fixpoint all_rangeM {S} (n : nat) (lo : Z) (test : Z → M S bool) : M S bool :=
  match n with
  | 0 => ret true
  | S n' => let! b := test lo in
            if (b : bool) then all_rangeM n' (lo + 1)%Z test else ret false
  end.

(** [for(i = lo; i < lo+n; i += 1)] whose body changes the store. *)
Fixpoint forM {S} (n : nat) (lo : Z) (body : Z → M S ()) : M S () :=
  match n with
  | 0 => ret ()
  | S n' => do! body lo in forM n' (lo + 1)%Z body
  end.

(** ** Machine integers: [size_t], [hsize_t] (64 bits, unsigned) *)

Definition u64 (z : Z) : Z := (z `mod` 2 ^ 64)%Z.
Definition is_u64 (z : Z) : Prop := (0 ≤ z < 2 ^ 64)%Z.
(** A value converted to [long long] or [hssize_t]. *)
Definition s64 (z : Z) : Z := ((z + 2 ^ 63) `mod` 2 ^ 64 - 2 ^ 63)%Z.

(** ** Arrays: reads and writes out of range are undefined behaviour *)

Definition arr_get {A} (l : list A) (i : Z) : option A :=
  if decide (0 ≤ i)%Z then l !! Z.to_nat i else None.
Definition arr_set {A} (l : list A) (i : Z) (x : A) : option (list A) :=
  if decide (0 ≤ i < Z.of_nat (length l))%Z then Some (<[Z.to_nat i := x]> l) else None.

(** ** Pointers *)

Abbreviation loc := positive (only parsing).
Abbreviation ptr := (option positive) (only parsing).

(** * Generic lemmas *)

Create HintDb hdf discriminated.

Lemma bind_Some {S A B} (m : M S A) (k : A → M S B) s a s' :
  m s = Some (a, s') → bind m k s = k a s'.
Proof. unfold bind. by intros ->. Qed.

Lemma whileM_S {S A} n cond (body : A → M S A) a :
  whileM (Datatypes.S n) cond body a =
    (let! c := cond a in if (c : bool) then let! a' := body a in whileM n cond body a' else ret a).
Proof. done. Qed.

Lemma u64_small z : is_u64 z → u64 z = z.
Proof. apply Z.mod_small. Qed.

Lemma u64_range z : is_u64 (u64 z).
Proof. apply Z.mod_pos_bound. lia. Qed.
#[export] Hint Resolve u64_range : hdf.

Lemma arr_get_nth {A} (l : list A) i :
  (0 ≤ i)%Z → arr_get l i = l !! Z.to_nat i.
Proof. intros. unfold arr_get. by rewrite decide_True by lia. Qed.

Lemma arr_get_total `{Inhabited A} (l : list A) i :
  (0 ≤ i < Z.of_nat (length l))%Z → arr_get l i = Some (l !!! Z.to_nat i).
Proof.
  intros. rewrite arr_get_nth by lia. apply list_lookup_lookup_total_lt. lia.
Qed.

Lemma arr_set_total {A} (l : list A) i x :
  (0 ≤ i < Z.of_nat (length l))%Z → arr_set l i x = Some (<[Z.to_nat i := x]> l).
Proof. intros. unfold arr_set. by rewrite decide_True. Qed.

(** A [for] loop keeps an invariant indexed by the loop variable. *)
Lemma for_range_inv {A} (P : Z → A → Prop) body n lo a :
  P lo a →
  (∀ i a, (lo ≤ i < lo + Z.of_nat n)%Z → P i a → ∃ a', body i a = Some a' ∧ P (i + 1)%Z a') →
  ∃ a', for_range n lo body a = Some a' ∧ P (lo + Z.of_nat n)%Z a'.
Proof.
  revert lo a. induction n as [|n IH]; intros lo a HP Hb; simpl.
  - exists a. by rewrite Z.add_0_r.
  - destruct (Hb lo a) as (a1 & -> & HP1); [lia|done|]. simpl.
    destruct (IH (lo + 1)%Z a1) as (a2 & -> & HP2); [done| |].
    { intros i a' ? ?. apply Hb; [lia|done]. }
    exists a2. split; [done|]. by replace (lo + Z.of_nat (S n))%Z with (lo + 1 + Z.of_nat n)%Z by lia.
Qed.

(** Renaming the loop variable. *)
Lemma for_range_shift {A} n lo k (body body' : Z → A → option A) a :
  (∀ i a, (lo ≤ i)%Z → body (i + k)%Z a = body' i a) →
  for_range n (lo + k) body a = for_range n lo body' a.
Proof.
  revert lo a. induction n as [|n IH]; intros lo a Hb; simpl; [done|].
  rewrite Hb by lia. destruct (body' lo a) as [a'|]; [|done]. simpl.
  replace (lo + k + 1)%Z with (lo + 1 + k)%Z by lia. apply IH. intros. apply Hb. lia.
Qed.

(** A loop of tests decides the conjunction of what the tests decide. *)
Lemma all_range_spec (P : Z → Prop) test n lo :
  (∀ i, (lo ≤ i < lo + Z.of_nat n)%Z → ∃ b, test i = Some b ∧ (b = true ↔ P i)) →
  ∃ b, all_range n lo test = Some b ∧
       (b = true ↔ ∀ i, (lo ≤ i < lo + Z.of_nat n)%Z → P i).
Proof.
  revert lo. induction n as [|n IH]; intros lo Ht; simpl.
  - exists true. split; [done|]. split; [lia|done].
  - destruct (Ht lo) as ([] & -> & Hb); [lia| |]; simpl.
    + destruct (IH (lo + 1)%Z) as (b & -> & Hb'); [intros; apply Ht; lia|].
      exists b. split; [done|]. rewrite Hb'. split.
      * intros H i Hi. destruct (decide (i = lo)) as [->|]; [tauto|]. apply H. lia.
      * intros H i Hi. apply H. lia.
    + exists false. split; [done|]. split; [done|]. intros H.
      apply Hb, H. lia.
Qed.

(** ** Total-correctness triples for functions with a store

    [wp m Q s]: run from [s], [m] is defined, terminates and ends in a result
    and a store that satisfy [Q]. *)
Definition wp {S A} (m : M S A) (Q : A → S → Prop) (s : S) : Prop :=
  ∃ a s', m s = Some (a, s') ∧ Q a s'.

Lemma wp_intro {S A} (m : M S A) Q s a s' : m s = Some (a, s') → Q a s' → wp m Q s.
Proof. unfold wp. eauto. Qed.

Lemma wp_run {S A} (m : M S A) Q s a s' : wp m Q s → m s = Some (a, s') → Q a s'.
Proof. intros (a' & s2 & E & HQ) E'. rewrite E in E'. by injection E' as -> ->. Qed.

Lemma wp_mono {S A} (m : M S A) (Q Q' : A → S → Prop) s :
  wp m Q s → (∀ a s', Q a s' → Q' a s') → wp m Q' s.
Proof. intros (a & s' & ? & ?) ?. exists a, s'. auto. Qed.

Lemma wp_ret {S A} (a : A) (Q : A → S → Prop) s : Q a s → wp (ret a) Q s.
Proof. intros. by exists a, s. Qed.

Lemma wp_bind {S A B} (m : M S A) (k : A → M S B) Q s :
  wp m (λ a s', wp (k a) Q s') s → wp (bind m k) Q s.
Proof.
  intros (a & s' & Hm & b & s'' & Hk & HQ). exists b, s''. split; [|done].
  unfold bind. by rewrite Hm.
Qed.

Lemma wp_bind_inv {S A B} (m : M S A) (k : A → M S B) Q (s : S) :
  wp (bind m k) Q s → wp m (λ a s', wp (k a) Q s') s.
Proof.
  intros (b & s' & Hm & HQ). unfold bind in Hm. destruct (m s) as [[a s1]|] eqn:E; [|done].
  exists a, s1. split; [done|]. by exists b, s'.
Qed.

Lemma wp_gets {S A} (f : S → A) (Q : A → S → Prop) s : Q (f s) s → wp (gets f) Q s.
Proof. intros. by exists (f s), s. Qed.

Lemma wp_modify {S} (f : S → S) (Q : () → S → Prop) s : Q () (f s) → wp (modify f) Q s.
Proof. intros. by exists (), (f s). Qed.

Lemma wp_lift {S A} (o : option A) a (Q : A → S → Prop) s :
  o = Some a → Q a s → wp (lift o) Q s.
Proof. intros -> ?. by exists a, s. Qed.

Lemma wp_when {S} (b : bool) (m : M S ()) Q s :
  (b = true → wp m Q s) → (b = false → Q () s) → wp (when b m) Q s.
Proof. destruct b; simpl; intros ? ?; [auto|apply wp_ret; auto]. Qed.

Lemma wp_assert {S} (b : bool) (Q : () → S → Prop) s : b = true → Q () s → wp (assertM b) Q s.
Proof. intros -> ?. by apply wp_ret. Qed.

(** A [while] loop under an invariant and a measure below the fuel. *)
Lemma wp_whileM {S A} (I : A → S → Prop) (mes : A → S → nat) cond body
    (Q : A → S → Prop) fuel a s :
  (∀ a s, I a s →
     wp (cond a) (λ c s', if (c : bool)
       then wp (body a) (λ a' s'', I a' s'' ∧ mes a' s'' < mes a s) s' else Q a s') s) →
  I a s → mes a s < fuel → wp (whileM fuel cond body a) Q s.
Proof.
  intros Hstep. revert a s. induction fuel as [|n IH]; intros a s HI Hm; [lia|]. simpl.
  apply wp_bind. eapply wp_mono; [by apply Hstep|]. intros [] s' Hc; simpl.
  - apply wp_bind. eapply wp_mono; [exact Hc|]. intros a' s'' [HI' ?]. apply IH; [done|lia].
  - by apply wp_ret.
Qed.

(** A [for] loop keeps an invariant indexed by the loop variable. *)
Lemma wp_forM {S} (I : Z → S → Prop) n lo (body : Z → M S ()) (Q : () → S → Prop) s :
  (∀ i s, (lo ≤ i < lo + Z.of_nat n)%Z → I i s → wp (body i) (λ _ s', I (i + 1)%Z s') s) →
  I lo s → (∀ s', I (lo + Z.of_nat n)%Z s' → Q () s') → wp (forM n lo body) Q s.
Proof.
  revert lo s. induction n as [|n IH]; intros lo s Hb HI HQ; simpl.
  - apply wp_ret, HQ. by rewrite Z.add_0_r.
  - apply wp_bind. eapply wp_mono; [apply Hb; [lia|done]|]. intros [] s' HI'. apply IH; [|done|].
    + intros i s2 Hi. apply Hb. lia.
    + intros s2 HI2. apply HQ. by replace (lo + Z.of_nat (Datatypes.S n))%Z with (lo + 1 + Z.of_nat n)%Z by lia.
Qed.

(** The pure [while] loop. *)
Lemma while_inv {A} (I : A → Prop) (mes : A → nat) cond body fuel a :
  (∀ a, I a → cond a = true → ∃ a', body a = Some a' ∧ I a' ∧ mes a' < mes a) →
  I a → mes a < fuel →
  ∃ a', while fuel cond body a = Some a' ∧ I a' ∧ cond a' = false.
Proof.
  intros Hstep. revert a. induction fuel as [|n IH]; intros a HI Hm; [lia|]. simpl.
  destruct (cond a) eqn:Hc; [|by eauto].
  destruct (Hstep a HI Hc) as (a' & -> & HI' & ?). simpl. apply IH; [done|lia].
Qed.

(** Steps through a function: binds, reads and writes of the store. *)
Ltac wp_step :=
  lazymatch goal with
  | |- wp (bind _ _) _ _ => apply wp_bind
  | |- wp (ret _) _ _ => apply wp_ret
  | |- wp (gets _) _ _ => apply wp_gets
  | |- wp (modify _) _ _ => apply wp_modify
  | |- wp (lift (Some _)) _ _ => eapply wp_lift; [reflexivity|]
  end.
Ltac wp_steps := repeat (wp_step; simpl).

(** An equation that the virtual machine decides, without writing out the
    normal forms of its sides. *)
Ltac by_vm := match goal with |- _ = ?x => vm_cast_no_check (eq_refl x) end.

(** ** Heaps

    The structs of one type that a component allocates live in a finite map
    from addresses to struct values, a field of the component's store.  Reading,
    writing or freeing through a null or dangling pointer is undefined
    behaviour; [malloc] returns an unused address (it is assumed not to fail,
    as the code assumes). *)
Record heap_of (S V : Type) := HeapOf {
  heap_get : S → gmap positive V;
  heap_put : gmap positive V → S → S;
}.
Arguments HeapOf {S V} _ _.
Arguments heap_get {S V} _ _.
Arguments heap_put {S V} _ _ _.

Section heap.
Context {S V : Type} (H : heap_of S V).

Definition load (p : ptr) : M S V :=
  λ s, match p with
       | Some a => match heap_get H s !! a with Some v => Some (v, s) | None => None end
       | None => None
       end.
Definition store (p : ptr) (f : V → V) : M S () :=
  λ s, match p with
       | Some a => match heap_get H s !! a with
                   | Some v => Some ((), heap_put H (<[a := f v]> (heap_get H s)) s)
                   | None => None
                   end
       | None => None
       end.
Definition malloc (v : V) : M S loc :=
  λ s, let a := fresh (dom (heap_get H s)) in
       Some (a, heap_put H (<[a := v]> (heap_get H s)) s).
Definition free (p : ptr) : M S () :=
  λ s, match p with
       | Some a => match heap_get H s !! a with
                   | Some _ => Some ((), heap_put H (delete a (heap_get H s)) s)
                   | None => None
                   end
       | None => None
       end.

Lemma wp_load a v (Q : V → S → Prop) s :
  heap_get H s !! a = Some v → Q v s → wp (load (Some a)) Q s.
Proof. intros Hv HQ. eapply wp_intro; [|exact HQ]. unfold load. by rewrite Hv. Qed.

Lemma wp_store a v f (Q : () → S → Prop) s :
  heap_get H s !! a = Some v →
  Q () (heap_put H (<[a := f v]> (heap_get H s)) s) → wp (store (Some a) f) Q s.
Proof. intros Hv HQ. eapply wp_intro; [|exact HQ]. unfold store. by rewrite Hv. Qed.

Lemma wp_malloc v (Q : loc → S → Prop) s :
  (∀ a, heap_get H s !! a = None → Q a (heap_put H (<[a := v]> (heap_get H s)) s)) →
  wp (malloc v) Q s.
Proof.
  intros HQ. eapply wp_intro; [done|]. apply HQ. apply not_elem_of_dom, is_fresh.
Qed.

Lemma wp_free a v (Q : () → S → Prop) s :
  heap_get H s !! a = Some v →
  Q () (heap_put H (delete a (heap_get H s)) s) → wp (free (Some a)) Q s.
Proof. intros Hv HQ. eapply wp_intro; [|exact HQ]. unfold free. by rewrite Hv. Qed.
End heap.

(** ** Sums over lists that are updated *)

Fixpoint total {A} (f : A → nat) (l : list A) : nat :=
  match l with [] => 0 | x :: l => f x + total f l end.

Lemma total_insert {A} (f : A → nat) l i x y :
  l !! i = Some x → total f (<[i := y]> l) + f x = total f l + f y.
Proof.
  revert i. induction l as [|z l IH]; intros [|i] Hi; simplify_eq/=; [lia|].
  specialize (IH i Hi). lia.
Qed.
Lemma total_lookup {A} (f : A → nat) l i x : l !! i = Some x → f x ≤ total f l.
Proof.
  revert i. induction l as [|z l IH]; intros [|i] Hi; simplify_eq/=; [lia|].
  specialize (IH i Hi). lia.
Qed.
Lemma total_pos {A} (f : A → nat) l : 0 < total f l → ∃ i x, l !! i = Some x ∧ 0 < f x.
Proof.
  induction l as [|z l IH]; simpl; [lia|]. intros Hl.
  destruct (decide (0 < f z)); [by exists 0, z|]. destruct IH as (i & x & ? & ?); [lia|]. by exists (S i), x.
Qed.

(** ** Parts of a store

    A component that is a field of a larger store runs on its part. *)
Definition zoom {S T A} (get : S → T) (put : T → S → S) (m : M T A) : M S A :=
  λ s, match m (get s) with Some (a, t) => Some (a, put t s) | None => None end.

Lemma wp_zoom {S T A} (get : S → T) (put : T → S → S) (m : M T A) Q s :
  wp m (λ a t, Q a (put t s)) (get s) → wp (zoom get put m) Q s.
Proof. intros (a & t & Hm & HQ). exists a, (put t s). split; [|done]. unfold zoom. by rewrite Hm. Qed.
