(* ===== verification/Select.v ===== *)
(** * Dataspace selections (src/src/hdf5/select.c)

    The HDF5 dataspace functions the code calls are the class [H5Space]; what
    the code relies on is [H5SpaceLaws], which describes the documented effect
    of each call on the table of open dataspaces.  Every call may fail. *)
From stdpp Require Import base tactics numbers list gmap propset.
From Equations Require Import Equations.
From S2P Require Import Prelude.

(** ** The interface to the HDF5 library *)

Class H5Space := {
  h5 : Type;
  H5Scopy : Z → h5 → Z * h5;
  H5Sclose : Z → h5 → Z * h5;
  H5Sselect_none : Z → h5 → Z * h5;
  H5Sselect_all : Z → h5 → Z * h5;
  (** [H5Sselect_hyperslab(id, H5S_SELECT_OR, start, NULL, count, NULL)] *)
  H5Sselect_hyperslab_or : Z → list Z → list Z → h5 → Z * h5;
  (** [H5Scombine_select(a, H5S_SELECT_OR, b)] *)
  H5Scombine_select_or : Z → Z → h5 → Z * h5;
  H5Sselect_copy : Z → Z → h5 → Z * h5;
  H5Sget_select_npoints : Z → h5 → Z;
  H5Sget_simple_extent_ndims : Z → h5 → Z;
}.

(** The points of a hyperslab: one interval per dimension. *)
Definition slab (start count : list Z) : propset (list Z) :=
  {[ p | Forall2 (λ x sc, (sc.1 ≤ x < sc.1 + sc.2)%Z) p (zip start count) ]}.

Class H5SpaceLaws `{H5Space} := {
  space : Type;
  extent : space → list Z;
  points : space → propset (list Z);
  (** the dataspaces that are open *)
  spaces : h5 → gmap Z space;
  H5Scopy_law s id sp : spaces s !! id = Some sp →
    let '(r, s') := H5Scopy id s in
    ((r < 0)%Z ∧ spaces s' = spaces s) ∨
    ((0 ≤ r)%Z ∧ spaces s !! r = None ∧ spaces s' = <[r := sp]> (spaces s));
  H5Sclose_law s id sp : spaces s !! id = Some sp →
    spaces (H5Sclose id s).2 = delete id (spaces s);
  H5Sselect_none_law s id sp : spaces s !! id = Some sp →
    let '(r, s') := H5Sselect_none id s in
    ∃ sp', spaces s' = <[id := sp']> (spaces s) ∧ extent sp' = extent sp ∧
           ((0 ≤ r)%Z → points sp' ≡ ∅);
  H5Sselect_all_law s id sp : spaces s !! id = Some sp →
    let '(r, s') := H5Sselect_all id s in
    ∃ sp', spaces s' = <[id := sp']> (spaces s) ∧ extent sp' = extent sp ∧
           ((0 ≤ r)%Z → points sp' ≡ slab (replicate (length (extent sp)) 0%Z) (extent sp));
  H5Sselect_hyperslab_law s id sp start count : spaces s !! id = Some sp →
    let n := length (extent sp) in
    let '(r, s') := H5Sselect_hyperslab_or id start count s in
    ∃ sp', spaces s' = <[id := sp']> (spaces s) ∧ extent sp' = extent sp ∧
           ((0 ≤ r)%Z → points sp' ≡ points sp ∪ slab (take n start) (take n count));
  H5Scombine_select_law s a b spa spb :
    spaces s !! a = Some spa → spaces s !! b = Some spb →
    let '(r, s') := H5Scombine_select_or a b s in
    ((r < 0)%Z ∧ spaces s' = spaces s) ∨
    ((0 ≤ r)%Z ∧ spaces s !! r = None ∧
     ∃ sp', spaces s' = <[r := sp']> (spaces s) ∧ extent sp' = extent spa ∧
            points sp' ≡ points spa ∪ points spb);
  H5Sselect_copy_law s dst src spd sps :
    spaces s !! dst = Some spd → spaces s !! src = Some sps →
    let '(r, s') := H5Sselect_copy dst src s in
    ∃ sp', spaces s' = <[dst := sp']> (spaces s) ∧ extent sp' = extent spd ∧
           ((0 ≤ r)%Z → points sp' ≡ points sps);
  H5Sget_simple_extent_ndims_law s id sp : spaces s !! id = Some sp →
    H5Sget_simple_extent_ndims id s = Z.of_nat (length (extent sp));
}.

(** ** The functions of select.c

    The store is the state of the library with the arrays [start] and [count]
    the functions write to (entry 0 is filled in for every hyperslab). *)
Section select.
Context `{H5Space}.

Record sel_store := SelStore { lib : h5; start : list Z; count : list Z }.

Definition h5call {A} (f : h5 → A * h5) : M sel_store A :=
  λ s, let '(r, l) := f (lib s) in Some (r, SelStore l (start s) (count s)).

Definition set_first (s0 c0 : Z) : M sel_store () :=
  λ s, match arr_set (start s) 0 s0, arr_set (count s) 0 c0 with
       | Some st, Some ct => Some ((), SelStore (lib s) st ct)
       | _, _ => None
       end.

(** One iteration of the loops that add hyperslabs: the result of the call. *)
Definition or_slab (id : Z) (select_start select_count : list Z) (i : Z) : M sel_store Z :=
  let! s0 := lift (arr_get select_start i) in
  let! c0 := lift (arr_get select_count i) in
  do! set_first s0 c0 in
  let! st := gets start in
  let! ct := gets count in
  h5call (H5Sselect_hyperslab_or id st ct).
(** [false] is the early exit. *)
Definition add_slab (id : Z) (select_start select_count : list Z) (i : Z)
    : M sel_store bool :=
  let! err := or_slab id select_start select_count i in
  ret (negb (err <? 0)%Z).

(** The loop of [select_slices_direct], from [selection_nr] on. *)
Fixpoint or_slabs (id : Z) (select_start select_count : list Z) (n : nat) (selection_nr : Z)
    : M sel_store Z :=
  match n with
  | 0 => ret 0%Z
  | S n =>
      let! err := or_slab id select_start select_count selection_nr in
      if (err <? 0)%Z then ret err else or_slabs id select_start select_count n (selection_nr + 1)%Z
  end.

Definition select_slices_direct (file_space_id nr_selections : Z)
    (select_start select_count : list Z) : M sel_store Z :=
  let! err := h5call (H5Sselect_none file_space_id) in
  if (err <? 0)%Z then ret (-1)%Z else
  or_slabs file_space_id select_start select_count (Z.to_nat nr_selections) 0.

(** The [cleanup:] label of [select_slices_recursive]. *)
Definition close_if (id : Z) : M sel_store () :=
  when (0 <=? id)%Z (let! _ := h5call (H5Sclose id) in ret ()).
Definition cleanup (result left right : Z) : M sel_store Z :=
  do! close_if result in do! close_if left in do! close_if right in ret (-1)%Z.

Equations? select_slices_recursive (file_space_id first_selection nr_selections : Z)
    (select_start select_count : list Z) : M sel_store Z
    by wf (Z.to_nat nr_selections) lt :=
select_slices_recursive file_space_id first_selection nr_selections select_start select_count
  with Z_le_dec nr_selections 8 => {
  | left _ =>
      let! result := h5call (H5Scopy file_space_id) in
      if (result <? 0)%Z then cleanup result (-1) (-1) else
      let! err := h5call (H5Sselect_none result) in
      if (err <? 0)%Z then cleanup result (-1) (-1) else
      let! ok := all_rangeM (Z.to_nat nr_selections) first_selection
                   (add_slab result select_start select_count) in
      if (ok : bool) then ret result else cleanup result (-1) (-1)
  | right _ =>
      let nr_left := (nr_selections / 2)%Z in
      let nr_right := (nr_selections - nr_left)%Z in
      let! space_left := select_slices_recursive file_space_id first_selection nr_left
                           select_start select_count in
      if (space_left <? 0)%Z then cleanup (-1) space_left (-1) else
      let! space_right := select_slices_recursive file_space_id (first_selection + nr_left)
                            nr_right select_start select_count in
      if (space_right <? 0)%Z then cleanup (-1) space_left space_right else
      let! result := h5call (H5Scombine_select_or space_left space_right) in
      if (result <? 0)%Z then cleanup result space_left space_right else
      let! _ := h5call (H5Sclose space_left) in
      let! _ := h5call (H5Sclose space_right) in
      ret result }.
Proof.
  all: assert (nr_selections `div` 2 < nr_selections)%Z by (apply Z.div_lt; lia).
  all: assert (0 < nr_selections `div` 2)%Z by (apply Z.div_str_pos; lia).
  all: subst nr_left; try subst nr_right; lia.
Defined.

(** The number of points the debug build expects:
    the sum of [select_count] times [count[i]] for the other dimensions, each
    step computed in [hsize_t] and converted to [hssize_t]. *)
Definition nr_expected (ndims nr_selections : Z) (select_count count : list Z) : option Z :=
  n ← for_range (Z.to_nat nr_selections) 0 (λ i n, c ← arr_get select_count i; Some (s64 (n + c))) 0%Z;
  for_range (Z.to_nat (ndims - 1)) 1 (λ i n, c ← arr_get count i; Some (s64 (n * c))) n.

(** [debug] is the build without NDEBUG. *)
Definition select_slices (debug : bool) (file_space_id nr_selections : Z)
    (select_start select_count : list Z) : M sel_store Z :=
  let! dspace_id := select_slices_recursive file_space_id 0 nr_selections
                      select_start select_count in
  if (dspace_id <? 0)%Z then ret (-1)%Z else
  let! err := h5call (H5Sselect_copy file_space_id dspace_id) in
  let! _ := h5call (H5Sclose dspace_id) in
  if debug then
    let! npoints := gets (λ s, H5Sget_select_npoints file_space_id (lib s)) in
    let! rank := gets (λ s, H5Sget_simple_extent_ndims file_space_id (lib s)) in
    let! ct := gets count in
    let! expected := lift (nr_expected rank nr_selections select_count ct) in
    if (expected =? npoints)%Z then ret err else ret (-1)%Z
  else ret err.


(** ** Lemmas *)
Section laws.
Context `{!H5SpaceLaws}.

(** The points of a list of slabs that differ in the first dimension only. *)
Definition slabs (n : nat) (st ct : list Z) (l : list (Z * Z)) : propset (list Z) :=
  {[ p | ∃ sc, sc ∈ l ∧ p ∈ slab (take n (sc.1 :: tail st)) (take n (sc.2 :: tail ct)) ]}.

Lemma slabs_nil n st ct : slabs n st ct [] ≡ ∅.
Proof. set_solver. Qed.
Lemma slabs_app n st ct l1 l2 :
  slabs n st ct (l1 ++ l2) ≡ slabs n st ct l1 ∪ slabs n st ct l2.
Proof. set_solver. Qed.
Lemma slabs_singleton n st ct a b :
  slabs n st ct [(a, b)] ≡ slab (take n (a :: tail st)) (take n (b :: tail ct)).
Proof. set_solver. Qed.

Definition same_tail (s s' : sel_store) : Prop :=
  tail (start s') = tail (start s) ∧ tail (count s') = tail (count s) ∧
  start s' ≠ [] ∧ count s' ≠ [].

Lemma same_tail_trans s1 s2 s3 : same_tail s1 s2 → same_tail s2 s3 → same_tail s1 s3.
Proof. unfold same_tail. intuition congruence. Qed.

(** A library call changes the library only. *)
Lemma wp_h5call {A} (f : h5 → A * h5) (Q : A → sel_store → Prop) s :
  (∀ r l, f (lib s) = (r, l) → Q r (SelStore l (start s) (count s))) → wp (h5call f) Q s.
Proof. intros HQ. unfold wp, h5call. destruct (f (lib s)) as [r l]. eauto. Qed.

Lemma wp_or_slab id sp ss sc i Q s a b :
  spaces (lib s) !! id = Some sp → start s ≠ [] → count s ≠ [] →
  arr_get ss i = Some a → arr_get sc i = Some b →
  (∀ err s' sp', same_tail s s' → spaces (lib s') = <[id := sp']> (spaces (lib s)) →
     extent sp' = extent sp →
     ((0 ≤ err)%Z → points sp' ≡ points sp ∪
        slabs (length (extent sp)) (start s) (count s) [(a, b)]) → Q err s') →
  wp (or_slab id ss sc i) Q s.
Proof.
  intros Hid Hst Hct Ha Hb HQ. unfold or_slab.
  destruct s as [l st ct]; simpl in *.
  destruct st as [|s0 st]; [done|]. destruct ct as [|c0 ct]; [done|].
  rewrite Ha, Hb. do 3 wp_step. wp_step. wp_step.
  eapply wp_intro; [reflexivity|]. do 4 wp_step. simpl.
  apply wp_h5call; simpl. intros r l' Hr.
  pose proof (H5Sselect_hyperslab_law _ _ _ (a :: st) (b :: ct) Hid) as Hlaw.
  simpl in Hlaw. rewrite Hr in Hlaw. destruct Hlaw as (sp' & Hsp & Hext & Hpt).
  eapply HQ; [done|exact Hsp|done|]. intros Hok. rewrite slabs_singleton. by apply Hpt.
Qed.
Lemma wp_add_slab id sp ss sc i Q s a b :
  spaces (lib s) !! id = Some sp → start s ≠ [] → count s ≠ [] →
  arr_get ss i = Some a → arr_get sc i = Some b →
  (∀ ok s' sp', same_tail s s' → spaces (lib s') = <[id := sp']> (spaces (lib s)) →
     extent sp' = extent sp →
     (ok = true → points sp' ≡ points sp ∪
        slabs (length (extent sp)) (start s) (count s) [(a, b)]) → Q ok s') →
  wp (add_slab id ss sc i) Q s.
Proof.
  intros Hid Hst Hct Ha Hb HQ. unfold add_slab. wp_step. eapply wp_or_slab; [done..|].
  intros err s' sp' Ht Hsp He Hp. wp_step. eapply HQ; [done..|]. intros Hok%negb_true_iff. apply Hp. lia.
Qed.

(** The pairs [select_start[i], select_count[i]] for [k <= i < k+n]. *)
Definition sel_pairs (ss sc : list Z) (k n : nat) : list (Z * Z) := take n (drop k (zip ss sc)).

Lemma sel_pairs_S ss sc k n a b :
  ss !! k = Some a → sc !! k = Some b →
  sel_pairs ss sc k (S n) = (a, b) :: sel_pairs ss sc (S k) n.
Proof.
  intros Ha Hb. unfold sel_pairs. rewrite (drop_S _ (a, b)); [done|].
  by rewrite lookup_zip_with, Ha, Hb.
Qed.

Lemma sel_pairs_add ss sc k n m :
  sel_pairs ss sc k (n + m) = sel_pairs ss sc k n ++ sel_pairs ss sc (k + n) m.
Proof. unfold sel_pairs. by rewrite <- drop_drop, take_take_drop. Qed.

Lemma wp_add_slabs id ss sc n k sp Q s :
  spaces (lib s) !! id = Some sp → start s ≠ [] → count s ≠ [] →
  k + n ≤ length ss → k + n ≤ length sc →
  (∀ ok s' sp', same_tail s s' → spaces (lib s') = <[id := sp']> (spaces (lib s)) →
     extent sp' = extent sp →
     (ok = true → points sp' ≡ points sp ∪
        slabs (length (extent sp)) (start s) (count s) (sel_pairs ss sc k n)) → Q ok s') →
  wp (all_rangeM n (Z.of_nat k) (add_slab id ss sc)) Q s.
Proof.
  revert k sp s. induction n as [|n IH]; intros k sp s Hid Hst Hct Hs Hc HQ; simpl.
  - wp_step. eapply (HQ true s sp); [done|by rewrite insert_id|done|].
    intros _. unfold sel_pairs. rewrite slabs_nil. set_solver.
  - destruct (lookup_lt_is_Some_2 ss k) as [a Ha]; [lia|].
    destruct (lookup_lt_is_Some_2 sc k) as [b Hb]; [lia|].
    wp_step. eapply wp_add_slab; [done|done|done| | |].
    1,2: rewrite arr_get_nth by lia; rewrite Nat2Z.id; eassumption.
    intros ok s1 sp1 Ht1 Hsp1 He1 Hp1. destruct ok; last first.
    { wp_step. by eapply HQ. }
    replace (Z.of_nat k + 1)%Z with (Z.of_nat (S k)) by lia.
    eapply (IH (S k) sp1 s1); [|apply Ht1|apply Ht1|lia|lia|].
    { rewrite Hsp1. apply lookup_insert_eq. }
    intros ok s2 sp2 Ht2 Hsp2 He2 Hp2.
    eapply (HQ ok s2 sp2); [by eapply same_tail_trans| |congruence|].
    { by rewrite Hsp2, Hsp1, insert_insert_eq. }
    intros Hok. rewrite (Hp2 Hok), (Hp1 eq_refl), (sel_pairs_S _ _ _ _ a b) by done.
    rewrite He1. destruct Ht1 as (Ht1 & Ht1' & _).
    unfold slabs. rewrite Ht1, Ht1'. set_solver.
Qed.

Lemma wp_or_slabs id ss sc n k sp Q s :
  spaces (lib s) !! id = Some sp → start s ≠ [] → count s ≠ [] →
  k + n ≤ length ss → k + n ≤ length sc →
  (∀ r s' sp', same_tail s s' → spaces (lib s') = <[id := sp']> (spaces (lib s)) →
     extent sp' = extent sp →
     ((0 ≤ r)%Z → points sp' ≡ points sp ∪
        slabs (length (extent sp)) (start s) (count s) (sel_pairs ss sc k n)) → Q r s') →
  wp (or_slabs id ss sc n (Z.of_nat k)) Q s.
Proof.
  revert k sp s. induction n as [|n IH]; intros k sp s Hid Hst Hct Hs Hc HQ; simpl.
  - wp_step. eapply (HQ 0%Z s sp); [done|by rewrite insert_id|done|].
    intros _. unfold sel_pairs. rewrite slabs_nil. set_solver.
  - destruct (lookup_lt_is_Some_2 ss k) as [a Ha]; [lia|].
    destruct (lookup_lt_is_Some_2 sc k) as [b Hb]; [lia|].
    wp_step. eapply wp_or_slab; [done|done|done| | |].
    1,2: rewrite arr_get_nth by lia; rewrite Nat2Z.id; eassumption.
    intros err s1 sp1 Ht1 Hsp1 He1 Hp1. destruct (Z.ltb_spec err 0).
    { wp_step. eapply HQ; [done..|lia]. }
    replace (Z.of_nat k + 1)%Z with (Z.of_nat (S k)) by lia.
    eapply (IH (S k) sp1 s1); [|apply Ht1|apply Ht1|lia|lia|].
    { rewrite Hsp1. apply lookup_insert_eq. }
    intros r s2 sp2 Ht2 Hsp2 He2 Hp2.
    eapply (HQ r s2 sp2); [by eapply same_tail_trans| |congruence|].
    { by rewrite Hsp2, Hsp1, insert_insert_eq. }
    intros Hr. rewrite (Hp2 Hr), (Hp1 ltac:(done)), (sel_pairs_S _ _ _ _ a b) by done.
    rewrite He1. destruct Ht1 as (Ht1 & Ht1' & _).
    unfold slabs. rewrite Ht1, Ht1'. set_solver.
Qed.

Lemma wp_close id sp (Q : Z → sel_store → Prop) s :
  spaces (lib s) !! id = Some sp →
  (∀ r l, spaces l = delete id (spaces (lib s)) → Q r (SelStore l (start s) (count s))) →
  wp (h5call (H5Sclose id)) Q s.
Proof.
  intros Hid HQ. apply wp_h5call. intros r l Hr. apply HQ.
  pose proof (H5Sclose_law _ _ _ Hid) as Hlaw. by rewrite Hr in Hlaw.
Qed.

(** Closing "if the id is valid": the ids that are not are not open. *)
Definition close_id (id : Z) (m : gmap Z space) : gmap Z space :=
  if (0 <=? id)%Z then delete id m else m.

Lemma wp_close_if id (Q : () → sel_store → Prop) s :
  ((0 ≤ id)%Z → is_Some (spaces (lib s) !! id)) →
  (∀ l, spaces l = close_id id (spaces (lib s)) → Q () (SelStore l (start s) (count s))) →
  wp (close_if id) Q s.
Proof.
  intros Hid HQ. unfold close_if, close_id in *.
  destruct (0 <=? id)%Z eqn:E; simpl.
  - destruct Hid as [sp Hsp]; [lia|]. wp_step.
    eapply wp_close; [done|]. intros r l Hl. wp_step. by apply HQ.
  - wp_step. destruct s. by apply HQ.
Qed.

Lemma wp_cleanup a b c (Q : Z → sel_store → Prop) s :
  ((0 ≤ a)%Z → is_Some (spaces (lib s) !! a)) →
  ((0 ≤ b)%Z → is_Some (close_id a (spaces (lib s)) !! b)) →
  ((0 ≤ c)%Z → is_Some (close_id b (close_id a (spaces (lib s))) !! c)) →
  (∀ l, spaces l = close_id c (close_id b (close_id a (spaces (lib s)))) →
     Q (-1)%Z (SelStore l (start s) (count s))) →
  wp (cleanup a b c) Q s.
Proof.
  intros Ha Hb Hc HQ. unfold cleanup.
  wp_step. apply wp_close_if; [done|]. intros l1 H1; simpl.
  wp_step. apply wp_close_if; simpl; [by rewrite H1|]. intros l2 H2; simpl.
  wp_step. apply wp_close_if; simpl; [by rewrite H2, H1|]. intros l3 H3; simpl.
  wp_step. apply HQ. by rewrite H3, H2, H1.
Qed.

Lemma close_id_neg id m : (id < 0)%Z → close_id id m = m.
Proof. intros. unfold close_id. by replace (0 <=? id)%Z with false by lia. Qed.
Lemma close_id_fresh id sp m : m !! id = None → close_id id (<[id := sp]> m) = if (0 <=? id)%Z then m else <[id := sp]> m.
Proof. intros. unfold close_id. destruct (0 <=? id)%Z; [|done]. by rewrite delete_insert_id. Qed.

(** What [select_slices_recursive] promises: on success a new dataspace with
    the union of the slabs, on failure no dataspace is left open. *)
Definition opened (s s' : sel_store) (sp : space) (P : propset (list Z)) (r : Z) : Prop :=
  same_tail s s' ∧
  (((r < 0)%Z ∧ spaces (lib s') = spaces (lib s)) ∨
   ((0 ≤ r)%Z ∧ spaces (lib s) !! r = None ∧
    ∃ sp', spaces (lib s') = <[r := sp']> (spaces (lib s)) ∧ extent sp' = extent sp ∧
           points sp' ≡ P)).

Lemma select_leaf_spec id sp ss sc k n (Q : Z → sel_store → Prop) s :
  spaces (lib s) !! id = Some sp → start s ≠ [] → count s ≠ [] →
  k + n ≤ length ss → k + n ≤ length sc →
  (∀ r s', opened s s' sp (slabs (length (extent sp)) (start s) (count s) (sel_pairs ss sc k n)) r →
     Q r s') →
  wp (let! result := h5call (H5Scopy id) in
      if (result <? 0)%Z then cleanup result (-1) (-1) else
      let! err := h5call (H5Sselect_none result) in
      if (err <? 0)%Z then cleanup result (-1) (-1) else
      let! ok := all_rangeM n (Z.of_nat k) (add_slab result ss sc) in
      if (ok : bool) then ret result else cleanup result (-1) (-1)) Q s.
Proof.
  intros Hid Hst Hct Hs Hc HQ.
  wp_step. apply wp_h5call. intros r l Hr.
  pose proof (H5Scopy_law _ _ _ Hid) as Hl. rewrite Hr in Hl.
  destruct Hl as [[Hneg Hl]|(Hpos & Hfr & Hl)].
  { replace (r <? 0)%Z with true by lia.
    apply wp_cleanup; simpl; [lia..|]. intros l' Hl'. rewrite !close_id_neg in Hl' by lia.
    apply HQ. split; [done|]. left. split; [lia|]. simpl. congruence. }
  replace (r <? 0)%Z with false by lia.
  assert (Hfail : ∀ l1 st ct sp1 (Q' : Z → sel_store → Prop),
    same_tail s (SelStore l1 st ct) → spaces l1 = <[r := sp1]> (spaces (lib s)) →
    wp (cleanup r (-1) (-1)) Q (SelStore l1 st ct)).
  { intros l1 st ct sp1 _ Htl Hsp1. apply wp_cleanup; simpl; [|lia..|].
    - intros _. rewrite Hsp1, lookup_insert_eq. eauto.
    - intros l' Hl'. rewrite !(close_id_neg (-1)) in Hl' by lia.
      rewrite Hsp1, close_id_fresh in Hl' by done.
      replace (0 <=? r)%Z with true in Hl' by lia.
      apply HQ. split; [done|]. left. split; [lia|]. done. }
  wp_step. apply wp_h5call; simpl. intros e l1 He.
  pose proof (H5Sselect_none_law l r sp) as Hl1. rewrite He, Hl in Hl1.
  destruct Hl1 as (sp1 & Hl1 & Hext1 & Hpt1); [apply lookup_insert_eq|].
  rewrite insert_insert_eq in Hl1.
  destruct (e <? 0)%Z eqn:Ee; [by eapply Hfail|].
  wp_step. eapply (wp_add_slabs r ss sc n k sp1); simpl;
    [rewrite Hl1; apply lookup_insert_eq|done..|].
  intros ok s2 sp2 Ht2 Hsp2 He2 Hp2. rewrite Hl1, insert_insert_eq in Hsp2.
  destruct ok.
  - wp_step. apply HQ. split; [done|]. right. split; [lia|]. split; [done|].
    exists sp2. split; [done|]. split; [congruence|].
    rewrite (Hp2 eq_refl), Hpt1, Hext1 by lia. set_solver.
  - destruct s2. eapply (Hfail _ _ _ _ Q); [done|exact Hsp2].
Qed.

Ltac solve_spaces :=
  repeat match goal with E : spaces ?l = _ |- _ => rewrite E; clear E end;
  unfold close_id;
  repeat match goal with |- context [(0 <=? ?r)%Z] =>
    first [replace (0 <=? r)%Z with true by lia | replace (0 <=? r)%Z with false by lia] end;
  apply map_eq; intros i; rewrite ?lookup_delete, ?lookup_insert, ?lookup_delete, ?lookup_insert;
  repeat case_decide; simplify_map_eq; try done; try congruence.

(** The recursive branch, from what the two halves promise. *)
Lemma select_node_spec (left right : M sel_store Z) id sp P1 P2 (Q : Z → sel_store → Prop) s :
  spaces (lib s) !! id = Some sp → start s ≠ [] → count s ≠ [] →
  (∀ s1 Q', spaces (lib s1) !! id = Some sp → start s1 ≠ [] → count s1 ≠ [] →
     same_tail s s1 → (∀ r s', opened s1 s' sp P1 r → Q' r s') → wp left Q' s1) →
  (∀ s1 Q', spaces (lib s1) !! id = Some sp → start s1 ≠ [] → count s1 ≠ [] →
     same_tail s s1 → (∀ r s', opened s1 s' sp P2 r → Q' r s') → wp right Q' s1) →
  (∀ r s', opened s s' sp (P1 ∪ P2) r → Q r s') →
  wp (let! space_left := left in
      if (space_left <? 0)%Z then cleanup (-1) space_left (-1) else
      let! space_right := right in
      if (space_right <? 0)%Z then cleanup (-1) space_left space_right else
      let! result := h5call (H5Scombine_select_or space_left space_right) in
      if (result <? 0)%Z then cleanup result space_left space_right else
      let! _ := h5call (H5Sclose space_left) in
      let! _ := h5call (H5Sclose space_right) in
      ret result) Q s.
Proof.
  intros Hid Hst Hct Hleft Hright HQ.
  wp_step. eapply Hleft; [done..|]. intros rl s1 (Ht1 & Hr1).
  destruct Hr1 as [[Hn1 Hs1]|(Hp1 & Hf1 & spl & Hs1 & He1 & Hpt1)].
  { replace (rl <? 0)%Z with true by lia. apply wp_cleanup; [lia..|].
    intros l Hl. rewrite !close_id_neg in Hl by lia.
    apply HQ. split; [done|]. left. split; [lia|]. simpl. congruence. }
  replace (rl <? 0)%Z with false by lia.
  assert (id ≠ rl) by congruence.
  wp_step. eapply Hright; [rewrite Hs1; by simplify_map_eq|apply Ht1|apply Ht1|done|].
  intros rr s2 (Ht2 & Hr2).
  assert (same_tail s s2) as Ht by (by eapply same_tail_trans).
  destruct Hr2 as [[Hn2 Hs2]|(Hp2 & Hf2 & spr & Hs2 & He2 & Hpt2)].
  { replace (rr <? 0)%Z with true by lia. apply wp_cleanup; [lia| |lia|].
    - intros _. rewrite close_id_neg, Hs2, Hs1, lookup_insert_eq by lia. eauto.
    - intros l Hl. apply HQ. split; [done|]. left. split; [lia|]. simpl.
      rewrite Hl, Hs2, (close_id_neg rr), (close_id_neg (-1)) by lia. solve_spaces. }
  replace (rr <? 0)%Z with false by lia.
  assert (rl ≠ rr) by (intros ->; rewrite Hs1, lookup_insert_eq in Hf2; done).
  rewrite Hs1, lookup_insert_ne in Hf2 by done.
  wp_step. apply wp_h5call. intros r l3 Hr3.
  pose proof (H5Scombine_select_law (lib s2) rl rr spl spr) as Hlaw. rewrite Hr3 in Hlaw.
  destruct Hlaw as [[Hn3 Hs3]|(Hp3 & Hf3 & spc & Hs3 & He3 & Hpt3)];
    [rewrite Hs2, Hs1; by simplify_map_eq|rewrite Hs2, Hs1; by simplify_map_eq| |].
  - replace (r <? 0)%Z with true by lia. apply wp_cleanup; simpl; [lia|..].
    + intros _. rewrite (close_id_neg r), Hs3, Hs2, Hs1 by lia. simplify_map_eq. eauto.
    + intros _. rewrite (close_id_neg r), Hs3, Hs2, Hs1 by lia. unfold close_id.
      replace (0 <=? rl)%Z with true by lia. simplify_map_eq. eauto.
    + intros l Hl. apply HQ. split; [done|]. left. split; [lia|]. simpl.
      rewrite Hl, (close_id_neg r) by lia. solve_spaces.
  - replace (r <? 0)%Z with false by lia.
    rewrite Hs2, Hs1 in Hf3. apply lookup_insert_None in Hf3 as [Hf3 Hne3].
    apply lookup_insert_None in Hf3 as [Hf3 Hne3'].
    wp_step. eapply wp_close; simpl; [rewrite Hs3, Hs2, Hs1; by simplify_map_eq|].
    intros _ l4 Hs4. wp_step. eapply wp_close; simpl;
      [rewrite Hs4, Hs3, Hs2, Hs1; by simplify_map_eq|].
    intros _ l5 Hs5. wp_step. apply HQ. split; [done|]. right. split; [lia|]. split; [done|].
    exists spc. split; [simpl; solve_spaces|]. split; [congruence|].
    by rewrite Hpt3, Hpt1, Hpt2.
Qed.

Lemma select_slices_recursive_spec id sp ss sc n k (Q : Z → sel_store → Prop) s :
  spaces (lib s) !! id = Some sp → start s ≠ [] → count s ≠ [] →
  k + n ≤ length ss → k + n ≤ length sc →
  (∀ r s', opened s s' sp (slabs (length (extent sp)) (start s) (count s) (sel_pairs ss sc k n)) r →
     Q r s') →
  wp (select_slices_recursive id (Z.of_nat k) (Z.of_nat n) ss sc) Q s.
Proof.
  revert k Q s. induction (lt_wf n) as [n _ IH]. intros k Q s Hid Hst Hct Hs Hc HQ.
  rewrite select_slices_recursive_equation_1.
  destruct (Z_le_dec (Z.of_nat n) 8) as [Hn|Hn]; simpl.
  - rewrite Nat2Z.id. by eapply select_leaf_spec.
  - assert (Z.of_nat n `div` 2 = Z.of_nat (n / 2))%Z as -> by (rewrite Nat2Z.inj_div; done).
    assert (n / 2 < n) by (apply Nat.div_lt; lia).
    assert (0 < n / 2) by (apply Nat.div_str_pos; lia).
    rewrite <- Nat2Z.inj_sub, <- Nat2Z.inj_add by lia.
    eapply (select_node_spec _ _ id sp
      (slabs (length (extent sp)) (start s) (count s) (sel_pairs ss sc k (n / 2)))
      (slabs (length (extent sp)) (start s) (count s) (sel_pairs ss sc (k + n / 2) (n - n / 2))));
      [done..| | |].
    1,2: intros s1 Q' Hid1 Hst1 Hct1 (Ht1 & Ht1' & _) HQ'; apply IH; [lia|done..|lia|lia|];
      unfold slabs; rewrite Ht1, Ht1'; apply HQ'.
    intros r s' Ho. apply HQ.
    assert (sel_pairs ss sc k n =
      sel_pairs ss sc k (n / 2) ++ sel_pairs ss sc (k + n / 2) (n - n / 2)) as ->
      by (rewrite <- sel_pairs_add; f_equal; lia).
    unfold opened in *. setoid_rewrite slabs_app. done.
Qed.

Lemma nr_expected_defined ndims n ss ct :
  (Z.of_nat n ≤ Z.of_nat (length ss))%Z → (ndims ≤ Z.of_nat (length ct))%Z →
  is_Some (nr_expected ndims (Z.of_nat n) ss ct).
Proof.
  intros Hn Hd. unfold nr_expected. rewrite Nat2Z.id.
  destruct (for_range_inv (λ _ (_ : Z), True)
    (λ i m, c ← arr_get ss i; Some (s64 (m + c))) n 0 0%Z) as (m & -> & _); [done| |].
  { intros i a Hi _. rewrite arr_get_total by lia. simpl. eauto. }
  simpl. destruct (for_range_inv (λ _ (_ : Z), True)
    (λ i m, c ← arr_get ct i; Some (s64 (m * c))) (Z.to_nat (ndims - 1)) 1 m) as (m' & -> & _); [done| |done].
  intros i a Hi _. rewrite arr_get_total by lia. simpl. eauto.
Qed.

Lemma select_slices_wp debug id sp ss sc n s :
  spaces (lib s) !! id = Some sp → start s ≠ [] → count s ≠ [] →
  n ≤ length ss → n ≤ length sc → length (extent sp) ≤ length (count s) →
  wp (select_slices debug id (Z.of_nat n) ss sc)
     (λ r s', ∃ sp', spaces (lib s') = <[id := sp']> (spaces (lib s)) ∧ extent sp' = extent sp ∧
        same_tail s s' ∧ ((0 ≤ r)%Z → points sp' ≡
           slabs (length (extent sp)) (start s) (count s) (sel_pairs ss sc 0 n))) s.
Proof.
  intros Hid Hst Hct Hs Hc Hd. unfold select_slices.
  wp_step. apply (select_slices_recursive_spec id sp ss sc n 0); [done..|].
  intros r s1 (Ht1 & [[Hn1 Hs1]|(Hp1 & Hf1 & sp1 & Hs1 & He1 & Hpt1)]).
  { replace (r <? 0)%Z with true by lia. wp_step. exists sp.
    rewrite Hs1, insert_id by done. done || (repeat split; try done; lia). }
  replace (r <? 0)%Z with false by lia. assert (id ≠ r) by congruence.
  wp_step. apply wp_h5call. intros e l2 Hl2.
  pose proof (H5Sselect_copy_law (lib s1) id r sp sp1) as Hlaw. rewrite Hl2 in Hlaw.
  destruct Hlaw as (sp2 & Hs2 & He2 & Hp2); [rewrite Hs1; by simplify_map_eq..|].
  wp_step. eapply wp_close; simpl; [rewrite Hs2, Hs1; by simplify_map_eq|].
  intros _ l3 Hs3.
  assert (spaces l3 = <[id := sp2]> (spaces (lib s))) as Hs3' by solve_spaces.
  assert (∀ r', ((0 ≤ r')%Z → (0 ≤ e)%Z) →
     ∃ sp', spaces l3 = <[id:=sp']> (spaces (lib s)) ∧ extent sp' = extent sp ∧
        same_tail s (SelStore l3 (start s1) (count s1)) ∧
        ((0 ≤ r')%Z → points sp' ≡
           slabs (length (extent sp)) (start s) (count s) (sel_pairs ss sc 0 n))) as HQ.
  { intros r' Hr'. exists sp2. split; [done|]. split; [congruence|]. split; [done|].
    intros Hr. rewrite Hp2, Hpt1 by auto. done. }
  destruct debug; [|wp_step; by apply HQ].
  wp_steps. rewrite (H5Sget_simple_extent_ndims_law _ _ sp2) by (rewrite Hs3'; apply lookup_insert_eq).
  destruct (nr_expected_defined (Z.of_nat (length (extent sp2))) n sc (count s1)) as [m Hm]; [lia| |].
  { rewrite He2. destruct Ht1 as (_ & Htl & _ & Hne).
    destruct (count s1), (count s); simpl in *; subst; try done; lia. }
  eapply wp_lift; [exact Hm|]. case_match; wp_step; apply HQ; lia || done.
Qed.

Lemma select_slices_direct_wp id sp ss sc n s :
  spaces (lib s) !! id = Some sp → start s ≠ [] → count s ≠ [] →
  n ≤ length ss → n ≤ length sc →
  wp (select_slices_direct id (Z.of_nat n) ss sc)
     (λ r s', ∃ sp', spaces (lib s') = <[id := sp']> (spaces (lib s)) ∧
        ((0 ≤ r)%Z → points sp' ≡
           slabs (length (extent sp)) (start s) (count s) (sel_pairs ss sc 0 n))) s.
Proof.
  intros Hid Hst Hct Hs Hc. unfold select_slices_direct. rewrite Nat2Z.id.
  wp_step. apply wp_h5call. intros e l1 He.
  pose proof (H5Sselect_none_law (lib s) id sp Hid) as Hl1. rewrite He in Hl1.
  destruct Hl1 as (sp1 & Hs1 & He1 & Hp1).
  destruct (e <? 0)%Z eqn:Ee; [wp_step; exists sp1; split; [done|lia]|].
  apply (wp_or_slabs id ss sc n 0 sp1); simpl; [rewrite Hs1; apply lookup_insert_eq|done..|].
  intros r s2 sp2 _ Hs2 He2 Hp2. exists sp2.
  split; [by rewrite Hs2, Hs1, insert_insert_eq|].
  intros Hr. rewrite (Hp2 Hr), Hp1, He1 by lia. set_solver.
Qed.

End laws.
End select.

(** * A concrete dataspace table

    An implementation of the interface, used to evaluate the functions: a
    dataspace is its extent and the list of the slabs selected so far. *)
Module H5Table.
Record cspace := CSpace { cextent : list Z; cslabs : list (list Z * list Z) }.
Record table := Table { ctab : gmap Z cspace; cnext : Z }.

Definition alloc (sp : cspace) (t : table) : Z * table :=
  if decide (0 ≤ cnext t)%Z then
    match ctab t !! cnext t with
    | None => (cnext t, Table (<[cnext t := sp]> (ctab t)) (cnext t + 1))
    | Some _ => (-1, t)%Z
    end
  else (-1, t)%Z.
Definition on (id : Z) (f : cspace → cspace) (t : table) : Z * table :=
  match ctab t !! id with
  | Some sp => (0%Z, Table (<[id := f sp]> (ctab t)) (cnext t))
  | None => (-1, t)%Z
  end.

#[export] Instance table_space : H5Space := {|
  h5 := table;
  H5Scopy id t := match ctab t !! id with Some sp => alloc sp t | None => (-1, t)%Z end;
  H5Sclose id t := (0%Z, Table (delete id (ctab t)) (cnext t));
  H5Sselect_none id t := on id (λ sp, CSpace (cextent sp) []) t;
  H5Sselect_all id t := on id (λ sp, CSpace (cextent sp)
      [(replicate (length (cextent sp)) 0%Z, cextent sp)]) t;
  H5Sselect_hyperslab_or id st ct t := on id (λ sp, CSpace (cextent sp)
      (cslabs sp ++ [(take (length (cextent sp)) st, take (length (cextent sp)) ct)])) t;
  H5Scombine_select_or a b t :=
    match ctab t !! a, ctab t !! b with
    | Some spa, Some spb => alloc (CSpace (cextent spa) (cslabs spa ++ cslabs spb)) t
    | _, _ => (-1, t)%Z
    end;
  H5Sselect_copy dst src t :=
    match ctab t !! src with
    | Some sps => on dst (λ sp, CSpace (cextent sp) (cslabs sps)) t
    | None => (-1, t)%Z
    end;
  H5Sget_select_npoints id t :=
    match ctab t !! id with
    | Some sp => foldr (λ sc n, foldr Z.mul 1 (sc.2) + n)%Z 0%Z (cslabs sp)
    | None => (-1)%Z
    end;
  H5Sget_simple_extent_ndims id t :=
    match ctab t !! id with Some sp => Z.of_nat (length (cextent sp)) | None => (-1)%Z end;
|}.

Definition cpoints (sp : cspace) : propset (list Z) :=
  {[ p | ∃ sc, sc ∈ cslabs sp ∧ p ∈ slab sc.1 sc.2 ]}.

#[export] Instance table_laws : H5SpaceLaws.
Proof.
  refine {| space := cspace; extent := cextent; points := cpoints; spaces := ctab |};
    intros s; simpl; unfold alloc, on.
  - intros id sp ->. case_decide; [|by left].
    destruct (ctab s !! cnext s) eqn:?; [by left|right; simpl; auto].
  - done.
  - intros id sp ->. eexists. split; [done|]. split; [done|]. intros _.
    unfold cpoints. simpl. set_solver.
  - intros id sp ->. eexists. split; [done|]. split; [done|]. intros _.
    unfold cpoints. simpl. set_solver.
  - intros id sp st ct ->. eexists. split; [done|]. split; [done|]. intros _.
    unfold cpoints. simpl. set_solver.
  - intros a b spa spb -> ->. case_decide; [|by left].
    destruct (ctab s !! cnext s) eqn:?; [by left|right; simpl].
    split; [done|]. split; [done|]. eexists. split; [done|]. split; [done|].
    unfold cpoints. simpl. set_solver.
  - intros dst src spd sps Hd ->. rewrite Hd. eexists. split; [done|]. split; [done|]. done.
  - intros id sp ->. done.
Defined.
End H5Table.

(** * Properties *)
Section properties.
Context `{H5SpaceLaws}.

(** C27: [select_slices] always returns.  Whatever HDF5 calls fail, the only
    dataspace it changes is the file's and every temporary dataspace is closed;
    when it reports success (also with the point count check of the debug
    build), the file dataspace selects exactly the union of the slabs
    [select_start[i], select_count[i]]. *)
Theorem select_slices_selects_union (debug : bool) id sp ss sc n s :
  spaces (lib s) !! id = Some sp → start s ≠ [] → count s ≠ [] →
  n ≤ length ss → n ≤ length sc → length (extent sp) ≤ length (count s) →
  ∃ r s' sp', select_slices debug id (Z.of_nat n) ss sc s = Some (r, s') ∧
    spaces (lib s') = <[id := sp']> (spaces (lib s)) ∧ extent sp' = extent sp ∧
    ((0 ≤ r)%Z → points sp' ≡
       slabs (length (extent sp)) (start s) (count s) (take n (zip ss sc))).
Proof.
  intros Hid Hst Hct Hs Hc Hd.
  destruct (select_slices_wp debug id sp ss sc n s) as (r & s' & Hr & sp' & ? & ? & _ & ?);
    [done..|]. eauto 10.
Qed.

(** When both succeed, the recursive selection of [select_slices] (used
    because OR-ing slabs one by one takes quadratic time) selects the same
    points as the simple loop of [select_slices_direct]. *)
Lemma select_slices_equiv_direct (debug : bool) id sp ss sc n s :
  spaces (lib s) !! id = Some sp → start s ≠ [] → count s ≠ [] →
  n ≤ length ss → n ≤ length sc → length (extent sp) ≤ length (count s) →
  ∃ r1 s1 sp1 r2 s2 sp2,
    select_slices debug id (Z.of_nat n) ss sc s = Some (r1, s1) ∧
    select_slices_direct id (Z.of_nat n) ss sc s = Some (r2, s2) ∧
    spaces (lib s1) !! id = Some sp1 ∧ spaces (lib s2) !! id = Some sp2 ∧
    ((0 ≤ r1)%Z → (0 ≤ r2)%Z → points sp1 ≡ points sp2).
Proof.
  intros Hid Hst Hct Hs Hc Hd.
  destruct (select_slices_wp debug id sp ss sc n s) as (r1 & s1 & Hr1 & sp1 & Hs1 & _ & _ & Hp1);
    [done..|].
  destruct (select_slices_direct_wp id sp ss sc n s) as (r2 & s2 & Hr2 & sp2 & Hs2 & Hp2);
    [done..|].
  exists r1, s1, sp1, r2, s2, sp2. rewrite Hs1, Hs2, !lookup_insert_eq.
  split; [done|]. split; [done|]. split; [done|]. split; [done|].
  intros. rewrite Hp1, Hp2; done.
Qed.
End properties.

Definition table_store : sel_store :=
  SelStore (H := H5Table.table_space)
    (H5Table.Table {[ 7%Z := H5Table.CSpace [40; 3]%Z [] ]} 8) [99; 1]%Z [99; 2]%Z.
Definition ten_starts : list Z := [0; 3; 6; 9; 12; 15; 18; 21; 24; 27]%Z.
Definition ten_counts : list Z := [1; 2; 1; 2; 1; 2; 1; 2; 1; 2]%Z.

Example select_slices_run :
  (fst <$> select_slices (H := H5Table.table_space) true 7 10 ten_starts ten_counts table_store)
  = Some 0%Z.
Proof. vm_compute. reflexivity. Qed.

Lemma select_slices_selects_union_witness :
  ∃ r s' sp', select_slices (H := H5Table.table_space) true 7 10 ten_starts ten_counts table_store
      = Some (r, s') ∧
    H5Table.ctab (lib s') = <[7%Z := sp']> (H5Table.ctab (lib table_store)) ∧
    H5Table.cextent sp' = [40; 3]%Z ∧
    ((0 ≤ r)%Z → H5Table.cpoints sp' ≡ slabs 2 [99; 1]%Z [99; 2]%Z (zip ten_starts ten_counts)).
Proof.
  apply (select_slices_selects_union (H0 := H5Table.table_laws) true 7%Z
           (H5Table.CSpace [40; 3]%Z []) ten_starts ten_counts 10 table_store);
    simpl; done || lia.
Defined.
