(* ===== verification/Multislice.v ===== *)
(** * Multi-slice reads (src/src/hdf5/multislice.c)

    [multislice_init] validates the slices of a request;
    [multislice_select_next_buffer_data] selects the rows of the next buffer.
    A slice is described by its interval in the first dimension; all other
    dimensions are the same for every slice of a request. *)
From stdpp Require Import base tactics numbers list gmap propset sorting.
From S2P Require Import Prelude Select.

(** hdf5/slice_limits.h *)
Definition HDFSTREAM_MAX_DIMS : Z := 32.
Definition HDFSTREAM_MAX_SLICES : Z := 16777216.

Definition MAX_SELECTIONS_PER_BUFFER : Z := 10 * 1024.

Record multislice := Multislice {
  ms_rank : Z;
  ms_nr_slices : Z;
  ms_starts : list Z;
  ms_counts : list Z;
  ms_elements_per_buffer : Z;
  ms_elements_left_total : Z;
  ms_slice_nr : Z;
  ms_offset_in_slice : Z;
  ms_total_count : list Z;
  ms_start : list Z;
  ms_count : list Z;
}.

Definition min_size (a b : Z) : Z := if (a <? b)%Z then a else b.

(** The checks of one iteration of the bounds-check loop; [Some false] is
    [return -1]. *)
Definition slice_ok (rank : Z) (starts counts file_dims : list Z) (slice_nr : Z)
    : option bool :=
  let start1 d := arr_get starts (rank * slice_nr + d) in
  let count1 d := arr_get counts (rank * slice_nr + d) in
  let start0 d := arr_get starts (rank * (slice_nr - 1) + d) in
  let count0 d := arr_get counts (rank * (slice_nr - 1) + d) in
  inside ← all_range (Z.to_nat rank) 0 (λ d,
    s ← start1 d; c ← count1 d; f ← arr_get file_dims d;
    Some (negb (f <? u64 (s + c))%Z));
  if negb inside then Some false else
  if (0 <? slice_nr)%Z then
    s1 ← start1 0%Z; s0 ← start0 0%Z; c0 ← count0 0%Z;
    if (s1 <? s0)%Z then Some false else
    if (s1 <? u64 (s0 + c0))%Z then Some false else
    all_range (Z.to_nat (rank - 1)) 1 (λ d,
      s0 ← start0 d; s1 ← start1 d; c0 ← count0 d; c1 ← count1 d;
      Some ((s0 =? s1)%Z && (c0 =? c1)%Z))
  else Some true.

(** [for(i=1; i<rank; i+=1) dst[i] = src[i];] *)
Definition copy_dims (rank : Z) (src dst : list Z) : option (list Z) :=
  for_range (Z.to_nat (rank - 1)) 1 (λ i dst, x ← arr_get src i; arr_set dst i x) dst.

Definition multislice_init (ms0 : multislice) (rank nr_slices : Z)
    (starts counts : list Z) (elements_per_buffer : Z) (file_dims : list Z)
    : option (Z * multislice) :=
  let n := if (0 <? rank)%Z then nr_slices else 0%Z in
  let ms := Multislice rank n starts counts elements_per_buffer
              (ms_elements_left_total ms0) (ms_slice_nr ms0) (ms_offset_in_slice ms0)
              (ms_total_count ms0) (ms_start ms0) (ms_count ms0) in
  if (HDFSTREAM_MAX_DIMS <? rank)%Z then Some (-1, ms)%Z else
  if (rank <? 0)%Z then Some (-1, ms)%Z else
  if (HDFSTREAM_MAX_SLICES <? nr_slices)%Z then Some (-1, ms)%Z else
  if (nr_slices <? 1)%Z then Some (-1, ms)%Z else
  ok ← all_range (Z.to_nat n) 0 (slice_ok rank starts counts file_dims);
  if negb ok then Some (-1, ms)%Z else
  total1 ← copy_dims rank counts (ms_total_count ms0);
  start ← copy_dims rank starts (ms_start ms0);
  count ← copy_dims rank counts (ms_count ms0);
  total2 ← (if (0 <? rank)%Z then
              sum ← for_range (Z.to_nat n) 0
                      (λ i acc, c ← arr_get counts (i * rank + 0); Some (u64 (acc + c))) 0%Z;
              arr_set total1 0 sum
            else Some total1);
  left0 ← (if (0 <? rank)%Z then arr_get total2 0 else Some 1%Z);
  left1 ← for_range (Z.to_nat rank) 0
            (λ i left, c ← arr_get total2 i; Some (if (c =? 0)%Z then 0%Z else left)) left0;
  Some (0%Z, Multislice rank n starts counts elements_per_buffer left1 0 0 total2 start count).

(** ** Filling one buffer

    The local variables of the loop: the arrays [select_start] and
    [select_count] are represented by the entries written so far. *)
Record fill := Fill {
  f_left_in_buffer : Z;
  f_nr_selections : Z;
  f_start : list Z;
  f_count : list Z;
  f_slice_nr : Z;
  f_offset : Z;
  f_left_total : Z;
  f_nr_elements : Z;
}.

Definition fill_cond (f : fill) : bool :=
  (0 <? f_left_in_buffer f)%Z && (f_nr_selections f <? MAX_SELECTIONS_PER_BUFFER)%Z.

(** "Store this selection, if it contains any elements". *)
Definition store_selection (f : fill) (first elements_to_read : Z)
    : option (Z * list Z * list Z) :=
  if (0 <? elements_to_read)%Z then
    guard (f_nr_selections f < MAX_SELECTIONS_PER_BUFFER)%Z;;
    Some (f_nr_selections f + 1, f_start f ++ [first], f_count f ++ [elements_to_read])%Z
  else Some (f_nr_selections f, f_start f, f_count f).

(** "Advance to the next part of the slice": the new slice and offset. *)
Definition next_position (ms : multislice) (slice_nr slice_count offset : Z) : option (Z * Z) :=
  if (slice_count <=? offset)%Z then
    guard (slice_nr + 1 ≤ ms_nr_slices ms)%Z;; Some (slice_nr + 1, 0)%Z
  else Some (slice_nr, offset).

Definition fill_body (ms : multislice) (f : fill) : option fill :=
  guard (f_slice_nr f < ms_nr_slices ms)%Z;;
  slice_start ← arr_get (ms_starts ms) (f_slice_nr f * ms_rank ms);
  slice_count ← arr_get (ms_counts ms) (f_slice_nr f * ms_rank ms);
  let elements_left_in_slice := u64 (slice_count - f_offset f) in
  let elements_to_read := min_size elements_left_in_slice (f_left_in_buffer f) in
  '(nr_selections, select_start, select_count) ←
    store_selection f (u64 (slice_start + f_offset f)) elements_to_read;
  '(slice_nr, offset) ←
    next_position ms (f_slice_nr f) slice_count (u64 (f_offset f + elements_to_read));
  guard (elements_to_read ≤ f_left_in_buffer f)%Z;;
  guard (elements_to_read ≤ f_left_total f)%Z;;
  Some (Fill (f_left_in_buffer f - elements_to_read) nr_selections select_start select_count
          slice_nr offset (f_left_total f - elements_to_read)
          (u64 (f_nr_elements f + elements_to_read))).

Definition fill_init (ms : multislice) : fill :=
  Fill (min_size (ms_elements_per_buffer ms) (ms_elements_left_total ms)) 0 [] []
    (ms_slice_nr ms) (ms_offset_in_slice ms) (ms_elements_left_total ms) 0.

(** Every iteration finishes the buffer or a slice. *)
Definition fill_fuel (ms : multislice) : nat := Z.to_nat (ms_nr_slices ms) + 2.

Definition fill_buffer (ms : multislice) : option fill :=
  while (fill_fuel ms) fill_cond (fill_body ms) (fill_init ms).

(** The fields of [*ms] after the loop. *)
Definition advance (ms : multislice) (f : fill) (start count : list Z) : multislice :=
  Multislice (ms_rank ms) (ms_nr_slices ms) (ms_starts ms) (ms_counts ms)
    (ms_elements_per_buffer ms) (f_left_total f) (f_slice_nr f) (f_offset f)
    (ms_total_count ms) start count.

Section next_buffer.
Context `{H5Space}.

(** The result: return code, [*nr_elements_to_read] if written, [*ms], library. *)
Definition multislice_select_next_buffer_data (debug : bool) (ms : multislice)
    (file_space_id : Z) (l : h5) : option (Z * option Z * multislice * h5) :=
  if (ms_elements_left_total ms =? 0)%Z then Some (1%Z, None, ms, l) else
  if (ms_rank ms =? 0)%Z then
    let '(_, l) := H5Sselect_all file_space_id l in
    guard (ms_nr_slices ms = 0)%Z;;
    let ms' := Multislice (ms_rank ms) (ms_nr_slices ms) (ms_starts ms) (ms_counts ms)
                 (ms_elements_per_buffer ms) 0 (ms_slice_nr ms) (ms_offset_in_slice ms)
                 (ms_total_count ms) (ms_start ms) (ms_count ms) in
    Some (0%Z, Some 1%Z, ms', l)
  else
    let '(_, l) := H5Sselect_none file_space_id l in
    f ← fill_buffer ms;
    '(err, st) ← select_slices debug file_space_id (f_nr_selections f) (f_start f) (f_count f)
                  (SelStore l (ms_start ms) (ms_count ms));
    let ms' := advance ms f (start st) (count st) in
    Some (if (err <? 0)%Z then (-1)%Z else 0%Z, Some (f_nr_elements f), ms', lib st).
End next_buffer.

(** * What the code computes *)

(** Entry [d] of slice [k] in a flattened array. *)
Definition entry (rank : Z) (a : list Z) (k d : Z) : Z := a !!! Z.to_nat (rank * k + d).

(** The intervals of the slices in the first dimension. *)
Definition slices_of (rank n : Z) (starts counts : list Z) : list (Z * Z) :=
  (λ k, (entry rank starts (Z.of_nat k) 0, entry rank counts (Z.of_nat k) 0)) <$> seq 0 (Z.to_nat n).

(** Row numbers of an interval; of a list of intervals; rows that are left
    when [off] rows of slice [i] and all slices before it were read. *)
Definition rows (sc : Z * Z) : list Z := seqZ sc.1 sc.2.
Definition all_rows (l : list (Z * Z)) : list Z := concat (rows <$> l).
Definition pending (l : list (Z * Z)) (i : nat) (off : Z) : list Z :=
  match drop i l with
  | [] => []
  | (s, c) :: l' => seqZ (s + off) (c - off) ++ all_rows l'
  end.

Lemma all_rows_app l1 l2 : all_rows (l1 ++ l2) = all_rows l1 ++ all_rows l2.
Proof. unfold all_rows. by rewrite fmap_app, concat_app. Qed.
Lemma all_rows_one s c : all_rows [(s, c)] = seqZ s c.
Proof. unfold all_rows, rows. simpl. by rewrite app_nil_r. Qed.

Lemma pending_start l i : pending l i 0 = all_rows (drop i l).
Proof.
  unfold pending. destruct (drop i l) as [|[s c] l']; [done|].
  rewrite Z.add_0_r, Z.sub_0_r. done.
Qed.

Lemma pending_cons l i off s c :
  l !! i = Some (s, c) → pending l i off = seqZ (s + off) (c - off) ++ all_rows (drop (S i) l).
Proof. intros Hl. unfold pending. by rewrite (drop_S _ _ _ Hl). Qed.

(** Reading [k] rows of the current slice. *)
Lemma pending_read l i off s c k :
  l !! i = Some (s, c) → (0 ≤ k)%Z → (off + k ≤ c)%Z →
  pending l i off = seqZ (s + off) k ++ pending l i (off + k).
Proof.
  intros Hl ? ?. rewrite !(pending_cons _ _ _ _ _ Hl), app_assoc.
  replace (c - off)%Z with (k + (c - (off + k)))%Z by lia.
  rewrite seqZ_app by lia. by rewrite Z.add_assoc.
Qed.

Lemma pending_next l i s c : l !! i = Some (s, c) → pending l i c = pending l (S i) 0.
Proof.
  intros Hl. rewrite (pending_cons _ _ _ _ _ Hl), pending_start, Z.sub_diag. done.
Qed.

(** ** Filling a buffer *)

(** The invariant of the state between calls. *)
Record ms_ok (ms : multislice) (l : list (Z * Z)) : Prop := {
  ok_rank : (0 < ms_rank ms)%Z;
  ok_n : (0 ≤ ms_nr_slices ms)%Z;
  ok_slices : l = slices_of (ms_rank ms) (ms_nr_slices ms) (ms_starts ms) (ms_counts ms);
  ok_starts : Z.of_nat (length (ms_starts ms)) = (ms_rank ms * ms_nr_slices ms)%Z;
  ok_counts : Z.of_nat (length (ms_counts ms)) = (ms_rank ms * ms_nr_slices ms)%Z;
  ok_ends : Forall (λ sc, 0 ≤ sc.1 ∧ 0 ≤ sc.2 ∧ sc.1 + sc.2 < 2 ^ 64)%Z l;
  ok_total : (ms_elements_left_total ms < 2 ^ 64)%Z;
}.

Definition pos_ok (l : list (Z * Z)) (i off : Z) : Prop :=
  (0 ≤ i ≤ Z.of_nat (length l))%Z ∧
  ∀ sc, l !! Z.to_nat i = Some sc → (0 ≤ off ∧ (off < sc.2 ∨ off = 0 ∧ sc.2 = 0))%Z.

(** The invariant of the loop, with what it has read so far. *)
Record fill_ok (ms : multislice) (l : list (Z * Z)) (f0 f : fill) : Prop := {
  fo_pos : pos_ok l (f_slice_nr f) (f_offset f);
  fo_len : length (f_start f) = length (f_count f);
  fo_nsel : f_nr_selections f = Z.of_nat (length (f_start f));
  fo_max : (f_nr_selections f ≤ MAX_SELECTIONS_PER_BUFFER)%Z;
  fo_counts : Forall (λ c, 0 < c)%Z (f_count f);
  fo_rows : pending l (Z.to_nat (f_slice_nr f0)) (f_offset f0) =
            all_rows (zip (f_start f) (f_count f)) ++
            pending l (Z.to_nat (f_slice_nr f)) (f_offset f);
  fo_nr : f_nr_elements f = Z.of_nat (length (all_rows (zip (f_start f) (f_count f))));
  fo_left : (f_left_in_buffer f + f_nr_elements f = f_left_in_buffer f0)%Z;
  fo_total : (f_left_total f + f_nr_elements f = f_left_total f0)%Z;
  fo_bound : (0 ≤ f_left_in_buffer f ≤ f_left_total f)%Z;
  fo_pending : (f_left_total f ≤
      Z.of_nat (length (pending l (Z.to_nat (f_slice_nr f)) (f_offset f))))%Z;
}.

Lemma slices_of_lookup rank n starts counts (i : nat) s c :
  slices_of rank n starts counts !! i = Some (s, c) →
  s = entry rank starts (Z.of_nat i) 0 ∧ c = entry rank counts (Z.of_nat i) 0 ∧
  (Z.of_nat i < n)%Z.
Proof.
  unfold slices_of. rewrite list_lookup_fmap. intros (k & Hk & ?)%fmap_Some.
  apply lookup_seq in Hk as [-> ?]. simplify_eq. simpl. split; [done|]. split; [done|]. lia.
Qed.

Lemma slices_of_length rank n starts counts :
  (0 ≤ n)%Z → Z.of_nat (length (slices_of rank n starts counts)) = n.
Proof. intros. unfold slices_of. rewrite length_fmap, length_seq. lia. Qed.

Lemma arr_get_entry rank n (a : list Z) k d :
  Z.of_nat (length a) = (rank * n)%Z → (0 ≤ k < n)%Z → (0 ≤ d < rank)%Z →
  arr_get a (rank * k + d) = Some (entry rank a k d).
Proof. intros. unfold entry. apply arr_get_total. nia. Qed.

(** The current slice exists whenever rows are pending. *)
Lemma pending_slice l i off :
  (0 < Z.of_nat (length (pending l i off)))%Z → ∃ s c, l !! i = Some (s, c).
Proof.
  unfold pending. destruct (drop i l) as [|[s c] l'] eqn:E; [simpl; lia|].
  intros _. exists s, c. rewrite <- (Nat.add_0_r i), <- lookup_drop, E. done.
Qed.

Definition fill_measure (ms : multislice) (f : fill) : nat :=
  Z.to_nat (ms_nr_slices ms - f_slice_nr f) + (if (0 <? f_left_in_buffer f)%Z then 1 else 0).

Lemma all_rows_snoc ss sc s k :
  length ss = length sc →
  all_rows (zip (ss ++ [s]) (sc ++ [k])) = all_rows (zip ss sc) ++ seqZ s k.
Proof.
  intros. rewrite zip_with_app by done. simpl. by rewrite all_rows_app, all_rows_one.
Qed.

Lemma store_selection_ok ms l f0 f first k :
  fill_ok ms l f0 f → (f_nr_selections f < MAX_SELECTIONS_PER_BUFFER)%Z → (0 ≤ k)%Z →
  ∃ n ss sc, store_selection f first k = Some (n, ss, sc) ∧
    length ss = length sc ∧ n = Z.of_nat (length ss) ∧ (n ≤ MAX_SELECTIONS_PER_BUFFER)%Z ∧
    Forall (λ c, 0 < c)%Z sc ∧
    all_rows (zip ss sc) = all_rows (zip (f_start f) (f_count f)) ++ seqZ first k.
Proof.
  intros [] Hmax Hk. unfold store_selection. rewrite option_guard_True by done.
  destruct (0 <? k)%Z eqn:Ek; simpl; eexists _, _, _; (split; [done|]).
  - rewrite !length_app, all_rows_snoc by done. simpl. split; [lia|]. split; [lia|].
    split; [lia|]. split; [|done]. apply Forall_app. split; [done|]. apply Forall_singleton. lia.
  - assert (k = 0%Z) as -> by lia. rewrite app_nil_r. done.
Qed.

Lemma next_position_ok ms l i s c off k :
  ms_ok ms l → pos_ok l i off → (0 ≤ i)%Z → l !! Z.to_nat i = Some (s, c) →
  (0 ≤ k ≤ c - off)%Z →
  ∃ i' off', next_position ms i c (off + k) = Some (i', off') ∧ pos_ok l i' off' ∧
    pending l (Z.to_nat i) off = seqZ (s + off) k ++ pending l (Z.to_nat i') off' ∧
    (i' = i + 1 ∨ i' = i ∧ k < c - off)%Z.
Proof.
  intros Hok [Hi Hoff] Hi0 Hl Hk. specialize (Hoff _ Hl). simpl in Hoff.
  pose proof (slices_of_length (ms_rank ms) (ms_nr_slices ms) (ms_starts ms) (ms_counts ms)
                (ok_n _ _ Hok)) as Hlen. rewrite <- (ok_slices _ _ Hok) in Hlen.
  pose proof (lookup_lt_Some _ _ _ Hl) as Hlt.
  assert (pending l (Z.to_nat i) off = seqZ (s + off) k ++ pending l (Z.to_nat i) (off + k)) as Hp
    by (by apply (pending_read _ _ _ _ c); [|lia..]).
  unfold next_position. destruct (c <=? off + k)%Z eqn:E.
  - rewrite option_guard_True by lia. simpl. eexists _, _. split; [done|].
    replace (off + k)%Z with c in Hp by lia. rewrite (pending_next _ _ _ _ Hl) in Hp.
    replace (Z.to_nat (i + 1)) with (S (Z.to_nat i)) by lia.
    split; [|split; [done|by left]]. split; [lia|].
    replace (Z.to_nat (i + 1)) with (S (Z.to_nat i)) by lia.
    intros [s' c'] Hl'. pose proof (ok_ends _ _ Hok) as Hends.
    rewrite Forall_lookup in Hends. specialize (Hends _ _ Hl'). simpl in *. lia.
  - eexists _, _. split; [done|]. split; [|split; [done|lia]]. split; [lia|].
    intros sc Hl'. rewrite Hl in Hl'. simplify_eq. simpl. lia.
Qed.

Lemma fill_body_ok ms l f0 f :
  ms_ok ms l → fill_ok ms l f0 f → (f_left_total f0 < 2 ^ 64)%Z → fill_cond f = true →
  ∃ f', fill_body ms f = Some f' ∧ fill_ok ms l f0 f' ∧ fill_measure ms f' < fill_measure ms f.
Proof.
  intros Hok Hf HT [Hleft Hmax]%andb_true_iff.
  apply Z.ltb_lt in Hleft, Hmax.
  destruct (pending_slice l (Z.to_nat (f_slice_nr f)) (f_offset f)) as (s & c & Hl).
  { destruct Hf. lia. }
  destruct (fo_pos _ _ _ _ Hf) as [Hi Hoff]. specialize (Hoff _ Hl). simpl in Hoff.
  pose proof Hl as Hl'. rewrite (ok_slices _ _ Hok) in Hl'.
  apply slices_of_lookup in Hl' as (Hs & Hc & Hin). rewrite Z2Nat.id in Hs, Hc, Hin by lia.
  pose proof (ok_ends _ _ Hok) as Hends.
  rewrite Forall_lookup in Hends. specialize (Hends _ _ Hl). simpl in Hends.
  unfold fill_body. rewrite option_guard_True by done. simpl.
  replace (f_slice_nr f * ms_rank ms)%Z with (ms_rank ms * f_slice_nr f + 0)%Z by lia.
  rewrite !(arr_get_entry _ (ms_nr_slices ms)) by (destruct Hok; lia). simpl.
  rewrite <- Hs, <- Hc, (u64_small (c - f_offset f)) by (unfold is_u64; lia).
  set (k := min_size (c - f_offset f) (f_left_in_buffer f)).
  assert (0 ≤ k ≤ f_left_in_buffer f ∧ k ≤ c - f_offset f ∧
          (k = c - f_offset f ∨ k = f_left_in_buffer f))%Z as Hk
    by (unfold k, min_size; case_match; lia).
  rewrite (u64_small (s + f_offset f)), (u64_small (f_offset f + k)) by (unfold is_u64; lia).
  destruct (store_selection_ok ms l f0 f (s + f_offset f) k)
    as (n & ss & sc & -> & H1 & H2 & H3 & H4 & H5); [done|done|lia|]. simpl.
  destruct (next_position_ok ms l (f_slice_nr f) s c (f_offset f) k)
    as (i' & off' & -> & H6 & H7 & H8); [done|apply Hf|lia|done|lia|]. simpl.
  rewrite !option_guard_True by (destruct Hf; lia). simpl.
  assert (length (pending l (Z.to_nat (f_slice_nr f)) (f_offset f)) =
    Z.to_nat k + length (pending l (Z.to_nat i') off')) as H9
    by (rewrite H7, length_app, length_seqZ; lia).
  assert (Z.of_nat (length (all_rows (zip ss sc))) = f_nr_elements f + k)%Z as H10.
  { rewrite H5, length_app, length_seqZ. destruct Hf. lia. }
  eexists. split; [done|]. destruct Hf. split.
  - split; simpl; rewrite ?(u64_small (f_nr_elements f + k)) by (unfold is_u64; lia); try done; try lia.
    rewrite fo_rows0, H7, H5, app_assoc. done.
  - unfold fill_measure. simpl. repeat case_match; lia.
Qed.

(** The state between two calls: [total] rows are still to be read. *)
Record ms_inv (ms : multislice) (l : list (Z * Z)) : Prop := {
  mi_ok : ms_ok ms l;
  mi_pos : pos_ok l (ms_slice_nr ms) (ms_offset_in_slice ms);
  mi_total : (0 ≤ ms_elements_left_total ms ≤
    Z.of_nat (length (pending l (Z.to_nat (ms_slice_nr ms)) (ms_offset_in_slice ms))))%Z;
}.

(** The rows of the selections of a buffer. *)
Definition buffer_rows (f : fill) : list Z := all_rows (zip (f_start f) (f_count f)).

Lemma positive_rows ss sc :
  length ss = length sc → Forall (λ c, 0 < c)%Z sc → length ss ≤ length (all_rows (zip ss sc)).
Proof.
  revert sc. induction ss as [|s ss IH]; intros [|c sc]; simpl; try lia.
  intros [= ?] [? ?]%Forall_cons.
  change (all_rows ((s, c) :: zip ss sc)) with (seqZ s c ++ all_rows (zip ss sc)).
  rewrite length_app, length_seqZ. specialize (IH sc ltac:(done) ltac:(done)). lia.
Qed.

Lemma fill_buffer_ok ms l :
  ms_inv ms l → (0 < ms_elements_per_buffer ms)%Z → (0 < ms_elements_left_total ms)%Z →
  ∃ f, fill_buffer ms = Some f ∧ fill_ok ms l (fill_init ms) f ∧
    (0 < f_nr_elements f ≤ ms_elements_per_buffer ms)%Z ∧
    (f_nr_elements f = Z.min (ms_elements_per_buffer ms) (ms_elements_left_total ms) ∨
     f_nr_selections f = MAX_SELECTIONS_PER_BUFFER)%Z ∧
    f_nr_selections f = Z.of_nat (length (f_start f)).
Proof.
  intros [Hok Hpos Htot] Hepb Hleft.
  set (L := min_size (ms_elements_per_buffer ms) (ms_elements_left_total ms)).
  assert (L = Z.min (ms_elements_per_buffer ms) (ms_elements_left_total ms)) as HL
    by (unfold L, min_size; case_match; lia).
  destruct (while_inv (fill_ok ms l (fill_init ms)) (fill_measure ms) fill_cond (fill_body ms)
              (fill_fuel ms) (fill_init ms)) as (f & Hf & Hfo & Hexit).
  - intros f Hf Hc. destruct (fill_body_ok ms l (fill_init ms) f) as (f' & ? & ? & ?); eauto.
    apply Hok.
  - split; simpl; try done; fold L; lia.
  - unfold fill_measure, fill_fuel. simpl. fold L.
    destruct Hpos. pose proof (ok_n _ _ Hok). case_match; lia.
  - exists f. split; [done|]. split; [done|].
    assert (f_left_in_buffer (fill_init ms) = L) as HfL by done.
    pose proof Hfo as [].
    pose proof (positive_rows _ _ fo_len0 fo_counts0).
    unfold fill_cond in Hexit. unfold MAX_SELECTIONS_PER_BUFFER in *.
    apply andb_false_iff in Hexit. rewrite !Z.ltb_ge in Hexit. lia.
Qed.

(** One call advances the state and keeps the invariant. *)
Lemma advance_inv ms l f st ct :
  ms_inv ms l → fill_ok ms l (fill_init ms) f →
  ms_inv (advance ms f st ct) l ∧
  pending l (Z.to_nat (ms_slice_nr ms)) (ms_offset_in_slice ms) =
    buffer_rows f ++ pending l (Z.to_nat (f_slice_nr f)) (f_offset f) ∧
  Z.of_nat (length (buffer_rows f)) = f_nr_elements f ∧
  ms_elements_left_total (advance ms f st ct) = (ms_elements_left_total ms - f_nr_elements f)%Z.
Proof.
  intros [Hok Hpos Htot] []. simpl in *. split; [|split; [done|split; [done|simpl; lia]]].
  split; simpl; [|done|lia]. destruct Hok. by split; simpl; try done; lia.
Qed.

(** ** Validating the slices *)

(** What the checks of slice [k] establish, with the 64-bit sums of the code. *)
Definition slice_checked (rank : Z) (starts counts dims : list Z) (k : Z) : Prop :=
  (∀ d, (0 ≤ d < rank)%Z →
     (u64 (entry rank starts k d + entry rank counts k d) ≤ dims !!! Z.to_nat d)%Z) ∧
  ((0 < k)%Z →
     (entry rank starts (k - 1) 0 ≤ entry rank starts k 0)%Z ∧
     (u64 (entry rank starts (k - 1) 0 + entry rank counts (k - 1) 0) ≤ entry rank starts k 0)%Z ∧
     ∀ d, (1 ≤ d < rank)%Z →
       entry rank starts (k - 1) d = entry rank starts k d ∧
       entry rank counts (k - 1) d = entry rank counts k d).

(** What the comments of the code ask for: every slice is inside the dataset,
    slices ascend without overlap and agree in all dimensions but the first. *)
Definition slices_valid (rank n : Z) (starts counts dims : list Z) : Prop :=
  ∀ k, (0 ≤ k < n)%Z →
    (∀ d, (0 ≤ d < rank)%Z →
       (entry rank starts k d + entry rank counts k d ≤ dims !!! Z.to_nat d)%Z) ∧
    ((0 < k)%Z →
       (entry rank starts (k - 1) 0 + entry rank counts (k - 1) 0 ≤ entry rank starts k 0)%Z ∧
       ∀ d, (1 ≤ d < rank)%Z →
         entry rank starts (k - 1) d = entry rank starts k d ∧
         entry rank counts (k - 1) d = entry rank counts k d).

(** The arrays a caller passes: [rank*n] entries, as many dimensions as the dataset. *)
Record request_ok (rank n : Z) (starts counts dims : list Z) : Prop := {
  rq_starts : Z.of_nat (length starts) = (rank * n)%Z;
  rq_counts : Z.of_nat (length counts) = (rank * n)%Z;
  rq_dims : (rank ≤ Z.of_nat (length dims))%Z;
  rq_u64 : Forall is_u64 starts ∧ Forall is_u64 counts ∧ Forall is_u64 dims;
}.

(** No end of a slice exceeds 2^64. *)
Definition no_wrap (starts counts : list Z) : Prop :=
  ∀ i s c, starts !! i = Some s → counts !! i = Some c → (s + c < 2 ^ 64)%Z.

Section init.
Context (rank n : Z) (starts counts dims : list Z).
Context (Hrq : request_ok rank n starts counts dims) (Hrank : (0 < rank)%Z).

Lemma get_start k d : (0 ≤ k < n)%Z → (0 ≤ d < rank)%Z →
  arr_get starts (rank * k + d) = Some (entry rank starts k d).
Proof. destruct Hrq. by apply arr_get_entry. Qed.
Lemma get_count k d : (0 ≤ k < n)%Z → (0 ≤ d < rank)%Z →
  arr_get counts (rank * k + d) = Some (entry rank counts k d).
Proof. destruct Hrq. by apply arr_get_entry. Qed.

Lemma entry_u64 a k d : Forall is_u64 a → is_u64 (entry rank a k d).
Proof.
  intros Ha. unfold entry. rewrite list_lookup_total_alt.
  destruct (a !! _) as [x|] eqn:E; simpl; [|unfold is_u64; simpl; lia].
  by eapply Forall_lookup_1 in E.
Qed.

Lemma entry_no_wrap k d : no_wrap starts counts → (0 ≤ k < n)%Z → (0 ≤ d < rank)%Z →
  is_u64 (entry rank starts k d + entry rank counts k d).
Proof.
  intros Hw Hk Hd. pose proof (get_start k d Hk Hd) as H1. pose proof (get_count k d Hk Hd) as H2.
  rewrite arr_get_nth in H1, H2 by nia. specialize (Hw _ _ _ H1 H2).
  destruct Hrq as [_ _ _ (Hs & Hc & _)].
  pose proof (entry_u64 starts k d Hs). pose proof (entry_u64 counts k d Hc).
  unfold is_u64 in *. lia.
Qed.

Lemma slice_ok_spec k : (0 ≤ k < n)%Z →
  ∃ b, slice_ok rank starts counts dims k = Some b ∧
       (b = true ↔ slice_checked rank starts counts dims k).
Proof.
  intros Hk. unfold slice_ok, slice_checked.
  destruct (all_range_spec
    (λ d, (u64 (entry rank starts k d + entry rank counts k d) ≤ dims !!! Z.to_nat d)%Z)
    (λ d, s ← arr_get starts (rank * k + d); c ← arr_get counts (rank * k + d);
          f ← arr_get dims d; Some (negb (f <? u64 (s + c))%Z))
    (Z.to_nat rank) 0) as (b & -> & Hb).
  { intros d Hd. rewrite get_start, get_count by lia. simpl.
    rewrite arr_get_total by (destruct Hrq; lia). simpl. eexists. split; [done|]. lia. }
  simpl. rewrite Z2Nat.id in Hb by lia.
  destruct b; simpl; last first.
  { exists false. split; [done|]. split; [done|]. intros [H _]. by apply Hb in H. }
  destruct (0 <? k)%Z eqn:Ek; last first.
  { exists true. split; [done|]. split; [|done]. intros _. split; [by apply Hb|lia]. }
  rewrite get_start by lia. simpl. rewrite get_start by lia. simpl. rewrite get_count by lia. simpl.
  destruct (entry rank starts k 0 <? entry rank starts (k - 1) 0)%Z eqn:E1.
  { exists false. split; [done|]. split; [done|]. intros [_ H]. lia. }
  case_match eqn:E2.
  { exists false. split; [done|]. split; [done|]. intros [_ H]. lia. }
  destruct (all_range_spec
    (λ d, entry rank starts (k - 1) d = entry rank starts k d ∧
          entry rank counts (k - 1) d = entry rank counts k d)
    (λ d, s0 ← arr_get starts (rank * (k - 1) + d); s1 ← arr_get starts (rank * k + d);
          c0 ← arr_get counts (rank * (k - 1) + d); c1 ← arr_get counts (rank * k + d);
          Some ((s0 =? s1)%Z && (c0 =? c1)%Z))
    (Z.to_nat (rank - 1)) 1) as (b & -> & Hb').
  { intros d Hd. rewrite !get_start, !get_count by lia. simpl. eexists. split; [done|]. lia. }
  exists b. split; [done|]. rewrite Hb', Z2Nat.id by lia. split.
  - intros H. split; [by apply Hb|]. intros _. split; [lia|]. split; [lia|].
    intros d Hd. apply H. lia.
  - intros [_ H] d Hd. apply H; lia.
Qed.

Lemma slices_checked_valid :
  no_wrap starts counts →
  (∀ k, (0 ≤ k < n)%Z → slice_checked rank starts counts dims k) ↔
  slices_valid rank n starts counts dims.
Proof.
  intros Hw. unfold slices_valid, slice_checked.
  assert (∀ k d, (0 ≤ k < n)%Z → (0 ≤ d < rank)%Z →
    u64 (entry rank starts k d + entry rank counts k d) =
    (entry rank starts k d + entry rank counts k d)%Z) as Hu
    by (intros; apply u64_small, entry_no_wrap; auto).
  destruct Hrq as [_ _ _ (_ & Hc & _)].
  split; intros H k Hk; (specialize (H k Hk) as [H1 H2]; split;
    [intros d Hd; specialize (H1 d Hd); rewrite Hu in * by lia; done|]);
    intros Hk0; specialize (H2 Hk0); rewrite Hu in * by lia.
  - tauto.
  - pose proof (entry_u64 counts (k - 1) 0 Hc). unfold is_u64 in *. split; [lia|]. tauto.
Qed.

End init.

Lemma copy_dims_spec rank src dst :
  (rank ≤ Z.of_nat (length src))%Z → (rank ≤ Z.of_nat (length dst))%Z →
  ∃ dst', copy_dims rank src dst = Some dst' ∧ length dst' = length dst ∧
    ∀ d, dst' !! d = if decide (1 ≤ Z.of_nat d < rank)%Z then src !! d else dst !! d.
Proof.
  intros Hs Hd. unfold copy_dims.
  destruct (for_range_inv
    (λ i (a : list Z), length a = length dst ∧
       ∀ d, a !! d = if decide (1 ≤ Z.of_nat d < i)%Z then src !! d else dst !! d)
    (λ i dst, x ← arr_get src i; arr_set dst i x) (Z.to_nat (rank - 1)) 1 dst)
    as (a & Ha & Hl & Hlk).
  - split; [done|]. intros d. by rewrite decide_False by lia.
  - intros i a Hi [Hl Hlk]. rewrite arr_get_total by lia. simpl. rewrite arr_set_total by lia.
    eexists. split; [done|]. rewrite length_insert. split; [done|]. intros d.
    destruct (decide (d = Z.to_nat i)) as [->|].
    + rewrite list_lookup_insert_eq, decide_True by lia.
      symmetry. apply list_lookup_lookup_total_lt. lia.
    + rewrite list_lookup_insert_ne, Hlk by done. repeat case_decide; lia || done.
  - exists a. split; [done|]. split; [done|]. intros d. rewrite Hlk.
    repeat case_decide; lia || done.
Qed.

Lemma all_rows_take_S (l : list (Z * Z)) i s c : l !! i = Some (s, c) →
  all_rows (take (S i) l) = all_rows (take i l) ++ seqZ s c.
Proof. intros Hl. by rewrite (take_S_r _ _ _ Hl), all_rows_app, all_rows_one. Qed.

Section init_total.
Context (rank n : Z) (starts counts dims : list Z).
Context (Hrq : request_ok rank n starts counts dims) (Hrank : (0 < rank)%Z).
Let l := slices_of rank n starts counts.

Lemma slices_of_get k : (0 ≤ k < n)%Z →
  l !! Z.to_nat k = Some (entry rank starts k 0, entry rank counts k 0).
Proof.
  intros. unfold l, slices_of. rewrite list_lookup_fmap, lookup_seq_lt by lia. simpl.
  by rewrite Z2Nat.id by lia.
Qed.

(** The running total of the counts of valid slices is bounded by the end of
    the last slice, so the 64-bit sum is exact. *)
Lemma total_spec : ∃ total,
  for_range (Z.to_nat n) 0
    (λ i acc, c ← arr_get counts (i * rank + 0); Some (u64 (acc + c))) 0%Z = Some total ∧ is_u64 total ∧
  (no_wrap starts counts → slices_valid rank n starts counts dims →
   total = Z.of_nat (length (all_rows l))).
Proof.
  destruct (decide (n ≤ 0)%Z) as [Hn|Hn].
  { replace (Z.to_nat n) with 0 by lia. simpl. exists 0%Z. split; [done|].
    split; [unfold is_u64; lia|]. intros _ _.
    unfold l, slices_of. by replace (Z.to_nat n) with 0 by lia. }
  destruct (for_range_inv (λ i acc, is_u64 acc ∧ (no_wrap starts counts →
      slices_valid rank n starts counts dims → acc = Z.of_nat (length (all_rows (take (Z.to_nat i) l))) ∧
      (acc ≤ if decide (i = 0) then 0 else
         entry rank starts (i - 1) 0 + entry rank counts (i - 1) 0)%Z))
    (λ i acc, c ← arr_get counts (i * rank + 0); Some (u64 (acc + c))) (Z.to_nat n) 0 0%Z)
    as (total & Ht & Hu & HP).
  - split; [unfold is_u64; lia|done].
  - intros i acc Hi [_ IH].
    replace (i * rank + 0)%Z with (rank * i + 0)%Z by lia.
    rewrite (get_count _ _ _ _ _ Hrq) by lia. simpl. eexists. split; [done|].
    split; [apply u64_range|]. intros Hw Hv. destruct (IH Hw Hv) as [Hacc Hb].
    pose proof (entry_no_wrap _ _ _ _ _ Hrq Hrank i 0 Hw ltac:(lia) ltac:(lia)) as Hsum.
    destruct Hrq as [_ _ _ (Hs & Hc & _)].
    pose proof (entry_u64 rank starts i 0 Hs). pose proof (entry_u64 rank counts i 0 Hc).
    assert (acc ≤ entry rank starts i 0)%Z.
    { destruct (decide (i = 0%Z)) as [->|]; [unfold is_u64 in *; lia|].
      destruct (Hv i) as [_ H']; [lia|]. specialize (H' ltac:(lia)). lia. }
    rewrite u64_small by (unfold is_u64 in *; lia).
    rewrite decide_False by lia. replace (i + 1 - 1)%Z with i by lia.
    split; [|lia].
    replace (Z.to_nat (i + 1)) with (S (Z.to_nat i)) by lia.
    rewrite (all_rows_take_S _ _ _ _ (slices_of_get i ltac:(lia))), length_app, length_seqZ.
    unfold is_u64 in *. lia.
  - exists total. split; [done|]. split; [done|]. intros Hw Hv. destruct (HP Hw Hv) as [-> _].
    rewrite take_ge; [done|].
    pose proof (slices_of_length rank n starts counts). unfold l. lia.
Qed.
End init_total.

(** "If the size is zero in any dimension, there's nothing to read". *)
Lemma zero_dims_spec rank total left0 :
  (rank ≤ Z.of_nat (length total))%Z →
  ∃ left1, for_range (Z.to_nat rank) 0
     (λ i left, c ← arr_get total i; Some (if (c =? 0)%Z then 0%Z else left)) left0 = Some left1 ∧
   ((left1 = left0 ∧ ∀ d, (0 ≤ d < rank)%Z → total !!! Z.to_nat d ≠ 0%Z) ∨
    (left1 = 0%Z ∧ ∃ d, (0 ≤ d < rank)%Z ∧ total !!! Z.to_nat d = 0%Z)).
Proof.
  intros Hr.
  destruct (for_range_inv (λ i left,
      (left = left0 ∧ ∀ d, (0 ≤ d < i)%Z → total !!! Z.to_nat d ≠ 0%Z) ∨
      (left = 0%Z ∧ ∃ d, (0 ≤ d < i)%Z ∧ total !!! Z.to_nat d = 0%Z))
    (λ i left, c ← arr_get total i; Some (if (c =? 0)%Z then 0%Z else left))
    (Z.to_nat rank) 0 left0) as (a & Ha & HP).
  - left. split; [done|]. lia.
  - intros i left Hi IH. rewrite arr_get_total by lia. simpl. eexists. split; [done|].
    destruct (Z.eqb_spec (total !!! Z.to_nat i) 0).
    + right. split; [done|]. exists i. split; [lia|done].
    + destruct IH as [[-> H]|[-> (d & ? & ?)]].
      * left. split; [done|]. intros d Hd. destruct (decide (d = i)) as [->|]; [done|]. apply H. lia.
      * right. split; [done|]. exists d. split; [lia|done].
  - exists a. split; [done|].
    destruct HP as [[-> H]|[-> (d & ? & ?)]].
    + left. split; [done|]. intros. apply H. lia.
    + right. split; [done|]. exists d. split; [lia|done].
Qed.

(** The arrays of the struct, before they are filled in. *)
Definition ms_arrays (ms : multislice) : Prop :=
  Z.of_nat (length (ms_total_count ms)) = HDFSTREAM_MAX_DIMS ∧
  Z.of_nat (length (ms_start ms)) = HDFSTREAM_MAX_DIMS ∧
  Z.of_nat (length (ms_count ms)) = HDFSTREAM_MAX_DIMS.

Definition accepted (rank nr_slices : Z) (starts counts dims : list Z) : Prop :=
  (0 ≤ rank ≤ HDFSTREAM_MAX_DIMS ∧ 1 ≤ nr_slices ≤ HDFSTREAM_MAX_SLICES)%Z ∧
  ((0 < rank)%Z → ∀ k, (0 ≤ k < nr_slices)%Z → slice_checked rank starts counts dims k).

(** The struct after a successful initialization, for valid slices. *)
Record init_post (rank n : Z) (starts counts : list Z) (epb : Z) (ms : multislice) : Prop := {
  ip_inv : ms_inv ms (slices_of rank n starts counts);
  ip_pending : pending (slices_of rank n starts counts) (Z.to_nat (ms_slice_nr ms))
                 (ms_offset_in_slice ms) = all_rows (slices_of rank n starts counts);
  ip_epb : ms_elements_per_buffer ms = epb;
  ip_arrays : ms_arrays ms;
  ip_rank : ms_rank ms = rank;
  ip_start : ∀ d, (1 ≤ d < rank)%Z → ms_start ms !! Z.to_nat d = Some (entry rank starts 0 d);
  ip_count : ∀ d, (1 ≤ d < rank)%Z → ms_count ms !! Z.to_nat d = Some (entry rank counts 0 d);
  ip_total : ms_total_count ms !!! 0 = Z.of_nat (length (all_rows (slices_of rank n starts counts)));
  ip_totals : ∀ d, (1 ≤ d < rank)%Z → ms_total_count ms !! Z.to_nat d = Some (entry rank counts 0 d);
  ip_left : ms_elements_left_total ms = ms_total_count ms !!! 0 ∧
              (∀ d, (1 ≤ d < rank)%Z → entry rank counts 0 d ≠ 0%Z) ∨
            ms_elements_left_total ms = 0%Z ∧
              (ms_total_count ms !!! 0 = 0%Z ∨ ∃ d, (1 ≤ d < rank)%Z ∧ entry rank counts 0 d = 0%Z);
}.

Lemma valid_ends rank n starts counts dims :
  (0 < rank)%Z → request_ok rank n starts counts dims → no_wrap starts counts →
  Forall (λ sc, 0 ≤ sc.1 ∧ 0 ≤ sc.2 ∧ sc.1 + sc.2 < 2 ^ 64)%Z (slices_of rank n starts counts).
Proof.
  intros Hr Hrq Hw. apply Forall_lookup. intros i [s c] Hl.
  apply slices_of_lookup in Hl as (-> & -> & Hi). simpl.
  pose proof (entry_no_wrap _ _ _ _ _ Hrq Hr (Z.of_nat i) 0 Hw ltac:(lia) ltac:(lia)).
  destruct Hrq as [_ _ _ (Hs & Hc & _)].
  pose proof (entry_u64 rank starts (Z.of_nat i) 0 Hs).
  pose proof (entry_u64 rank counts (Z.of_nat i) 0 Hc). unfold is_u64 in *. lia.
Qed.

Lemma pos_ok_start rank n starts counts :
  (0 ≤ n)%Z → Forall (λ sc, 0 ≤ sc.1 ∧ 0 ≤ sc.2 ∧ sc.1 + sc.2 < 2 ^ 64)%Z (slices_of rank n starts counts) →
  pos_ok (slices_of rank n starts counts) 0 0.
Proof.
  intros Hn He. split; [lia|]. intros sc Hl. rewrite Forall_lookup in He.
  specialize (He _ _ Hl). lia.
Qed.

(** The successful end of [multislice_init], from the arrays it fills in. *)
Lemma init_post_intro rank n starts counts dims epb total start count left1 :
  (0 < rank ≤ HDFSTREAM_MAX_DIMS)%Z → (1 ≤ n)%Z →
  request_ok rank n starts counts dims → no_wrap starts counts →
  Z.of_nat (length total) = HDFSTREAM_MAX_DIMS →
  Z.of_nat (length start) = HDFSTREAM_MAX_DIMS →
  Z.of_nat (length count) = HDFSTREAM_MAX_DIMS →
  (∀ d, (1 ≤ d < rank)%Z → start !! Z.to_nat d = Some (entry rank starts 0 d)) →
  (∀ d, (1 ≤ d < rank)%Z → count !! Z.to_nat d = Some (entry rank counts 0 d)) →
  (∀ d, (1 ≤ d < rank)%Z → total !! Z.to_nat d = Some (entry rank counts 0 d)) →
  (total !!! 0 = Z.of_nat (length (all_rows (slices_of rank n starts counts)))) →
  (total !!! 0%nat < 2 ^ 64)%Z →
  ((left1 = total !!! 0 ∧ ∀ d, (0 ≤ d < rank)%Z → total !!! Z.to_nat d ≠ 0%Z) ∨
   (left1 = 0%Z ∧ ∃ d, (0 ≤ d < rank)%Z ∧ total !!! Z.to_nat d = 0%Z)) →
  init_post rank n starts counts epb
    (Multislice rank n starts counts epb left1 0 0 total start count).
Proof.
  intros Hr Hn Hrq Hw Ht Hs Hc Hst Hct Htd Ht0 Hlt Hleft.
  pose proof (valid_ends rank n starts counts dims ltac:(lia) Hrq Hw) as Hends.
  assert (0 ≤ left1 ≤ total !!! 0%nat)%Z by (destruct Hleft as [[-> ?]|[-> ?]]; lia).
  split; try done; simpl.
  - split; simpl; [| |rewrite pending_start, drop_0, <- Ht0; lia].
    + destruct Hrq. split; simpl; try done; lia.
    + apply pos_ok_start; [lia|done].
  - by rewrite pending_start.
  - destruct Hleft as [[-> H']|[-> (d & Hd & H')]]; [left|right]; (split; [done|]).
    + intros d Hd. specialize (H' d ltac:(lia)).
      by rewrite (list_lookup_total_correct _ _ _ (Htd d Hd)) in H'.
    + destruct (decide (d = 0%Z)) as [->|]; [by left|right]. exists d. split; [lia|].
      by rewrite (list_lookup_total_correct _ _ _ (Htd d ltac:(lia))) in H'.
Qed.

Lemma list_insert_total_0 (l : list Z) x : (0 < Z.of_nat (length l))%Z → <[0:=x]> l !!! 0 = x.
Proof. intros. rewrite list_lookup_total_insert_eq; [done|lia]. Qed.

Lemma entry_first rank a d : (0 ≤ d)%Z → entry rank a 0 d = a !!! Z.to_nat d.
Proof. intros. unfold entry. by rewrite Z.mul_0_r. Qed.

(** An entry of an array into which [copy_dims] copied the first slice. *)
Lemma copied_entry rank n d (a a0 b : list Z) :
  (1 ≤ n)%Z → Z.of_nat (length b) = (rank * n)%Z → (1 ≤ d < rank)%Z →
  (∀ d : nat, a !! d = if decide (1 ≤ Z.of_nat d < rank)%Z then b !! d else a0 !! d) →
  a !! Z.to_nat d = Some (entry rank b 0 d).
Proof.
  intros Hn Hl Hd Hlk. rewrite Hlk, decide_True, entry_first by lia. apply list_lookup_lookup_total_lt. nia.
Qed.

(** The arrays that [multislice_init] fills in for accepted slices. *)
Lemma init_arrays ms0 rank n starts counts epb dims :
  ms_arrays ms0 → (0 < rank ≤ HDFSTREAM_MAX_DIMS)%Z → (1 ≤ n)%Z → request_ok rank n starts counts dims →
  ∃ total1 start count sum left1,
    copy_dims rank counts (ms_total_count ms0) = Some total1 ∧
    copy_dims rank starts (ms_start ms0) = Some start ∧ copy_dims rank counts (ms_count ms0) = Some count ∧
    for_range (Z.to_nat n) 0 (λ i acc, c ← arr_get counts (i * rank + 0); Some (u64 (acc + c))) 0%Z = Some sum ∧
    arr_set total1 0 sum = Some (<[0:=sum]> total1) ∧
    arr_get (<[0:=sum]> total1) 0 = Some sum ∧
    for_range (Z.to_nat rank) 0 (λ i left, c ← arr_get (<[0:=sum]> total1) i;
      Some (if (c =? 0)%Z then 0%Z else left)) sum = Some left1 ∧
    (no_wrap starts counts → slices_valid rank n starts counts dims →
     init_post rank n starts counts epb (Multislice rank n starts counts epb left1 0 0 (<[0:=sum]> total1) start count)).
Proof.
  intros (Ha1 & Ha2 & Ha3) Hr Hn Hrq. unfold HDFSTREAM_MAX_DIMS in *.
  pose proof (rq_starts _ _ _ _ _ Hrq) as Hls. pose proof (rq_counts _ _ _ _ _ Hrq) as Hlc.
  destruct (copy_dims_spec rank counts (ms_total_count ms0)) as (t1 & -> & Lt1 & Et1); [nia|lia|].
  destruct (copy_dims_spec rank starts (ms_start ms0)) as (st & -> & Lst & Est); [nia|lia|].
  destruct (copy_dims_spec rank counts (ms_count ms0)) as (ct & -> & Lct & Ect); [nia|lia|].
  destruct (total_spec rank n starts counts dims Hrq ltac:(lia)) as (total & -> & Hu & Htotal).
  destruct (zero_dims_spec rank (<[0:=total]> t1) total) as (left1 & Hl1 & Hleft); [rewrite length_insert; lia|].
  exists t1, st, ct, total, left1. do 4 (split; [done|]). split; [by apply arr_set_total; lia|].
  split; [rewrite arr_get_total by (rewrite length_insert; lia); by rewrite list_insert_total_0 by lia|].
  split; [done|]. intros Hw Hv.
  specialize (Htotal Hw Hv).
  eapply init_post_intro; unfold HDFSTREAM_MAX_DIMS; try done; try lia;
    rewrite ?length_insert, ?list_insert_total_0; try done; try lia.
  - intros d Hd. by eapply copied_entry.
  - intros d Hd. by eapply copied_entry.
  - intros d Hd. rewrite list_lookup_insert_ne by lia. by eapply copied_entry.
  - unfold is_u64 in Hu. lia.
Qed.

Lemma multislice_init_spec ms0 rank nr_slices starts counts epb dims :
  ms_arrays ms0 →
  ((0 < rank)%Z → request_ok rank nr_slices starts counts dims) →
  ∃ r ms, multislice_init ms0 rank nr_slices starts counts epb dims = Some (r, ms) ∧
    (r = 0 ∨ r = -1)%Z ∧ (r = 0%Z ↔ accepted rank nr_slices starts counts dims) ∧
    (r = 0%Z → (0 < rank)%Z → no_wrap starts counts →
     init_post rank nr_slices starts counts epb ms) ∧
    (r = 0%Z → rank = 0%Z → ms_rank ms = 0%Z ∧ ms_nr_slices ms = 0%Z ∧ ms_elements_left_total ms = 1%Z).
Proof.
  intros Ha Hrq. unfold multislice_init, accepted.
  destruct (HDFSTREAM_MAX_DIMS <? rank)%Z eqn:E1.
  { eexists _, _. split; [done|]. split; [by right|]. split; [split; [done|lia]|done]. }
  destruct (rank <? 0)%Z eqn:E2.
  { eexists _, _. split; [done|]. split; [by right|]. split; [split; [done|lia]|done]. }
  destruct (HDFSTREAM_MAX_SLICES <? nr_slices)%Z eqn:E3.
  { eexists _, _. split; [done|]. split; [by right|]. split; [split; [done|lia]|done]. }
  destruct (nr_slices <? 1)%Z eqn:E4.
  { eexists _, _. split; [done|]. split; [by right|]. split; [split; [done|lia]|done]. }
  destruct (0 <? rank)%Z eqn:E0; last first.
  { assert (rank = 0%Z) as -> by lia. simpl. eexists _, _. split; [done|].
    split; [by left|]. split; [|split; [lia|done]]. split; [|done]. intros _. split; [|lia].
    unfold HDFSTREAM_MAX_SLICES, HDFSTREAM_MAX_DIMS in *. lia. }
  apply Z.ltb_lt in E0. specialize (Hrq E0).
  destruct (all_range_spec (slice_checked rank starts counts dims)
     (slice_ok rank starts counts dims) (Z.to_nat nr_slices) 0) as (ok & -> & Hok).
  { intros k Hk. eapply slice_ok_spec; [done|done|lia]. }
  rewrite Z2Nat.id in Hok by lia. simpl. destruct ok; simpl; last first.
  { eexists _, _. split; [done|]. split; [by right|]. split; [|done]. split; [done|].
    intros [_ H]. by apply Hok in H. }
  assert (∀ k, (0 ≤ k < nr_slices)%Z → slice_checked rank starts counts dims k) as Hchk
    by (intros k Hk; apply Hok; [done|lia]).
  destruct (init_arrays ms0 rank nr_slices starts counts epb dims Ha ltac:(lia) ltac:(lia) Hrq)
    as (t1 & st & ct & sum & left1 & -> & -> & -> & Hsum & Hset & Hget & Hleft & Hpost).
  simpl in Hsum |- *. rewrite Hsum. simpl. rewrite Hset. simpl. rewrite Hget. simpl. rewrite Hleft. simpl.
  eexists _, _. split; [done|]. split; [by left|]. split; [split; [intros _; split; [lia|done]|done]|].
  split; [|lia]. intros _ _ Hw. apply Hpost; [done|]. by eapply slices_checked_valid.
Qed.

(** ** Reading everything *)

(** The buffers that successive calls select until no rows are left. *)
Fixpoint drain (fuel : nat) (ms : multislice) : option (list fill) :=
  match fuel with
  | 0 => None
  | S k => if (ms_elements_left_total ms =? 0)%Z then Some [] else
           f ← fill_buffer ms;
           fs ← drain k (advance ms f (ms_start ms) (ms_count ms));
           Some (f :: fs)
  end.

Lemma drain_ok fuel ms l :
  ms_inv ms l → (0 < ms_elements_per_buffer ms)%Z →
  (ms_elements_left_total ms < Z.of_nat fuel)%Z →
  ∃ fs, drain fuel ms = Some fs ∧
    concat (buffer_rows <$> fs) = take (Z.to_nat (ms_elements_left_total ms))
      (pending l (Z.to_nat (ms_slice_nr ms)) (ms_offset_in_slice ms)) ∧
    Forall (λ f, 0 < Z.of_nat (length (buffer_rows f)) ≤ ms_elements_per_buffer ms)%Z fs.
Proof.
  revert ms. induction fuel as [|k IH]; intros ms Hinv Hepb Hfuel.
  { destruct Hinv. lia. }
  simpl. destruct (ms_elements_left_total ms =? 0)%Z eqn:E0.
  { exists []. split; [done|]. apply Z.eqb_eq in E0. rewrite E0. done. }
  pose proof (mi_total _ _ Hinv).
  destruct (fill_buffer_ok ms l) as (f & Hf & Hfo & Hn & _); [done|done|lia|].
  destruct (advance_inv ms l f (ms_start ms) (ms_count ms) Hinv Hfo) as (Hinv' & Hp & Hlen & Hleft).
  pose proof (proj1 (mi_total _ _ Hinv')).
  rewrite Hf. simpl.
  destruct (IH (advance ms f (ms_start ms) (ms_count ms))) as (fs & -> & Hcat & Hall);
    [done|done|lia|].
  exists (f :: fs). split; [done|]. split; [|by constructor; [simpl in *; lia|]].
  rewrite fmap_cons. cbn [concat]. rewrite Hcat, Hp, Hleft. simpl in *.
  rewrite take_app_ge by lia. f_equal. f_equal. lia.
Qed.

(** Valid slices are read in strictly ascending row order. *)
Lemma seqZ_sorted s c : StronglySorted Z.lt (seqZ s c).
Proof.
  destruct (decide (0 ≤ c)%Z); [|by rewrite seqZ_nil by lia; constructor].
  revert s. pattern c. apply natlike_ind; [|intros k ? IH s|done].
  - intros s. constructor.
  - rewrite seqZ_cons by lia. constructor; [by rewrite Z.pred_succ|].
    apply Forall_forall. intros x Hx%elem_of_seqZ. lia.
Qed.

Lemma StronglySorted_app_2 {A} (R : A → A → Prop) l1 l2 :
  StronglySorted R l1 → StronglySorted R l2 →
  (∀ x y, x ∈ l1 → y ∈ l2 → R x y) → StronglySorted R (l1 ++ l2).
Proof.
  intros H1 H2 HR. induction H1 as [|x l1 H1 IH Hx]; simpl; [done|].
  constructor; [apply IH; set_solver|].
  apply Forall_app. split; [done|]. apply Forall_forall. intros y Hy.
  apply HR; set_solver.
Qed.

Lemma elem_of_all_rows x l : x ∈ all_rows l ↔ ∃ s c, (s, c) ∈ l ∧ (s ≤ x < s + c)%Z.
Proof.
  induction l as [|[s c] l IH].
  - unfold all_rows. simpl. set_solver.
  - change (all_rows ((s, c) :: l)) with (seqZ s c ++ all_rows l).
    rewrite elem_of_app, IH, elem_of_seqZ. set_solver.
Qed.

Lemma ascending_rows l :
  (∀ i j s c s' c', i < j → l !! i = Some (s, c) → l !! j = Some (s', c') → (s + c ≤ s')%Z) →
  StronglySorted Z.lt (all_rows l).
Proof.
  induction l as [|[s c] l IH]; intros Hasc; [constructor|].
  change (all_rows ((s, c) :: l)) with (seqZ s c ++ all_rows l).
  apply StronglySorted_app_2; [apply seqZ_sorted| |].
  - apply IH. intros i j s1 c1 s2 c2 ? ? ?. apply (Hasc (S i) (S j) s1 c1 s2 c2); [lia|done..].
  - intros x y Hx%elem_of_seqZ (s' & c' & Hl & ?)%elem_of_all_rows.
    apply list_elem_of_lookup in Hl as [j Hj].
    pose proof (Hasc 0 (S j) s c s' c' ltac:(lia) eq_refl Hj). lia.
Qed.

(** Consecutive slices are ordered, so all of them are. *)
Lemma valid_ascending rank n starts counts dims i j s c s' c' :
  (0 < rank)%Z → request_ok rank n starts counts dims →
  slices_valid rank n starts counts dims → i < j →
  slices_of rank n starts counts !! i = Some (s, c) →
  slices_of rank n starts counts !! j = Some (s', c') → (s + c ≤ s')%Z.
Proof.
  intros Hr Hrq Hv Hij Hi. revert s' c'. induction Hij as [|j Hij IH]; intros s' c' Hj.
  all: apply slices_of_lookup in Hj as (-> & -> & Hj).
  all: pose proof (slices_of_lookup _ _ _ _ _ _ _ Hi) as (-> & -> & _).
  - destruct (Hv (Z.of_nat (S i)) ltac:(lia)) as [_ H]. specialize (H ltac:(lia)) as [H _].
    by replace (Z.of_nat (S i) - 1)%Z with (Z.of_nat i) in H by lia.
  - destruct (Hv (Z.of_nat (S j)) ltac:(lia)) as [_ H]. specialize (H ltac:(lia)) as [H _].
    replace (Z.of_nat (S j) - 1)%Z with (Z.of_nat j) in H by lia.
    pose proof (slices_of_get rank n starts counts (Z.of_nat j) ltac:(lia)) as Hj'.
    rewrite Nat2Z.id in Hj'. specialize (IH _ _ Hj').
    destruct Hrq as [_ _ _ (_ & Hc & _)].
    pose proof (entry_u64 rank counts (Z.of_nat j) 0 Hc). unfold is_u64 in *. lia.
Qed.

Section next_buffer_spec.
Context `{H5SpaceLaws}.

(** One call on an array dataset. *)
Lemma next_buffer_spec debug ms l id sp lb :
  ms_inv ms l → ms_arrays ms → (0 < ms_elements_per_buffer ms)%Z →
  spaces lb !! id = Some sp → Z.of_nat (length (extent sp)) = ms_rank ms →
  (ms_rank ms ≤ HDFSTREAM_MAX_DIMS)%Z → (0 < ms_elements_left_total ms)%Z →
  ∃ r f ms' lb' sp', fill_buffer ms = Some f ∧
    multislice_select_next_buffer_data debug ms id lb = Some (r, Some (f_nr_elements f), ms', lb') ∧
    (r = 0 ∨ r = -1)%Z ∧
    ms' = advance ms f (ms_start ms') (ms_count ms') ∧
    tail (ms_start ms') = tail (ms_start ms) ∧ tail (ms_count ms') = tail (ms_count ms) ∧
    spaces lb' = <[id := sp']> (spaces lb) ∧ extent sp' = extent sp ∧
    (r = 0%Z → points sp' ≡ slabs (length (extent sp)) (ms_start ms) (ms_count ms)
                             (zip (f_start f) (f_count f))).
Proof.
  intros Hinv (Ha1 & Ha2 & Ha3) Hepb Hid Hrk Hmx Hleft.
  unfold HDFSTREAM_MAX_DIMS in *.
  destruct (fill_buffer_ok ms l) as (f & Hf & Hfo & Hn & _ & Hns); [done|done|lia|].
  unfold multislice_select_next_buffer_data.
  replace (ms_elements_left_total ms =? 0)%Z with false by lia.
  pose proof (ok_rank _ _ (mi_ok _ _ Hinv)).
  replace (ms_rank ms =? 0)%Z with false by lia.
  destruct (H5Sselect_none id lb) as [e lb1] eqn:He.
  pose proof (H5Sselect_none_law lb id sp Hid) as Hlaw. rewrite He in Hlaw.
  destruct Hlaw as (sp1 & Hs1 & He1 & _).
  rewrite Hf. simpl. pose proof (fo_len _ _ _ _ Hfo) as Hlen.
  destruct (select_slices_wp debug id sp1 (f_start f) (f_count f) (length (f_start f))
    (SelStore lb1 (ms_start ms) (ms_count ms))) as (r & s' & Hsel & sp' & Hs' & He' & Ht & Hp); simpl;
    [rewrite Hs1; apply lookup_insert_eq|destruct (ms_start ms); simpl in *; lia || done|
     destruct (ms_count ms); simpl in *; lia || done|lia|lia|rewrite He1; lia|].
  rewrite Hns, Hsel. simpl. eexists _, f, _, (lib s'), sp'. split; [done|]. split; [done|].
  split; [case_match; lia|]. simpl. destruct Ht as (Ht1 & Ht2 & _). simpl in *.
  split; [done|]. split; [done|]. split; [done|]. rewrite Hs', Hs1, insert_insert_eq.
  split; [done|]. split; [congruence|]. intros Hr. case_match; [lia|].
  rewrite Hp, He1 by lia. unfold sel_pairs. rewrite drop_0, take_ge; [done|].
  rewrite length_zip_with. lia.
Qed.
End next_buffer_spec.

(** * Properties *)

(** C26: [multislice_init] never reads out of its arrays and accepts exactly the
    requests its comments describe (rank and slice count within the limits, slices
    inside the dataset, ascending, not overlapping, equal in the other dimensions),
    as long as no [start+count] exceeds 64 bits. *)
Theorem multislice_init_accepts_valid ms0 rank nr_slices starts counts epb dims :
  ms_arrays ms0 →
  ((0 < rank)%Z → request_ok rank nr_slices starts counts dims) →
  no_wrap starts counts →
  ∃ r ms, multislice_init ms0 rank nr_slices starts counts epb dims = Some (r, ms) ∧
    (r = 0 ∨ r = -1)%Z ∧
    (r = 0%Z ↔ (0 ≤ rank ≤ HDFSTREAM_MAX_DIMS)%Z ∧ (1 ≤ nr_slices ≤ HDFSTREAM_MAX_SLICES)%Z ∧
               ((0 < rank)%Z → slices_valid rank nr_slices starts counts dims)).
Proof.
  intros Ha Hrq Hw.
  destruct (multislice_init_spec ms0 rank nr_slices starts counts epb dims Ha Hrq)
    as (r & ms & Hi & Hr & Hacc & _). exists r, ms. split; [done|]. split; [done|].
  rewrite Hacc. unfold accepted. split.
  - intros [[? ?] Hchk]. split; [done|]. split; [done|]. intros Hr0.
    eapply slices_checked_valid; eauto.
  - intros (? & ? & Hv). split; [done|]. intros Hr0.
    eapply slices_checked_valid; eauto.
Qed.

(** C28: the bounds check adds [start] and [count] in 64 bits: a one-dimensional
    request whose end wraps around is accepted although it starts beyond the
    end of the dataset. *)
Theorem multislice_init_accepts_wrapped ms0 epb d :
  ms_arrays ms0 → (1 ≤ d < 2 ^ 64 - 1)%Z →
  ∃ ms, multislice_init ms0 1 1 [2 ^ 64 - 1]%Z [2]%Z epb [d] = Some (0%Z, ms) ∧
    ¬ slices_valid 1 1 [2 ^ 64 - 1]%Z [2]%Z [d] ∧ ms_elements_left_total ms = 2%Z.
Proof.
  intros (Ha1 & Ha2 & Ha3) Hd. unfold HDFSTREAM_MAX_DIMS in *.
  assert (slice_ok 1 [2 ^ 64 - 1]%Z [2]%Z [d] 0 = Some true) as Hok.
  { unfold slice_ok. simpl. change (u64 (2 ^ 64 - 1 + 2)) with 1%Z.
    by replace (d <? 1)%Z with false by lia. }
  unfold multislice_init. simpl. rewrite Hok. simpl.
  rewrite arr_set_total by lia. simpl.
  rewrite !arr_get_total by (rewrite length_insert; lia). simpl.
  change (Z.to_nat 0) with 0%nat. rewrite !list_insert_total_0 by lia. simpl.
  eexists. split; [done|]. split; [|done].
  intros Hv. destruct (Hv 0%Z) as [H _]; [lia|]. specialize (H 0%Z ltac:(lia)).
  unfold entry in H. simpl in H. lia.
Qed.

(** C25: after a successful [multislice_init], filling buffers until nothing is left
    terminates, no [assert] fails, every buffer holds between one row and
    [elements_per_buffer] rows, and the rows of all buffers, concatenated, are the
    rows of all slices in order (nothing if some other dimension has size zero). *)
Theorem multislice_reads_all_slices ms0 rank nr_slices starts counts epb dims :
  ms_arrays ms0 → request_ok rank nr_slices starts counts dims → no_wrap starts counts →
  (0 < rank ≤ HDFSTREAM_MAX_DIMS)%Z → (1 ≤ nr_slices ≤ HDFSTREAM_MAX_SLICES)%Z →
  slices_valid rank nr_slices starts counts dims → (0 < epb)%Z →
  ∃ ms fs, multislice_init ms0 rank nr_slices starts counts epb dims = Some (0%Z, ms) ∧
    drain (S (Z.to_nat (ms_elements_left_total ms))) ms = Some fs ∧
    Forall (λ f, 0 < Z.of_nat (length (buffer_rows f)) ≤ epb)%Z fs ∧
    (concat (buffer_rows <$> fs) = all_rows (slices_of rank nr_slices starts counts) ∨
     concat (buffer_rows <$> fs) = [] ∧
       ∃ d, (1 ≤ d < rank)%Z ∧ entry rank counts 0 d = 0%Z).
Proof.
  intros Ha Hrq Hw Hr Hn Hv Hepb.
  destruct (multislice_init_spec ms0 rank nr_slices starts counts epb dims Ha (λ _, Hrq))
    as (r & ms & Hi & _ & Hacc & Hpost & _).
  assert (r = 0%Z) as ->.
  { apply Hacc. split; [split; lia|]. intros Hr0. by eapply slices_checked_valid. }
  destruct (Hpost eq_refl ltac:(lia) Hw). exists ms.
  destruct (drain_ok (S (Z.to_nat (ms_elements_left_total ms))) ms
    (slices_of rank nr_slices starts counts)) as (fs & Hfs & Hcat & Hall); [done|lia|lia|].
  exists fs. split; [done|]. split; [done|]. split; [by rewrite <- ip_epb0|].
  rewrite Hcat, ip_pending0.
  destruct ip_left0 as [[-> _]|[-> [H0|H0]]].
  - left. apply take_ge. rewrite ip_total0. lia.
  - left. rewrite take_0. symmetry. apply nil_length_inv. lia.
  - right. split; [done|]. done.
Qed.

(** the rows of a valid request are read in strictly ascending order, so the
    order in which HDF5 visits a selection is the order of the slices. *)
Theorem multislice_rows_ascending rank n starts counts dims :
  (0 < rank)%Z → request_ok rank n starts counts dims →
  slices_valid rank n starts counts dims →
  StronglySorted Z.lt (all_rows (slices_of rank n starts counts)).
Proof.
  intros Hr Hrq Hv. apply ascending_rows. intros i j s c s' c' Hij Hi Hj.
  by eapply valid_ascending.
Qed.

(** One call of [multislice_select_next_buffer_data] on an array dataset is safe
    and returns 0 or -1; it fills in one buffer, leaves all dataspaces but the file's
    as they were, and when it returns 0 the file dataspace selects exactly the
    rows of that buffer (within the slice's extent in the other dimensions). *)
Lemma multislice_next_buffer_selection `{H5SpaceLaws} debug ms l id sp lb :
  ms_inv ms l → ms_arrays ms → (0 < ms_elements_per_buffer ms)%Z →
  spaces lb !! id = Some sp → Z.of_nat (length (extent sp)) = ms_rank ms →
  (ms_rank ms ≤ HDFSTREAM_MAX_DIMS)%Z → (0 < ms_elements_left_total ms)%Z →
  ∃ r f ms' lb' sp', fill_buffer ms = Some f ∧
    multislice_select_next_buffer_data debug ms id lb = Some (r, Some (f_nr_elements f), ms', lb') ∧
    (r = 0 ∨ r = -1)%Z ∧ ms_inv ms' l ∧
    (ms_elements_left_total ms' = ms_elements_left_total ms - f_nr_elements f)%Z ∧
    pending l (Z.to_nat (ms_slice_nr ms)) (ms_offset_in_slice ms) =
      buffer_rows f ++ pending l (Z.to_nat (ms_slice_nr ms')) (ms_offset_in_slice ms') ∧
    spaces lb' = <[id := sp']> (spaces lb) ∧
    (r = 0%Z → points sp' ≡ slabs (length (extent sp)) (ms_start ms) (ms_count ms)
                             (zip (f_start f) (f_count f))).
Proof.
  intros Hinv Ha Hepb Hid Hrk Hmx Hleft.
  destruct (next_buffer_spec debug ms l id sp lb)
    as (r & f & ms' & lb' & sp' & Hf & Hr & Hr' & Hms & _ & _ & Hsp & _ & Hp); [done..|].
  destruct (fill_buffer_ok ms l) as (f' & Hf' & Hfo & _); [done|done|done|].
  rewrite Hf in Hf'. simplify_eq.
  destruct (advance_inv ms l f' (ms_start ms') (ms_count ms') Hinv Hfo) as (Hinv' & Hpe & _ & Hl).
  rewrite <- Hms in Hinv', Hl.
  exists r, f', ms', lb', sp'. repeat (split; [done|]).
  split; [|done]. rewrite Hms. done.
Qed.

(** ** Witnesses *)

Definition blank_ms : multislice :=
  Multislice 0 0 [] [] 0 0 0 0 (replicate 32 7%Z) (replicate 32 7%Z) (replicate 32 7%Z).
Definition req_starts : list Z := [0; 0; 5; 0; 9; 0]%Z.
Definition req_counts : list Z := [2; 3; 0; 3; 4; 3]%Z.
Definition req_dims : list Z := [40; 3]%Z.

Lemma blank_arrays : ms_arrays blank_ms.
Proof. done. Qed.
Lemma req_ok : request_ok 2 3 req_starts req_counts req_dims.
Proof. split; simpl; try done. split; [|split]; repeat constructor; done. Qed.
Lemma req_no_wrap : no_wrap req_starts req_counts.
Proof. intros [|[|[|[|[|[|i]]]]]] s c; simpl; intros; simplify_eq; lia. Qed.
Lemma req_valid : slices_valid 2 3 req_starts req_counts req_dims.
Proof.
  intros k Hk. assert (k = 0 ∨ k = 1 ∨ k = 2)%Z as [->|[->| ->]] by lia;
    (split; [intros d Hd; assert (d = 0 ∨ d = 1)%Z as [->| ->] by lia; by vm_compute|]);
    intros ?; try lia; (split; [by vm_compute|]); intros d Hd;
    assert (d = 1)%Z as -> by lia; done.
Qed.

Example multislice_run :
  match multislice_init blank_ms 2 3 req_starts req_counts 3 req_dims with
  | Some (r, ms) => (r, option_map (map buffer_rows) (drain 10 ms))
  | None => (1%Z, None)
  end = (0, Some [[0; 1; 9]; [10; 11; 12]])%Z.
Proof. vm_compute. reflexivity. Qed.

Lemma multislice_init_accepts_valid_witness :
  ∃ r ms, multislice_init blank_ms 2 3 req_starts req_counts 3 req_dims = Some (r, ms) ∧
    (r = 0 ∨ r = -1)%Z ∧
    (r = 0%Z ↔ (0 ≤ 2 ≤ HDFSTREAM_MAX_DIMS)%Z ∧ (1 ≤ 3 ≤ HDFSTREAM_MAX_SLICES)%Z ∧
               ((0 < 2)%Z → slices_valid 2 3 req_starts req_counts req_dims)).
Proof.
  exact (multislice_init_accepts_valid blank_ms 2 3 req_starts req_counts 3 req_dims
           blank_arrays (λ _, req_ok) req_no_wrap).
Defined.

Lemma multislice_init_accepts_wrapped_witness :
  ∃ ms, multislice_init blank_ms 1 1 [2 ^ 64 - 1]%Z [2]%Z 100 [10]%Z = Some (0%Z, ms) ∧
    ¬ slices_valid 1 1 [2 ^ 64 - 1]%Z [2]%Z [10]%Z ∧ ms_elements_left_total ms = 2%Z.
Proof. apply (multislice_init_accepts_wrapped blank_ms 100 10 blank_arrays). lia. Defined.

Lemma multislice_reads_all_slices_witness :
  ∃ ms fs, multislice_init blank_ms 2 3 req_starts req_counts 3 req_dims = Some (0%Z, ms) ∧
    drain (S (Z.to_nat (ms_elements_left_total ms))) ms = Some fs ∧
    Forall (λ f, 0 < Z.of_nat (length (buffer_rows f)) ≤ 3)%Z fs ∧
    (concat (buffer_rows <$> fs) = all_rows (slices_of 2 3 req_starts req_counts) ∨
     concat (buffer_rows <$> fs) = [] ∧
       ∃ d, (1 ≤ d < 2)%Z ∧ entry 2 req_counts 0 d = 0%Z).
Proof.
  apply (multislice_reads_all_slices blank_ms 2 3 req_starts req_counts 3 req_dims
           blank_arrays req_ok req_no_wrap); [by vm_compute|by vm_compute|exact req_valid|lia].
Defined.

Lemma multislice_rows_ascending_witness :
  StronglySorted Z.lt (all_rows (slices_of 2 3 req_starts req_counts)).
Proof.
  apply (multislice_rows_ascending 2 3 req_starts req_counts req_dims); [lia| |].
  - exact req_ok.
  - exact req_valid.
Defined.

(** The state after initialization, and a library with the dataset's dataspace. *)
Definition req_ms : multislice :=
  match multislice_init blank_ms 2 3 req_starts req_counts 3 req_dims with
  | Some (_, ms) => ms | None => blank_ms end.
Definition req_lib : h5 (H5Space := H5Table.table_space) :=
  H5Table.Table {[ 7%Z := H5Table.CSpace req_dims [] ]} 8.

Lemma req_ms_inv : ms_inv req_ms (slices_of 2 3 req_starts req_counts).
Proof.
  destruct (multislice_init_spec blank_ms 2 3 req_starts req_counts 3 req_dims
    blank_arrays (λ _, req_ok)) as (r & ms & Hi & _ & _ & Hpost & _).
  unfold req_ms. rewrite Hi. vm_compute in Hi. simplify_eq.
  apply Hpost; [done|lia|exact req_no_wrap].
Qed.

Lemma multislice_next_buffer_selection_witness :
  ∃ r f ms' lb' sp', fill_buffer req_ms = Some f ∧
    multislice_select_next_buffer_data (H := H5Table.table_space) true req_ms 7 req_lib
      = Some (r, Some (f_nr_elements f), ms', lb') ∧
    (r = 0 ∨ r = -1)%Z ∧ ms_inv ms' (slices_of 2 3 req_starts req_counts) ∧
    (ms_elements_left_total ms' = ms_elements_left_total req_ms - f_nr_elements f)%Z ∧
    pending (slices_of 2 3 req_starts req_counts) 0 0 =
      buffer_rows f ++ pending (slices_of 2 3 req_starts req_counts)
                         (Z.to_nat (ms_slice_nr ms')) (ms_offset_in_slice ms') ∧
    H5Table.ctab lb' = <[7%Z := sp']> (H5Table.ctab req_lib) ∧
    (r = 0%Z → H5Table.cpoints sp' ≡ slabs 2 (ms_start req_ms) (ms_count req_ms)
                             (zip (f_start f) (f_count f))).
Proof.
  apply (multislice_next_buffer_selection (H0 := H5Table.table_laws) true req_ms
    (slices_of 2 3 req_starts req_counts) 7%Z (H5Table.CSpace req_dims []) req_lib req_ms_inv);
    by vm_compute.
Defined.
