(* ===== verification/Chains.v ===== *)
(** * Chains: doubly linked sequences of addresses

    Shared by the linked list (linked_list.c) and the list that threads the
    nodes of the AVL tree (avltree.c).  A chain is described through the
    function [lk] that gives the [prev] and [next] pointers stored at an
    address. *)
From stdpp Require Import base tactics numbers list gmap.
From S2P Require Import Prelude.

(** First and last address of a sequence, with the pointer to use if it is empty. *)
Definition hdp (l : list positive) (n : option positive) : option positive :=
  match l with [] => n | a :: _ => Some a end.
Definition lastp (p : option positive) (l : list positive) : option positive :=
  match last l with Some a => Some a | None => p end.

(** [chain lk p l n]: the addresses [l] are linked both ways; the first one's
    [prev] is [p], the last one's [next] is [n]. *)
Fixpoint chain (lk : positive → option (option positive * option positive))
    (p : option positive) (l : list positive) (n : option positive) : Prop :=
  match l with
  | [] => True
  | a :: l' => lk a = Some (p, hdp l' n) ∧ chain lk (Some a) l' n
  end.

Lemma lastp_nil p : lastp p [] = p.
Proof. done. Qed.
Lemma lastp_cons p a l : lastp p (a :: l) = lastp (Some a) l.
Proof. unfold lastp. destruct l as [|b l]; [done|]. change (last (a :: b :: l)) with (last (b :: l)).
  by destruct (last (b :: l)) eqn:E; [|apply last_None in E]. Qed.
Lemma lastp_snoc p l a : lastp p (l ++ [a]) = Some a.
Proof. unfold lastp. by rewrite last_snoc. Qed.
Lemma lastp_app p l1 l2 : lastp p (l1 ++ l2) = lastp (lastp p l1) l2.
Proof. revert p. induction l1 as [|a l1 IH]; intros p; simpl; [done|]. by rewrite !lastp_cons. Qed.
Lemma hdp_app l1 l2 n : hdp (l1 ++ l2) n = hdp l1 (hdp l2 n).
Proof. by destruct l1. Qed.
#[export] Hint Rewrite lastp_nil lastp_cons lastp_snoc lastp_app hdp_app : chains.

Lemma hdp_None l : hdp l None = None → l = [].
Proof. by destruct l. Qed.
Lemma hdp_head l a : hdp l None = Some a ↔ head l = Some a.
Proof. destruct l; simpl; split; congruence. Qed.
Lemma lastp_last l a : lastp None l = Some a ↔ last l = Some a.
Proof. unfold lastp. destruct (last l); split; congruence. Qed.

Section chain.
Implicit Types lk : positive → option (option positive * option positive).

Lemma chain_app lk p l1 l2 n :
  chain lk p (l1 ++ l2) n ↔ chain lk p l1 (hdp l2 n) ∧ chain lk (lastp p l1) l2 n.
Proof.
  revert p. induction l1 as [|a l1 IH]; intros p; simpl; [tauto|].
  rewrite IH, hdp_app, lastp_cons. tauto.
Qed.

Lemma chain_ext lk lk' p l n :
  (∀ x, x ∈ l → lk' x = lk x) → chain lk p l n → chain lk' p l n.
Proof.
  revert p. induction l as [|a l IH]; intros p Hext; simpl; [done|].
  intros [Ha Hl]. split; [rewrite Hext by set_solver; done|]. apply IH; [set_solver|done].
Qed.

Lemma chain_lookup lk p l1 a l2 n :
  chain lk p (l1 ++ a :: l2) n → lk a = Some (lastp p l1, hdp l2 n).
Proof. rewrite chain_app. simpl. tauto. Qed.

Lemma chain_elem lk p l n a : chain lk p l n → a ∈ l → is_Some (lk a).
Proof.
  intros Hc (l1 & l2 & ->)%list_elem_of_split. apply chain_lookup in Hc. rewrite Hc. eauto.
Qed.

(** Changing the two ends of a chain: every address keeps its links, except the
    first one's [prev] and the last one's [next]. *)
Lemma chain_relink lk lk' p l n p' n' :
  NoDup l → chain lk p l n →
  (∀ x pv nx, x ∈ l → lk x = Some (pv, nx) →
     lk' x = Some (if decide (hdp l None = Some x) then p' else pv,
                   if decide (lastp None l = Some x) then n' else nx)) →
  chain lk' p' l n'.
Proof.
  revert p p'. induction l as [|a l IH]; intros p p' Hnd Hc Hlk; simpl in *; [done|].
  destruct Hc as [Ha Hc]. apply NoDup_cons in Hnd as [Hni Hnd].
  pose proof (Hlk a _ _ ltac:(set_solver) Ha) as Ha'. rewrite decide_True in Ha' by done.
  destruct l as [|b l].
  - simpl in *. by rewrite decide_True in Ha' by done.
  - split.
    + rewrite Ha', decide_False; [done|]. rewrite lastp_last. intros Hl. apply Hni.
      simpl in Hl. by apply last_Some_elem_of in Hl.
    + eapply (IH (Some a)); [done|done|]. intros x pv nx Hx Hlx.
      rewrite (Hlk x pv nx) by (set_solver || done).
      rewrite decide_False by (simpl; intros [= ->]; set_solver).
      rewrite (decide_ext _ (lastp None (b :: l) = Some x)) by (by rewrite !lastp_last).
      destruct (decide (hdp (b :: l) None = Some x)) as [Hd|Hd]; [|done].
      simpl in Hd. simplify_eq. destruct Hc as [Hb _]. congruence.
Qed.

Lemma hdp_elem l y : hdp l None = Some y → y ∈ l.
Proof. destruct l; intros [= ->]. constructor. Qed.
Lemma lastp_elem l y : lastp None l = Some y → y ∈ l.
Proof. intros Hl%lastp_last. by apply last_Some_elem_of. Qed.
Lemma lastp_default p l : l ≠ [] → lastp p l = lastp None l.
Proof. unfold lastp. destruct (last l) eqn:E; [done|]. by apply last_None in E. Qed.

(** Linking a new address behind the last one. *)
Lemma chain_snoc lk lk' l a :
  NoDup l → a ∉ l → chain lk None l None →
  lk' a = Some (lastp None l, None) →
  (∀ x pv nx, x ∈ l → lk x = Some (pv, nx) →
     lk' x = Some (pv, if decide (lastp None l = Some x) then Some a else nx)) →
  chain lk' None (l ++ [a]) None.
Proof.
  intros Hn Ha Hc Hlka Hlk. apply chain_app. split; [|done].
  eapply chain_relink; [exact Hn|exact Hc|]. intros x pv nx Hx Hlx. rewrite (Hlk x pv nx Hx Hlx).
  destruct (decide (hdp l None = Some x)) as [Hh|]; [|done]. destruct l; simpl in *; [done|]. simplify_eq.
  destruct Hc as [Hc _]. congruence.
Qed.

(** Unlinking an address. *)
Lemma chain_remove lk lk' l1 a l2 :
  NoDup (l1 ++ a :: l2) → chain lk None (l1 ++ a :: l2) None →
  (∀ x pv nx, x ≠ a → lk x = Some (pv, nx) →
     lk' x = Some (if decide (hdp l2 None = Some x) then lastp None l1 else pv,
                   if decide (lastp None l1 = Some x) then hdp l2 None else nx)) →
  chain lk' None (l1 ++ l2) None.
Proof.
  intros Hn Hc Hlk. apply NoDup_app in Hn as (Hn1 & H12 & [Ha2 Hn2]%NoDup_cons).
  apply chain_app in Hc as (Hc1 & Hca & Hc2).
  apply chain_app. split; (eapply chain_relink; [eassumption..|]); intros x pv nx Hx Hlx.
  - rewrite (Hlk x pv nx); [|intros ->; apply (H12 a Hx); constructor|done].
    rewrite (decide_False (P := hdp l2 None = _)); [|intros ?%hdp_elem; apply (H12 x Hx); by constructor].
    destruct (decide (hdp l1 None = Some x)) as [Hh|]; [|done]. destruct l1; simpl in *; [done|]. simplify_eq.
    destruct Hc1 as [Hc1 _]. congruence.
  - assert (x ∉ l1) as Hx1 by (intros Hin; apply (H12 x Hin); by constructor).
    rewrite (Hlk x pv nx); [|by intros ->|done].
    rewrite (decide_False (P := lastp None l1 = _)); [|by intros ?%lastp_elem].
    destruct (decide (lastp None l2 = Some x)) as [Hh'|]; [|done].
    destruct (decide (hdp l2 None = Some x)).
    + apply lastp_last, last_Some in Hh' as [k ->]. apply chain_app in Hc2 as [_ [Hx' _]].
      simpl in Hx'. congruence.
    + apply lastp_last, last_Some in Hh' as [k ->]. apply chain_app in Hc2 as [_ [Hx' _]].
      simpl in Hx'. congruence.
Qed.
End chain.
