(* ===== verification/MapInterface.v ===== *)
(** * The interface between the maps of src/src/util/ and their clients

    What ordered_map.c relies on from the tree it keeps its keys in: the laws
    of a finite map from keys to pointers, as weakest preconditions of the
    operations.  AvlMap.v gives the instance. *)
From stdpp Require Import base gmap.
From S2P Require Import Prelude.

Class KVMap (T K W : Type) `{Countable K} := {
  kv_lookup : K → M T (option W);
  kv_add : K → option W → M T Z;
  kv_delete : K → M T (option W);
  kv_new : T;
  kv_free : M T ();
  kv_rep : T → gmap K (option W) → Prop;
  kv_freed : T → Prop;
}.

Class KVMapLaws T K W `{KVMap T K W} : Prop := {
  kv_new_law : kv_rep kv_new ∅;
  kv_lookup_law s m k (Q : option W → T → Prop) :
    kv_rep s m → Q (mjoin (m !! k)) s → wp (kv_lookup k) Q s;
  kv_add_law s m k v (Q : Z → T → Prop) :
    kv_rep s m →
    (is_Some (m !! k) → Q 1%Z s) →
    (∀ s', m !! k = None → kv_rep s' (<[k:=v]> m) → Q 0%Z s') →
    wp (kv_add k v) Q s;
  kv_delete_law s m k (Q : option W → T → Prop) :
    kv_rep s m → (∀ s', kv_rep s' (delete k m) → Q (mjoin (m !! k)) s') → wp (kv_delete k) Q s;
  kv_free_law s m (Q : () → T → Prop) :
    kv_rep s m → (∀ s', kv_freed s' → Q () s') → wp kv_free Q s;
}.
