(* ===== verification/LinkedList.v ===== *)
(** * The doubly linked list (src/src/util/linked_list.c)

    One list is a store: the fields of [struct linked_list] and the heap of
    its [struct list_item]s.  The debug build's [linked_list_check] runs at the
    end of every operation; a failed [verify] or [assert] aborts the program
    ([None]).  The operations are proved to implement a list of (address, data)
    pairs. *)
From stdpp Require Import base tactics numbers list gmap.
From S2P Require Import Prelude Chains.

Record list_item (D : Type) := ListItem {
  li_prev : option positive;
  li_next : option positive;
  li_data : D;
}.
Arguments ListItem {D} _ _ _.
Arguments li_prev {D} _.
Arguments li_next {D} _.
Arguments li_data {D} _.

(** [ll_count], an [int] in C, is without bound here. *)
Record linked_list (D : Type) := LList {
  ll_head : option positive;
  ll_tail : option positive;
  ll_count : Z;
  ll_items : gmap positive (list_item D);
}.
Arguments LList {D} _ _ _ _.
Arguments ll_head {D} _.
Arguments ll_tail {D} _.
Arguments ll_count {D} _.
Arguments ll_items {D} _.

Section linked_list.
Context {D : Type}.
Implicit Types s : linked_list D.

Definition H : heap_of (linked_list D) (list_item D) :=
  HeapOf ll_items (λ h s, LList (ll_head s) (ll_tail s) (ll_count s) h).
Definition set_head (p : option positive) : M (linked_list D) () :=
  modify (λ s, LList p (ll_tail s) (ll_count s) (ll_items s)).
Definition set_tail (p : option positive) : M (linked_list D) () :=
  modify (λ s, LList (ll_head s) p (ll_count s) (ll_items s)).
Definition add_count (k : Z) : M (linked_list D) () :=
  modify (λ s, LList (ll_head s) (ll_tail s) (ll_count s + k) (ll_items s)).
Definition set_prev (a p : option positive) : M (linked_list D) () :=
  store H a (λ i, ListItem p (li_next i) (li_data i)).
Definition set_next (a p : option positive) : M (linked_list D) () :=
  store H a (λ i, ListItem (li_prev i) p (li_data i)).
Definition is_null (p : option positive) : bool := bool_decide (p = None).

(** [verify(b)] *)
Definition verify (b : bool) : M (linked_list D) () := assertM b.

Definition linked_list_check : M (linked_list D) () :=
  let! h := gets ll_head in
  let! fuel := gets (λ s, S (size (ll_items s))) in
  let! r := whileM fuel
    (λ x : option positive * option positive * Z, ret (negb (is_null x.1.1)))
    (λ x, let '(this_item, prev_item, nr_items) := x in
       let! it := load H this_item in
       do! (if bool_decide (this_item = h) then verify (is_null (li_prev it)) else
              let! pi := load H prev_item in
              do! verify (bool_decide (li_next pi = this_item)) in
              verify (bool_decide (li_prev it = prev_item))) in
       ret (li_next it, this_item, nr_items + 1)%Z)
    (h, None, 0%Z) in
  let! c := gets ll_count in
  verify (bool_decide (r.2 = c)).

Definition linked_list_new : linked_list D := LList None None 0 ∅.

Definition linked_list_add_item_head (data : D) : M (linked_list D) loc :=
  let! h := gets ll_head in
  let! new_item := malloc H (ListItem None h data) in
  do! (if is_null h then set_tail (Some new_item) else set_prev h (Some new_item)) in
  do! set_head (Some new_item) in
  do! add_count 1 in
  do! linked_list_check in
  ret new_item.

Definition linked_list_add_item_tail (data : D) : M (linked_list D) loc :=
  let! new_item := malloc H (ListItem None None data) in
  let! c := gets ll_count in
  do! (if (c =? 0)%Z then
         do! set_head (Some new_item) in set_tail (Some new_item)
       else
         let! t := gets ll_tail in
         do! set_prev (Some new_item) t in
         do! set_next t (Some new_item) in
         set_tail (Some new_item)) in
  do! add_count 1 in
  do! linked_list_check in
  ret new_item.

Definition linked_list_make_item_head (item : option positive) : M (linked_list D) () :=
  let! h := gets ll_head in
  if bool_decide (item = h) then ret () else
  let old_head := h in
  let! it := load H item in
  let old_prev := li_prev it in
  let old_next := li_next it in
  let! t := gets ll_tail in
  do! when (bool_decide (t = item))
        (do! assertM (negb (is_null old_prev)) in set_tail old_prev) in
  do! set_head item in
  do! set_prev item None in
  do! set_next item old_head in
  do! when (negb (is_null old_head)) (set_prev old_head item) in
  do! when (negb (is_null old_prev)) (set_next old_prev old_next) in
  do! when (negb (is_null old_next)) (set_prev old_next old_prev) in
  linked_list_check.

Definition linked_list_remove_tail : M (linked_list D) D :=
  let! c := gets ll_count in
  do! assertM (0 <? c)%Z in
  let! item := gets ll_tail in
  let! it := load H item in
  do! (if (c =? 1)%Z then do! set_head None in set_tail None
       else do! set_tail (li_prev it) in set_next (li_prev it) None) in
  do! free H item in
  do! add_count (-1) in
  do! linked_list_check in
  ret (li_data it).

Definition linked_list_remove_head : M (linked_list D) D :=
  let! c := gets ll_count in
  do! assertM (0 <? c)%Z in
  let! item := gets ll_head in
  let! it := load H item in
  do! (if (c =? 1)%Z then do! set_head None in set_tail None
       else do! set_head (li_next it) in set_prev (li_next it) None) in
  do! free H item in
  do! add_count (-1) in
  do! linked_list_check in
  ret (li_data it).

Definition linked_list_remove_item (item : option positive) : M (linked_list D) D :=
  do! linked_list_make_item_head item in
  linked_list_remove_head.

(** The list must be empty; the struct itself is gone afterwards. *)
Definition linked_list_free : M (linked_list D) () :=
  do! linked_list_check in
  let! c := gets ll_count in
  assertM (c =? 0)%Z.

(** ** The abstract list *)

Definition links (h : gmap positive (list_item D)) (a : positive)
    : option (option positive * option positive) :=
  (λ i, (li_prev i, li_next i)) <$> h !! a.

Record ll_rep (s : linked_list D) (l : list (positive * D)) : Prop := {
  rep_nodup : NoDup l.*1;
  rep_head : ll_head s = hdp l.*1 None;
  rep_tail : ll_tail s = lastp None l.*1;
  rep_count : ll_count s = Z.of_nat (length l);
  rep_chain : chain (links (ll_items s)) None l.*1 None;
  rep_data : Forall (λ x, li_data <$> ll_items s !! x.1 = Some x.2) l;
  rep_dom : dom (ll_items s) = list_to_set l.*1;
}.

Lemma linked_list_new_rep : ll_rep linked_list_new [].
Proof. split; simpl; try done. constructor. Qed.

(** Every item of the list is allocated, with the links its position gives. *)
Lemma rep_item s l1 a d l2 :
  ll_rep s (l1 ++ (a, d) :: l2) →
  ll_items s !! a = Some (ListItem (lastp None l1.*1) (hdp l2.*1 None) d).
Proof.
  intros [_ _ _ _ Hc Hd _]. rewrite fmap_app, fmap_cons in Hc. apply chain_lookup in Hc.
  rewrite Forall_app, Forall_cons in Hd. destruct Hd as (_ & Hd & _). simpl in *.
  unfold links in Hc. destruct (ll_items s !! a) as [[pv nx dt]|]; simpl in *; congruence.
Qed.

Lemma fmap_fst_split {A B} (l : list (A * B)) l1 l2 :
  l.*1 = l1 ++ l2 → ∃ k1 k2, l = k1 ++ k2 ∧ k1.*1 = l1 ∧ k2.*1 = l2.
Proof. intros Hl. apply fmap_app_inv in Hl. naive_solver. Qed.

(** What the check verifies of one item holds. *)
Lemma wp_check_item s l1 a d l2 (Q : () → linked_list D → Prop) :
  ll_rep s (l1 ++ (a, d) :: l2) → Q () s →
  wp (if bool_decide (Some a = ll_head s) then verify (is_null (lastp None l1.*1)) else
        let! pi := load H (lastp None l1.*1) in
        do! verify (bool_decide (li_next pi = Some a)) in
        verify (bool_decide (lastp None l1.*1 = lastp None l1.*1))) Q s.
Proof.
  intros Hrep HQ. pose proof (rep_nodup _ _ Hrep) as Hnd. rewrite (rep_head _ _ Hrep).
  destruct l1 as [|x l1']; [|destruct (exists_last (l := x :: l1')) as (l1 & [b e] & E); [done|];
    rewrite E in *; clear E].
  - rewrite bool_decide_true by done. by apply wp_assert.
  - rewrite <- (app_assoc l1) in Hrep. rewrite !fmap_app in *. simpl in *.
    rewrite bool_decide_false; last first.
    { rewrite hdp_app. rewrite <- (app_assoc _ [b]) in Hnd. simpl in Hnd.
      destruct (l1.*1) as [|c k]; simpl in *; intros [= ->]; rewrite NoDup_cons in Hnd; set_solver. }
    rewrite lastp_snoc. wp_step. eapply wp_load; [exact (rep_item _ _ _ _ _ Hrep)|].
    wp_step. apply wp_assert; [by rewrite bool_decide_true|].
    apply wp_assert; [by rewrite bool_decide_true|done].
Qed.

(** The check succeeds and changes nothing. *)
Lemma check_loop s l l1 l2 fuel (Q : _ → linked_list D → Prop) :
  ll_rep s l → l = l1 ++ l2 → length l2 < fuel →
  Q (None, lastp None l.*1, Z.of_nat (length l)) s →
  wp (whileM fuel
    (λ x : option positive * option positive * Z, ret (negb (is_null x.1.1)))
    (λ x, let '(this_item, prev_item, nr_items) := x in
       let! it := load H this_item in
       do! (if bool_decide (this_item = ll_head s) then verify (is_null (li_prev it)) else
              let! pi := load H prev_item in
              do! verify (bool_decide (li_next pi = this_item)) in
              verify (bool_decide (li_prev it = prev_item))) in
       ret (li_next it, this_item, nr_items + 1)%Z)
    (hdp l2.*1 None, lastp None l1.*1, Z.of_nat (length l1))) Q s.
Proof.
  intros Hrep. revert l1 l2. induction fuel as [|fuel IH]; intros l1 l2 -> Hf HQ; [lia|].
  destruct l2 as [|[a d] l2]; simpl; wp_steps.
  { rewrite app_nil_r in HQ. done. }
  pose proof (rep_item s l1 a d l2 Hrep) as Ha.
  eapply wp_load; [done|]. wp_step.
  apply (wp_check_item _ _ _ _ _ _ Hrep). wp_step. simpl.
  replace (Some a) with (lastp None (l1 ++ [(a, d)]).*1)
    by (rewrite fmap_app; apply lastp_snoc).
  replace (Z.of_nat (length l1) + 1)%Z with (Z.of_nat (length (l1 ++ [(a, d)])))
    by (rewrite length_app; simpl; lia).
  apply IH; [by rewrite <- app_assoc|simpl in Hf; lia|].
  done.
Qed.

Lemma rep_size s l : ll_rep s l → size (ll_items s) = length l.
Proof.
  intros Hrep. rewrite <- size_dom, (rep_dom _ _ Hrep).
  rewrite size_list_to_set by apply Hrep. by rewrite length_fmap.
Qed.

Lemma wp_check s l (Q : () → linked_list D → Prop) :
  ll_rep s l → Q () s → wp linked_list_check Q s.
Proof.
  intros Hrep HQ. unfold linked_list_check. wp_steps.
  rewrite (rep_size _ _ Hrep).
  pose proof (check_loop s l [] l (S (length l))
    (λ r s', wp (let! c := gets ll_count in verify (bool_decide (r.2 = c))) Q s')
    Hrep eq_refl) as Hc. simpl in Hc.
  rewrite (rep_head _ _ Hrep) in *. apply Hc; [lia|]. wp_steps.
  apply wp_assert; [|done]. rewrite bool_decide_true; [done|]. by rewrite (rep_count _ _ Hrep).
Qed.

(** ** Effect of one pointer store *)

(** The store keeps every item and its data; only links may change. *)
Definition same_data s s' : Prop :=
  ∀ y, li_data <$> ll_items s' !! y = li_data <$> ll_items s !! y.

Lemma wp_set_prev s a p (Q : () → linked_list D → Prop) :
  is_Some (ll_items s !! a) →
  (∀ h, (∀ y, li_data <$> h !! y = li_data <$> ll_items s !! y) →
     (∀ y, links h y = if decide (y = a) then (λ x, (p, x.2)) <$> links (ll_items s) y
                       else links (ll_items s) y) →
     Q () (LList (ll_head s) (ll_tail s) (ll_count s) h)) →
  wp (set_prev (Some a) p) Q s.
Proof.
  intros [i Hi] HQ. eapply wp_store; [done|]. simpl. apply HQ; intros y; unfold links;
    destruct (decide (y = a)) as [->|]; simplify_map_eq; done.
Qed.

Lemma wp_set_next s a p (Q : () → linked_list D → Prop) :
  is_Some (ll_items s !! a) →
  (∀ h, (∀ y, li_data <$> h !! y = li_data <$> ll_items s !! y) →
     (∀ y, links h y = if decide (y = a) then (λ x, (x.1, p)) <$> links (ll_items s) y
                       else links (ll_items s) y) →
     Q () (LList (ll_head s) (ll_tail s) (ll_count s) h)) →
  wp (set_next (Some a) p) Q s.
Proof.
  intros [i Hi] HQ. eapply wp_store; [done|]. simpl. apply HQ; intros y; unfold links;
    destruct (decide (y = a)) as [->|]; simplify_map_eq; done.
Qed.

(** The part of the representation that does not depend on the order. *)
Record bag (h : gmap positive (list_item D)) (l : list (positive * D)) : Prop := {
  bag_nodup : NoDup l.*1;
  bag_data : Forall (λ x, li_data <$> h !! x.1 = Some x.2) l;
  bag_dom : dom h = list_to_set l.*1;
}.

Lemma rep_bag s l : ll_rep s l → bag (ll_items s) l.
Proof. intros []. by split. Qed.

Lemma bag_rep s l :
  bag (ll_items s) l → ll_count s = Z.of_nat (length l) →
  ll_head s = hdp l.*1 None → ll_tail s = lastp None l.*1 →
  chain (links (ll_items s)) None l.*1 None → ll_rep s l.
Proof. intros []. by split. Qed.

Lemma bag_perm h l l' : bag h l → l ≡ₚ l' → bag h l'.
Proof.
  intros [Hn Hd Hm] Hp. split; [by rewrite <- Hp|by rewrite <- Hp|].
  rewrite Hm. apply leibniz_equiv. by rewrite Hp.
Qed.

Lemma bag_same h h' l :
  (∀ y, li_data <$> h' !! y = li_data <$> h !! y) → bag h l → bag h' l.
Proof.
  intros Hs [Hn Hd Hm]. split; [done| |].
  - eapply Forall_impl; [exact Hd|]. intros x. simpl. by rewrite Hs.
  - rewrite <- Hm. apply set_eq. intros y. specialize (Hs y). rewrite !elem_of_dom.
    destruct (h' !! y), (h !! y); naive_solver.
Qed.

Lemma bag_alloc h l a i :
  h !! a = None → bag h l → bag (<[a := i]> h) ((a, li_data i) :: l).
Proof.
  intros Ha [Hn Hd Hm].
  assert (a ∉ l.*1) as Hni.
  { apply not_elem_of_dom in Ha. rewrite Hm in Ha. set_solver. }
  split; simpl.
  - by apply NoDup_cons.
  - constructor; [by simplify_map_eq|]. eapply Forall_impl; [apply Forall_and; split; [exact Hd|]|].
    + apply Forall_forall. intros x Hx. exact (list_elem_of_fmap_2 fst _ _ Hx).
    + intros [b d] [Hb Hin]. simpl in *. by rewrite lookup_insert_ne by (by intros ->).
  - rewrite dom_insert_L, Hm. done.
Qed.

Lemma bag_free h l a d : bag h ((a, d) :: l) → bag (delete a h) l.
Proof.
  intros [Hn Hd Hm]. simpl in *. apply NoDup_cons in Hn as [Hni Hn].
  apply Forall_cons in Hd as [_ Hd]. split; [done| |].
  - eapply Forall_impl; [apply Forall_and; split; [exact Hd|]|].
    + apply Forall_forall. intros x Hx. exact (list_elem_of_fmap_2 fst _ _ Hx).
    + intros [b e] [Hb Hin]. simpl in *. by rewrite lookup_delete_ne by (by intros ->).
  - rewrite dom_delete_L, Hm. set_solver.
Qed.

Lemma bag_elem h l a : bag h l → a ∈ l.*1 → is_Some (h !! a).
Proof. intros Hb Ha. apply elem_of_dom. rewrite (bag_dom _ _ Hb). by apply elem_of_list_to_set. Qed.

Lemma bag_links h l a : bag h l → a ∈ l.*1 → is_Some (links h a).
Proof. intros Hb Ha. unfold links. destruct (bag_elem _ _ _ Hb Ha) as [? ->]. eauto. Qed.

(** ** The operations refine those of a list of addresses and data *)

Lemma fresh_item s l a : ll_rep s l → ll_items s !! a = None → a ∉ l.*1.
Proof.
  intros Hr Ha%not_elem_of_dom. rewrite (rep_dom _ _ Hr) in Ha. set_solver.
Qed.

Lemma links_insert_ne h a i y : y ≠ a → links (<[a := i]> h) y = links h y.
Proof. intros. unfold links. by rewrite lookup_insert_ne. Qed.
Lemma links_insert h a i : links (<[a := i]> h) a = Some (li_prev i, li_next i).
Proof. unfold links. by rewrite lookup_insert_eq. Qed.
Lemma links_delete_ne h a y : y ≠ a → links (delete a h) y = links h y.
Proof. intros. unfold links. by rewrite lookup_delete_ne. Qed.

Lemma wp_add_item_head s l d (Q : positive → linked_list D → Prop) :
  ll_rep s l →
  (∀ a s', a ∉ l.*1 → ll_rep s' ((a, d) :: l) → Q a s') →
  wp (linked_list_add_item_head d) Q s.
Proof.
  intros Hr HQ. unfold linked_list_add_item_head, set_head, set_tail, add_count. wp_steps. rewrite (rep_head _ _ Hr).
  apply wp_malloc. intros a Ha. simpl. wp_step.
  pose proof (fresh_item _ _ _ Hr Ha) as Hfr.
  pose proof (bag_alloc _ _ _ (ListItem None (hdp l.*1 None) d) Ha (rep_bag _ _ Hr)) as Hb.
  pose proof (rep_chain _ _ Hr) as Hc.
  destruct l as [|[b e] l]; simpl in *.
  - wp_steps. simpl in *.
    eapply (wp_check _ [(a, d)]); [|wp_steps; apply HQ; [set_solver|]]; apply bag_rep; simpl; try done;
      by (rewrite (rep_count _ _ Hr) || rewrite links_insert).
  - apply wp_set_prev; [simpl; rewrite lookup_insert_ne by set_solver;
      apply (bag_elem _ _ b (rep_bag _ _ Hr)); set_solver|].
    simpl. intros h Hd Hl. wp_steps. destruct Hc as [Hcb Hc].
    assert (ll_rep (LList (Some a) (ll_tail s) (ll_count s + 1) h) ((a, d) :: (b, e) :: l)) as Hr'.
    { apply bag_rep; simpl; [by eapply bag_same|rewrite (rep_count _ _ Hr); simpl; lia|done| |].
      - rewrite (rep_tail _ _ Hr). simpl. by rewrite !lastp_cons.
      - rewrite Hl, decide_False, links_insert by set_solver. split; [done|].
        rewrite Hl, decide_True, links_insert_ne, Hcb by set_solver. split; [done|].
        eapply chain_ext; [|exact Hc]. intros x Hx.
        pose proof (rep_nodup _ _ Hr) as Hn. simpl in Hn. apply NoDup_cons in Hn as [Hn _].
        rewrite Hl, decide_False by (by intros ->). apply links_insert_ne. set_solver. }
    eapply wp_check; [exact Hr'|]. wp_steps. apply HQ; [set_solver|done].
Qed.

Lemma wp_add_item_tail s l d (Q : positive → linked_list D → Prop) :
  ll_rep s l →
  (∀ a s', a ∉ l.*1 → ll_rep s' (l ++ [(a, d)]) → Q a s') →
  wp (linked_list_add_item_tail d) Q s.
Proof.
  intros Hr HQ. unfold linked_list_add_item_tail, set_head, set_tail, add_count. wp_step.
  apply wp_malloc. intros a Ha. simpl. wp_steps.
  pose proof (fresh_item _ _ _ Hr Ha) as Hfr.
  pose proof (bag_alloc _ _ _ (ListItem None None d) Ha (rep_bag _ _ Hr)) as Hb.
  apply (bag_perm _ _ (l ++ [(a, d)])) in Hb; [|by rewrite Permutation_app_comm].
  pose proof (rep_chain _ _ Hr) as Hc. pose proof (rep_nodup _ _ Hr) as Hn.
  pose proof (rep_count _ _ Hr) as Hcnt.
  destruct (decide (l = [])) as [->|Hne]; simpl.
  - rewrite (proj2 (Z.eqb_eq _ _)) by done. wp_steps. rewrite Hcnt. simpl.
    eapply (wp_check _ [(a, d)]); [|wp_steps; apply HQ; [set_solver|]]; apply bag_rep; simpl; try done;
      by rewrite links_insert.
  - destruct (exists_last Hne) as (l0 & [b e] & ->).
    rewrite (proj2 (Z.eqb_neq _ _)) by (rewrite Hcnt, length_app; simpl; lia). wp_steps.
    rewrite !fmap_app in Hn, Hc, Hfr. simpl in *.
    assert (ll_tail s = Some b) as Ht.
    { rewrite (rep_tail _ _ Hr), fmap_app. apply lastp_snoc. }
    assert (∀ x, x ∈ l0.*1 ++ [b] → x ≠ a) as Hxa by (clear -Hfr; set_solver).
    assert (b ≠ a) as Hba by (apply Hxa, elem_of_app; right; constructor).
    rewrite Ht.
    pose proof Hc as [Hc0 [Hcb _]]%chain_app. simpl in Hcb.
    apply wp_set_prev; [simpl; simplify_map_eq; eauto|]. simpl. intros h1 Hd1 Hl1. wp_steps.
    apply wp_set_next; [simpl|].
    { specialize (Hd1 b). rewrite lookup_insert_ne in Hd1 by done.
      destruct (bag_elem _ _ b (rep_bag _ _ Hr)) as [i Hi]; [rewrite fmap_app; apply elem_of_app; right; constructor|].
      rewrite Hi in Hd1. destruct (h1 !! b); [eauto|done]. }
    simpl. intros h2 Hd2 Hl2. wp_steps.
    assert (ll_rep (LList (ll_head s) (Some a) (ll_count s + 1) h2)
              ((l0 ++ [(b, e)]) ++ [(a, d)])) as Hr'.
    { apply bag_rep; simpl.
      - eapply bag_same; [|exact Hb]. intros y. by rewrite Hd2, Hd1.
      - rewrite (rep_count _ _ Hr), (length_app _ [(a, d)]). simpl. lia.
      - rewrite (rep_head _ _ Hr), !fmap_app, !hdp_app. done.
      - rewrite (fmap_app _ _ [(a, d)]). symmetry. apply lastp_snoc.
      - rewrite !fmap_app. simpl. apply chain_app. rewrite (lastp_snoc _ l0.*1 b). simpl.
        rewrite Hl2, decide_False, Hl1, decide_True, links_insert by done.
        split; [|done]. eapply chain_relink; [done|exact Hc|]. intros x pv nx Hx Hlx.
        rewrite lastp_snoc, Hl2, Hl1, (decide_False (P := x = a)), links_insert_ne, Hlx by eauto.
        destruct (decide (x = b)) as [->|]; [rewrite (decide_True (P := Some b = _)) by done|
          rewrite (decide_False (P := Some b = _)) by congruence]; simpl; f_equal; f_equal;
          case_decide as Hh; [|done| |done];
          destruct l0.*1; simpl in *; simplify_eq; naive_solver. }
    eapply wp_check; [exact Hr'|]. wp_steps. apply HQ; [|done]. by rewrite fmap_app.
Qed.

(** Stores through a pointer that may be null, guarded by a test. *)
Lemma wp_when_set_prev s o p (Q : () → linked_list D → Prop) :
  (∀ a, o = Some a → is_Some (ll_items s !! a)) →
  (∀ h, (∀ y, li_data <$> h !! y = li_data <$> ll_items s !! y) →
     (∀ y, links h y = if decide (o = Some y) then (λ x, (p, x.2)) <$> links (ll_items s) y
                       else links (ll_items s) y) →
     Q () (LList (ll_head s) (ll_tail s) (ll_count s) h)) →
  wp (when (negb (is_null o)) (set_prev o p)) Q s.
Proof.
  intros Ho HQ. apply wp_when; [destruct o as [a|]; [intros _|done]|destruct o; [done|intros _]].
  - apply wp_set_prev; [by apply Ho|]. intros h ? Hl. apply HQ; [done|]. intros y. rewrite Hl.
    by do 2 case_decide; [|congruence|congruence|].
  - destruct s. by apply HQ.
Qed.

Lemma wp_when_set_next s o p (Q : () → linked_list D → Prop) :
  (∀ a, o = Some a → is_Some (ll_items s !! a)) →
  (∀ h, (∀ y, li_data <$> h !! y = li_data <$> ll_items s !! y) →
     (∀ y, links h y = if decide (o = Some y) then (λ x, (x.1, p)) <$> links (ll_items s) y
                       else links (ll_items s) y) →
     Q () (LList (ll_head s) (ll_tail s) (ll_count s) h)) →
  wp (when (negb (is_null o)) (set_next o p)) Q s.
Proof.
  intros Ho HQ. apply wp_when; [destruct o as [a|]; [intros _|done]|destruct o; [done|intros _]].
  - apply wp_set_next; [by apply Ho|]. intros h ? Hl. apply HQ; [done|]. intros y. rewrite Hl.
    by do 2 case_decide; [|congruence|congruence|].
  - destruct s. by apply HQ.
Qed.

Lemma same_elem (h h' : gmap positive (list_item D)) a :
  (∀ y, li_data <$> h' !! y = li_data <$> h !! y) → is_Some (h !! a) → is_Some (h' !! a).
Proof. intros Hs [i Hi]. specialize (Hs a). rewrite Hi in Hs. destruct (h' !! a); eauto; done. Qed.

(** The links that [linked_list_make_item_head] writes make the new chain. *)
Lemma make_head_chain lk lk' a l1 l2 :
  NoDup (l1 ++ a :: l2) → l1 ≠ [] →
  chain lk None (l1 ++ a :: l2) None →
  (∀ y pv nx, lk y = Some (pv, nx) → lk' y = Some
     (if decide (hdp l2 None = Some y) then lastp None l1
      else if decide (hdp l1 None = Some y) then Some a
      else if decide (a = y) then None else pv,
      if decide (lastp None l1 = Some y) then hdp l2 None
      else if decide (a = y) then hdp l1 None else nx)) →
  chain lk' None (a :: l1 ++ l2) None.
Proof.
  intros Hnd Hne Hc Hlk. apply NoDup_app in Hnd as (Hn1 & H12 & [Ha2 Hn2]%NoDup_cons).
  pose proof Hc as (Hc1 & Hca & Hc2)%chain_app.
  assert (a ∉ l1) as Ha1 by (intros Hin; apply (H12 a Hin); constructor).
  split; [|apply chain_app; rewrite (lastp_default _ l1) by done; split].
  - rewrite (Hlk _ _ _ Hca), hdp_app.
    rewrite !(decide_False (P := _ = Some a)), !decide_True
      by (done || intros ?%hdp_elem || intros ?%lastp_elem; done).
    by destruct l1.
  - eapply chain_relink; [exact Hn1|exact Hc1|]. intros x pv nx Hx Hlx.
    rewrite (Hlk _ _ _ Hlx).
    rewrite (decide_False (P := hdp l2 None = _)), !(decide_False (P := a = x))
      by (by intros -> || intros Hh%hdp_elem; apply (H12 x Hx); by constructor).
    done.
  - eapply chain_relink; [exact Hn2|exact Hc2|]. intros x pv nx Hx Hlx.
    assert (x ∉ l1) as Hx1 by (intros Hin; apply (H12 x Hin); by constructor).
    rewrite (Hlk _ _ _ Hlx).
    rewrite (decide_False (P := hdp l1 None = _)), (decide_False (P := lastp None l1 = _)),
      !(decide_False (P := a = x)) by (by intros -> || intros ?%hdp_elem || intros ?%lastp_elem; done).
    destruct (decide (lastp None l2 = Some x)) as [E|]; [|done].
    apply lastp_last, last_Some in E as [k ->]. apply chain_app in Hc2 as [_ [Hx' _]].
    simpl in Hx'. congruence.
Qed.

Lemma rep_head_item s l1 a d l2 :
  ll_rep s (l1 ++ (a, d) :: l2) → Some a = ll_head s → l1 = [].
Proof.
  intros Hr. rewrite (rep_head _ _ Hr), fmap_app, hdp_app.
  pose proof (rep_nodup _ _ Hr) as Hn. destruct l1 as [|[b e] l1]; [done|].
  simpl in *. intros [= ->]. rewrite fmap_app, NoDup_cons in Hn. set_solver.
Qed.

(** The item to move is the tail: the previous item becomes the tail. *)
Lemma wp_move_tail s l1 a d l2 (Q : () → linked_list D → Prop) :
  ll_rep s (l1 ++ (a, d) :: l2) → l1 ≠ [] →
  Q () (LList (ll_head s) (lastp None (l1.*1 ++ l2.*1)) (ll_count s) (ll_items s)) →
  wp (when (bool_decide (ll_tail s = Some a))
        (do! assertM (negb (is_null (lastp None l1.*1))) in set_tail (lastp None l1.*1))) Q s.
Proof.
  intros Hr Hne HQ. destruct l2 as [|[c f] l2].
  - rewrite bool_decide_true by (rewrite (rep_tail _ _ Hr), fmap_app; apply lastp_snoc).
    simpl. wp_step. apply wp_assert.
    + destruct l1 as [|x l1' _] using rev_ind; [done|]. rewrite fmap_app. simpl.
      by rewrite (lastp_snoc _ l1'.*1).
    + unfold set_tail. wp_steps. by rewrite app_nil_r in HQ.
  - assert (ll_tail s = lastp (Some c) l2.*1) as E.
    { by rewrite (rep_tail _ _ Hr), fmap_app, !fmap_cons, !lastp_app, !lastp_cons. }
    rewrite bool_decide_false.
    + apply wp_ret. rewrite lastp_app, fmap_cons, lastp_cons in HQ. simpl in HQ.
      rewrite <- E in HQ. by destruct s.
    + pose proof (rep_nodup _ _ Hr) as Hn. rewrite E, fmap_app, !fmap_cons in *.
      apply NoDup_app in Hn as (_ & _ & [Hn _]%NoDup_cons). intros Ea. apply Hn.
      rewrite <- (lastp_cons None) in Ea. by apply lastp_elem in Ea.
Qed.

Lemma wp_make_item_head s l1 a d l2 (Q : () → linked_list D → Prop) :
  ll_rep s (l1 ++ (a, d) :: l2) →
  (∀ s', ll_rep s' ((a, d) :: l1 ++ l2) → Q () s') →
  wp (linked_list_make_item_head (Some a)) Q s.
Proof.
  intros Hr HQ. unfold linked_list_make_item_head, set_head. wp_steps.
  case_bool_decide as Eh.
  { wp_steps. apply HQ. apply (rep_head_item _ _ _ _ _ Hr) in Eh as ->. done. }
  assert (l1 ≠ []) as Hne by (intros ->; apply Eh; by rewrite (rep_head _ _ Hr)).
  pose proof (rep_bag _ _ Hr) as Hb. pose proof (rep_chain _ _ Hr) as Hc.
  pose proof (rep_nodup _ _ Hr) as Hn. rewrite fmap_app, fmap_cons in Hc, Hn. simpl in Hc, Hn.
  assert (∀ (h : gmap positive (list_item D)) y,
    (∀ z, li_data <$> h !! z = li_data <$> ll_items s !! z) →
    y ∈ l1.*1 ++ a :: l2.*1 → is_Some (h !! y)) as Hall.
  { intros h y Hs Hy. apply (same_elem (ll_items s)); [done|].
    apply (bag_elem _ _ _ Hb). by rewrite fmap_app. }
  wp_step. eapply wp_load; [exact (rep_item _ _ _ _ _ Hr)|]. simpl. do 2 wp_step. wp_step.
  eapply wp_move_tail; [done|done|]. wp_steps.
  apply wp_set_prev; [apply Hall; [done|set_solver]|]. simpl. intros h1 Hd1 Hl1. wp_steps.
  apply wp_set_next; [apply Hall; [done|set_solver]|]. simpl. intros h2 Hd2 Hl2. wp_steps.
  assert (ll_head s = hdp l1.*1 None) as Hh.
  { rewrite (rep_head _ _ Hr), fmap_app, hdp_app. by destruct l1. }
  rewrite Hh in *.
  apply wp_when_set_prev; simpl.
  { intros y Hy%hdp_elem. apply Hall; [intros z; by rewrite Hd2, Hd1|set_solver]. }
  intros h3 Hd3 Hl3. wp_steps. apply wp_when_set_next; simpl.
  { intros y Hy%lastp_elem. apply Hall; [intros z; by rewrite Hd3, Hd2, Hd1|set_solver]. }
  intros h4 Hd4 Hl4. wp_steps. apply wp_when_set_prev; simpl.
  { intros y Hy%hdp_elem. apply Hall; [intros z; by rewrite Hd4, Hd3, Hd2, Hd1|set_solver]. }
  intros h5 Hd5 Hl5.
  assert (ll_rep (LList (Some a) (lastp None (l1.*1 ++ l2.*1)) (ll_count s) h5) ((a, d) :: l1 ++ l2)) as Hr'.
  { apply bag_rep; simpl.
    - eapply bag_same; [|eapply bag_perm; [exact Hb|by rewrite Permutation_middle]].
      intros z. by rewrite Hd5, Hd4, Hd3, Hd2, Hd1.
    - rewrite (rep_count _ _ Hr), !length_app. simpl. lia.
    - done.
    - rewrite lastp_cons, (lastp_default (Some a)), fmap_app; [done|]. by destruct l1.
    - rewrite fmap_app. eapply make_head_chain; [exact Hn|by destruct l1|exact Hc|].
      intros y pv nx Hy. rewrite Hl5, Hl4, Hl3, Hl2, Hl1, Hy.
      rewrite (decide_ext (y = a) (a = y)), (decide_ext (y = a) (a = y)) by done.
      by repeat case_decide. }
  eapply wp_check; [exact Hr'|]. by apply HQ.
Qed.

(** Removal of the first and of the last item. *)
Lemma wp_remove_head s a d l (Q : D → linked_list D → Prop) :
  ll_rep s ((a, d) :: l) →
  (∀ s', ll_rep s' l → Q d s') →
  wp linked_list_remove_head Q s.
Proof.
  intros Hr HQ. unfold linked_list_remove_head, set_head, set_tail, add_count. wp_steps.
  pose proof (rep_count _ _ Hr) as Hcnt. simpl in Hcnt.
  apply wp_assert; [apply Z.ltb_lt; lia|]. wp_steps.
  pose proof (rep_bag _ _ Hr) as Hb. pose proof (rep_nodup _ _ Hr) as Hn.
  pose proof (rep_chain _ _ Hr) as [Hca Hc]. simpl in *. apply NoDup_cons in Hn as [Hna Hn].
  rewrite (rep_head _ _ Hr). simpl. eapply wp_load; [exact (rep_item s [] a d l Hr)|]. wp_step.
  destruct l as [|[b e] l]; simpl in *.
  - rewrite (proj2 (Z.eqb_eq _ _)) by done. wp_steps.
    eapply wp_free; [exact (rep_item s [] a d [] Hr)|]. simpl. wp_steps.
    assert (ll_rep (LList None None (ll_count s + -1) (delete a (ll_items s))) []) as Hr'.
    { apply bag_rep; simpl; [by eapply bag_free|lia|done..]. }
    eapply wp_check; [exact Hr'|]. wp_steps. by apply HQ.
  - rewrite (proj2 (Z.eqb_neq _ _)) by lia. wp_steps.
    apply wp_set_prev; [apply (bag_elem _ _ b Hb); simpl; by do 2 constructor|].
    simpl. intros h Hd Hl. wp_steps.
    destruct (same_elem _ h a Hd) as [i Hi]; [rewrite (rep_item s [] a d _ Hr); eauto|].
    eapply wp_free; [exact Hi|]. simpl. wp_steps.
    assert (ll_rep (LList (Some b) (ll_tail s) (ll_count s + -1) (delete a h)) ((b, e) :: l)) as Hr'.
    { apply bag_rep; simpl; [eapply bag_free; by eapply bag_same|lia|done| |].
      - rewrite (rep_tail _ _ Hr). simpl. by rewrite !lastp_cons.
      - destruct Hc as [Hcb Hc]. split.
        + rewrite links_delete_ne, Hl, decide_True, Hcb by (done || intros ->; apply Hna; constructor). done.
        + eapply chain_ext; [|exact Hc]. intros x Hx.
          apply NoDup_cons in Hn as [Hnb _].
          rewrite links_delete_ne, Hl, decide_False
            by (intros ->; first [done | apply Hna; by constructor]). done. }
    eapply wp_check; [exact Hr'|]. wp_steps. by apply HQ.
Qed.

Lemma wp_remove_tail s l a d (Q : D → linked_list D → Prop) :
  ll_rep s (l ++ [(a, d)]) →
  (∀ s', ll_rep s' l → Q d s') →
  wp linked_list_remove_tail Q s.
Proof.
  intros Hr HQ. unfold linked_list_remove_tail, set_head, set_tail, add_count. wp_steps.
  pose proof (rep_count _ _ Hr) as Hcnt. rewrite length_app in Hcnt. simpl in Hcnt.
  apply wp_assert; [apply Z.ltb_lt; lia|]. wp_steps.
  pose proof (rep_bag _ _ Hr) as Hb. apply (bag_perm _ _ ((a, d) :: l)) in Hb; [|by rewrite Permutation_app_comm].
  pose proof (rep_nodup _ _ Hr) as Hn.
  pose proof (rep_chain _ _ Hr) as Hc. rewrite fmap_app in *. simpl in *.
  assert (ll_tail s = Some a) as Ht.
  { rewrite (rep_tail _ _ Hr), fmap_app. apply lastp_snoc. }
  rewrite Ht. eapply wp_load; [exact (rep_item s l a d [] Hr)|]. wp_step.
  destruct l as [|x l' _] using rev_ind; simpl in *.
  - rewrite (proj2 (Z.eqb_eq _ _)) by done. wp_steps.
    eapply wp_free; [exact (rep_item s [] a d [] Hr)|]. simpl. wp_steps.
    assert (ll_rep (LList None None (ll_count s + -1) (delete a (ll_items s))) []) as Hr'.
    { apply bag_rep; simpl; [by eapply bag_free|lia|done..]. }
    eapply wp_check; [exact Hr'|]. wp_steps. by apply HQ.
  - destruct x as [b e]. rewrite length_app in Hcnt. simpl in Hcnt.
    rewrite (proj2 (Z.eqb_neq _ _)) by lia. rewrite fmap_app in Hn, Hc. simpl in *.
    apply NoDup_app in Hn as (Hn & Hna & _).
    assert (lastp None (l' ++ [(b, e)]).*1 = Some b) as Hlb
      by (rewrite fmap_app; apply lastp_snoc).
    rewrite Hlb.
    assert (∀ x, x ∈ l'.*1 ++ [b] → x ≠ a) as Hxa.
    { intros x Hx ->. apply (Hna a Hx). constructor. }
    apply chain_app in Hc as [Hc _]. wp_steps.
    apply wp_set_next; [apply (bag_elem _ _ b Hb); simpl; rewrite fmap_app; right; apply elem_of_app; right; constructor|].
    simpl. intros h Hd Hl. wp_steps.
    destruct (same_elem _ h a Hd) as [i Hi]; [rewrite (rep_item s _ a d _ Hr); eauto|].
    eapply wp_free; [exact Hi|]. simpl. wp_steps.
    assert (ll_rep (LList (ll_head s) (Some b) (ll_count s + -1) (delete a h)) (l' ++ [(b, e)])) as Hr'.
    { apply bag_rep; simpl; [eapply bag_free; by eapply bag_same|rewrite length_app; simpl; lia| | |].
      - rewrite (rep_head _ _ Hr), !fmap_app, !hdp_app. done.
      - rewrite fmap_app. symmetry. apply lastp_snoc.
      - rewrite fmap_app. eapply chain_relink; [exact Hn|exact Hc|]. intros x pv nx Hx Hlx.
        rewrite links_delete_ne, Hl, Hlx, (lastp_snoc _ l'.*1 b) by auto.
        rewrite (decide_ext (Some b = Some x) (x = b)) by naive_solver.
        case_decide; simpl; f_equal; f_equal; case_decide as Hh; [|done| |done];
          destruct l'.*1; simpl in *; simplify_eq; naive_solver. }
    eapply wp_check; [exact Hr'|]. wp_steps. by apply HQ.
Qed.

Lemma wp_remove_item s l1 a d l2 (Q : D → linked_list D → Prop) :
  ll_rep s (l1 ++ (a, d) :: l2) →
  (∀ s', ll_rep s' (l1 ++ l2) → Q d s') →
  wp (linked_list_remove_item (Some a)) Q s.
Proof.
  intros Hr HQ. unfold linked_list_remove_item. wp_steps.
  eapply wp_make_item_head; [done|]. intros s' Hr'. by eapply wp_remove_head.
Qed.

Lemma wp_linked_list_free s (Q : () → linked_list D → Prop) :
  ll_rep s [] → Q () s → wp linked_list_free Q s.
Proof.
  intros Hr HQ. unfold linked_list_free. wp_steps. eapply wp_check; [done|]. wp_steps.
  apply wp_assert; [by rewrite (rep_count _ _ Hr)|done].
Qed.

(** ** The contract: a list of (address, data) pairs

    What a client of the list sees of one call.  A handle is the address that
    adding the item returned. *)
Inductive ll_op :=
  | OpAddHead (d : D)
  | OpAddTail (d : D)
  | OpMakeHead (a : positive)
  | OpRemoveHead
  | OpRemoveTail
  | OpRemoveItem (a : positive).

Inductive ll_result :=
  | RItem (a : positive)
  | RData (d : D)
  | RVoid.

Definition run_op (op : ll_op) : M (linked_list D) ll_result :=
  match op with
  | OpAddHead d => let! a := linked_list_add_item_head d in ret (RItem a)
  | OpAddTail d => let! a := linked_list_add_item_tail d in ret (RItem a)
  | OpMakeHead a => do! linked_list_make_item_head (Some a) in ret RVoid
  | OpRemoveHead => let! d := linked_list_remove_head in ret (RData d)
  | OpRemoveTail => let! d := linked_list_remove_tail in ret (RData d)
  | OpRemoveItem a => let! d := linked_list_remove_item (Some a) in ret (RData d)
  end.

Inductive ll_spec : list (positive * D) → ll_op → ll_result → list (positive * D) → Prop :=
  | spec_add_head l d a : a ∉ l.*1 → ll_spec l (OpAddHead d) (RItem a) ((a, d) :: l)
  | spec_add_tail l d a : a ∉ l.*1 → ll_spec l (OpAddTail d) (RItem a) (l ++ [(a, d)])
  | spec_make_head l1 a d l2 :
      ll_spec (l1 ++ (a, d) :: l2) (OpMakeHead a) RVoid ((a, d) :: l1 ++ l2)
  | spec_remove_head a d l : ll_spec ((a, d) :: l) OpRemoveHead (RData d) l
  | spec_remove_tail a d l : ll_spec (l ++ [(a, d)]) OpRemoveTail (RData d) l
  | spec_remove_item l1 a d l2 :
      ll_spec (l1 ++ (a, d) :: l2) (OpRemoveItem a) (RData d) (l1 ++ l2).

(** The precondition of a call: the handle is in the list, the list is not empty. *)
Definition ll_pre (l : list (positive * D)) (op : ll_op) : Prop :=
  match op with
  | OpAddHead _ | OpAddTail _ => True
  | OpMakeHead a | OpRemoveItem a => a ∈ l.*1
  | OpRemoveHead | OpRemoveTail => l ≠ []
  end.

Lemma handle_split (l : list (positive * D)) a :
  a ∈ l.*1 → ∃ l1 d l2, l = l1 ++ (a, d) :: l2.
Proof.
  intros ([b d] & -> & (l1 & l2 & ->)%list_elem_of_split)%list_elem_of_fmap. by exists l1, d, l2.
Qed.

Lemma run_op_spec s l op :
  ll_rep s l → ll_pre l op →
  wp (run_op op) (λ r s', ∃ l', ll_spec l op r l' ∧ ll_rep s' l') s.
Proof.
  intros Hr Hp. destruct op as [d|d|a| | |a]; simpl in *; wp_steps.
  - eapply wp_add_item_head; [done|]. intros a s' ??. wp_steps. eexists. by split; [constructor|].
  - eapply wp_add_item_tail; [done|]. intros a s' ??. wp_steps. eexists. by split; [constructor|].
  - apply handle_split in Hp as (l1 & d & l2 & ->).
    eapply wp_make_item_head; [done|]. intros s' ?. wp_steps. eexists. by split; [constructor|].
  - destruct l as [|[a d] l]; [done|].
    eapply wp_remove_head; [done|]. intros s' ?. wp_steps. eexists. by split; [econstructor|].
  - destruct (exists_last Hp) as (l' & [a d] & ->).
    eapply wp_remove_tail; [done|]. intros s' ?. wp_steps. eexists. by split; [econstructor|].
  - apply handle_split in Hp as (l1 & d & l2 & ->).
    eapply wp_remove_item; [done|]. intros s' ?. wp_steps. eexists. by split; [econstructor|].
Qed.

(** A client is a sequence of calls, each computed from the results of the
    calls before it (most recent first), so that it can pass back handles. *)
Abbreviation client := (list (list ll_result → ll_op)).

Inductive ll_trace : client → list ll_result → list (positive * D) → list ll_result →
    list (positive * D) → Prop :=
  | trace_nil rs l : ll_trace [] rs l rs l
  | trace_cons op ops rs l r l1 rs' l' :
      ll_spec l (op rs) r l1 → ll_trace ops (r :: rs) l1 rs' l' →
      ll_trace (op :: ops) rs l rs' l'.

Fixpoint run_ops (ops : client) (rs : list ll_result) : M (linked_list D) (list ll_result) :=
  match ops with
  | [] => ret rs
  | op :: ops => let! r := run_op (op rs) in run_ops ops (r :: rs)
  end.

(** On every run that the contract allows, the next call's precondition holds. *)
Fixpoint ll_client (ops : client) (rs : list ll_result) (l : list (positive * D)) : Prop :=
  match ops with
  | [] => True
  | op :: ops => ll_pre l (op rs) ∧ ∀ r l', ll_spec l (op rs) r l' → ll_client ops (r :: rs) l'
  end.

Lemma run_ops_spec ops rs s l :
  ll_rep s l → ll_client ops rs l →
  wp (run_ops ops rs) (λ rs' s', ∃ l', ll_trace ops rs l rs' l' ∧ ll_rep s' l') s.
Proof.
  revert rs s l. induction ops as [|op ops IH]; intros rs s l Hr Hc; simpl in *; wp_steps.
  - eexists. by split; [constructor|].
  - destruct Hc as [Hp Hc]. eapply wp_mono; [by apply run_op_spec|].
    intros r s' (l1 & Hs & Hr1).
    eapply wp_mono; [by eapply IH; eauto|]. intros rs' s2 (l2 & Ht & Hr2).
    exists l2. by split; [econstructor|].
Qed.

(** C31: Every client of linked_list.c that respects the calls' preconditions
    runs, on a new list, without undefined behaviour, without a failed [assert]
    and without a failed check of [linked_list_check], and the results and the
    final contents are those of the list of items: add at either end, move an
    item to the head, remove at either end or anywhere. *)
Theorem linked_list_refines_list (ops : client) :
  ll_client ops [] [] →
  ∃ rs s' l', run_ops ops [] linked_list_new = Some (rs, s') ∧
    ll_trace ops [] [] rs l' ∧ ll_rep s' l'.
Proof.
  intros Hc. destruct (run_ops_spec ops [] linked_list_new [] linked_list_new_rep Hc)
    as (rs & s' & ? & l' & ? & ?). eauto 10.
Qed.

(** Moving an item to the head relinks its neighbours, the old head and the
    tail so that exactly that item changes place, whatever its position. *)
Theorem linked_list_make_item_head_moves s l1 a d l2 :
  ll_rep s (l1 ++ (a, d) :: l2) →
  ∃ s', linked_list_make_item_head (Some a) s = Some ((), s') ∧
    ll_rep s' ((a, d) :: l1 ++ l2).
Proof.
  intros Hr. destruct (wp_make_item_head s l1 a d l2
    (λ _ s', ll_rep s' ((a, d) :: l1 ++ l2)) Hr) as ([] & s' & ? & ?); eauto.
Qed.
End linked_list.

(** ** Witnesses *)

(** Add two items, then move the one added first to the head again. *)
Definition move_client : list (list (ll_result (D := nat)) → ll_op (D := nat)) :=
  [λ _, OpAddTail 10; λ _, OpAddHead 11;
   λ rs, match rs with [_; RItem a] => OpMakeHead a | _ => OpRemoveHead end].

Lemma linked_list_refines_list_witness :
  ∃ rs s' l', run_ops move_client [] linked_list_new = Some (rs, s') ∧
    ll_trace move_client [] [] rs l' ∧ ll_rep s' l'.
Proof.
  apply linked_list_refines_list. simpl.
  split; [done|]. intros ? ? Hs. inversion Hs; subst.
  split; [done|]. intros ? ? Hs'. inversion Hs'; subst.
  split; [|done]. simpl. repeat constructor.
Defined.

(** Three items, in the order 3, 1, 2. *)
Definition three_items : linked_list nat :=
  LList (Some 3%positive) (Some 2%positive) 3
    (list_to_map [(1%positive, ListItem (Some 3%positive) (Some 2%positive) 10);
       (2%positive, ListItem (Some 1%positive) None 20);
       (3%positive, ListItem None (Some 1%positive) 30)]).

Lemma three_items_rep : ll_rep three_items [(3%positive, 30); (1%positive, 10); (2%positive, 20)].
Proof.
  split; try reflexivity.
  - by apply (bool_decide_unpack _).
  - repeat split; reflexivity.
  - repeat constructor; reflexivity.
Qed.

Lemma linked_list_make_item_head_moves_witness :
  ∃ s', linked_list_make_item_head (Some 2%positive) three_items = Some ((), s') ∧
    ll_rep s' [(2%positive, 20); (3%positive, 30); (1%positive, 10)].
Proof.
  exact (linked_list_make_item_head_moves three_items [(3%positive, 30); (1%positive, 10)] 2 20 []
    three_items_rep).
Defined.
