(* ===== verification/AvlTree.v ===== *)
(** * The AVL tree (src/src/util/avltree.c)

    One tree is a store: the fields of [struct tree] and the heap of its
    [struct node]s.  Keys and values are pointers in the code; here a key is
    the content it points to and a value any pointer, with [None] for NULL.
    This file holds the operations and relates the pointer structure to a
    tree; AvlMap.v shows what the tree means as a map. *)
From stdpp Require Import base tactics numbers list gmap.
From S2P Require Import Prelude Chains.

Record node (K W : Type) := Node {
  nd_key : option K;
  nd_val : option W;
  nd_left : option positive;
  nd_right : option positive;
  nd_parent : option positive;
  nd_next : option positive;
  nd_prev : option positive;
}.
Arguments Node {K W} _ _ _ _ _ _ _.
Arguments nd_key {K W} _.
Arguments nd_val {K W} _.
Arguments nd_left {K W} _.
Arguments nd_right {K W} _.
Arguments nd_parent {K W} _.
Arguments nd_next {K W} _.
Arguments nd_prev {K W} _.

(** [struct tree]; the comparison function is a parameter of the operations. *)
Record avltree (K W : Type) := Tree {
  t_root : option positive;
  t_first : option positive;
  t_prev : option positive;
  t_nodes : gmap positive (node K W);
}.
Arguments Tree {K W} _ _ _ _.
Arguments t_root {K W} _.
Arguments t_first {K W} _.
Arguments t_prev {K W} _.
Arguments t_nodes {K W} _.

(** Local variables of [node_height]: (node, height, maxheight). *)
Abbreviation nh_state := (option positive * Z * Z)%type.

Section avltree.
Context {K W : Type} (cmpfunc : K → K → Z).
Implicit Types s : avltree K W.

Definition N : heap_of (avltree K W) (node K W) :=
  HeapOf t_nodes (λ h s, Tree (t_root s) (t_first s) (t_prev s) h).

Definition set_root (p : option positive) : M (avltree K W) () :=
  modify (λ s, Tree p (t_first s) (t_prev s) (t_nodes s)).
Definition set_first (p : option positive) : M (avltree K W) () :=
  modify (λ s, Tree (t_root s) p (t_prev s) (t_nodes s)).
Definition set_last (p : option positive) : M (avltree K W) () :=
  modify (λ s, Tree (t_root s) (t_first s) p (t_nodes s)).
Definition set_left (a p : option positive) : M (avltree K W) () :=
  store N a (λ n, Node (nd_key n) (nd_val n) p (nd_right n) (nd_parent n) (nd_next n) (nd_prev n)).
Definition set_right (a p : option positive) : M (avltree K W) () :=
  store N a (λ n, Node (nd_key n) (nd_val n) (nd_left n) p (nd_parent n) (nd_next n) (nd_prev n)).
Definition set_parent (a p : option positive) : M (avltree K W) () :=
  store N a (λ n, Node (nd_key n) (nd_val n) (nd_left n) (nd_right n) p (nd_next n) (nd_prev n)).
Definition set_next (a p : option positive) : M (avltree K W) () :=
  store N a (λ n, Node (nd_key n) (nd_val n) (nd_left n) (nd_right n) (nd_parent n) p (nd_prev n)).
Definition set_prev (a p : option positive) : M (avltree K W) () :=
  store N a (λ n, Node (nd_key n) (nd_val n) (nd_left n) (nd_right n) (nd_parent n) (nd_next n) p).
Definition set_keyval (a : option positive) (k : option K) (v : option W) : M (avltree K W) () :=
  store N a (λ n, Node k v (nd_left n) (nd_right n) (nd_parent n) (nd_next n) (nd_prev n)).
Definition isset (p : option positive) : bool := match p with Some _ => true | None => false end.
Definition ptr_eq (p q : option positive) : bool := bool_decide (p = q).
(** Iterations that every loop over nodes is given; the theorems show that it is enough. *)
Definition tree_fuel : M (avltree K W) nat := gets (λ s, S (size (t_nodes s))).

Definition avltree_new : avltree K W := Tree None None None ∅.

Definition new_node : M (avltree K W) positive :=
  let! node := malloc N (Node None None None None None None None) in
  let! last := gets t_prev in
  do! when (isset last)
        (do! set_next last (Some node) in set_prev (Some node) last) in
  do! set_last (Some node) in
  let! first := gets t_first in
  do! when (negb (isset first)) (set_first (Some node)) in
  ret node.

Definition sibling (node : option positive) : M (avltree K W) (option positive) :=
  let! n := load N node in
  if negb (isset (nd_parent n)) then ret None else
  let! p := load N (nd_parent n) in
  if ptr_eq (nd_left p) node then ret (nd_right p) else ret None.

Definition first_child (node : option positive) : M (avltree K W) (option positive) :=
  let! n := load N node in
  if isset (nd_left n) then ret (nd_left n)
  else if isset (nd_right n) then ret (nd_right n) else ret None.

Definition rotate_left (root : option positive) : M (avltree K W) () :=
  let! n := load N root in
  let pivot := nd_right n in
  let parent := nd_parent n in
  let! tr := gets t_root in
  do! when (ptr_eq root tr) (set_root pivot) in
  let! pn := load N pivot in
  do! set_right root (nd_left pn) in
  do! when (isset (nd_left pn)) (set_parent (nd_left pn) root) in
  do! set_left pivot root in
  do! set_parent root pivot in
  do! set_parent pivot parent in
  when (isset parent)
    (let! g := load N parent in
     if ptr_eq (nd_left g) root then set_left parent pivot else set_right parent pivot).

Definition rotate_right (root : option positive) : M (avltree K W) () :=
  let! n := load N root in
  let pivot := nd_left n in
  let parent := nd_parent n in
  let! tr := gets t_root in
  do! when (ptr_eq root tr) (set_root pivot) in
  let! pn := load N pivot in
  do! set_left root (nd_right pn) in
  do! when (isset (nd_right pn)) (set_parent (nd_right pn) root) in
  do! set_right pivot root in
  do! set_parent root pivot in
  do! set_parent pivot parent in
  when (isset parent)
    (let! g := load N parent in
     if ptr_eq (nd_right g) root then set_right parent pivot else set_left parent pivot).

Definition nh_descend (fuel : nat) : nh_state → M (avltree K W) nh_state :=
  whileM fuel
    (λ x, let! c := first_child x.1.1 in ret (isset c))
    (λ x, let '(node, height, maxheight) := x in
       let! node := first_child node in
       let height := (height + 1)%Z in
       ret (node, height, if (height >? maxheight)%Z then height else maxheight)).

Definition nh_climb (root : option positive) (fuel : nat) : nh_state → M (avltree K W) nh_state :=
  whileM fuel
    (λ x, let! c := sibling x.1.1 in ret (negb (isset c) && negb (ptr_eq x.1.1 root)))
    (λ x, let '(node, height, maxheight) := x in
       let! n := load N node in
       ret (nd_parent n, height - 1, maxheight)%Z).

Definition nh_advance (root : option positive) (x : nh_state) : M (avltree K W) nh_state :=
  let '(node, height, maxheight) := x in
  if negb (ptr_eq node root) then
    let! node := sibling node in ret (node, height, maxheight)
  else ret (node, height, maxheight).

Definition nh_loop (root : option positive) (fuel fuel' : nat) : nh_state → M (avltree K W) nh_state :=
  whileM fuel
    (λ x, ret (negb (ptr_eq x.1.1 root)))
    (λ x, let! x := nh_descend fuel' x in
          let! x := nh_climb root fuel' x in
          nh_advance root x).

Definition node_height (root : option positive) : M (avltree K W) Z :=
  if negb (isset root) then ret 0%Z else
  let! node := first_child root in
  if isset node then
    let! fuel := tree_fuel in
    let! r := nh_loop root fuel fuel (node, 2, 2)%Z in
    ret r.2
  else ret 1%Z.

Definition balance_at (root : option positive) : M (avltree K W) () :=
  let! n := load N root in
  let! hr := node_height (nd_right n) in
  let! hl := node_height (nd_left n) in
  if (hr - hl =? 2)%Z then
    let! r := load N (nd_right n) in
    let! rr := node_height (nd_right r) in
    let! rl := node_height (nd_left r) in
    if (rr - rl =? 1)%Z then rotate_left root
    else if (rr - rl =? -1)%Z then
      do! rotate_right (nd_right n) in rotate_left root
    else ret ()
  else if (hr - hl =? -2)%Z then
    let! l := load N (nd_left n) in
    let! lr := node_height (nd_right l) in
    let! ll := node_height (nd_left l) in
    if (lr - ll =? -1)%Z then rotate_right root
    else if (lr - ll =? 1)%Z then
      do! rotate_left (nd_left n) in rotate_right root
    else ret ()
  else ret ().

Definition rebalance (node : option positive) : M (avltree K W) () :=
  let! n := load N node in
  let! fuel := tree_fuel in
  let! _ := whileM fuel (λ root, ret (isset root))
    (λ root,
       let! rn := load N root in
       let next := nd_parent rn in
       do! balance_at root in
       ret next)
    (nd_parent n) in
  ret ().

(** [cmpfunc(key, node->key)]; comparing with a NULL key is undefined. *)
Definition compare_at (key : K) (n : node K W) : M (avltree K W) Z :=
  let! k := lift (nd_key n) in ret (cmpfunc key k).

(** The search loops: the node that a search for [key] reaches, if it exists. *)
Definition search (key : K) : M (avltree K W) (option positive) :=
  let! root := gets t_root in
  let! fuel := tree_fuel in
  let! r := whileM fuel
    (λ x : option positive * bool, ret (isset x.1 && negb x.2))
    (λ x, let! n := load N x.1 in
       let! iswitch := compare_at key n in
       if (iswitch <? 0)%Z then ret (nd_left n, false)
       else if (iswitch >? 0)%Z then ret (nd_right n, false)
       else ret (x.1, true))
    (root, false) in
  ret r.1.

Definition avltree_lookup (key : K) : M (avltree K W) (option W) :=
  let! node := search key in
  match node with
  | Some _ => let! n := load N node in ret (nd_val n)
  | None => ret None
  end.

(** The descent of [avltree_add_node]: [inl node] while it goes on, [inr None]
    when the key exists, [inr (Some node)] when a node was linked in. *)
Definition add_descend (key : K) (node : option positive)
    : M (avltree K W) (option positive + option (option positive)) :=
  let! n := load N node in
  let! iswitch := compare_at key n in
  if (iswitch <? 0)%Z then
    if isset (nd_left n) then ret (inl (nd_left n)) else
      let! new := new_node in
      do! set_left node (Some new) in
      do! set_parent (Some new) node in
      ret (inr (Some (Some new)))
  else if (iswitch >? 0)%Z then
    if isset (nd_right n) then ret (inl (nd_right n)) else
      let! new := new_node in
      do! set_right node (Some new) in
      do! set_parent (Some new) node in
      ret (inr (Some (Some new)))
  else ret (inr None).

Definition avltree_add_node (key : K) (val : option W) : M (avltree K W) Z :=
  let! root := gets t_root in
  if isset root then
    let! fuel := tree_fuel in
    let! r := whileM fuel
      (λ x, ret (match x with inl _ => true | inr _ => false end))
      (λ x, match x with
            | inl node => add_descend key node
            | inr r => ret (inr r)
            end) (inl root) in
    match r with
    | inr (Some node) =>
        do! set_keyval node (Some key) val in
        do! rebalance node in
        ret 0%Z
    | _ => ret 1%Z
    end
  else
    let! node := new_node in
    do! set_keyval (Some node) (Some key) val in
    do! set_root (Some node) in
    ret 0%Z.

Definition dealloc_node (node : option positive) : M (avltree K W) () :=
  let! n := load N node in
  let! first := gets t_first in
  do! when (ptr_eq node first) (set_first (nd_next n)) in
  let! last := gets t_prev in
  do! when (ptr_eq node last) (set_last (nd_prev n)) in
  do! when (isset (nd_prev n)) (set_next (nd_prev n) (nd_next n)) in
  do! when (isset (nd_next n)) (set_prev (nd_next n) (nd_prev n)) in
  free N node.

(** [while(replace->right) replace = replace->right;] and its mirror image. *)
Definition rightmost (replace : option positive) : M (avltree K W) (option positive) :=
  let! fuel := tree_fuel in
  whileM fuel (λ p, let! n := load N p in ret (isset (nd_right n)))
              (λ p, let! n := load N p in ret (nd_right n)) replace.
Definition leftmost (replace : option positive) : M (avltree K W) (option positive) :=
  let! fuel := tree_fuel in
  whileM fuel (λ p, let! n := load N p in ret (isset (nd_left n)))
              (λ p, let! n := load N p in ret (nd_left n)) replace.

(** The target has a left subtree: its largest node takes the target's place. *)
Definition delete_with_left (target : option positive) (left : option positive)
    : M (avltree K W) () :=
  let! replace := rightmost left in
  let! r := load N replace in
  do! set_keyval target (nd_key r) (nd_val r) in
  do! (if ptr_eq (nd_parent r) target then set_left (nd_parent r) (nd_left r)
       else set_right (nd_parent r) (nd_left r)) in
  do! when (isset (nd_left r)) (set_parent (nd_left r) (nd_parent r)) in
  dealloc_node replace.

Definition delete_with_right (target : option positive) (right : option positive)
    : M (avltree K W) () :=
  let! replace := leftmost right in
  let! r := load N replace in
  do! set_keyval target (nd_key r) (nd_val r) in
  do! (if ptr_eq (nd_parent r) target then set_right (nd_parent r) (nd_right r)
       else set_left (nd_parent r) (nd_right r)) in
  do! when (isset (nd_right r)) (set_parent (nd_right r) (nd_parent r)) in
  dealloc_node replace.

Definition delete_leaf (target : option positive) (parent : option positive)
    : M (avltree K W) () :=
  let! root := gets t_root in
  do! (if negb (ptr_eq target root) then
         let! p := load N parent in
         if ptr_eq (nd_left p) target then set_left parent None else set_right parent None
       else set_root None) in
  dealloc_node target.

Definition avltree_delete_node (key : K) : M (avltree K W) (option W) :=
  let! target := search key in
  if negb (isset target) then ret None else
  let! t := load N target in
  let val := nd_val t in
  let parent := nd_parent t in
  do! (if isset (nd_left t) then delete_with_left target (nd_left t)
       else if isset (nd_right t) then delete_with_right target (nd_right t)
       else delete_leaf target parent) in
  do! when (isset parent) (rebalance parent) in
  ret val.

Definition avltree_free : M (avltree K W) () :=
  let! node := gets t_first in
  let! fuel := tree_fuel in
  let! _ := whileM fuel (λ node, ret (isset node))
    (λ node, let! n := load N node in
             do! free N node in
             ret (nd_next n)) node in
  ret ().
End avltree.
