(* ===== verification/AvlShape.v ===== *)
(** * The shape of the AVL tree: what the pointers of avltree.c represent

    The heap of nodes represents a tree of addresses; a position in the tree is
    a context.  The walk of [node_height] computes the height, the rotations
    and [rebalance] are functions on trees, and none of them touches the list
    that threads the nodes. *)
From stdpp Require Import base tactics numbers list gmap.
From S2P Require Import Prelude Chains AvlTree.

(** The fields of the tree structure: (key, val, left, right, parent). *)
Abbreviation tinfo K W :=
  (option K * option W * option positive * option positive * option positive)%type.

Section shape.
Context {K W : Type}.
Implicit Types s : avltree K W.

(** ** Trees of addresses and contexts *)

Inductive ltree :=
  | Leaf
  | LNode (l : ltree) (a : positive) (k : K) (v : option W) (r : ltree).

Inductive ctx :=
  | Top
  | CLeft (c : ctx) (a : positive) (k : K) (v : option W) (r : ltree)
  | CRight (c : ctx) (l : ltree) (a : positive) (k : K) (v : option W).

Fixpoint plug (c : ctx) (t : ltree) : ltree :=
  match c with
  | Top => t
  | CLeft c a k v r => plug c (LNode t a k v r)
  | CRight c l a k v => plug c (LNode l a k v t)
  end.

Definition rootp (t : ltree) : option positive :=
  match t with Leaf => None | LNode _ a _ _ _ => Some a end.
Definition cpar (c : ctx) : option positive :=
  match c with Top => None | CLeft _ a _ _ _ | CRight _ _ a _ _ => Some a end.

Fixpoint locs (t : ltree) : list positive :=
  match t with Leaf => [] | LNode l a _ _ r => locs l ++ a :: locs r end.
Fixpoint clocs (c : ctx) : list positive :=
  match c with
  | Top => []
  | CLeft c a _ _ r => a :: locs r ++ clocs c
  | CRight c l a _ _ => a :: locs l ++ clocs c
  end.

Fixpoint height (t : ltree) : nat :=
  match t with Leaf => 0 | LNode l _ _ _ r => S (height l `max` height r) end.
Fixpoint leaves (t : ltree) : nat :=
  match t with
  | Leaf => 0
  | LNode Leaf _ _ _ Leaf => 1
  | LNode l _ _ _ r => leaves l + leaves r
  end.

Lemma locs_plug c t : locs (plug c t) ≡ₚ locs t ++ clocs c.
Proof.
  revert t. induction c as [|c IH a k v r|c IH l a k v]; intros t; simpl.
  - by rewrite app_nil_r.
  - rewrite IH. simpl. by rewrite <- app_assoc.
  - rewrite IH. simpl. rewrite <- !app_assoc. simpl.
    rewrite (Permutation_app_comm (locs l)). simpl. solve_Permutation.
Qed.

Lemma height_locs t : height t ≤ length (locs t).
Proof. induction t; simpl; [done|]. rewrite length_app. simpl. lia. Qed.
Lemma leaves_locs t : leaves t ≤ length (locs t).
Proof.
  induction t as [|l IHl a k v r IHr]; [done|].
  simpl. rewrite length_app. simpl. destruct l, r; simpl in *; lia.
Qed.

Lemma rootp_elem t a : rootp t = Some a → a ∈ locs t.
Proof. destruct t; intros [= ->]. simpl. apply elem_of_app. right. constructor. Qed.
Lemma cpar_elem c a : cpar c = Some a → a ∈ clocs c.
Proof. destruct c; intros [= ->]; simpl; constructor. Qed.
Lemma rootp_plug c t : c ≠ Top → ∃ a, rootp (plug c t) = Some a ∧ a ∈ clocs c.
Proof.
  revert t. induction c as [|c IH a k v r|c IH l a k v]; intros t Hc; [done| |]; simpl;
    (destruct c; [exists a; split; [done|constructor]|..]);
    match goal with |- ∃ _, rootp (plug _ ?t') = _ ∧ _ =>
      destruct (IH t') as (b & ? & ?); [done|]; exists b; split; [done|]; right; apply elem_of_app; by right
    end.
Qed.

(** ** Representation *)

Definition info (h : gmap positive (node K W)) (a : positive) : option (tinfo K W) :=
  (λ n, (nd_key n, nd_val n, nd_left n, nd_right n, nd_parent n)) <$> h !! a.
(** The fields of the threading list: (prev, next). *)
Definition lnk (h : gmap positive (node K W)) (a : positive)
    : option (option positive * option positive) :=
  (λ n, (nd_prev n, nd_next n)) <$> h !! a.

Fixpoint tree_at (I : positive → option (tinfo K W)) (par : option positive) (t : ltree) : Prop :=
  match t with
  | Leaf => True
  | LNode l a k v r =>
      I a = Some (Some k, v, rootp l, rootp r, par) ∧
      tree_at I (Some a) l ∧ tree_at I (Some a) r
  end.

(** [ctx_at I c p]: the nodes of the context, with [p] in the hole. *)
Fixpoint ctx_at (I : positive → option (tinfo K W)) (c : ctx) (p : option positive) : Prop :=
  match c with
  | Top => True
  | CLeft c a k v r =>
      I a = Some (Some k, v, p, rootp r, cpar c) ∧ tree_at I (Some a) r ∧ ctx_at I c (Some a)
  | CRight c l a k v =>
      I a = Some (Some k, v, rootp l, p, cpar c) ∧ tree_at I (Some a) l ∧ ctx_at I c (Some a)
  end.

Lemma tree_at_plug I c t :
  tree_at I None (plug c t) ↔ ctx_at I c (rootp t) ∧ tree_at I (cpar c) t.
Proof.
  revert t. induction c as [|c IH a k v r|c IH l a k v]; intros t; simpl; [tauto|..];
    rewrite IH; simpl; tauto.
Qed.

Lemma tree_at_ext I I' p t :
  (∀ x, x ∈ locs t → I' x = I x) → tree_at I p t → tree_at I' p t.
Proof.
  revert p. induction t as [|l IHl a k v r IHr]; intros p Hext; simpl in *; [done|].
  intros (Ha & Hl & Hr). split_and!.
  - rewrite Hext; [done|]. apply elem_of_app. right. constructor.
  - apply IHl; [|done]. intros x Hx. apply Hext, elem_of_app. by left.
  - apply IHr; [|done]. intros x Hx. apply Hext, elem_of_app. right. by constructor.
Qed.

Lemma ctx_at_ext I I' c p :
  (∀ x, x ∈ clocs c → I' x = I x) → ctx_at I c p → ctx_at I' c p.
Proof.
  revert p. induction c as [|c IH a k v r|c IH l a k v]; intros p Hext; simpl in *; [done|..];
    intros (Ha & Hl & Hr); (split_and!;
    [rewrite Hext by constructor; done
    |eapply tree_at_ext; [|done]; intros x Hx; apply Hext; right; apply elem_of_app; by left
    |apply IH; [|done]; intros x Hx; apply Hext; right; apply elem_of_app; by right]).
Qed.

Lemma tree_at_elem I p t a : tree_at I p t → a ∈ locs t → is_Some (I a).
Proof.
  revert p. induction t as [|l IHl b k v r IHr]; intros p; simpl; [set_solver|].
  intros (Hb & Hl & Hr) [Ha|[->|Ha]%elem_of_cons]%elem_of_app; eauto.
Qed.

Definition setL (p : option positive) (i : (tinfo K W)) : (tinfo K W) :=
  let '(k, v, l, r, q) := i in (k, v, p, r, q).
Definition setR (p : option positive) (i : (tinfo K W)) : (tinfo K W) :=
  let '(k, v, l, r, q) := i in (k, v, l, p, q).
Definition setP (p : option positive) (i : (tinfo K W)) : (tinfo K W) :=
  let '(k, v, l, r, q) := i in (k, v, l, r, p).
Definition setKV (k' : option K) (v' : option W) (i : (tinfo K W)) : (tinfo K W) :=
  let '(k, v, l, r, q) := i in (k', v', l, r, q).

(** A subtree whose root got another parent. *)
Lemma tree_at_reparent I I' p p' t :
  NoDup (locs t) → tree_at I p t →
  (∀ x, x ∈ locs t → I' x = if decide (rootp t = Some x) then setP p' <$> I x else I x) →
  tree_at I' p' t.
Proof.
  destruct t as [|l a k v r]; simpl; [done|].
  intros Hnd (Ha & Hl & Hr) HI. apply NoDup_app in Hnd as (_ & Hla & [Hra _]%NoDup_cons).
  split_and!.
  - rewrite HI, decide_True, Ha; [done..|]. apply elem_of_app. right. constructor.
  - eapply tree_at_ext; [|exact Hl]. intros x Hx.
    rewrite HI, decide_False; [done| |].
    + intros [= ->]. apply (Hla x Hx). constructor.
    + apply elem_of_app. by left.
  - eapply tree_at_ext; [|exact Hr]. intros x Hx.
    rewrite HI, decide_False; [done| |].
    + by intros [= ->].
    + apply elem_of_app. right. by constructor.
Qed.
End shape.
Arguments ltree : clear implicits.
Arguments ctx : clear implicits.

(** ** [node_height] computes the height *)
Section height.
Context {K W : Type}.
Implicit Types s : avltree K W.
Implicit Types t : ltree K W.

Lemma info_load s a k v l r p (Q : node K W → avltree K W → Prop) :
  info (t_nodes s) a = Some (k, v, l, r, p) →
  (∀ nx pv, lnk (t_nodes s) a = Some (pv, nx) → Q (Node k v l r p nx pv) s) →
  wp (load N (Some a)) Q s.
Proof.
  unfold info. intros Ha HQ. destruct (t_nodes s !! a) as [[k' v' l' r' p' nx pv]|] eqn:E; [|done].
  simpl in Ha. simplify_eq. eapply wp_load; [exact E|]. apply HQ. unfold lnk. by rewrite E.
Qed.

Lemma wp_first_child s a k v l r p (Q : option positive → avltree K W → Prop) :
  info (t_nodes s) a = Some (k, v, l, r, p) →
  Q (match l with Some _ => l | None => r end) s → wp (first_child (Some a)) Q s.
Proof.
  intros Ha HQ. unfold first_child. wp_step. eapply info_load; [exact Ha|]. intros; simpl.
  destruct l; simpl; [by wp_step|]. destruct r; simpl; by wp_step.
Qed.

Lemma wp_sibling s a k v l r p kp vp lp rp pp (Q : option positive → avltree K W → Prop) :
  info (t_nodes s) a = Some (k, v, l, r, Some p) →
  info (t_nodes s) p = Some (kp, vp, lp, rp, pp) →
  Q (if decide (lp = Some a) then rp else None) s → wp (sibling (Some a)) Q s.
Proof.
  intros Ha Hp HQ. unfold sibling. wp_step. eapply info_load; [exact Ha|]. intros; simpl.
  wp_step. eapply info_load; [exact Hp|]. intros; simpl. unfold ptr_eq.
  destruct (decide (lp = Some a)); [rewrite bool_decide_true by done|rewrite bool_decide_false by done]; by wp_step.
Qed.

(** The walk after the descent from a node ended, with [f] iterations left
    for the climb and [n] for the outer loop. *)
Definition after (root : positive) (F f n : nat) (x : nh_state)
    (Q : nh_state → avltree K W → Prop) s : Prop :=
  wp (let! y := nh_climb (Some root) f x in
      let! z := nh_advance (Some root) y in
      nh_loop (Some root) n F z) Q s.

(** The walk from a node, with [g] iterations left for the descent. *)
Definition walk (root : positive) (F g n : nat) (x : nh_state)
    (Q : nh_state → avltree K W → Prop) s : Prop :=
  wp (nh_descend g x) (λ y s', after root F F n y Q s') s.

Lemma nh_loop_walk root F n b ht mx Q s :
  b ≠ root → walk root F F n (Some b, ht, mx) Q s →
  wp (nh_loop (Some root) (S n) F (Some b, ht, mx)) Q s.
Proof.
  intros Hx Hw. unfold nh_loop. simpl. wp_steps. unfold ptr_eq. rewrite bool_decide_false by congruence.
  simpl. wp_steps. eapply wp_mono; [exact Hw|]. intros y s' Ha%wp_bind_inv. wp_steps.
  eapply wp_mono; [exact Ha|]. intros z s2 Hz%wp_bind_inv. exact Hz.
Qed.

(** The climb from a node without a next sibling goes on at its parent. *)
Lemma after_climb root F f n a b ht mx kb vb lb rb ka va la ra pa Q s :
  info (t_nodes s) b = Some (kb, vb, lb, rb, Some a) →
  info (t_nodes s) a = Some (ka, va, la, ra, pa) →
  (la = Some b → ra = None) → b ≠ root →
  after root F f n (Some a, ht, mx) Q s → after root F (S f) n (Some b, ht + 1, mx)%Z Q s.
Proof.
  intros Hb Ha Hla Hr Haf. unfold after, nh_climb in *. simpl. wp_steps.
  eapply wp_sibling; [exact Hb|exact Ha|]. wp_step.
  assert ((if decide (la = Some b) then ra else None) = None) as ->.
  { case_decide; [by apply Hla|done]. }
  unfold ptr_eq at 1. rewrite bool_decide_false by congruence. simpl. wp_step.
  wp_step. eapply info_load; [exact Hb|]. intros; simpl. wp_step.
  replace (ht + 1 - 1)%Z with ht by lia. by apply wp_bind_inv in Haf.
Qed.

(** The climb stops at a node with a next sibling, where the walk goes on. *)
Lemma after_sibling root F f n a b c ht mx kb vb lb rb ka va pa Q s :
  info (t_nodes s) b = Some (kb, vb, lb, rb, Some a) →
  info (t_nodes s) a = Some (ka, va, Some b, Some c, pa) →
  b ≠ root → c ≠ root →
  walk root F F n (Some c, ht, mx) Q s → after root F (S f) (S n) (Some b, ht, mx)%Z Q s.
Proof.
  intros Hb Ha Hr Hc Hw. unfold after, nh_climb, nh_advance in *. simpl. wp_steps.
  eapply wp_sibling; [exact Hb|exact Ha|]. rewrite decide_True by done. wp_step. simpl. wp_step.
  wp_step. unfold ptr_eq at 1. rewrite bool_decide_false by congruence. simpl. wp_step.
  eapply wp_sibling; [exact Hb|exact Ha|]. rewrite decide_True by done. wp_step.
  by apply nh_loop_walk.
Qed.

(** What the walk does with a subtree: it goes on after the subtree, with the
    maximum updated. *)
Definition walks (root : positive) (F : nat) s t : Prop :=
  ∀ p g n ht mx Q, tree_at (info (t_nodes s)) p t → NoDup (locs t) → root ∉ locs t →
    height t ≤ g → height t ≤ F → t ≠ Leaf → (ht ≤ mx)%Z →
    (∀ f, F < f + height t →
       after root F f n (rootp t, ht, mx `max` (ht + Z.of_nat (height t) - 1))%Z Q s) →
    walk root F g (n + leaves t - 1) (rootp t, ht, mx) Q s.

Definition first_child_of t : option positive :=
  match t with
  | Leaf => None
  | LNode l _ _ _ r => match rootp l with Some a => Some a | None => rootp r end
  end.


#[export] Instance is_leaf_dec t : Decision (t = Leaf).
Proof. refine (match t with Leaf => left eq_refl | LNode _ _ _ _ _ => right _ end); done. Defined.

Lemma tree_at_root I p t :
  tree_at I p t → t ≠ Leaf → ∃ a k v l r, rootp t = Some a ∧ a ∈ locs t ∧ I a = Some (k, v, l, r, p).
Proof.
  destruct t as [|l a k v r]; [done|]. intros (Ha & _ & _) _.
  do 5 eexists. split; [done|]. split; [|exact Ha]. simpl. apply elem_of_app. right. constructor.
Qed.

Lemma leaves_node l a k v r :
  l ≠ Leaf ∨ r ≠ Leaf → leaves (LNode (K := K) (W := W) l a k v r) = leaves l + leaves r.
Proof. destruct l, r; [naive_solver|done..]. Qed.
Lemma leaves_pos t : t ≠ Leaf → 1 ≤ leaves t.
Proof.
  induction t as [|l IHl a k v r IHr]; [done|]. intros _.
  destruct l as [|l1 b kb vb l2], r as [|r1 c kc vc r2]; [simpl; lia|..];
    (rewrite leaves_node by (by (left + right)); first [specialize (IHl ltac:(done)); lia|specialize (IHr ltac:(done)); lia]).
Qed.

(** The walk over the subtrees of a node that has a child. *)
Lemma walk_children root F s l a k v r p g n ht mx Q :
  walks root F s l → walks root F s r →
  tree_at (info (t_nodes s)) p (LNode l a k v r) → NoDup (locs (LNode l a k v r)) →
  root ∉ locs l → root ∉ locs r → l ≠ Leaf ∨ r ≠ Leaf →
  height l ≤ g → height r ≤ g → height l ≤ F → height r ≤ F →
  (∀ f, F < f + height (LNode l a k v r) →
     after root F f n (Some a, ht, mx `max` (ht + Z.of_nat (height (LNode l a k v r)) - 1))%Z Q s) →
  walk root F g (n + leaves (LNode l a k v r) - 1)
    (first_child_of (LNode l a k v r), ht + 1, mx `max` (ht + 1))%Z Q s.
Proof.
  intros Hl Hr (Ha & Htl & Htr) Hnd Hrl Hrr Hne Hgl Hgr HFl HFr Haf. simpl in Haf, Hnd.
  apply NoDup_app in Hnd as (Hndl & Hlr & [_ Hndr]%NoDup_cons).
  (* the walk over the right subtree, whatever the maximum so far *)
  assert (∀ g n' mx0, r ≠ Leaf → height r ≤ g → n' = n + leaves r - 1 → (ht + 1 ≤ mx0)%Z →
    (mx0 `max` (ht + 1 + Z.of_nat (height r) - 1) = mx `max` (ht + Z.of_nat (S (height l `max` height r)) - 1))%Z →
    walk root F g n' (rootp r, ht + 1, mx0)%Z Q s) as Hright.
  { intros g' n' mx0 Hner Hg -> Hmx Heq. eapply Hr; [done|done|done|done|done|done|done|].
    intros f Hf. rewrite Heq. destruct (tree_at_root _ _ _ Htr Hner) as (b & kb & vb & lb & rb & Hb & Hin & Hib).
    rewrite Hb. destruct f as [|f]; [lia|]. eapply after_climb; [exact Hib|exact Ha| |by intros ->|].
    - intros E%rootp_elem. destruct (Hlr b E). by constructor.
    - apply Haf. lia. }
  destruct (decide (l = Leaf)) as [->|Hnel].
  { simpl. destruct r; [naive_solver|]. apply Hright; [done|done|done|lia|simpl; lia]. }
  destruct (tree_at_root _ _ _ Htl Hnel) as (b & kb & vb & lb & rb & Hb & Hin & Hib).
  rewrite leaves_node by done. simpl. rewrite Hb. rewrite <- Hb.
  replace (n + _ - 1) with (n + leaves r + leaves l - 1) by lia.
  eapply Hl; [done|done|done|done|done|done|lia|].
  intros f Hf. rewrite Hb. rewrite Hb in Ha. destruct f as [|f]; [lia|].
  destruct (decide (r = Leaf)) as [->|Hner].
  - simpl. rewrite Nat.add_0_r. eapply after_climb; [exact Hib|exact Ha|done|by intros ->|].
    simpl in Haf. rewrite Nat.max_0_r in Haf.
    replace (_ `max` _)%Z with (mx `max` (ht + Z.of_nat (S (height l)) - 1))%Z; [apply Haf; lia|].
    destruct l; [done|]. simpl. lia.
  - destruct (tree_at_root _ _ _ Htr Hner) as (c & kc & vc & lc & rc & Hc & Hinc & Hic).
    rewrite Hc in Ha.
    pose proof (leaves_pos _ Hner). replace (n + leaves r) with (S (n + leaves r - 1)) by lia.
    eapply after_sibling; [exact Hib|exact Ha|by intros ->|by intros ->|].
    rewrite <- Hc. apply Hright; [done|done|done|lia|].
    destruct l, r; try done; simpl; lia.
Qed.

Lemma walks_all root F s t : walks root F s t.
Proof.
  induction t as [|l IHl a k v r IHr]; intros p g n ht mx Q Ht Hnd Hroot Hg HF Hne Hmx Haf; [done|].
  pose proof Ht as (Ha & _ & _). unfold walk, nh_descend. destruct g as [|g]; [simpl in Hg; lia|].
  simpl. wp_steps. eapply wp_first_child; [exact Ha|]. wp_step.
  simpl in Hroot, Hg, HF. apply not_elem_of_app in Hroot as [Hrl [_ Hrr]%not_elem_of_cons].
  destruct (decide (l = Leaf ∧ r = Leaf)) as [[-> ->]|Hch].
  - simpl. wp_step. replace (n + 1 - 1) with n by lia.
    replace mx with (mx `max` (ht + Z.of_nat (height (LNode Leaf a k v Leaf)) - 1))%Z by (simpl; lia).
    apply Haf. simpl. lia.
  - assert (l ≠ Leaf ∨ r ≠ Leaf) as Hlr by (destruct l, r; naive_solver).
    assert (isset (match rootp l with Some _ => rootp l | None => rootp r end) = true) as Hset.
    { destruct l, r; naive_solver. }
    rewrite Hset. wp_step. wp_step. eapply wp_first_child; [exact Ha|]. wp_step.
    assert ((if (ht + 1 >? mx)%Z then (ht + 1)%Z else mx) = mx `max` (ht + 1))%Z as ->.
    { rewrite Z.gtb_ltb. destruct (Z.ltb_spec mx (ht + 1)); lia. }
    assert ((match rootp l with Some _ => rootp l | None => rootp r end) =
      first_child_of (LNode l a k v r)) as -> by (by destruct l).
    change (walk root F g (n + leaves (LNode l a k v r) - 1)
      (first_child_of (LNode l a k v r), (ht + 1)%Z, (mx `max` (ht + 1))%Z) Q s).
    eapply walk_children; [done|done|exact Ht|done|done|done|done|lia..|exact Haf].
Qed.

(** The walk ends when the climb is back at the root. *)
Lemma after_root s a F f n k v l r p ht mx (Q : nh_state → avltree K W → Prop) :
  info (t_nodes s) a = Some (k, v, l, r, p) →
  (∀ q, p = Some q → is_Some (info (t_nodes s) q)) →
  Q (Some a, ht, mx) s → after a F (S f) (S n) (Some a, ht, mx) Q s.
Proof.
  intros Ha Hp HQ. unfold after, nh_climb, nh_advance, nh_loop. simpl. wp_steps.
  eapply (wp_mono _ (λ _ s', s' = s)).
  { unfold sibling. wp_step. eapply info_load; [exact Ha|]. intros; simpl.
    destruct p as [q|]; simpl; [|by wp_step].
    destruct (Hp q eq_refl) as [[[[[kq vq] lq] rq] pq] Hq]. wp_step.
    eapply info_load; [exact Hq|]. intros; simpl. destruct (ptr_eq lq (Some a)); by wp_step. }
  assert (∀ q, ptr_eq q q = true) as Heq by (intros; by apply bool_decide_true).
  intros c s' ->. wp_steps. rewrite Heq, andb_false_r. wp_steps. rewrite Heq. simpl. wp_steps.
  rewrite Heq. simpl. by wp_steps.
Qed.

Lemma nh_loop_children s l a k v r p F (Q : nh_state → avltree K W → Prop) :
  tree_at (info (t_nodes s)) p (LNode l a k v r) → NoDup (locs (LNode l a k v r)) →
  (∀ q, p = Some q → is_Some (info (t_nodes s) q)) →
  l ≠ Leaf ∨ r ≠ Leaf → length (locs (LNode l a k v r)) < F →
  Q (Some a, 1, Z.of_nat (height (LNode l a k v r)))%Z s →
  wp (nh_loop (Some a) F F (first_child_of (LNode l a k v r), 2, 2)%Z) Q s.
Proof.
  intros Ht Hnd Hp Hne HF HQ. pose proof (leaves_pos (LNode l a k v r) ltac:(done)) as Hlp.
  pose proof (leaves_locs (LNode l a k v r)) as Hll. pose proof (height_locs (LNode l a k v r)) as Hhl.
  simpl in Hnd. pose proof Hnd as (Hndl & Hlr & [Hra Hndr]%NoDup_cons)%NoDup_app.
  assert (a ∉ locs l) as Hla by (intros Hin; apply (Hlr a Hin); constructor).
  destruct (first_child_of (LNode l a k v r)) as [c|] eqn:Hc; [|destruct l, r; naive_solver].
  assert (c ≠ a) as Hca.
  { intros ->. simpl in Hc. destruct (rootp l) as [c|] eqn:E; simplify_eq; by apply rootp_elem in E || apply rootp_elem in Hc. }
  destruct F as [|F]; [lia|]. apply nh_loop_walk; [done|]. rewrite <- Hc.
  set (n := F - leaves (LNode l a k v r)).
  pose proof (walk_children a (S F) s l a k v r p (S F) (S n) 1 1 Q) as Hw.
  replace (S n + leaves (LNode l a k v r) - 1) with F in Hw by lia.
  simpl in Hhl, HF. apply Hw; try done; try apply walks_all; try lia.
  intros f Hf. destruct f as [|f]; [simpl in Hf; lia|].
  eapply after_root; [by apply Ht|done|].
  by replace (1 `max` _)%Z with (Z.of_nat (height (LNode l a k v r))) by (simpl; lia).
Qed.

(** [node_height] returns the height of the tree below its argument. *)
Lemma wp_node_height s p t (Q : Z → avltree K W → Prop) :
  tree_at (info (t_nodes s)) p t → NoDup (locs t) → length (locs t) ≤ size (t_nodes s) →
  (∀ q, p = Some q → is_Some (info (t_nodes s) q)) →
  Q (Z.of_nat (height t)) s → wp (node_height (rootp t)) Q s.
Proof.
  intros Ht Hnd Hsz Hp HQ. unfold node_height. destruct t as [|l a k v r]; simpl; [by wp_step|].
  wp_step. eapply wp_first_child; [by apply Ht|].
  destruct (decide (l = Leaf ∧ r = Leaf)) as [[-> ->]|Hch]; [by simpl; wp_step|].
  assert (l ≠ Leaf ∨ r ≠ Leaf) as Hlr by (destruct l, r; naive_solver).
  assert (isset (match rootp l with Some _ => rootp l | None => rootp r end) = true) as ->.
  { destruct l, r; naive_solver. }
  unfold tree_fuel. wp_steps.
  assert ((match rootp l with Some _ => rootp l | None => rootp r end) =
    first_child_of (LNode l a k v r)) as -> by (by destruct l).
  eapply nh_loop_children; [done|done|done|done|simpl in *; lia|]. by wp_step.
Qed.

End height.
