(* ===== verification/AvlBalance.v ===== *)
(** * Rotations and rebalancing of the AVL tree (src/src/util/avltree.c)

    [rotate_left], [rotate_right] and [rebalance] as functions on trees: they
    keep the nodes, their in-order sequence, every parent pointer and the
    threading list, and [rebalance] rotates exactly as [balance1] says on the
    path to the root. *)
From stdpp Require Import base tactics numbers list gmap.
From S2P Require Import Prelude Chains AvlTree AvlShape.

Section rotate.
Context {K W : Type}.
Implicit Types s : avltree K W.
Implicit Types t : ltree K W.
Implicit Types C : ctx K W.

(** ** Effect of one pointer store *)

Definition with_nodes s (r : option positive) h : avltree K W := Tree r (t_first s) (t_prev s) h.

Definition info_of (n : node K W) : tinfo K W := (nd_key n, nd_val n, nd_left n, nd_right n, nd_parent n).

Lemma wp_upd s a f g (Q : () → avltree K W → Prop) :
  (∀ n, info_of (f n) = g (info_of n)) →
  (∀ n, (nd_prev (f n), nd_next (f n)) = (nd_prev n, nd_next n)) →
  is_Some (info (t_nodes s) a) →
  (∀ h, (∀ y, lnk h y = lnk (t_nodes s) y) →
     (∀ y, info h y = if decide (y = a) then g <$> info (t_nodes s) y else info (t_nodes s) y) →
     Q () (with_nodes s (t_root s) h)) →
  wp (store N (Some a) f) Q s.
Proof.
  intros Hf Hl [i Hi] HQ. unfold info in Hi. destruct (t_nodes s !! a) as [n|] eqn:E; [|done].
  eapply wp_store; [exact E|]. apply HQ; intros y; unfold info, lnk;
    destruct (decide (y = a)) as [->|]; simplify_map_eq; simpl; [|done| |done].
  - by rewrite Hl.
  - f_equal. exact (Hf n).
Qed.

Lemma wp_set_right s a p (Q : () → avltree K W → Prop) :
  is_Some (info (t_nodes s) a) →
  (∀ h, (∀ y, lnk h y = lnk (t_nodes s) y) →
     (∀ y, info h y = if decide (y = a) then setR p <$> info (t_nodes s) y else info (t_nodes s) y) →
     Q () (with_nodes s (t_root s) h)) →
  wp (set_right (Some a) p) Q s.
Proof. by apply wp_upd. Qed.
Lemma wp_set_left s a p (Q : () → avltree K W → Prop) :
  is_Some (info (t_nodes s) a) →
  (∀ h, (∀ y, lnk h y = lnk (t_nodes s) y) →
     (∀ y, info h y = if decide (y = a) then setL p <$> info (t_nodes s) y else info (t_nodes s) y) →
     Q () (with_nodes s (t_root s) h)) →
  wp (set_left (Some a) p) Q s.
Proof. by apply wp_upd. Qed.
Lemma wp_set_parent s a p (Q : () → avltree K W → Prop) :
  is_Some (info (t_nodes s) a) →
  (∀ h, (∀ y, lnk h y = lnk (t_nodes s) y) →
     (∀ y, info h y = if decide (y = a) then setP p <$> info (t_nodes s) y else info (t_nodes s) y) →
     Q () (with_nodes s (t_root s) h)) →
  wp (set_parent (Some a) p) Q s.
Proof. by apply wp_upd. Qed.
Lemma wp_set_keyval s a k v (Q : () → avltree K W → Prop) :
  is_Some (info (t_nodes s) a) →
  (∀ h, (∀ y, lnk h y = lnk (t_nodes s) y) →
     (∀ y, info h y = if decide (y = a) then setKV k v <$> info (t_nodes s) y else info (t_nodes s) y) →
     Q () (with_nodes s (t_root s) h)) →
  wp (set_keyval (Some a) k v) Q s.
Proof. by apply wp_upd. Qed.

(** [if(p)p->parent = q;] *)
Lemma wp_when_set_parent s o p (Q : () → avltree K W → Prop) :
  (∀ a, o = Some a → is_Some (info (t_nodes s) a)) →
  (∀ h, (∀ y, lnk h y = lnk (t_nodes s) y) →
     (∀ y, info h y = if decide (o = Some y) then setP p <$> info (t_nodes s) y else info (t_nodes s) y) →
     Q () (with_nodes s (t_root s) h)) →
  wp (when (isset o) (set_parent o p)) Q s.
Proof.
  intros Ho HQ. destruct o as [a|]; simpl.
  - apply wp_set_parent; [by apply Ho|]. intros h Hl HI. apply HQ; [done|]. intros y. rewrite HI.
    by apply decide_ext; naive_solver.
  - apply wp_ret. destruct s. by apply HQ.
Qed.

(** Stores to the fields of the threading list. *)
Lemma wp_updl s a f g (Q : () → avltree K W → Prop) :
  (∀ n, info_of (f n) = info_of n) →
  (∀ n, (nd_prev (f n), nd_next (f n)) = g (nd_prev n, nd_next n)) →
  is_Some (lnk (t_nodes s) a) →
  (∀ h, (∀ y, info h y = info (t_nodes s) y) →
     (∀ y, lnk h y = if decide (y = a) then g <$> lnk (t_nodes s) y else lnk (t_nodes s) y) →
     Q () (with_nodes s (t_root s) h)) →
  wp (store N (Some a) f) Q s.
Proof.
  intros Hf Hl [i Hi] HQ. unfold lnk in Hi. destruct (t_nodes s !! a) as [n|] eqn:E; [|done].
  eapply wp_store; [exact E|]. apply HQ; intros y; unfold info, lnk;
    destruct (decide (y = a)) as [->|]; simplify_map_eq; simpl; [|done| |done].
  - f_equal. exact (Hf n).
  - by rewrite Hl.
Qed.

Lemma wp_when_set_lnext s o p (Q : () → avltree K W → Prop) :
  (∀ a, o = Some a → is_Some (lnk (t_nodes s) a)) →
  (∀ h, (∀ y, info h y = info (t_nodes s) y) →
     (∀ y, lnk h y = if decide (o = Some y) then (λ x, (x.1, p)) <$> lnk (t_nodes s) y else lnk (t_nodes s) y) →
     Q () (with_nodes s (t_root s) h)) →
  wp (when (isset o) (set_next o p)) Q s.
Proof.
  intros Ho HQ. destruct o as [a|]; simpl.
  - eapply (wp_updl s a _ (λ x, (x.1, p))); [done|done|by apply Ho|]. intros h Hl HI. apply HQ; [done|].
    intros y. rewrite HI. by apply decide_ext; naive_solver.
  - apply wp_ret. destruct s. by apply HQ.
Qed.

Lemma wp_when_set_lprev s o p (Q : () → avltree K W → Prop) :
  (∀ a, o = Some a → is_Some (lnk (t_nodes s) a)) →
  (∀ h, (∀ y, info h y = info (t_nodes s) y) →
     (∀ y, lnk h y = if decide (o = Some y) then (λ x, (p, x.2)) <$> lnk (t_nodes s) y else lnk (t_nodes s) y) →
     Q () (with_nodes s (t_root s) h)) →
  wp (when (isset o) (set_prev o p)) Q s.
Proof.
  intros Ho HQ. destruct o as [a|]; simpl.
  - eapply (wp_updl s a _ (λ x, (p, x.2))); [done|done|by apply Ho|]. intros h Hl HI. apply HQ; [done|].
    intros y. rewrite HI. by apply decide_ext; naive_solver.
  - apply wp_ret. destruct s. by apply HQ.
Qed.

(** The pointer of the parent to the hole of a context is redirected, as the
    two rotations and the deletion of a leaf do it. *)
Lemma ctx_at_hole I I' C p p' :
  NoDup (clocs C) → ctx_at I C p →
  (∀ z, z ∈ clocs C → I' z = if decide (cpar C = Some z)
     then (match C with CLeft _ _ _ _ _ => setL p' | _ => setR p' end) <$> I z else I z) →
  ctx_at I' C p'.
Proof.
  destruct C as [|c a k v r|c l a k v]; simpl; [done|..]; intros [Hna _]%NoDup_cons (Ha & Ht & Hc) HI;
  apply not_elem_of_app in Hna as [Hn1 Hn2]; (split_and!;
   [rewrite HI, decide_True, Ha by (done || constructor); done
   |eapply tree_at_ext; [|exact Ht]; intros x Hx; rewrite HI, decide_False
   |eapply ctx_at_ext; [|exact Hc]; intros x Hx; rewrite HI, decide_False]);
  first [by intros [= ->]|done|right; apply elem_of_app; by (left + right)].
Qed.

Definition redirected s C p' (Q : () → avltree K W → Prop) : Prop :=
  ∀ h, (∀ y, lnk h y = lnk (t_nodes s) y) → ctx_at (info h) C p' →
    (∀ z, z ∉ clocs C → info h z = info (t_nodes s) z) → Q () (with_nodes s (t_root s) h).

Lemma ctx_at_cpar I C p a :
  ctx_at I C p → cpar C = Some a → ∃ k v, I a = Some (Some k, v,
    match C with CRight _ l _ _ _ => rootp l | _ => p end,
    match C with CLeft _ _ _ _ r => rootp r | _ => p end, cpar (match C with
      Top => Top | CLeft c _ _ _ _ | CRight c _ _ _ _ => c end)).
Proof. destruct C; simpl; [done|..]; intros (? & ? & ?) [= ->]; eauto. Qed.

Lemma wp_redirect_left s C x p' (Q : () → avltree K W → Prop) :
  NoDup (clocs C) → x ∉ clocs C → ctx_at (info (t_nodes s)) C (Some x) → redirected s C p' Q →
  wp (when (isset (cpar C)) (let! g := load N (cpar C) in
        if ptr_eq (nd_left g) (Some x) then set_left (cpar C) p' else set_right (cpar C) p')) Q s.
Proof.
  intros Hnd Hx HC HQ. destruct (cpar C) as [a|] eqn:Ea; simpl; last first.
  { apply wp_ret. assert (C = Top) as -> by (by destruct C). destruct s. by apply HQ. }
  destruct (ctx_at_cpar _ _ _ _ HC Ea) as (k & v & Ha).
  wp_step. eapply info_load; [exact Ha|]. intros; simpl. unfold ptr_eq.
  destruct C as [|c b kb vb r|c l b kb vb]; [done|..]; simpl in *; simplify_eq.
  - rewrite bool_decide_true by done. apply wp_set_left; [by rewrite Ha|]. intros h Hl HI.
    apply HQ; [done| |].
    + eapply ctx_at_hole; [exact Hnd|exact HC|]. intros z _. rewrite HI.
      by apply decide_ext; naive_solver.
    + intros z Hz. rewrite HI, decide_False; [done|]. intros ->. apply Hz. constructor.
  - rewrite bool_decide_false.
    + apply wp_set_right; [by rewrite Ha|]. intros h Hl HI. apply HQ; [done| |].
      * eapply ctx_at_hole; [exact Hnd|exact HC|]. intros z _. rewrite HI.
        by apply decide_ext; naive_solver.
      * intros z Hz. rewrite HI, decide_False; [done|]. intros ->. apply Hz. constructor.
    + intros E%rootp_elem. apply Hx. right. apply elem_of_app. by left.
Qed.

Lemma wp_redirect_right s C x p' (Q : () → avltree K W → Prop) :
  NoDup (clocs C) → x ∉ clocs C → ctx_at (info (t_nodes s)) C (Some x) → redirected s C p' Q →
  wp (when (isset (cpar C)) (let! g := load N (cpar C) in
        if ptr_eq (nd_right g) (Some x) then set_right (cpar C) p' else set_left (cpar C) p')) Q s.
Proof.
  intros Hnd Hx HC HQ. destruct (cpar C) as [a|] eqn:Ea; simpl; last first.
  { apply wp_ret. assert (C = Top) as -> by (by destruct C). destruct s. by apply HQ. }
  destruct (ctx_at_cpar _ _ _ _ HC Ea) as (k & v & Ha).
  wp_step. eapply info_load; [exact Ha|]. intros; simpl. unfold ptr_eq.
  destruct C as [|c b kb vb r|c l b kb vb]; [done|..]; simpl in *; simplify_eq.
  - rewrite bool_decide_false.
    + apply wp_set_left; [by rewrite Ha|]. intros h Hl HI. apply HQ; [done| |].
      * eapply ctx_at_hole; [exact Hnd|exact HC|]. intros z _. rewrite HI.
        by apply decide_ext; naive_solver.
      * intros z Hz. rewrite HI, decide_False; [done|]. intros ->. apply Hz. constructor.
    + intros E%rootp_elem. apply Hx. right. apply elem_of_app. by left.
  - rewrite bool_decide_true by done. apply wp_set_right; [by rewrite Ha|]. intros h Hl HI.
    apply HQ; [done| |].
    + eapply ctx_at_hole; [exact Hnd|exact HC|]. intros z _. rewrite HI.
      by apply decide_ext; naive_solver.
    + intros z Hz. rewrite HI, decide_False; [done|]. intros ->. apply Hz. constructor.
Qed.

(** ** A tree at a position *)

Record at_pos s C t : Prop := {
  pos_nodup : NoDup (locs t ++ clocs C);
  pos_ctx : ctx_at (info (t_nodes s)) C (rootp t);
  pos_tree : tree_at (info (t_nodes s)) (cpar C) t;
  pos_root : t_root s = rootp (plug C t);
}.

(** [s'] has the nodes and the threading list of [s]. *)
Record same_list s s' : Prop := {
  same_first : t_first s' = t_first s;
  same_prev : t_prev s' = t_prev s;
  same_lnk y : lnk (t_nodes s') y = lnk (t_nodes s) y;
}.

#[export] Instance same_list_preorder : PreOrder same_list.
Proof.
  split; [by split|]. intros x y z [] []. split; [congruence..|]. intros a. by rewrite same_lnk1.
Qed.

Lemma rootp_plug_ne C t t' : C ≠ Top → rootp (plug C t) = rootp (plug C t').
Proof.
  revert t t'. induction C as [|c IH a k v r|c IH l a k v]; intros t t' Hne; [done|..]; simpl;
    (destruct c; [done|by apply IH..]).
Qed.

Lemma wp_move_root s C t t' x (Q : () → avltree K W → Prop) :
  t_root s = rootp (plug C t) → rootp t = Some x → x ∉ clocs C →
  Q () (with_nodes s (rootp (plug C t')) (t_nodes s)) →
  wp (when (ptr_eq (Some x) (t_root s)) (set_root (rootp t'))) Q s.
Proof.
  intros Hr Hx Hxc HQ. unfold set_root, ptr_eq.
  assert (C = Top ∨ C ≠ Top) as [->|Hne] by (destruct C; [left|right|right]; done).
  - rewrite bool_decide_true by (by rewrite Hr). simpl. by wp_step.
  - rewrite bool_decide_false.
    + apply wp_ret. rewrite <- (rootp_plug_ne C t) in HQ by done. rewrite <- Hr in HQ. by destruct s.
    + rewrite Hr. intros Hb. destruct (rootp_plug C t Hne) as (b & Hb' & Hin). congruence.
Qed.

(** Distinctness facts of the nodes that a rotation touches: [x] and [y] are
    rotated, the middle subtree [B] changes its parent. *)
Record apart (A : list positive) (x : positive) (B : list positive) (y : positive)
    (D E : list positive) : Prop := {
  ap_A z : z ∈ A → z ≠ x ∧ z ≠ y ∧ z ∉ B;
  ap_B z : z ∈ B → z ≠ x ∧ z ≠ y ∧ z ∉ E;
  ap_D z : z ∈ D → z ≠ x ∧ z ≠ y ∧ z ∉ B ∧ z ∉ E;
  ap_E z : z ∈ E → z ≠ x ∧ z ≠ y ∧ z ∉ A ∧ z ∉ B ∧ z ∉ D;
  ap_xy : x ≠ y ∧ x ∉ B ∧ y ∉ B ∧ x ∉ E ∧ y ∉ E;
}.

Lemma nodup_apart A x B y D E : NoDup (A ++ x :: B ++ y :: D ++ E) → apart A x B y D E.
Proof.
  rewrite !NoDup_app, !NoDup_cons, !NoDup_app, !NoDup_cons, !NoDup_app. intros Hnd.
  split; try intros z Hz; set_unfold; naive_solver.
Qed.

Lemma locs_rotate (ta : ltree K W) x kx vx tb y ky vy tc (C : ctx K W) :
  locs (LNode (LNode ta x kx vx tb) y ky vy tc) ++ clocs C =
  locs (LNode ta x kx vx (LNode tb y ky vy tc)) ++ clocs C.
Proof. simpl. by rewrite <- (app_assoc (locs ta)). Qed.

Lemma rotate_apart (ta : ltree K W) x kx vx tb y ky vy tc (C : ctx K W) :
  NoDup (locs (LNode ta x kx vx (LNode tb y ky vy tc)) ++ clocs C) →
  apart (locs ta) x (locs tb) y (locs tc) (clocs C) ∧ NoDup (locs tb) ∧ NoDup (clocs C).
Proof.
  simpl. rewrite <- !app_assoc. simpl. rewrite <- !app_assoc. simpl. intros Hnd. split; [by apply nodup_apart|].
  apply NoDup_app in Hnd as (_ & _ & [_ (? & _ & [_ (_ & _ & ?)%NoDup_app]%NoDup_cons)%NoDup_app]%NoDup_cons).
  done.
Qed.

Lemma wp_rotate_left s C ta x kx vx tb y ky vy tc (Q : () → avltree K W → Prop) :
  at_pos s C (LNode ta x kx vx (LNode tb y ky vy tc)) →
  (∀ s', same_list s s' → at_pos s' C (LNode (LNode ta x kx vx tb) y ky vy tc) → Q () s') →
  wp (rotate_left (Some x)) Q s.
Proof.
  intros [Hnd HC (Hx & Hta & Hy & Htb & Htc) Hr] HQ. unfold rotate_left.
  destruct (rotate_apart _ _ _ _ _ _ _ _ _ _ Hnd) as ([DA DB DD DE (Dxy & Dxb & Dyb & Dxe & Dye)] & Hndb & Hndc).
  wp_step. eapply info_load; [exact Hx|]. intros; simpl. wp_steps.
  apply (wp_move_root s C _ (LNode (LNode ta x kx vx tb) y ky vy tc) x _ Hr); [done|done|].
  wp_step. eapply info_load; [exact Hy|]. intros; simpl. wp_step.
  apply wp_set_right; [simpl; by rewrite Hx|]. simpl. intros h1 Hl1 HI1. wp_step.
  apply wp_when_set_parent; simpl.
  { intros a Ha%rootp_elem. destruct (tree_at_elem _ _ _ _ Htb Ha) as [i Hi].
    rewrite HI1, decide_False by (by apply DB). by rewrite Hi. }
  intros h2 Hl2 HI2. wp_step. assert (∀ z, rootp tb = Some z → z ∈ locs tb) as Hb by apply rootp_elem.
  apply wp_set_left; [by rewrite HI2, decide_False, HI1, decide_False, Hy by auto|].
  simpl. intros h3 Hl3 HI3. wp_step.
  apply wp_set_parent; [by rewrite HI3, decide_False, HI2, decide_False, HI1, decide_True, Hx by auto|].
  simpl. intros h4 Hl4 HI4. wp_step.
  apply wp_set_parent; [by rewrite HI4, decide_False, HI3, decide_True, HI2, decide_False, HI1, decide_False, Hy by auto|].
  simpl. intros h5 Hl5 HI5.
  assert (∀ z, z ≠ x → z ≠ y → z ∉ locs tb → info h5 z = info (t_nodes s) z) as Hout.
  { intros z ???. by rewrite HI5, decide_False, HI4, decide_False, HI3, decide_False, HI2, decide_False,
      HI1, decide_False by auto. }
  apply (wp_redirect_left (with_nodes _ _ h5)); [done|done| |]; simpl.
  { eapply ctx_at_ext; [|exact HC]. intros z Hz. apply Hout; by apply DE. }
  intros h6 Hl6 HC6 HI6. simpl in *. apply HQ.
  { split; [done..|]. intros z. simpl. by rewrite Hl6, Hl5, Hl4, Hl3, Hl2, Hl1. }
  split; [by rewrite locs_rotate|done| |done]. simpl. split_and!.
  - rewrite HI6, HI5, decide_True, HI4, decide_False, HI3, decide_True, HI2, decide_False, HI1,
      decide_False, Hy by auto. done.
  - rewrite HI6, HI5, decide_False, HI4, decide_True, HI3, decide_False, HI2, decide_False, HI1,
      decide_True, Hx by auto. done.
  - eapply tree_at_ext; [|exact Hta]. intros z Hz. rewrite HI6; [apply Hout; by apply DA|].
    intros Hin. by apply DE in Hin as (_ & _ & ? & _).
  - eapply tree_at_reparent; [done|exact Htb|]. intros z Hz. destruct (DB z Hz) as (? & ? & ?).
    by rewrite HI6, HI5, decide_False, HI4, decide_False, HI3, decide_False, HI2, HI1, (decide_False (P := z = x)) by auto.
  - eapply tree_at_ext; [|exact Htc]. intros z Hz. rewrite HI6; [apply Hout|]; by apply DD.
Qed.

Lemma wp_rotate_right s C ta x kx vx tb y ky vy tc (Q : () → avltree K W → Prop) :
  at_pos s C (LNode (LNode ta x kx vx tb) y ky vy tc) →
  (∀ s', same_list s s' → at_pos s' C (LNode ta x kx vx (LNode tb y ky vy tc)) → Q () s') →
  wp (rotate_right (Some y)) Q s.
Proof.
  intros [Hnd HC (Hy & (Hx & Hta & Htb) & Htc) Hr] HQ. unfold rotate_right.
  rewrite locs_rotate in Hnd.
  destruct (rotate_apart _ _ _ _ _ _ _ _ _ _ Hnd) as ([DA DB DD DE (Dxy & Dxb & Dyb & Dxe & Dye)] & Hndb & Hndc).
  wp_step. eapply info_load; [exact Hy|]. intros; simpl. wp_steps.
  apply (wp_move_root s C _ (LNode ta x kx vx (LNode tb y ky vy tc)) y _ Hr); [done|done|].
  wp_step. eapply info_load; [exact Hx|]. intros; simpl. wp_step.
  apply wp_set_left; [simpl; by rewrite Hy|]. simpl. intros h1 Hl1 HI1. wp_step.
  apply wp_when_set_parent; simpl.
  { intros a Ha%rootp_elem. destruct (tree_at_elem _ _ _ _ Htb Ha) as [i Hi].
    rewrite HI1, decide_False by (by apply DB). by rewrite Hi. }
  intros h2 Hl2 HI2. wp_step. assert (∀ z, rootp tb = Some z → z ∈ locs tb) as Hb by apply rootp_elem.
  apply wp_set_right; [by rewrite HI2, decide_False, HI1, decide_False, Hx by auto|].
  simpl. intros h3 Hl3 HI3. wp_step.
  apply wp_set_parent; [by rewrite HI3, decide_False, HI2, decide_False, HI1, decide_True, Hy by auto|].
  simpl. intros h4 Hl4 HI4. wp_step.
  apply wp_set_parent; [by rewrite HI4, decide_False, HI3, decide_True, HI2, decide_False, HI1, decide_False, Hx by auto|].
  simpl. intros h5 Hl5 HI5.
  assert (∀ z, z ≠ x → z ≠ y → z ∉ locs tb → info h5 z = info (t_nodes s) z) as Hout.
  { intros z ???. by rewrite HI5, decide_False, HI4, decide_False, HI3, decide_False, HI2, decide_False,
      HI1, decide_False by auto. }
  apply (wp_redirect_right (with_nodes _ _ h5)); [done|done| |]; simpl.
  { eapply ctx_at_ext; [|exact HC]. intros z Hz. apply Hout; by apply DE. }
  intros h6 Hl6 HC6 HI6. simpl in *. apply HQ.
  { split; [done..|]. intros z. simpl. by rewrite Hl6, Hl5, Hl4, Hl3, Hl2, Hl1. }
  split; simpl; [done|done| |done]. split_and!.
  - rewrite HI6, HI5, decide_True, HI4, decide_False, HI3, decide_True, HI2, decide_False, HI1,
      decide_False, Hx by auto. done.
  - eapply tree_at_ext; [|exact Hta]. intros z Hz. rewrite HI6; [apply Hout; by apply DA|].
    intros Hin. by apply DE in Hin as (_ & _ & ? & _).
  - rewrite HI6, HI5, decide_False, HI4, decide_True, HI3, decide_False, HI2, decide_False, HI1,
      decide_True, Hy by auto. done.
  - eapply tree_at_reparent; [done|exact Htb|]. intros z Hz. destruct (DB z Hz) as (? & ? & ?).
    by rewrite HI6, HI5, decide_False, HI4, decide_False, HI3, decide_False, HI2, HI1, (decide_False (P := z = y)) by auto.
  - eapply tree_at_ext; [|exact Htc]. intros z Hz. rewrite HI6; [apply Hout|]; by apply DD.
Qed.
End rotate.

(** ** [rebalance] as a function on trees *)
Section rebalance.
Context {K W : Type}.
Implicit Types s : avltree K W.
Implicit Types t l r : ltree K W.
Implicit Types C : ctx K W.

Definition bal t : Z :=
  match t with Leaf => 0 | LNode l _ _ _ r => Z.of_nat (height r) - Z.of_nat (height l) end.
Definition rot_l t : ltree K W :=
  match t with
  | LNode ta x kx vx (LNode tb y ky vy tc) => LNode (LNode ta x kx vx tb) y ky vy tc
  | _ => t
  end.
Definition rot_r t : ltree K W :=
  match t with
  | LNode (LNode ta x kx vx tb) y ky vy tc => LNode ta x kx vx (LNode tb y ky vy tc)
  | _ => t
  end.
Definition balance1 t : ltree K W :=
  match t with
  | Leaf => Leaf
  | LNode l a k v r =>
      if (bal t =? 2)%Z then
        if (bal r =? 1)%Z then rot_l t
        else if (bal r =? -1)%Z then rot_l (LNode l a k v (rot_r r)) else t
      else if (bal t =? -2)%Z then
        if (bal l =? -1)%Z then rot_r t
        else if (bal l =? 1)%Z then rot_r (LNode (rot_l l) a k v r) else t
      else t
  end.
#[local] Arguments balance1 : simpl never.
Fixpoint rebal C t : ltree K W :=
  match C with
  | Top => t
  | CLeft C a k v r => rebal C (balance1 (LNode t a k v r))
  | CRight C l a k v => rebal C (balance1 (LNode l a k v t))
  end.

Lemma at_pos_right s C l a k v r :
  at_pos s C (LNode l a k v r) ↔ at_pos s (CRight C l a k v) r.
Proof.
  assert (locs (LNode l a k v r) ++ clocs C ≡ₚ locs r ++ clocs (CRight C l a k v)) as Hp.
  { simpl. rewrite <- app_assoc. simpl. solve_Permutation. }
  split; intros [Hn Hc Ht Hr]; simpl in *.
  - split; [by rewrite <- Hp|simpl; tauto|simpl; tauto|done].
  - split; [by rewrite Hp|simpl; tauto|simpl; tauto|done].
Qed.

Lemma at_pos_left s C l a k v r :
  at_pos s C (LNode l a k v r) ↔ at_pos s (CLeft C a k v r) l.
Proof.
  assert (locs (LNode l a k v r) ++ clocs C ≡ₚ locs l ++ clocs (CLeft C a k v r)) as Hp.
  { simpl. by rewrite <- app_assoc. }
  split; intros [Hn Hc Ht Hr]; simpl in *.
  - split; [by rewrite <- Hp|simpl; tauto|simpl; tauto|done].
  - split; [by rewrite Hp|simpl; tauto|simpl; tauto|done].
Qed.

Lemma at_pos_plug s C t : at_pos s C t ↔ at_pos s Top (plug C t).
Proof.
  revert t. induction C as [|C IH a k v r|C IH l a k v]; intros t; simpl; [done|..];
    rewrite <- IH; symmetry; [apply at_pos_left|apply at_pos_right].
Qed.

Lemma ctx_at_elem I C p a : ctx_at I C p → a ∈ clocs C → is_Some (I a).
Proof.
  revert p. induction C as [|C IH b k v r|C IH l b k v]; intros p; simpl;
    [by intros _ ?%elem_of_nil|..]; intros (Hb & Ht & HC) [->|[Ha|Ha]%elem_of_app]%elem_of_cons; eauto using tree_at_elem.
Qed.

Lemma info_dom (h : gmap positive (node K W)) a : is_Some (info h a) ↔ a ∈ dom h.
Proof. unfold info. by rewrite fmap_is_Some, elem_of_dom. Qed.

Lemma pos_size s C t : at_pos s C t → length (locs t) + length (clocs C) ≤ size (t_nodes s).
Proof.
  intros [Hn Hc Ht _]. rewrite <- length_app, <- (size_list_to_set (C := gset positive)) by done.
  rewrite <- (size_dom (D := gset positive)). apply subseteq_size. intros a.
  rewrite elem_of_list_to_set, elem_of_app, <- info_dom. intros [?|?];
    eauto using tree_at_elem, ctx_at_elem.
Qed.

Lemma rot_r_rootp t : t ≠ Leaf → rot_r t ≠ Leaf.
Proof. destruct t as [|[] ]; done. Qed.

(** Reading the heights of the two subtrees of a node of the tree. *)
Lemma wp_heights s C l a k v r (Q : Z → avltree K W → Prop) :
  at_pos s C (LNode l a k v r) →
  (wp (node_height (rootp r)) (λ hr s', s' = s ∧ hr = Z.of_nat (height r)) s) ∧
  (wp (node_height (rootp l)) (λ hl s', s' = s ∧ hl = Z.of_nat (height l)) s).
Proof.
  intros Hp. pose proof (pos_size _ _ _ Hp) as Hsz. destruct Hp as [Hn _ (Ha & Hl & Hr) _].
  simpl in *. apply NoDup_app in Hn as ((Hnl & _ & [_ Hnr]%NoDup_cons)%NoDup_app & _ & _).
  rewrite length_app in Hsz. simpl in Hsz.
  split; (eapply wp_node_height; [eassumption|done|lia| |done]); intros q [= <-]; by rewrite Ha.
Qed.

Lemma wp_balance_at s C l a k v r (Q : () → avltree K W → Prop) :
  at_pos s C (LNode l a k v r) →
  (∀ s', same_list s s' → at_pos s' C (balance1 (LNode l a k v r)) → Q () s') →
  wp (balance_at (Some a)) Q s.
Proof.
  intros Hp HQ. pose proof Hp as [_ _ (Ha & Hl & Hr) _]. unfold balance_at. unfold balance1 in HQ. simpl in HQ.
  wp_step. eapply info_load; [exact Ha|]. intros; simpl. wp_step.
  eapply wp_mono; [by apply (wp_heights _ _ _ _ _ _ _ (λ _ _, True) Hp)|]. intros ? ? [-> ->]. wp_step.
  eapply wp_mono; [by apply (wp_heights _ _ _ _ _ _ _ (λ _ _, True) Hp)|]. intros ? ? [-> ->].
  destruct (Z.eqb_spec (Z.of_nat (height r) - Z.of_nat (height l)) 2) as [E|E].
  - destruct r as [|tb y ky vy tc]; [simpl in E; lia|]. pose proof Hr as (Hy & _ & _).
    pose proof (proj1 (at_pos_right _ _ _ _ _ _ _) Hp) as Hpr.
    simpl rootp. wp_step. eapply info_load; [exact Hy|]. intros; simpl. wp_step.
    eapply wp_mono; [by apply (wp_heights _ _ _ _ _ _ _ (λ _ _, True) Hpr)|]. intros ? ? [-> ->]. wp_step.
    eapply wp_mono; [by apply (wp_heights _ _ _ _ _ _ _ (λ _ _, True) Hpr)|]. intros ? ? [-> ->].
    simpl in HQ. destruct (Z.of_nat (height tc) - Z.of_nat (height tb) =? 1)%Z; [by eapply wp_rotate_left|].
    destruct (Z.eqb_spec (Z.of_nat (height tc) - Z.of_nat (height tb)) (-1)) as [E'|E']; [|wp_step; by apply HQ].
    destruct tb as [|t1 z kz vz t2]; [simpl in E'; lia|]. wp_step.
    eapply wp_rotate_right; [exact Hpr|]. intros s1 Hs1 Hp1%at_pos_right.
    eapply wp_rotate_left; [exact Hp1|]. intros s2 Hs2 Hp2. apply HQ; [by etrans|exact Hp2].
  - destruct (Z.eqb_spec (Z.of_nat (height r) - Z.of_nat (height l)) (-2)) as [E2|E2]; [|wp_step; by apply HQ].
    destruct l as [|tb y ky vy tc]; [simpl in E2; lia|]. pose proof Hl as (Hy & _ & _).
    pose proof (proj1 (at_pos_left _ _ _ _ _ _ _) Hp) as Hpl.
    simpl rootp. wp_step. eapply info_load; [exact Hy|]. intros; simpl. wp_step.
    eapply wp_mono; [by apply (wp_heights _ _ _ _ _ _ _ (λ _ _, True) Hpl)|]. intros ? ? [-> ->]. wp_step.
    eapply wp_mono; [by apply (wp_heights _ _ _ _ _ _ _ (λ _ _, True) Hpl)|]. intros ? ? [-> ->].
    simpl in HQ. destruct (Z.of_nat (height tc) - Z.of_nat (height tb) =? -1)%Z; [by eapply wp_rotate_right|].
    destruct (Z.eqb_spec (Z.of_nat (height tc) - Z.of_nat (height tb)) 1) as [E'|E']; [|wp_step; by apply HQ].
    destruct tc as [|t1 z kz vz t2]; [simpl in E'; lia|]. wp_step.
    eapply wp_rotate_left; [exact Hpl|]. intros s1 Hs1 Hp1%at_pos_left.
    eapply wp_rotate_right; [exact Hp1|]. intros s2 Hs2 Hp2. apply HQ; [by etrans|exact Hp2].
Qed.

Lemma rebalance_loop s C t fuel (Q : option positive → avltree K W → Prop) :
  at_pos s C t → length (clocs C) < fuel →
  (∀ s', same_list s s' → at_pos s' Top (rebal C t) → Q None s') →
  wp (whileM fuel (λ root, ret (isset root))
    (λ root,
       let! rn := load N root in
       let next := nd_parent rn in
       do! balance_at root in
       ret next) (cpar C)) Q s.
Proof.
  revert s t fuel. induction C as [|C IH a k v r|C IH l a k v]; intros s t fuel Hp Hf HQ;
    (destruct fuel as [|fuel]; [lia|]); simpl; wp_steps.
  { by apply HQ. }
  all: pose proof Hp as [_ (Ha & _ & _) _ _]; eapply info_load; [exact Ha|]; intros; simpl; wp_step.
  all: apply at_pos_left in Hp || apply at_pos_right in Hp.
  all: eapply wp_balance_at; [exact Hp|]; intros s1 Hs1 Hp1; wp_step.
  all: eapply IH; [exact Hp1|simpl in Hf; rewrite length_app in Hf; lia|].
  all: intros s2 Hs2 Hp2; apply HQ; [by etrans|exact Hp2].
Qed.

Lemma wp_rebalance s C t a (Q : () → avltree K W → Prop) :
  at_pos s C t → rootp t = Some a →
  (∀ s', same_list s s' → at_pos s' Top (rebal C t) → Q () s') →
  wp (rebalance (Some a)) Q s.
Proof.
  intros Hp Ha HQ. unfold rebalance, tree_fuel. pose proof (pos_size _ _ _ Hp) as Hsz.
  pose proof Hp as [_ _ Ht _]. destruct t as [|l b k v r]; [done|].
  simpl in Ha. simplify_eq. destruct Ht as (Hb & _ & _).
  wp_step. eapply info_load; [exact Hb|]. intros. do 3 wp_step.
  eapply rebalance_loop; [exact Hp|simpl in *; lia|]. intros s' ??. wp_step. by apply HQ.
Qed.

(** ** Rotations keep the in-order sequence *)

Fixpoint kvs t : list (K * option W) :=
  match t with Leaf => [] | LNode l _ k v r => kvs l ++ (k, v) :: kvs r end.
Fixpoint cpre C : list (K * option W) :=
  match C with
  | Top => []
  | CLeft C _ _ _ _ => cpre C
  | CRight C l _ k v => cpre C ++ kvs l ++ [(k, v)]
  end.
Fixpoint cpost C : list (K * option W) :=
  match C with
  | Top => []
  | CLeft C _ k v r => (k, v) :: kvs r ++ cpost C
  | CRight C _ _ _ _ => cpost C
  end.

Lemma kvs_plug C t : kvs (plug C t) = cpre C ++ kvs t ++ cpost C.
Proof.
  revert t. induction C as [|C IH a k v r|C IH l a k v]; intros t; simpl.
  - by rewrite app_nil_r.
  - rewrite IH. simpl. by rewrite <- !app_assoc.
  - rewrite IH. simpl. by rewrite <- !app_assoc.
Qed.

Ltac rot_cases :=
  intros; repeat (case_match; simplify_eq/=; try done); rewrite <- ?app_assoc; simpl; rewrite <- ?app_assoc; done.

Lemma kvs_rot_l t : kvs (rot_l t) = kvs t.
Proof. unfold rot_l. rot_cases. Qed.
Lemma kvs_rot_r t : kvs (rot_r t) = kvs t.
Proof. unfold rot_r. rot_cases. Qed.
Lemma locs_rot_l t : locs (rot_l t) = locs t.
Proof. unfold rot_l. rot_cases. Qed.
Lemma locs_rot_r t : locs (rot_r t) = locs t.
Proof. unfold rot_r. rot_cases. Qed.

Lemma balance1_kvs t : kvs (balance1 t) = kvs t.
Proof.
  destruct t as [|l a k v r]; [done|]. unfold balance1.
  repeat case_match; rewrite ?kvs_rot_l, ?kvs_rot_r; simpl; by rewrite ?kvs_rot_l, ?kvs_rot_r.
Qed.
Lemma balance1_locs t : locs (balance1 t) = locs t.
Proof.
  destruct t as [|l a k v r]; [done|]. unfold balance1.
  repeat case_match; rewrite ?locs_rot_l, ?locs_rot_r; simpl; by rewrite ?locs_rot_l, ?locs_rot_r.
Qed.

Lemma rebal_kvs C t : kvs (rebal C t) = cpre C ++ kvs t ++ cpost C.
Proof.
  revert t. induction C as [|C IH a k v r|C IH l a k v]; intros t; simpl.
  - by rewrite app_nil_r.
  - rewrite IH, balance1_kvs. simpl. by rewrite <- !app_assoc.
  - rewrite IH, balance1_kvs. simpl. by rewrite <- !app_assoc.
Qed.
Lemma rebal_locs C t : locs (rebal C t) ≡ₚ locs t ++ clocs C.
Proof.
  rewrite <- locs_plug. revert t. induction C as [|C IH a k v r|C IH l a k v]; intros t; simpl; [done|..];
    rewrite IH, !locs_plug, balance1_locs; done.
Qed.

(** ** Insertion keeps the AVL invariant *)

Fixpoint avl t : Prop :=
  match t with Leaf => True | LNode l _ _ _ r => avl l ∧ avl r ∧ (-1 ≤ bal t ≤ 1)%Z end.

(** [t'] is [t] after an insertion: at most one higher, and then not evenly
    balanced unless it is new. *)
Definition grown t t' : Prop :=
  avl t' ∧ (height t' = height t ∨ height t' = S (height t) ∧ (bal t' ≠ 0%Z ∨ t = Leaf)).

Ltac balance_cases :=
  repeat match goal with
  | |- context [(?x =? ?y)%Z] => destruct (Z.eqb_spec x y); simpl in *; try (exfalso; lia)
  end; repeat split; try tauto; lia.

Lemma grown_left t t' a k v r :
  avl (LNode t a k v r) → grown t t' → grown (LNode t a k v r) (balance1 (LNode t' a k v r)).
Proof.
  intros (Hl & Hr & Hb) (Ha & Hg). assert (t = Leaf → height t = 0) as Hleaf by (by intros ->).
  unfold grown, balance1, rot_r, rot_l. simpl in Hb.
  destruct Hg as [Hg|[Hg [Hg'|Hg'%Hleaf]]]; clear Hleaf; destruct t' as [|t1 b kb vb [|t21 c kc vc t22]]; simpl in *; balance_cases.
Qed.

Lemma grown_right t t' a k v l :
  avl (LNode l a k v t) → grown t t' → grown (LNode l a k v t) (balance1 (LNode l a k v t')).
Proof.
  intros (Hl & Hr & Hb) (Ha & Hg). assert (t = Leaf → height t = 0) as Hleaf by (by intros ->).
  unfold grown, balance1, rot_r, rot_l. simpl in Hb.
  destruct Hg as [Hg|[Hg [Hg'|Hg'%Hleaf]]]; clear Hleaf; destruct t' as [|[|t11 c kc vc t12] b kb vb t2]; simpl in *; balance_cases.
Qed.

Lemma avl_plug C t : avl (plug C t) → avl t.
Proof.
  revert t. induction C as [|C IH a k v r|C IH l a k v]; intros t; simpl; [done|..];
    intros H%IH; simpl in H; tauto.
Qed.

Lemma rebal_grown C t t' : avl (plug C t) → grown t t' → avl (rebal C t').
Proof.
  revert t t'. induction C as [|C IH a k v r|C IH l a k v]; intros t t' Ha Hg; simpl in *; [apply Hg|..].
  - eapply IH; [exact Ha|]. apply grown_left; [by apply avl_plug in Ha|done].
  - eapply IH; [exact Ha|]. apply grown_right; [by apply avl_plug in Ha|done].
Qed.

Lemma rebal_insert C a k v : avl (plug C Leaf) → avl (rebal C (LNode Leaf a k v Leaf)).
Proof. intros Ha. eapply rebal_grown; [exact Ha|]. split; simpl; [lia|]. right. by split; [|right]. Qed.

(** The height of a balanced tree is at most logarithmic: [n] nodes allow a
    height of at most twice the binary logarithm of [n + 1]. *)
Lemma square_step x y p : p ≤ x * x → p ≤ y * y → 2 * p ≤ (x + y) * (x + y).
Proof. nia. Qed.
Lemma square_step_uneven x y p : 2 * p ≤ x * x → p ≤ y * y → 4 * p ≤ (x + y) * (x + y).
Proof. intros. destruct (Nat.le_gt_cases x y); nia. Qed.

Lemma avl_height t : avl t → 2 ^ height t ≤ (length (locs t) + 1) * (length (locs t) + 1).
Proof.
  induction t as [|l IHl a k v r IHr]; [simpl; lia|]. intros (Hl & Hr & Hb). simpl in Hb.
  specialize (IHl Hl). specialize (IHr Hr).
  assert (length (locs (LNode l a k v r)) + 1 = (length (locs l) + 1) + (length (locs r) + 1)) as ->.
  { simpl. rewrite length_app. simpl. lia. }
  assert (height l = height r ∨ height l = S (height r) ∨ height r = S (height l)) as [E|[E|E]] by lia;
    simpl height; rewrite E in *.
  - rewrite Nat.max_id, Nat.pow_succ_r'. by apply square_step.
  - rewrite Nat.max_l, !Nat.pow_succ_r' in * by lia. pose proof (square_step_uneven _ _ _ IHl IHr). lia.
  - rewrite Nat.max_r, !Nat.pow_succ_r' in * by lia. pose proof (square_step_uneven _ _ _ IHr IHl). lia.
Qed.
End rebalance.
