(* ===== verification/AvlMap.v ===== *)
(** * The AVL tree as a map (src/src/util/avltree.c)

    Lookup, insertion and deletion against the finite map that the tree
    represents, the list that threads the nodes, and deallocation. *)
From stdpp Require Import base tactics numbers list gmap sorting.
From S2P Require Import Prelude Chains AvlTree AvlShape AvlBalance MapInterface.

(** What the tree needs of its comparison function, as [strcmp] documents it
    for strings given by their contents. *)
Class CmpOrder {K} (cmp : K → K → Z) : Prop := {
  cmp_eq x y : cmp x y = 0%Z ↔ x = y;
  cmp_opp x y : (cmp x y < 0)%Z ↔ (0 < cmp y x)%Z;
  cmp_trans x y z : (cmp x y < 0)%Z → (cmp y z < 0)%Z → (cmp x z < 0)%Z;
}.

Section map.
Context {K W : Type} (cmpfunc : K → K → Z) `{!CmpOrder cmpfunc}.
Implicit Types s : avltree K W.
Implicit Types t l r : ltree K W.
Implicit Types C : ctx K W.

Definition klt (x y : K) : Prop := (cmpfunc x y < 0)%Z.

Lemma klt_irrefl x : ¬ klt x x.
Proof. unfold klt. assert (cmpfunc x x = 0%Z) by (by apply cmp_eq). lia. Qed.
#[export] Instance klt_trans : Transitive klt.
Proof. intros x y z. apply cmp_trans. Qed.

(** Keys in strictly ascending order. *)
Definition sorted (l : list (K * option W)) : Prop := StronglySorted klt l.*1.

Lemma sorted_app m1 m2 :
  sorted (m1 ++ m2) ↔ sorted m1 ∧ sorted m2 ∧ (∀ x y, x ∈ m1.*1 → y ∈ m2.*1 → klt x y).
Proof.
  unfold sorted. rewrite fmap_app. split.
  - intros Hs. split_and!; [by eapply StronglySorted_app_1_l|by eapply StronglySorted_app_1_r|].
    intros x y. by apply StronglySorted_app_1_elem_of.
  - intros (H1 & H2 & H3). by apply StronglySorted_app_2.
Qed.

Lemma sorted_cons x m : sorted (x :: m) ↔ sorted m ∧ (∀ y, y ∈ m.*1 → klt x.1 y).
Proof.
  unfold sorted. simpl. split.
  - inversion 1 as [|? ? Hs Hf]; subst. split; [done|]. by apply Forall_forall.
  - intros [Hs Hf]. constructor; [done|]. by apply Forall_forall.
Qed.

(** A node of a sorted tree splits the keys. *)
Lemma sorted_node l a k v r :
  sorted (kvs (LNode l a k v r)) →
  sorted (kvs l) ∧ sorted (kvs r) ∧ (∀ x, x ∈ (kvs l).*1 → klt x k) ∧ (∀ x, x ∈ (kvs r).*1 → klt k x).
Proof.
  simpl. rewrite sorted_app, sorted_cons. intros (Hl & [Hr Hkr] & Hlr). split_and!; [done..| |done].
  intros x Hx. apply Hlr; [done|]. constructor.
Qed.

Lemma keys_node x l a k v r :
  x ∈ (kvs (LNode l a k v r)).*1 ↔ x ∈ (kvs l).*1 ∨ x = k ∨ x ∈ (kvs r).*1.
Proof.
  change (kvs (LNode l a k v r)) with (kvs l ++ (k, v) :: kvs r).
  by rewrite fmap_app, elem_of_app, fmap_cons, elem_of_cons.
Qed.

(** ** Search *)

Lemma search_loop s C t key fuel (Q : option positive * bool → avltree K W → Prop) :
  at_pos s C t → sorted (kvs t) → height t < fuel →
  ((∀ b, key ∉ (kvs t).*1 → Q (None, b) s) ∧
   (∀ C' l a v r, plug C' (LNode l a key v r) = plug C t → at_pos s C' (LNode l a key v r) →
      Q (Some a, true) s)) →
  wp (whileM fuel
    (λ x : option positive * bool, ret (isset x.1 && negb x.2))
    (λ x, let! n := load N x.1 in
       let! iswitch := compare_at cmpfunc key n in
       if (iswitch <? 0)%Z then ret (nd_left n, false)
       else if (iswitch >? 0)%Z then ret (nd_right n, false)
       else ret (x.1, true)) (rootp t, false)) Q s.
Proof.
  revert C fuel. induction t as [|l IHl a k v r IHr]; intros C fuel Hp Hs Hf [Hno Hyes];
    (destruct fuel as [|fuel]; [lia|]); simpl; wp_steps; [apply Hno; by intros ?%elem_of_nil|].
  pose proof Hp as [_ _ (Ha & _ & _) _]. eapply info_load; [exact Ha|]. intros; simpl.
  unfold compare_at. wp_steps. simpl in Hf.
  apply sorted_node in Hs as (Hsl & Hsr & Hkl & Hkr).
  destruct (Z.ltb_spec (cmpfunc key k) 0) as [Hlt|Hge]; [|rewrite Z.gtb_ltb; destruct (Z.ltb_spec 0 (cmpfunc key k)) as [Hgt|Hle]].
  - wp_step. apply (IHl (CLeft C a k v r)); [by apply at_pos_left|done|lia|].
    split; [|intros C' l' a' v' r' E Hp'; by apply (Hyes C' l' a' v' r')]. intros b Hni. apply Hno.
    intros [Hin|[->|Hin]]%keys_node; [done|by apply klt_irrefl in Hlt|].
    apply Hkr in Hin. apply (klt_irrefl k). by trans key.
  - wp_step. apply (IHr (CRight C l a k v)); [by apply at_pos_right|done|lia|].
    split; [|intros C' l' a' v' r' E Hp'; by apply (Hyes C' l' a' v' r')]. intros b Hni. apply Hno.
    apply cmp_opp in Hgt.
    intros [Hin|[->|Hin]]%keys_node; [|by apply klt_irrefl in Hgt|done].
    apply Hkl in Hin. apply (klt_irrefl k). by trans key.
  - assert (key = k) as -> by (apply (cmp_eq (cmp := cmpfunc)); lia). wp_step.
    destruct fuel as [|fuel]; [lia|]. simpl. wp_steps. by eapply Hyes.
Qed.

Lemma pos_height s C t : at_pos s C t → height t ≤ size (t_nodes s).
Proof. intros Hp%pos_size. pose proof (height_locs t). lia. Qed.

Lemma wp_search s t key (Q : option positive → avltree K W → Prop) :
  at_pos s Top t → sorted (kvs t) →
  (key ∉ (kvs t).*1 → Q None s) →
  (∀ C l a v r, t = plug C (LNode l a key v r) → at_pos s C (LNode l a key v r) → Q (Some a) s) →
  wp (search cmpfunc key) Q s.
Proof.
  intros Hp Hs Hno Hyes. unfold search, tree_fuel. do 4 wp_step. rewrite (pos_root _ _ _ Hp).
  pose proof (pos_height _ _ _ Hp). wp_step.
  eapply search_loop; [exact Hp|done|simpl; lia|]. split; intros; wp_step; [by apply Hno|by eapply Hyes].
Qed.

(** ** The threading list *)

Record list_rep s (ol : list positive) : Prop := {
  lr_nodup : NoDup ol;
  lr_chain : chain (lnk (t_nodes s)) None ol None;
  lr_first : t_first s = hdp ol None;
  lr_prev : t_prev s = lastp None ol;
  lr_dom : dom (t_nodes s) = list_to_set ol;
}.

Lemma lnk_dom (h : gmap positive (node K W)) a : is_Some (lnk h a) ↔ a ∈ dom h.
Proof. unfold lnk. by rewrite fmap_is_Some, elem_of_dom. Qed.

Lemma lnk_dom_eq (h h' : gmap positive (node K W)) : (∀ y, lnk h' y = lnk h y) → dom h' = dom h.
Proof. intros Hl. apply set_eq. intros y. by rewrite <- !lnk_dom, Hl. Qed.

Lemma info_dom_eq (h h' : gmap positive (node K W)) : (∀ y, info h' y = info h y) → dom h' = dom h.
Proof. intros Hl. apply set_eq. intros y. by rewrite <- !info_dom, Hl. Qed.

Lemma list_rep_same s s' ol : same_list s s' → list_rep s ol → list_rep s' ol.
Proof.
  intros [Hf Hp Hl] [Hn Hc Hf' Hp' Hd]. split; [done| |congruence..|].
  - eapply chain_ext; [|exact Hc]. intros. apply Hl.
  - by rewrite (lnk_dom_eq _ _ Hl).
Qed.

Lemma wp_new_node s ol (Q : positive → avltree K W → Prop) :
  list_rep s ol →
  (∀ a s', a ∉ ol → list_rep s' (ol ++ [a]) → t_root s' = t_root s →
     info (t_nodes s') a = Some (None, None, None, None, None) →
     (∀ y, y ≠ a → info (t_nodes s') y = info (t_nodes s) y) → Q a s') →
  wp new_node Q s.
Proof.
  intros [Hn Hc Hf Hp Hd] HQ. unfold new_node, set_last, set_first. wp_step.
  apply wp_malloc. intros a Ha. simpl. wp_step. wp_step. simpl. wp_step.
  assert (a ∉ ol) as Hao.
  { apply (not_elem_of_dom (D := gset positive)) in Ha. simpl in Ha. rewrite Hd in Ha. by rewrite elem_of_list_to_set in Ha. }
  set (h0 := <[a := Node None None None None None None None]> (t_nodes s)).
  assert (lnk h0 a = Some (None, None)) as Hl0 by (unfold lnk, h0; by rewrite lookup_insert_eq).
  assert (∀ y, y ≠ a → lnk h0 y = lnk (t_nodes s) y) as Hl0'.
  { intros y ?. unfold lnk, h0. by rewrite lookup_insert_ne. }
  assert (∀ y, info h0 y = if decide (y = a) then Some (None, None, None, None, None) else info (t_nodes s) y) as Hi0.
  { intros y. unfold info, h0. destruct (decide (y = a)) as [->|]; by simplify_map_eq. }
  apply (wp_mono _ (λ _ s', ∃ h, s' = Tree (t_root s) (t_first s) (t_prev s) h ∧
    (∀ y, info h y = info h0 y) ∧ chain (lnk h) None (ol ++ [a]) None)).
  { rewrite Hp. destruct ol as [|x ol' _] using rev_ind.
    - apply wp_ret. by exists h0.
    - rewrite lastp_snoc. simpl.
      assert (x ≠ a) as Hxa by (intros ->; apply Hao, elem_of_app; right; constructor).
      assert (is_Some (lnk (t_nodes s) x)) as Hlx.
      { eapply chain_elem; [exact Hc|]. apply elem_of_app. right. constructor. }
      wp_step. eapply (wp_updl _ x _ (λ y, (y.1, Some a))); [done|done|simpl; by rewrite Hl0'|].
      simpl. intros h1 Hi1 Hl1.
      eapply (wp_updl _ a _ (λ y, (Some x, y.2))); [done|done|simpl; rewrite Hl1, decide_False, Hl0 by done; eauto|].
      simpl. intros h2 Hi2 Hl2. exists h2. split; [done|].
      split; [intros y; by rewrite Hi2, Hi1|].
      eapply chain_snoc; [done|done|exact Hc| |].
      + by rewrite Hl2, decide_True, Hl1, decide_False, Hl0, lastp_snoc by done.
      + intros y pv nx Hy Hly. assert (y ≠ a) by (by intros ->).
        rewrite Hl2, decide_False, Hl1, Hl0', Hly, lastp_snoc by done.
        rewrite (decide_ext (Some x = Some y) (y = x)) by naive_solver. by case_decide. }
  intros _ s' (h & -> & Hi & Hc'). wp_steps.
  assert (dom h = list_to_set (ol ++ [a])) as Hdom.
  { rewrite (info_dom_eq _ _ Hi). unfold h0. rewrite dom_insert_L, Hd, list_to_set_app_L. simpl. set_solver. }
  assert (NoDup (ol ++ [a])) as Hn'.
  { apply NoDup_app. split; [done|]. split; [|apply NoDup_singleton]. intros y Hy ->%list_elem_of_singleton. done. }
  apply (wp_mono _ (λ _ s', s' = Tree (t_root s) (hdp (ol ++ [a]) None) (Some a) h)).
  { rewrite Hf. destruct ol; simpl; by wp_steps. }
  intros _ s' ->. wp_step. apply HQ; simpl.
  - done.
  - split; simpl; [done|done|done|by rewrite lastp_snoc|done].
  - done.
  - by rewrite Hi, Hi0, decide_True.
  - intros y Hy. by rewrite Hi, Hi0, decide_False.
Qed.

(** ** Insertion *)

(** A new node hangs in the hole of a context; its key is not set yet. *)
Record linked s C ol (new : positive) : Prop := {
  lk_nodup : NoDup (new :: clocs C);
  lk_ctx : ctx_at (info (t_nodes s)) C (Some new);
  lk_new : info (t_nodes s) new = Some (None, None, None, None, cpar C);
  lk_list : list_rep s (ol ++ [new]);
  lk_root : t_root s = rootp (plug C Leaf);
  lk_top : C ≠ Top;
}.

Lemma wp_link_left s C a k v r ol
    (Q : option positive + option (option positive) → avltree K W → Prop) :
  at_pos s C (LNode Leaf a k v r) → list_rep s ol →
  (∀ x, x ∈ a :: locs r ++ clocs C → x ∈ ol) →
  (∀ new s', linked s' (CLeft C a k v r) ol new → Q (inr (Some (Some new))) s') →
  wp (let! new := new_node in
      do! set_left (Some a) (Some new) in
      do! set_parent (Some new) (Some a) in
      ret (inr (Some (Some new)))) Q s.
Proof.
  intros [Hn HC (Ha & _ & Hr) Hroot] Hl Hin HQ. simpl in *. wp_step.
  eapply wp_new_node; [exact Hl|]. intros new s1 Hnew Hl1 Hr1 Hi1 Ho1.
  assert (∀ x, x ∈ a :: locs r ++ clocs C → x ≠ new) as Hne by (intros x Hx ->; by apply Hnew, Hin).
  assert (a ≠ new) as Han by (apply Hne; constructor).
  apply NoDup_cons in Hn as [Hni Hn]. wp_step.
  apply wp_set_left; [rewrite Ho1, Ha by done; eauto|]. intros h2 Hl2 HI2. wp_step.
  apply wp_set_parent; [simpl; rewrite HI2, decide_False, Hi1 by done; eauto|].
  simpl. intros h3 Hl3 HI3. wp_step. apply HQ.
  assert (∀ x, x ∈ locs r ++ clocs C → info h3 x = info (t_nodes s) x) as Hout.
  { intros x Hx. rewrite HI3, decide_False, HI2, decide_False, Ho1;
      [done|apply Hne; by right|by intros ->|apply Hne; by right]. }
  split; simpl.
  - apply NoDup_cons. split; [|by apply NoDup_cons]. intros Hx. by apply (Hne _ Hx).
  - split_and!.
    + by rewrite HI3, decide_False, HI2, decide_True, Ho1, Ha by done.
    + eapply tree_at_ext; [|exact Hr]. intros x Hx. apply Hout, elem_of_app. by left.
    + eapply ctx_at_ext; [|exact HC]. intros x Hx. apply Hout, elem_of_app. by right.
  - by rewrite HI3, decide_True, HI2, decide_False, Hi1 by done.
  - eapply list_rep_same; [|exact Hl1]. split; [done..|]. intros y. simpl. by rewrite Hl3, Hl2.
  - by rewrite Hr1.
  - done.
Qed.

Lemma wp_link_right s C l a k v ol
    (Q : option positive + option (option positive) → avltree K W → Prop) :
  at_pos s C (LNode l a k v Leaf) → list_rep s ol →
  (∀ x, x ∈ a :: locs l ++ clocs C → x ∈ ol) →
  (∀ new s', linked s' (CRight C l a k v) ol new → Q (inr (Some (Some new))) s') →
  wp (let! new := new_node in
      do! set_right (Some a) (Some new) in
      do! set_parent (Some new) (Some a) in
      ret (inr (Some (Some new)))) Q s.
Proof.
  intros Hp Hl Hin HQ. pose proof (proj1 (at_pos_right _ _ _ _ _ _ _) Hp) as [Hn _ _ _].
  destruct Hp as [_ HC (Ha & Hlt & _) Hroot]. simpl in *. wp_step.
  eapply wp_new_node; [exact Hl|]. intros new s1 Hnew Hl1 Hr1 Hi1 Ho1.
  assert (∀ x, x ∈ a :: locs l ++ clocs C → x ≠ new) as Hne by (intros x Hx ->; by apply Hnew, Hin).
  assert (a ≠ new) as Han by (apply Hne; constructor).
  apply NoDup_cons in Hn as [Hni Hn]. wp_step.
  apply wp_set_right; [rewrite Ho1, Ha by done; eauto|]. intros h2 Hl2 HI2. wp_step.
  apply wp_set_parent; [simpl; rewrite HI2, decide_False, Hi1 by done; eauto|].
  simpl. intros h3 Hl3 HI3. wp_step. apply HQ.
  assert (∀ x, x ∈ locs l ++ clocs C → info h3 x = info (t_nodes s) x) as Hout.
  { intros x Hx. rewrite HI3, decide_False, HI2, decide_False, Ho1;
      [done|apply Hne; by right|by intros ->|apply Hne; by right]. }
  split; simpl.
  - apply NoDup_cons. split; [|by apply NoDup_cons]. intros Hx. by apply (Hne _ Hx).
  - split_and!.
    + by rewrite HI3, decide_False, HI2, decide_True, Ho1, Ha by done.
    + eapply tree_at_ext; [|exact Hlt]. intros x Hx. apply Hout, elem_of_app. by left.
    + eapply ctx_at_ext; [|exact HC]. intros x Hx. apply Hout, elem_of_app. by right.
  - by rewrite HI3, decide_True, HI2, decide_False, Hi1 by done.
  - eapply list_rep_same; [|exact Hl1]. split; [done..|]. intros y. simpl. by rewrite Hl3, Hl2.
  - by rewrite Hr1.
  - done.
Qed.

(** The keys before the hole of a context are smaller, those behind it larger. *)
Definition fits C (key : K) : Prop :=
  (∀ x, x ∈ (cpre C).*1 → klt x key) ∧ (∀ x, x ∈ (cpost C).*1 → klt key x).

Lemma fits_left C a k v r key :
  fits C key → klt key k → (∀ x, x ∈ (kvs r).*1 → klt k x) → fits (CLeft C a k v r) key.
Proof.
  intros [Hp Hq] Hk Hr. split; simpl; [done|]. intros x.
  rewrite fmap_app. intros [->|[Hx|Hx]%elem_of_app]%elem_of_cons; [done| |by apply Hq].
  trans k; [done|by apply Hr].
Qed.
Lemma fits_right C l a k v key :
  fits C key → klt k key → (∀ x, x ∈ (kvs l).*1 → klt x k) → fits (CRight C l a k v) key.
Proof.
  intros [Hp Hq] Hk Hl. split; simpl; [|done]. intros x. rewrite !fmap_app. simpl.
  intros [Hx|[Hx|Hx%list_elem_of_singleton]%elem_of_app]%elem_of_app; [by apply Hp| |by subst].
  trans k; [by apply Hl|done].
Qed.

Lemma add_loop s C t key ol fuel
    (Q : option positive + option (option positive) → avltree K W → Prop) :
  at_pos s C t → sorted (kvs t) → list_rep s ol → t ≠ Leaf → height t < fuel →
  (∀ x, x ∈ locs t ++ clocs C → x ∈ ol) → fits C key →
  (key ∈ (kvs t).*1 → Q (inr None) s) →
  (∀ C' new s', key ∉ (kvs t).*1 → plug C' Leaf = plug C t → linked s' C' ol new → fits C' key →
     Q (inr (Some (Some new))) s') →
  wp (whileM fuel (λ x, ret (match x with inl _ => true | inr _ => false end))
        (λ x, match x with
              | inl node => add_descend cmpfunc key node
              | inr r => ret (inr r)
              end) (inl (rootp t))) Q s.
Proof.
  revert C fuel. induction t as [|l IHl a k v r IHr]; intros C fuel Hp Hs Hol Hne Hf Hin Hfit Hyes Hno; [done|].
  destruct fuel as [|fuel]; [lia|]. simpl. wp_steps. unfold add_descend, compare_at.
  pose proof Hp as [_ _ (Ha & _ & _) _]. wp_step. eapply info_load; [exact Ha|]. intros; simpl. wp_steps.
  simpl in Hf. destruct fuel as [|fuel]; [lia|].
  apply sorted_node in Hs as (Hsl & Hsr & Hkl & Hkr).
  destruct (Z.ltb_spec (cmpfunc key k) 0) as [Hlt|Hge]; [|rewrite Z.gtb_ltb; destruct (Z.ltb_spec 0 (cmpfunc key k)) as [Hgt|Hle]].
  - assert (key ∈ (kvs (LNode l a k v r)).*1 → key ∈ (kvs l).*1) as Hkey.
    { intros [Hx|[->|Hx]]%keys_node; [done|by apply klt_irrefl in Hlt|].
      apply Hkr in Hx. destruct (klt_irrefl k). by trans key. }
    pose proof (fits_left C a k v r key Hfit Hlt Hkr) as Hfit'.
    destruct l as [|l1 b kb vb l2].
    + simpl. eapply wp_link_left; [done|done| |].
      { intros x Hx. apply Hin. exact Hx. }
      intros new s' Hlk. simpl. wp_steps. apply (Hno (CLeft C a k v r)); [by intros ?%Hkey%elem_of_nil|done|done|done].
    + cbn [isset rootp]. wp_step. apply (IHl (CLeft C a k v r)); [exact (proj1 (at_pos_left _ _ _ _ _ _ _) Hp)|done|done|done|simpl in *; lia| |done| |].
      * intros x Hx. apply Hin. revert Hx. simpl. rewrite !elem_of_app, !elem_of_cons, !elem_of_app. tauto.
      * intros Hk. apply Hyes, keys_node. by left.
      * intros C' new s' Hk. apply Hno. intros Hk'. apply Hk. by apply Hkey.
  - apply (proj2 (cmp_opp _ _)) in Hgt.
    assert (key ∈ (kvs (LNode l a k v r)).*1 → key ∈ (kvs r).*1) as Hkey.
    { intros [Hx|[->|Hx]]%keys_node; [|by apply klt_irrefl in Hgt|done].
      apply Hkl in Hx. destruct (klt_irrefl k). by trans key. }
    pose proof (fits_right C l a k v key Hfit Hgt Hkl) as Hfit'.
    destruct r as [|r1 b kb vb r2].
    + simpl. eapply wp_link_right; [done|done| |].
      { intros x Hx. apply Hin. revert Hx. simpl. rewrite !elem_of_app, !elem_of_cons, !elem_of_app, elem_of_nil. tauto. }
      intros new s' Hlk. simpl. wp_steps. apply (Hno (CRight C l a k v)); [by intros ?%Hkey%elem_of_nil|done|done|done].
    + cbn [isset rootp]. wp_step. apply (IHr (CRight C l a k v)); [exact (proj1 (at_pos_right _ _ _ _ _ _ _) Hp)|done|done|done|simpl in *; lia| |done| |].
      * intros x Hx. apply Hin. revert Hx. simpl. rewrite !elem_of_app, !elem_of_cons, !elem_of_app, !elem_of_cons. tauto.
      * intros Hk. apply Hyes, keys_node. by right; right.
      * intros C' new s' Hk. apply Hno. intros Hk'. apply Hk. by apply Hkey.
  - assert (key = k) as -> by (apply (cmp_eq (cmp := cmpfunc)); lia). wp_step.
    simpl. wp_steps. apply Hyes, keys_node. by right; left.
Qed.

(** ** The state of a tree *)

Record avl_rep s t (ol : list positive) : Prop := {
  ar_pos : at_pos s Top t;
  ar_list : list_rep s ol;
  ar_locs : ol ≡ₚ locs t;
}.

Lemma avltree_new_rep : avl_rep avltree_new Leaf [].
Proof. split; [split; simpl; try done; constructor|split; simpl; try done; constructor|done]. Qed.

Lemma sorted_insert C a key v :
  sorted (kvs (plug C Leaf)) → fits C key → sorted (kvs (plug C (LNode Leaf a key v Leaf))).
Proof.
  rewrite !kvs_plug. simpl. rewrite !sorted_app, sorted_cons. intros (Hp & Hq & Hpq) [Hf1 Hf2].
  split_and!; [done|done|done|]. intros x y Hx [->|Hy]%elem_of_cons; [by apply Hf1|by apply Hpq].
Qed.

Lemma linked_set s C ol new key val (Q : () → avltree K W → Prop) :
  linked s C ol new →
  (∀ s', list_rep s' (ol ++ [new]) → at_pos s' C (LNode Leaf new key val Leaf) → Q () s') →
  wp (set_keyval (Some new) (Some key) val) Q s.
Proof.
  intros [Hn HC Hi Hl Hr Ht] HQ. apply wp_set_keyval; [by rewrite Hi|]. intros h Hlh Hih.
  apply HQ.
  - eapply list_rep_same; [|exact Hl]. by split.
  - apply NoDup_cons in Hn as [Hni Hn]. split; simpl.
    + by apply NoDup_cons.
    + eapply ctx_at_ext; [|exact HC]. intros x Hx. rewrite Hih, decide_False; [done|].
      by intros ->.
    + by rewrite Hih, decide_True, Hi.
    + rewrite Hr. by apply rootp_plug_ne.
Qed.

Lemma wp_add s t ol key val (Q : Z → avltree K W → Prop) :
  avl_rep s t ol → sorted (kvs t) →
  (key ∈ (kvs t).*1 → Q 1%Z s) →
  (∀ s' C new, key ∉ (kvs t).*1 → t = plug C Leaf → fits C key →
     avl_rep s' (rebal C (LNode Leaf new key val Leaf)) (ol ++ [new]) → Q 0%Z s') →
  wp (avltree_add_node cmpfunc key val) Q s.
Proof.
  intros [Hp Hl Hlocs] Hs Hyes Hno. unfold avltree_add_node, tree_fuel, set_root. do 2 wp_step.
  pose proof (pos_root _ _ _ Hp) as Hr. rewrite Hr. simpl in Hr.
  destruct (decide (t = Leaf)) as [->|Hne].
  - simpl. wp_step. eapply wp_new_node; [done|]. intros a s1 Ha Hl1 Hr1 Hi1 Ho1. wp_step.
    apply wp_set_keyval; [by rewrite Hi1|]. intros h Hlh Hih. wp_steps.
    apply (Hno _ Top a); [by intros ?%elem_of_nil|done|by split; intros ? ?%elem_of_nil|].
    split; [|eapply list_rep_same; [|exact Hl1]; by split|].
    + split; simpl; [apply NoDup_singleton|done| |done]. by rewrite Hih, decide_True, Hi1.
    + rewrite Hlocs. done.
  - assert (isset (rootp (plug Top t)) = true) as -> by (by destruct t).
    do 3 wp_step. eapply (add_loop s Top t key ol); [done|done|done|done| | | | |].
    + pose proof (pos_height _ _ _ Hp). simpl. lia.
    + intros x. simpl. rewrite app_nil_r. by rewrite Hlocs.
    + by split; intros ? ?%elem_of_nil.
    + intros Hk. wp_step. by apply Hyes.
    + intros C new s1 Hk E Hlk Hfit. simpl in E. wp_step.
      eapply linked_set; [exact Hlk|]. intros s2 Hl2 Hp2. wp_step.
      eapply wp_rebalance; [exact Hp2|done|]. intros s3 Hs3 Hp3. wp_step.
      eapply (Hno _ C new); [done|done|done|]. split; [done|by eapply list_rep_same|].
      rewrite rebal_locs. simpl. rewrite Hlocs, <- E, locs_plug. simpl.
      by rewrite (Permutation_app_comm (clocs C)).
Qed.

Lemma wp_lookup s t ol key (Q : option W → avltree K W → Prop) :
  avl_rep s t ol → sorted (kvs t) →
  (key ∉ (kvs t).*1 → Q None s) →
  (∀ v, (key, v) ∈ kvs t → Q v s) →
  wp (avltree_lookup cmpfunc key) Q s.
Proof.
  intros [Hp Hl Hlocs] Hs Hno Hyes. unfold avltree_lookup. wp_step.
  eapply wp_search; [done|done|intros Hk; wp_step; by apply Hno|].
  intros C l a v r -> [_ _ (Ha & _ & _) _]. wp_step. eapply info_load; [exact Ha|]. intros; simpl.
  wp_step. apply Hyes. rewrite kvs_plug. simpl. rewrite !elem_of_app, elem_of_cons. tauto.
Qed.

(** ** Deletion *)

(** [capp D C]: the context [D] inside the hole of [C]. *)
Fixpoint capp (D C : ctx K W) : ctx K W :=
  match D with
  | Top => C
  | CLeft D a k v r => CLeft (capp D C) a k v r
  | CRight D l a k v => CRight (capp D C) l a k v
  end.
(** Contexts that only go right, respectively only go left. *)
Fixpoint only_right (D : ctx K W) : Prop :=
  match D with Top => True | CRight D _ _ _ _ => only_right D | CLeft _ _ _ _ _ => False end.
Fixpoint only_left (D : ctx K W) : Prop :=
  match D with Top => True | CLeft D _ _ _ _ => only_left D | CRight _ _ _ _ _ => False end.

Lemma plug_capp D C t : plug (capp D C) t = plug C (plug D t).
Proof. revert t. by induction D as [|D IH a k v r|D IH l a k v]; intros t; simpl; [|rewrite IH..]. Qed.
Lemma capp_assoc D E C : capp (capp D E) C = capp D (capp E C).
Proof. induction D as [|D IH a k v r|D IH l a k v]; simpl; congruence. Qed.
Lemma only_right_capp D E : only_right D → only_right E → only_right (capp D E).
Proof. by induction D. Qed.
Lemma only_left_capp D E : only_left D → only_left E → only_left (capp D E).
Proof. by induction D. Qed.
Lemma only_right_post D : only_right D → cpost D = [].
Proof. by induction D. Qed.
Lemma only_left_pre D : only_left D → cpre D = [].
Proof. by induction D. Qed.

Lemma rightmost_loop s C t fuel (Q : option positive → avltree K W → Prop) :
  at_pos s C t → t ≠ Leaf → height t ≤ fuel →
  (∀ D l b k v, plug D (LNode l b k v Leaf) = t → only_right D →
     at_pos s (capp D C) (LNode l b k v Leaf) → Q (Some b) s) →
  wp (whileM fuel (λ p, let! n := load N p in ret (isset (nd_right n)))
              (λ p, let! n := load N p in ret (nd_right n)) (rootp t)) Q s.
Proof.
  revert C fuel. induction t as [|l IHl a k v r IHr]; intros C fuel Hp Hne Hf HQ; [done|].
  destruct fuel as [|fuel]; [simpl in Hf; lia|]. simpl. wp_steps.
  pose proof Hp as [_ _ (Ha & _ & _) _]. eapply info_load; [exact Ha|]. intros; simpl. wp_steps.
  destruct (decide (r = Leaf)) as [->|Hr]; simpl.
  - wp_steps. by apply (HQ Top l a k v).
  - assert (isset (rootp r) = true) as -> by (by destruct r). wp_step. wp_step.
    eapply info_load; [exact Ha|]. intros; simpl. wp_step.
    apply (IHr (CRight C l a k v)); [by apply at_pos_right|done|simpl in Hf; lia|].
    intros D l' b kb vb E HD Hp'. apply (HQ (capp D (CRight Top l a k v)) l' b kb vb).
    + rewrite plug_capp, E. done.
    + by apply only_right_capp.
    + by rewrite capp_assoc.
Qed.

Lemma leftmost_loop s C t fuel (Q : option positive → avltree K W → Prop) :
  at_pos s C t → t ≠ Leaf → height t ≤ fuel →
  (∀ D r b k v, plug D (LNode Leaf b k v r) = t → only_left D →
     at_pos s (capp D C) (LNode Leaf b k v r) → Q (Some b) s) →
  wp (whileM fuel (λ p, let! n := load N p in ret (isset (nd_left n)))
              (λ p, let! n := load N p in ret (nd_left n)) (rootp t)) Q s.
Proof.
  revert C fuel. induction t as [|l IHl a k v r IHr]; intros C fuel Hp Hne Hf HQ; [done|].
  destruct fuel as [|fuel]; [simpl in Hf; lia|]. simpl. wp_steps.
  pose proof Hp as [_ _ (Ha & _ & _) _]. eapply info_load; [exact Ha|]. intros; simpl. wp_steps.
  destruct (decide (l = Leaf)) as [->|Hl]; simpl.
  - wp_steps. by apply (HQ Top r a k v).
  - assert (isset (rootp l) = true) as -> by (by destruct l). wp_step. wp_step.
    eapply info_load; [exact Ha|]. intros; simpl. wp_step.
    apply (IHl (CLeft C a k v r)); [by apply at_pos_left|done|simpl in Hf; lia|].
    intros D r' b kb vb E HD Hp'. apply (HQ (capp D (CLeft Top a k v r)) r' b kb vb).
    + rewrite plug_capp, E. done.
    + by apply only_left_capp.
    + by rewrite capp_assoc.
Qed.

(** Unlinking and freeing a node. *)
Lemma wp_dealloc s ol1 b ol2 (Q : () → avltree K W → Prop) :
  list_rep s (ol1 ++ b :: ol2) →
  (∀ s', list_rep s' (ol1 ++ ol2) → t_root s' = t_root s →
     (∀ y, y ≠ b → info (t_nodes s') y = info (t_nodes s) y) → Q () s') →
  wp (dealloc_node (Some b)) Q s.
Proof.
  intros [Hn Hc Hf Hp Hd] HQ. unfold dealloc_node, set_first, set_last.
  pose proof (chain_lookup _ _ _ _ _ _ Hc) as Hb. wp_step.
  unfold lnk in Hb. destruct (t_nodes s !! b) as [n|] eqn:Eb; [|done]. simpl in Hb.
  eapply wp_load; [exact Eb|]. injection Hb as Hpv Hnx. rewrite Hpv, Hnx.
  pose proof Hn as (Hn1 & H12 & [Hb2 Hn2]%NoDup_cons)%NoDup_app.
  assert (b ∉ ol1) as Hb1 by (intros Hin; apply (H12 b Hin); constructor).
  wp_step. wp_step. simpl. wp_step.
  apply (wp_mono _ (λ _ s', s' = Tree (t_root s) (hdp (ol1 ++ ol2) None) (t_prev s) (t_nodes s))).
  { rewrite Hf. unfold ptr_eq. destruct ol1 as [|c ol1]; simpl.
    - rewrite bool_decide_true by done. simpl. by wp_step.
    - rewrite bool_decide_false by (intros [= ->]; apply Hb1; constructor). apply wp_ret.
      simpl in Hf. destruct s; simpl in *. by rewrite Hf. }
  intros _ s1 ->. wp_step. wp_step. wp_step. simpl.
  apply (wp_mono _ (λ _ s', s' = Tree (t_root s) (hdp (ol1 ++ ol2) None) (lastp None (ol1 ++ ol2)) (t_nodes s))).
  { rewrite Hp. unfold ptr_eq. destruct ol2 as [|c ol2 _] using rev_ind; simpl.
    - rewrite lastp_snoc, bool_decide_true by done. simpl. wp_step. by rewrite app_nil_r.
    - rewrite lastp_app, lastp_cons, lastp_snoc, lastp_app, lastp_snoc.
      rewrite bool_decide_false; [by apply wp_ret|].
      intros [= ->]. apply Hb2, elem_of_app. right. constructor. }
  intros _ s2 ->. wp_step.
  assert (∀ z, z ∈ ol1 ++ b :: ol2 → is_Some (lnk (t_nodes s) z)) as Hall.
  { intros z Hz. by eapply chain_elem. }
  apply wp_when_set_lnext; simpl.
  { intros a Ha%lastp_elem. apply Hall, elem_of_app. by left. }
  intros h1 Hi1 Hl1. wp_step. apply wp_when_set_lprev; simpl.
  { intros a Ha%hdp_elem. rewrite Hl1. destruct (Hall a) as [i ->]; [apply elem_of_app; right; by constructor|].
    case_decide; simpl; eauto. }
  intros h2 Hi2 Hl2.
  assert (∃ n2, h2 !! b = Some n2) as [n2 Hn2b].
  { destruct (Hall b) as [i Hi]; [apply elem_of_app; right; constructor|].
    assert (is_Some (lnk h2 b)) as Hlb.
    { rewrite Hl2, Hl1, Hi. do 2 case_decide; simpl; eauto. }
    unfold lnk in Hlb. apply fmap_is_Some in Hlb as [? ?]. eauto. }
  eapply wp_free; [exact Hn2b|]. simpl. apply HQ; simpl; [|done|].
  - split; simpl; [| |done|done|].
    + apply NoDup_app. split; [done|]. split; [|done]. intros x Hx Hx2. apply (H12 x Hx). by constructor.
    + eapply chain_remove; [exact Hn|exact Hc|]. intros x pv nx Hx Hlx.
      assert (lnk (delete b h2) x = lnk h2 x) as -> by (unfold lnk; by rewrite lookup_delete_ne by done).
      rewrite Hl2, Hl1, Hlx. by do 2 case_decide.
    + rewrite dom_delete_L, (info_dom_eq _ _ Hi2), (info_dom_eq _ _ Hi1), Hd.
      rewrite !list_to_set_app_L. simpl. clear -Hb1 Hb2. set_solver.
  - intros y Hy. rewrite <- Hi1, <- Hi2. unfold info. by rewrite lookup_delete_ne.
Qed.

(** The key and value of one node of a context are overwritten. *)
Definition setkv_frame (C : ctx K W) k' v' : ctx K W :=
  match C with
  | Top => Top
  | CLeft C a k v r => CLeft C a k' v' r
  | CRight C l a k v => CRight C l a k' v'
  end.

Lemma cpar_setkv D C k' v' : cpar (capp D (setkv_frame C k' v')) = cpar (capp D C).
Proof. by destruct D, C. Qed.
Lemma clocs_setkv D C k' v' : clocs (capp D (setkv_frame C k' v')) = clocs (capp D C).
Proof.
  induction D as [|D IH a k v r|D IH l a k v]; simpl; [by destruct C|..]; by rewrite IH.
Qed.

Lemma ctx_at_setkv_frame I I' D C p a k' v' :
  cpar C = Some a → NoDup (clocs (capp D C)) → ctx_at I (capp D C) p →
  (∀ z, z ∈ clocs (capp D C) → I' z = if decide (z = a) then setKV (Some k') v' <$> I z else I z) →
  ctx_at I' (capp D (setkv_frame C k' v')) p.
Proof.
  revert p. induction D as [|D IH b k v r|D IH l b k v]; intros p Ha Hn Hc HI.
  - simpl in *. destruct C as [|C b k v r|C l b k v]; [done|..]; simpl in *; simplify_eq;
      destruct Hc as (Hb & Ht & Hc); apply NoDup_cons in Hn as [Hni Hn];
      (split_and!; [by rewrite HI, decide_True, Hb by (done || constructor)|eapply tree_at_ext; [|exact Ht]|eapply ctx_at_ext; [|exact Hc]]);
      intros x Hx; (rewrite HI, decide_False; [done|intros ->; apply Hni, elem_of_app; by (left + right)|right; apply elem_of_app; by (left + right)]).
  - simpl in *. destruct Hc as (Hb & Ht & Hc). apply NoDup_cons in Hn as [Hni Hn].
    apply not_elem_of_app in Hni as [Hni1 Hni2]. apply NoDup_app in Hn as (_ & Hrc & Hn).
    assert (a ∈ clocs (capp D C)) as Hin.
    { clear -Ha. induction D; simpl; [by apply cpar_elem|..]; right; apply elem_of_app; by right. }
    split_and!.
    + rewrite HI, decide_False, cpar_setkv, Hb; [done|by intros ->|constructor].
    + eapply tree_at_ext; [|exact Ht]. intros x Hx. rewrite HI, decide_False; [done| |].
      * intros ->. by apply (Hrc a).
      * right. apply elem_of_app. by left.
    + apply IH; [done|done|done|]. intros z Hz. apply HI. right. apply elem_of_app. by right.
  - simpl in *. destruct Hc as (Hb & Ht & Hc). apply NoDup_cons in Hn as [Hni Hn].
    apply not_elem_of_app in Hni as [Hni1 Hni2]. apply NoDup_app in Hn as (_ & Hrc & Hn).
    assert (a ∈ clocs (capp D C)) as Hin.
    { clear -Ha. induction D; simpl; [by apply cpar_elem|..]; right; apply elem_of_app; by right. }
    split_and!.
    + rewrite HI, decide_False, cpar_setkv, Hb; [done|by intros ->|constructor].
    + eapply tree_at_ext; [|exact Ht]. intros x Hx. rewrite HI, decide_False; [done| |].
      * intros ->. by apply (Hrc a).
      * right. apply elem_of_app. by left.
    + apply IH; [done|done|done|]. intros z Hz. apply HI. right. apply elem_of_app. by right.
Qed.

Lemma capp_cpar_target D C a : cpar C = Some a → NoDup (clocs (capp D C)) →
  cpar (capp D C) = Some a → D = Top.
Proof.
  intros Ha Hn Hd. assert (∀ D, a ∈ clocs (capp D C)) as Hin.
  { intros D'. induction D'; simpl; [by apply cpar_elem|..]; right; apply elem_of_app; by right. }
  destruct D as [|D b k v r|D l b k v]; [done|..]; simpl in *; simplify_eq;
    apply NoDup_cons in Hn as [Hni _]; destruct Hni; apply elem_of_app; right; apply Hin.
Qed.

(** The last steps of a deletion: the hole of [F] gets the only child [u] of
    the node [b] that leaves the tree, and [b] is unlinked and freed. *)
Definition splice (F : ctx K W) (b : positive) (u : ltree K W) : M (avltree K W) () :=
  do! match F with
      | Top => ret ()
      | CLeft _ p _ _ _ => set_left (Some p) (rootp u)
      | CRight _ _ p _ _ => set_right (Some p) (rootp u)
      end in
  do! when (isset (rootp u)) (set_parent (rootp u) (cpar F)) in
  dealloc_node (Some b).

Lemma wp_splice s (F : ctx K W) b (u : ltree K W) ol1 ol2 (Q : () → avltree K W → Prop) :
  list_rep s (ol1 ++ b :: ol2) → F ≠ Top →
  NoDup (b :: locs u ++ clocs F) → ctx_at (info (t_nodes s)) F (Some b) →
  tree_at (info (t_nodes s)) (Some b) u → t_root s = rootp (plug F Leaf) →
  (∀ s', list_rep s' (ol1 ++ ol2) → at_pos s' F u → Q () s') →
  wp (splice F b u) Q s.
Proof.
  intros Hl HF [Hb Hn]%NoDup_cons HC Ht Hr HQ. unfold splice. wp_step.
  pose proof Hn as (Hnu & Huf & HnF)%NoDup_app. apply not_elem_of_app in Hb as [Hbu HbF].
  apply (wp_mono _ (λ _ s', ∃ h, s' = with_nodes s (t_root s) h ∧ (∀ y, lnk h y = lnk (t_nodes s) y) ∧
     ctx_at (info h) F (rootp u) ∧ (∀ z, z ∉ clocs F → info h z = info (t_nodes s) z))).
  { destruct F as [|F p k v r|F l p k v]; [done|..]; simpl in *; pose proof HC as (Hp & _ & _).
    - apply wp_set_left; [by rewrite Hp|]. intros h Hlh HI. exists h. split; [done|]. split; [done|]. split.
      + apply (ctx_at_hole (info (t_nodes s)) _ (CLeft F p k v r) (Some b) (rootp u)); [done|done|].
        intros z _. rewrite HI. simpl. by apply decide_ext; naive_solver.
      + intros z Hz. rewrite HI, decide_False; [done|]. intros ->. apply Hz. constructor.
    - apply wp_set_right; [by rewrite Hp|]. intros h Hlh HI. exists h. split; [done|]. split; [done|]. split.
      + apply (ctx_at_hole (info (t_nodes s)) _ (CRight F l p k v) (Some b) (rootp u)); [done|done|].
        intros z _. rewrite HI. simpl. by apply decide_ext; naive_solver.
      + intros z Hz. rewrite HI, decide_False; [done|]. intros ->. apply Hz. constructor. }
  intros _ s1 (h1 & -> & Hl1 & HC1 & HI1). wp_step.
  assert (∀ z, z ∈ locs u → info h1 z = info (t_nodes s) z) as Hu1.
  { intros z Hz. apply HI1. by apply Huf. }
  apply wp_when_set_parent; simpl.
  { intros z Hz%rootp_elem. rewrite Hu1 by done. by eapply tree_at_elem. }
  intros h2 Hl2 HI2.
  eapply wp_dealloc; [eapply list_rep_same; [|exact Hl]; split; [done..|]; intros y; simpl; by rewrite Hl2, Hl1|].
  simpl. intros s3 Hl3 Hr3 HI3. apply HQ; [done|]. split; [done| | |].
  - eapply ctx_at_ext; [|exact HC1]. intros x Hx. rewrite HI3 by (by intros ->).
    rewrite HI2, decide_False; [done|]. intros Hz%rootp_elem. by apply (Huf x).
  - eapply tree_at_reparent; [done|exact Ht|]. intros x Hx. rewrite HI3 by (by intros ->).
    by rewrite HI2, Hu1.
  - rewrite Hr3, Hr. by apply rootp_plug_ne.
Qed.

(** The node [b] with the only child [u]. *)
Definition single_child t b k v u : Prop := t = LNode u b k v Leaf ∨ t = LNode Leaf b k v u.

Lemma single_child_locs t b k v u : single_child t b k v u → locs t ≡ₚ b :: locs u.
Proof. intros [->| ->]; simpl; [by rewrite Permutation_app_comm|done]. Qed.

(** The key and value of [b] are copied to [a], the node of the innermost frame
    of [X], and [b] leaves the tree. *)
Lemma wp_replace s D X t a b kb vb u ol (Q : () → avltree K W → Prop) :
  cpar X = Some a → single_child t b kb vb u →
  at_pos s (capp D X) t → list_rep s ol → ol ≡ₚ locs t ++ clocs (capp D X) →
  (∀ s' ol', list_rep s' ol' → at_pos s' (capp D (setkv_frame X kb vb)) u → ol' ≡ₚ locs u ++ clocs (capp D X) →
     Q () s') →
  wp (do! set_keyval (Some a) (Some kb) vb in splice (capp D (setkv_frame X kb vb)) b u) Q s.
Proof.
  intros HX Hb [Hn HC Ht Hr] Hl Hol HQ. rewrite (single_child_locs _ _ _ _ _ Hb) in Hn, Hol. simpl in Hn, Hol.
  assert (b ∈ ol) as (o1 & o2 & ->)%list_elem_of_split by (rewrite Hol; constructor).
  pose proof Hn as [Hbn (Hnu & HuF & HnF)%NoDup_app]%NoDup_cons.
  assert (a ∈ clocs (capp D X)) as HaF.
  { clear -HX. induction D; simpl; [by apply cpar_elem|..]; right; apply elem_of_app; by right. }
  destruct (ctx_at_elem _ _ _ _ HC HaF) as [ia Hia]. wp_step.
  apply wp_set_keyval; [by rewrite Hia|]. intros h1 Hl1 HI1.
  apply (wp_splice _ _ b u o1 o2); simpl.
  - eapply list_rep_same; [|exact Hl]. by split.
  - by destruct D, X.
  - by rewrite clocs_setkv.
  - eapply ctx_at_setkv_frame; [done|done| |intros z _; apply HI1].
    destruct Hb as [->| ->]; exact HC.
  - assert (tree_at (info (t_nodes s)) (Some b) u) as Hu by (destruct Hb as [->| ->]; simpl in Ht; tauto).
    eapply tree_at_ext; [|exact Hu]. intros z Hz. rewrite HI1, decide_False; [done|].
    intros ->. by apply (HuF a).
  - rewrite Hr, !plug_capp. destruct X; [done|..]; simpl; (destruct X; [done|by apply rootp_plug_ne..]).
  - intros s' Hl2 Hp2. apply (HQ s' _ Hl2 Hp2).
    apply (Permutation_cons_inv (a := b)). by rewrite Permutation_middle, Hol.
Qed.

(** The statements of [avltree_delete_node] that redirect the hole. *)
Lemma redirect_frame D X a kb vb (p : option positive) (setter setter' : option positive → option positive → M (avltree K W) ()) :
  cpar X = Some a → NoDup (clocs (capp D X)) →
  match X with CRight _ _ _ _ _ => setter = set_right | _ => setter = set_left end →
  match D with CRight _ _ _ _ _ => setter' = set_right | CLeft _ _ _ _ _ => setter' = set_left | Top => True end →
  (if ptr_eq (cpar (capp D X)) (Some a) then setter (cpar (capp D X)) p else setter' (cpar (capp D X)) p) =
  match capp D (setkv_frame X kb vb) with
  | Top => ret ()
  | CLeft _ q _ _ _ => set_left (Some q) p
  | CRight _ _ q _ _ => set_right (Some q) p
  end.
Proof.
  intros HX Hn Hs Hs'. unfold ptr_eq. case_bool_decide as Ep.
  - assert (D = Top) as -> by by exact (capp_cpar_target D X a HX Hn Ep). by destruct X; simplify_eq/=.
  - destruct D; simplify_eq/=; done.
Qed.

Lemma wp_delete_with_left s C l a k v r ol (Q : () → avltree K W → Prop) :
  at_pos s C (LNode l a k v r) → l ≠ Leaf → list_rep s ol → ol ≡ₚ locs (LNode l a k v r) ++ clocs C →
  (∀ s' ol' t', list_rep s' ol' → at_pos s' C t' → ol' ≡ₚ locs t' ++ clocs C →
     kvs t' = kvs l ++ kvs r → Q () s') →
  wp (delete_with_left (Some a) (rootp l)) Q s.
Proof.
  intros Hp Hne Hl Hol HQ. unfold delete_with_left, rightmost, tree_fuel. do 3 wp_step.
  apply at_pos_left in Hp. pose proof (pos_height _ _ _ Hp).
  eapply rightmost_loop; [exact Hp|done|simpl; lia|]. intros D u b kb vb E HD Hp'.
  set (X := CLeft C a k v r) in *. pose proof Hp' as [Hn _ (Hib & _ & _) _].
  apply NoDup_app in Hn as (_ & _ & HnF).
  wp_step. eapply info_load; [exact Hib|]. intros nx pv _.
  cbn [nd_key nd_val nd_parent nd_left].
  rewrite (redirect_frame D X a kb vb); [|done|done|done|by destruct D].
  rewrite <- (cpar_setkv D X kb vb).
  apply (wp_replace s D X (LNode u b kb vb Leaf) a b kb vb u ol); [done|by left|done|done| |].
  - rewrite Hol, <- !locs_plug, plug_capp, E. done.
  - intros s' ol' Hl' Hp2 Hol'. apply (HQ s' ol' (LNode (plug D u) a kb vb r) Hl').
    + rewrite at_pos_plug, plug_capp, <- at_pos_plug in Hp2. by apply at_pos_left.
    + rewrite Hol', <- (clocs_setkv D X kb vb), <- !locs_plug, plug_capp. done.
    + simpl. rewrite <- E, !kvs_plug. simpl. rewrite only_right_post by done.
      by rewrite !app_nil_r, <- !app_assoc.
Qed.

Lemma wp_delete_with_right s C l a k v r ol (Q : () → avltree K W → Prop) :
  at_pos s C (LNode l a k v r) → r ≠ Leaf → list_rep s ol → ol ≡ₚ locs (LNode l a k v r) ++ clocs C →
  (∀ s' ol' t', list_rep s' ol' → at_pos s' C t' → ol' ≡ₚ locs t' ++ clocs C →
     kvs t' = kvs l ++ kvs r → Q () s') →
  wp (delete_with_right (Some a) (rootp r)) Q s.
Proof.
  intros Hp Hne Hl Hol HQ. unfold delete_with_right, leftmost, tree_fuel. do 3 wp_step.
  apply at_pos_right in Hp. pose proof (pos_height _ _ _ Hp).
  eapply leftmost_loop; [exact Hp|done|simpl; lia|]. intros D u b kb vb E HD Hp'.
  set (X := CRight C l a k v) in *. pose proof Hp' as [Hn _ (Hib & _ & _) _].
  apply NoDup_app in Hn as (_ & _ & HnF).
  wp_step. eapply info_load; [exact Hib|]. intros nx pv _.
  cbn [nd_key nd_val nd_parent nd_right].
  rewrite (redirect_frame D X a kb vb); [|done|done|done|by destruct D].
  rewrite <- (cpar_setkv D X kb vb).
  apply (wp_replace s D X (LNode Leaf b kb vb u) a b kb vb u ol); [done|by right|done|done| |].
  - rewrite Hol, <- !locs_plug, plug_capp, E. done.
  - intros s' ol' Hl' Hp2 Hol'. apply (HQ s' ol' (LNode l a kb vb (plug D u)) Hl').
    + rewrite at_pos_plug, plug_capp, <- at_pos_plug in Hp2. by apply at_pos_right.
    + rewrite Hol', <- (clocs_setkv D X kb vb), <- !locs_plug, plug_capp. done.
    + simpl. rewrite <- E, !kvs_plug. simpl. rewrite only_left_pre by done. done.
Qed.

Lemma wp_delete_leaf s C a k v ol (Q : () → avltree K W → Prop) :
  at_pos s C (LNode Leaf a k v Leaf) → list_rep s ol → ol ≡ₚ a :: clocs C →
  (∀ s' ol', list_rep s' ol' → at_pos s' C Leaf → ol' ≡ₚ clocs C → Q () s') →
  wp (delete_leaf (Some a) (cpar C)) Q s.
Proof.
  intros Hp Hl Hol HQ. pose proof Hp as [[Ha Hn]%NoDup_cons HC (Hia & _ & _) Hr].
  unfold delete_leaf, set_root. do 2 wp_step.
  assert (a ∈ ol) as (o1 & o2 & ->)%list_elem_of_split by (rewrite Hol; constructor).
  assert (o1 ++ o2 ≡ₚ clocs C) as Hol'.
  { apply (Permutation_cons_inv (a := a)). by rewrite Permutation_middle. }
  wp_step. apply (wp_mono _ (λ _ s', ∃ h, s' = with_nodes s (rootp (plug C Leaf)) h ∧
    (∀ y, lnk h y = lnk (t_nodes s) y) ∧ ctx_at (info h) C None)).
  { unfold ptr_eq at 1. case_bool_decide as Eroot; simpl.
    - assert (C = Top) as ->.
      { destruct (decide (cpar C = None)); [by destruct C|].
        assert (C ≠ Top) as HC' by (intros ->; done). rewrite Hr in Eroot.
        destruct (rootp_plug C (LNode Leaf a k v Leaf) HC') as (b & Hb & Hin). simplify_eq/=. congruence. }
      wp_step. by exists (t_nodes s).
    - assert (C ≠ Top) as HC' by (intros ->; by apply Eroot; rewrite Hr).
      assert (isset (cpar C) = true) as Hset by (by destruct C).
      pose proof (wp_redirect_left s C a None
        (λ _ s', ∃ h, s' = with_nodes s (rootp (plug C Leaf)) h ∧
          (∀ y, lnk h y = lnk (t_nodes s) y) ∧ ctx_at (info h) C None) Hn Ha HC) as Hw.
      rewrite Hset in Hw. apply Hw. intros h Hlh HCh _. exists h. split; [|done].
      unfold with_nodes. rewrite Hr. f_equal. by apply rootp_plug_ne. }
  intros _ s1 (h & -> & Hlh & HCh).
  eapply wp_dealloc; [eapply list_rep_same; [|exact Hl]; by split|]. simpl.
  intros s2 Hl2 Hr2 Hi2. eapply HQ; [exact Hl2| |done]. split; simpl; [done| |done|done].
  eapply ctx_at_ext; [|exact HCh]. intros z Hz. apply Hi2. by intros ->.
Qed.

(** The rebalancing that [avltree_delete_node] does: it starts from the
    parent of the node found, whose own balance is not looked at. *)
Definition rebal_above C t : ltree K W :=
  match C with
  | Top => t
  | CLeft C p k v r => rebal C (LNode t p k v r)
  | CRight C l p k v => rebal C (LNode l p k v t)
  end.

Lemma rebal_above_kvs C t : kvs (rebal_above C t) = cpre C ++ kvs t ++ cpost C.
Proof.
  destruct C; simpl; rewrite ?rebal_kvs; simpl; rewrite <- ?app_assoc; simpl; rewrite <- ?app_assoc; [|done..].
  by rewrite app_nil_r.
Qed.
Lemma rebal_above_locs C t : locs (rebal_above C t) ≡ₚ locs t ++ clocs C.
Proof. rewrite <- locs_plug. destruct C; simpl; rewrite ?rebal_locs, ?locs_plug; done. Qed.

Lemma wp_rebalance_above s C t (Q : () → avltree K W → Prop) :
  at_pos s C t →
  (∀ s', same_list s s' → at_pos s' Top (rebal_above C t) → Q () s') →
  wp (when (isset (cpar C)) (rebalance (cpar C))) Q s.
Proof.
  intros Hp HQ. destruct C as [|C p k v r|C l p k v]; simpl.
  - wp_step. by apply HQ.
  - eapply wp_rebalance; [by apply at_pos_left in Hp|done|done].
  - eapply wp_rebalance; [by apply at_pos_right in Hp|done|done].
Qed.

Lemma wp_delete s t ol key (Q : option W → avltree K W → Prop) :
  avl_rep s t ol → sorted (kvs t) →
  (key ∉ (kvs t).*1 → Q None s) →
  (∀ s' C l a v r t' ol', t = plug C (LNode l a key v r) → kvs t' = kvs l ++ kvs r →
     avl_rep s' (rebal_above C t') ol' → Q v s') →
  wp (avltree_delete_node cmpfunc key) Q s.
Proof.
  intros [Hp Hl Hlocs] Hs Hno Hyes. unfold avltree_delete_node. wp_step.
  eapply wp_search; [done|done|intros Hk; simpl; wp_step; by apply Hno|].
  intros C l a v r -> Hpc. simpl. pose proof Hpc as [_ _ (Ha & _ & _) _].
  rewrite locs_plug in Hlocs. wp_step. eapply info_load; [exact Ha|].
  intros nx pv _. cbn [nd_key nd_val nd_parent nd_left nd_right]. wp_step.
  apply (wp_mono _ (λ _ s', ∃ t' ol', list_rep s' ol' ∧ at_pos s' C t' ∧
    ol' ≡ₚ locs t' ++ clocs C ∧ kvs t' = kvs l ++ kvs r)).
  { destruct (decide (l = Leaf)) as [->|Hnel]; simpl.
    - destruct (decide (r = Leaf)) as [->|Hner]; simpl.
      + eapply wp_delete_leaf; [done|done|done|]. intros s' ol' ???. by exists Leaf, ol'.
      + assert (isset (rootp r) = true) as -> by (by destruct r).
        eapply wp_delete_with_right; [done|done|done|done|]. intros s' ol' t' ????. by exists t', ol'.
    - assert (isset (rootp l) = true) as -> by (by destruct l).
      eapply wp_delete_with_left; [done|done|done|done|]. intros s' ol' t' ????. by exists t', ol'. }
  intros _ s1 (t' & ol' & Hl1 & Hp1 & Hol1 & Hkv). wp_step.
  eapply wp_rebalance_above; [exact Hp1|]. intros s2 Hs2 Hp2. wp_step.
  eapply Hyes; [done|exact Hkv|]. split; [done|by eapply list_rep_same|].
  by rewrite Hol1, rebal_above_locs.
Qed.

(** ** Deallocation *)

Lemma free_loop s ol fuel (Q : option positive → avltree K W → Prop) p :
  NoDup ol → chain (lnk (t_nodes s)) p ol None → dom (t_nodes s) = list_to_set ol →
  length ol < fuel → (∀ s', t_nodes s' = ∅ → Q None s') →
  wp (whileM fuel (λ node, ret (isset node))
    (λ node, let! n := load N node in
             do! free N node in
             ret (nd_next n)) (hdp ol None)) Q s.
Proof.
  revert s ol p. induction fuel as [|fuel IH]; intros s ol p Hn Hc Hd Hf HQ; [lia|].
  destruct ol as [|a ol]; simpl; wp_steps.
  - apply HQ. by apply dom_empty_inv_L.
  - destruct Hc as [Ha Hc]. apply NoDup_cons in Hn as [Hna Hn].
    unfold lnk in Ha. destruct (t_nodes s !! a) as [n|] eqn:Ea; [|done]. simpl in Ha.
    injection Ha as _ Hnx. eapply wp_load; [exact Ea|]. wp_step. eapply wp_free; [exact Ea|]. simpl. wp_step.
    rewrite Hnx. apply (IH _ ol (Some a)); simpl; [done| | |simpl in Hf; lia|done].
    + eapply chain_ext; [|exact Hc]. intros x Hx. unfold lnk. rewrite lookup_delete_ne; [done|by intros ->].
    + rewrite dom_delete_L, Hd. simpl. clear -Hna. set_solver.
Qed.

Lemma wp_avltree_free s t ol (Q : () → avltree K W → Prop) :
  avl_rep s t ol → (∀ s', t_nodes s' = ∅ → Q () s') → wp avltree_free Q s.
Proof.
  intros [_ [Hn Hc Hf _ Hd] _] HQ. unfold avltree_free, tree_fuel. do 5 wp_step. rewrite Hf.
  eapply free_loop; [done|done|done| |].
  - simpl. rewrite <- (size_dom (D := gset positive)), Hd, size_list_to_set by done. lia.
  - intros s' ?. wp_step. by apply HQ.
Qed.
End map.

(** ** The tree implements a finite map *)
Section finite_map.
Context {K W : Type} `{Countable K} (cmpfunc : K → K → Z) `{!CmpOrder cmpfunc}.
Implicit Types s : avltree K W.
Implicit Types m : gmap K (option W).

Definition avl_map s m : Prop :=
  ∃ t ol, avl_rep s t ol ∧ sorted cmpfunc (kvs t) ∧ m = list_to_map (kvs t).

Lemma sorted_nodup (l : list (K * option W)) : sorted cmpfunc l → NoDup l.*1.
Proof.
  unfold sorted. induction 1 as [|x l' _ IH Hf]; constructor; [|done].
  intros Hx. rewrite Forall_forall in Hf. apply Hf in Hx. by apply klt_irrefl in Hx.
Qed.

Lemma map_insert_middle (A B : list (K * option W)) k v :
  sorted cmpfunc (A ++ (k, v) :: B) →
  k ∉ (A ++ B).*1 ∧ (list_to_map (A ++ (k, v) :: B) : gmap K (option W)) = <[k:=v]> (list_to_map (A ++ B)).
Proof.
  intros Hs%sorted_nodup.
  assert (NoDup (((k, v) :: A ++ B).*1)) as Hn.
  { by rewrite Permutation_middle. }
  split; [by apply NoDup_cons in Hn as [? _]|].
  by rewrite <- (list_to_map_proper ((k, v) :: A ++ B)) by (done || by rewrite Permutation_middle).
Qed.

Lemma sorted_middle (A B : list (K * option W)) kv : sorted cmpfunc (A ++ kv :: B) → sorted cmpfunc (A ++ B).
Proof.
  rewrite !sorted_app, sorted_cons. intros (? & [? ?] & Hx). split_and!; [done..|].
  intros x y ??. apply Hx; [done|by constructor].
Qed.

Lemma avl_map_lookup s m key (Q : option W → avltree K W → Prop) :
  avl_map s m → Q (mjoin (m !! key)) s → wp (avltree_lookup cmpfunc key) Q s.
Proof.
  intros (t & ol & Hr & Hs & ->) HQ. eapply wp_lookup; [done|done|done|..].
  - intros Hk. by rewrite not_elem_of_list_to_map_1 in HQ by done.
  - intros v Hk. by rewrite (elem_of_list_to_map_1 _ _ v) in HQ by (done || by apply sorted_nodup).
Qed.

Lemma avl_map_add s m key val (Q : Z → avltree K W → Prop) :
  avl_map s m →
  (is_Some (m !! key) → Q 1%Z s) →
  (∀ s', m !! key = None → avl_map s' (<[key:=val]> m) → Q 0%Z s') →
  wp (avltree_add_node cmpfunc key val) Q s.
Proof.
  intros (t & ol & Hr & Hs & ->) Hyes Hno. eapply wp_add; [done|done|done|..].
  - intros ([k v] & -> & Hk)%list_elem_of_fmap. apply Hyes. exists v.
    apply elem_of_list_to_map_1; [by apply sorted_nodup|done].
  - intros s' C new Hk -> Hfit Hr'. apply Hno; [by apply not_elem_of_list_to_map_1|].
    exists (rebal C (LNode Leaf new key val Leaf)), (ol ++ [new]). split; [done|].
    pose proof (sorted_insert cmpfunc C new key val Hs Hfit) as Hs'.
    rewrite rebal_kvs, <- kvs_plug. split; [done|].
    rewrite !kvs_plug in *. simpl in *. by apply map_insert_middle in Hs' as [_ ->].
Qed.

Lemma avl_map_delete s m key (Q : option W → avltree K W → Prop) :
  avl_map s m → (∀ s', avl_map s' (delete key m) → Q (mjoin (m !! key)) s') →
  wp (avltree_delete_node cmpfunc key) Q s.
Proof.
  intros (t & ol & Hr & Hs & ->) HQ. eapply wp_delete; [done|done|done|..].
  - intros Hk%(not_elem_of_list_to_map_1 (M := gmap K)). rewrite Hk in HQ. apply HQ.
    rewrite delete_id by done. by exists t, ol.
  - intros s' C l a v r t' ol' -> Hkv Hr'. rewrite kvs_plug in Hs. simpl in Hs.
    rewrite <- !app_assoc in Hs. simpl in Hs. rewrite (app_assoc (cpre C)) in Hs.
    pose proof (map_insert_middle _ _ _ _ Hs) as [Hni Hm].
    assert (kvs (plug C (LNode l a key v r)) = (cpre C ++ kvs l) ++ (key, v) :: kvs r ++ cpost C) as E.
    { rewrite kvs_plug. simpl. by rewrite <- !app_assoc. }
    rewrite E, Hm, lookup_insert_eq in HQ. apply HQ.
    rewrite delete_insert_id by (by apply not_elem_of_list_to_map_1).
    exists (rebal_above C t'), ol'. rewrite rebal_above_kvs, Hkv.
    rewrite <- !app_assoc. rewrite (app_assoc (cpre C)). split; [done|].
    split; [by eapply sorted_middle|done].
Qed.

#[export] Instance avl_kvmap : KVMap (avltree K W) K W := {
  kv_lookup := avltree_lookup cmpfunc;
  kv_add := avltree_add_node cmpfunc;
  kv_delete := avltree_delete_node cmpfunc;
  kv_new := avltree_new;
  kv_free := avltree_free;
  kv_rep := avl_map;
  kv_freed := λ s, t_nodes s = ∅;
}.

#[export] Instance avl_kvmap_laws : KVMapLaws (avltree K W) K W.
Proof.
  split; simpl.
  - exists Leaf, []. split; [apply avltree_new_rep|]. split; [constructor|done].
  - apply avl_map_lookup.
  - apply avl_map_add.
  - apply avl_map_delete.
  - intros s m Q (t & ol & Hr & _) HQ. by eapply wp_avltree_free.
Qed.
End finite_map.

(** ** Runs of the operations *)
Section runs.
Context {K W : Type} `{Countable K} (cmpfunc : K → K → Z) `{!CmpOrder cmpfunc}.
Implicit Types s : avltree K W.
Implicit Types m : gmap K (option W).

Inductive avl_op :=
  | OpLookup (k : K)
  | OpAdd (k : K) (v : option W)
  | OpDelete (k : K).
Inductive avl_result :=
  | RVal (v : option W)
  | RCode (c : Z).

Definition run_avl_op (op : avl_op) : M (avltree K W) avl_result :=
  match op with
  | OpLookup k => let! v := avltree_lookup cmpfunc k in ret (RVal v)
  | OpAdd k v => let! c := avltree_add_node cmpfunc k v in ret (RCode c)
  | OpDelete k => let! v := avltree_delete_node cmpfunc k in ret (RVal v)
  end.
Fixpoint run_avl_ops (ops : list avl_op) : M (avltree K W) (list avl_result) :=
  match ops with
  | [] => ret []
  | op :: ops => let! r := run_avl_op op in let! rs := run_avl_ops ops in ret (r :: rs)
  end.

(** The same calls on a finite map from keys to pointers. *)
Definition map_op (op : avl_op) m : avl_result * gmap K (option W) :=
  match op with
  | OpLookup k => (RVal (mjoin (m !! k)), m)
  | OpAdd k v => if m !! k is Some _ then (RCode 1, m) else (RCode 0, <[k:=v]> m)
  | OpDelete k => (RVal (mjoin (m !! k)), delete k m)
  end.
Fixpoint map_ops (ops : list avl_op) m : list avl_result * gmap K (option W) :=
  match ops with
  | [] => ([], m)
  | op :: ops => let (r, m1) := map_op op m in let (rs, m2) := map_ops ops m1 in (r :: rs, m2)
  end.

Lemma run_avl_op_spec op s m :
  avl_map cmpfunc s m →
  wp (run_avl_op op) (λ r s', r = (map_op op m).1 ∧ avl_map cmpfunc s' (map_op op m).2) s.
Proof.
  intros Hm. destruct op as [k|k v|k]; simpl; wp_step.
  - eapply avl_map_lookup; [done|done|]. by wp_step.
  - eapply avl_map_add; [done|done|..].
    + intros [v' Hv]. wp_step. by rewrite Hv.
    + intros s' Hn Hm'. wp_step. by rewrite Hn.
  - eapply avl_map_delete; [done|done|]. intros s' Hm'. by wp_step.
Qed.

Lemma run_avl_ops_spec ops s m :
  avl_map cmpfunc s m →
  wp (run_avl_ops ops) (λ rs s', rs = (map_ops ops m).1 ∧ avl_map cmpfunc s' (map_ops ops m).2) s.
Proof.
  revert s m. induction ops as [|op ops IH]; intros s m Hm; simpl; wp_steps; [done|].
  eapply wp_mono; [by apply run_avl_op_spec|]. intros r s1 [-> Hm1]. wp_step.
  eapply wp_mono; [by apply IH|]. intros rs s2 [-> Hm2]. wp_step.
  destruct (map_op op m) as [r m1]. simpl in *. by destruct (map_ops ops m1).
Qed.

(** C29: The AVL tree behaves as a finite map: whatever the sequence of
    [avltree_lookup], [avltree_add_node] and [avltree_delete_node] calls on a
    new tree, the calls dereference no null or dangling pointer, their loops
    end, and they return what the same calls return on a map from keys to
    pointers (NULL for an absent key, 1 when the key to add exists).  Then
    [avltree_free] frees every node. *)
Theorem avltree_implements_map (ops : list avl_op) :
  ∃ s s', run_avl_ops ops avltree_new = Some ((map_ops ops ∅).1, s) ∧
    avl_map cmpfunc s (map_ops ops ∅).2 ∧
    avltree_free s = Some ((), s') ∧ t_nodes s' = ∅.
Proof.
  destruct (run_avl_ops_spec ops avltree_new ∅) as (rs & s & Hrun & -> & Hm);
    [apply (kv_new_law (KVMapLaws := avl_kvmap_laws cmpfunc))|].
  destruct (kv_free_law (KVMapLaws := avl_kvmap_laws cmpfunc) s _ (λ _ s', t_nodes s' = ∅) Hm)
    as ([] & s' & ? & ?); [done|]. eauto 10.
Qed.

(** Adding the pairs of a list one by one, keeping the return codes. *)
Fixpoint add_all (l : list (K * option W)) : M (avltree K W) (list Z) :=
  match l with
  | [] => ret []
  | (k, v) :: l => let! c := avltree_add_node cmpfunc k v in let! cs := add_all l in ret (c :: cs)
  end.

Lemma add_all_spec l s t ol :
  avl_rep s t ol → sorted cmpfunc (kvs t) → avl t →
  wp (add_all l) (λ _ s', ∃ t' ol', avl_rep s' t' ol' ∧ sorted cmpfunc (kvs t') ∧ avl t') s.
Proof.
  revert s t ol. induction l as [|[k v] l IH]; intros s t ol Hr Hs Ha; simpl; wp_step; [by eauto|].
  eapply (wp_add cmpfunc s t ol); [done|done|..].
  - intros _. wp_step. eapply wp_mono; [by eapply IH|]. intros ?? ?. by wp_step.
  - intros s' C new Hk -> Hfit Hr'. wp_step. eapply wp_mono; [eapply IH; [exact Hr'|..]|].
    + rewrite rebal_kvs, <- kvs_plug. by apply sorted_insert.
    + by apply rebal_insert.
    + intros ?? ?. by wp_step.
Qed.

Lemma avl_rep_height s t ol :
  avl_rep s t ol → node_height (t_root s) s = Some (Z.of_nat (height t), s) ∧ size (t_nodes s) = length (locs t).
Proof.
  intros [Hp [Hn _ _ _ Hd] Hol].
  assert (size (t_nodes s) = length (locs t)) as Hsz.
  { rewrite <- (size_dom (D := gset positive)), Hd, size_list_to_set by done. by rewrite Hol. }
  split; [|done]. destruct Hp as [Hnd _ Ht Hr]. rewrite Hr. simpl in *. rewrite app_nil_r in Hnd.
  destruct (wp_node_height s None t (λ h s', h = Z.of_nat (height t) ∧ s' = s)) as (h & s' & E & -> & ->);
    [done|done|by rewrite Hsz|done|done|done].
Qed.

(** C32: A tree that is only added to stays balanced: whatever keys are added
    in whatever order, the height that [node_height] computes of the [n] nodes
    satisfies 2^height <= (n+1)^2, so a lookup compares at most
    2*log2(n+1) keys. *)
Theorem avltree_add_balanced (l : list (K * option W)) :
  ∃ cs s h, add_all l avltree_new = Some (cs, s) ∧
    node_height (t_root s) s = Some (Z.of_nat h, s) ∧
    2 ^ h ≤ (size (t_nodes s) + 1) * (size (t_nodes s) + 1).
Proof.
  destruct (add_all_spec l avltree_new Leaf []) as (cs & s & Hrun & t & ol & Hr & _ & Ha);
    [apply avltree_new_rep|constructor|done|].
  destruct (avl_rep_height s t ol Hr) as [Hh Hsz].
  exists cs, s, (height t). rewrite Hsz. split; [done|]. split; [done|]. by apply avl_height.
Qed.

(** [node_height], a walk without recursion along the child, sibling and
    parent pointers, returns the height of the tree. *)
Theorem node_height_correct s t ol :
  avl_rep s t ol → node_height (t_root s) s = Some (Z.of_nat (height t), s).
Proof. intros Hr. by apply (avl_rep_height s t ol). Qed.
End runs.

(** ** Witnesses *)

Definition int_cmp (x y : Z) : Z := (x - y)%Z.
#[export] Instance int_cmp_order : CmpOrder int_cmp.
Proof. unfold int_cmp. split; intros; lia. Qed.

Lemma avltree_implements_map_witness :
  ∃ s s', run_avl_ops int_cmp [OpAdd 5%Z (Some 50%Z); OpAdd 7%Z (Some 70%Z); OpDelete 5%Z; OpLookup 7%Z] avltree_new =
    Some ([RCode 0; RCode 0; RVal (Some 50%Z); RVal (Some 70%Z)], s) ∧
    avl_map int_cmp s (delete 5%Z (<[7%Z := Some 70%Z]> {[5%Z := Some 50%Z]})) ∧
    avltree_free s = Some ((), s') ∧ t_nodes s' = ∅.
Proof.
  exact (avltree_implements_map int_cmp
    [OpAdd 5%Z (Some 50%Z); OpAdd 7%Z (Some 70%Z); OpDelete 5%Z; OpLookup 7%Z]).
Defined.

Lemma avltree_add_balanced_witness :
  ∃ cs s h, add_all int_cmp [(1%Z, Some 1%Z); (2%Z, Some 2%Z); (3%Z, Some 3%Z)] avltree_new = Some (cs, s) ∧
    node_height (t_root s) s = Some (Z.of_nat h, s) ∧
    2 ^ h ≤ (size (t_nodes s) + 1) * (size (t_nodes s) + 1).
Proof. exact (avltree_add_balanced int_cmp [(1%Z, Some 1%Z); (2%Z, Some 2%Z); (3%Z, Some 3%Z)]). Defined.

(** A tree of two nodes: the root 1 and its right child 2. *)
Definition two_nodes : avltree Z Z :=
  Tree (Some 1%positive) (Some 1%positive) (Some 2%positive)
    (list_to_map [(1%positive, Node (Some 10%Z) None None (Some 2%positive) None (Some 2%positive) None);
       (2%positive, Node (Some 20%Z) None None None (Some 1%positive) None (Some 1%positive))]).
Definition two_tree : ltree Z Z := LNode Leaf 1 10%Z None (LNode Leaf 2 20%Z None Leaf).

Lemma two_nodes_rep : avl_rep two_nodes two_tree [1%positive; 2%positive].
Proof.
  assert (NoDup [1%positive; 2%positive]) as Hn by (by apply (bool_decide_unpack _)).
  split; [split|split|]; try done; repeat split; try reflexivity.
Qed.

Lemma node_height_correct_witness :
  node_height (t_root two_nodes) two_nodes = Some (2%Z, two_nodes).
Proof. exact (node_height_correct two_nodes two_tree _ two_nodes_rep). Defined.

(** The keys 2, 1, 3, 4 are added, then 1 is deleted: the root 2 keeps a right
    subtree of height 2 and no left subtree. *)
Definition degenerate : M (avltree Z Z) (option Z) :=
  let! _ := add_all int_cmp [(2%Z, Some 2%Z); (1%Z, Some 1%Z); (3%Z, Some 3%Z); (4%Z, Some 4%Z)] in
  avltree_delete_node int_cmp 1%Z.

(** [avltree_delete_node] does not keep the balance: it calls
    [rebalance] with the parent of the deleted node, and [rebalance] starts
    one level higher, so the parent itself is never checked.  After adding 2,
    1, 3, 4 and deleting 1 the root's right subtree is two levels higher than
    its left one. *)
Lemma avltree_delete_unbalances :
  ∃ s n hl hr, degenerate avltree_new = Some (Some 1%Z, s) ∧
    load N (t_root s) s = Some (n, s) ∧
    node_height (nd_left n) s = Some (hl, s) ∧ node_height (nd_right n) s = Some (hr, s) ∧
    (hr - hl = 2)%Z.
Proof.
  destruct (degenerate avltree_new) as [[v s]|] eqn:E; [|by vm_compute in E].
  vm_compute in E. injection E as <- <-.
  do 4 eexists. split; [reflexivity|]. split; [reflexivity|].
  split; [vm_compute; reflexivity|]. split; [vm_compute; reflexivity|]. reflexivity.
Qed.
