(* ===== verification/OrderedMap.v ===== *)
(** * The ordered map (src/src/util/ordered_map.c)

    A tree from keys to map items and a linked list of the same items: the
    tree finds an item by its key, the list keeps the order.  The tree is used
    through the interface of MapInterface.v, the list through LinkedList.v.
    The operations are proved to be those of an ordered list of (key, value)
    pairs with distinct keys. *)
From stdpp Require Import base tactics numbers list gmap.
From S2P Require Import Prelude Chains MapInterface LinkedList AvlTree AvlMap.

(** [struct ordered_map_item]; the value is a pointer that is not NULL. *)
Record ordered_map_item (K V : Type) := OmItem {
  omi_key : K;
  omi_value : V;
  omi_list_item : option positive;
}.
Arguments OmItem {K V} _ _ _.
Arguments omi_key {K V} _.
Arguments omi_value {K V} _.
Arguments omi_list_item {K V} _.

Record ordered_map (T K V : Type) := OMap {
  om_tree : T;
  om_list : linked_list positive;
  om_items : gmap positive (ordered_map_item K V);
}.
Arguments OMap {T K V} _ _ _.
Arguments om_tree {T K V} _.
Arguments om_list {T K V} _.
Arguments om_items {T K V} _.

Section ordered_map.
Context {T K V : Type} `{KVMap T K positive} `{!KVMapLaws T K positive}.
Implicit Types s : ordered_map T K V.
Implicit Types l : list (K * V).

Definition I : heap_of (ordered_map T K V) (ordered_map_item K V) :=
  HeapOf om_items (λ h s, OMap (om_tree s) (om_list s) h).
Definition tree {A} : M T A → M (ordered_map T K V) A :=
  zoom om_tree (λ t s, OMap t (om_list s) (om_items s)).
Definition on_list {A} : M (linked_list positive) A → M (ordered_map T K V) A :=
  zoom om_list (λ t s, OMap (om_tree s) t (om_items s)).
Definition is_set (p : option positive) : bool := match p with Some _ => true | None => false end.

Definition ordered_map_new : ordered_map T K V := OMap kv_new linked_list_new ∅.

Definition ordered_map_add_item_tail (key : K) (value : V) : M (ordered_map T K V) Z :=
  let! found := tree (kv_lookup key) in
  if is_set found then ret (-1)%Z else
  let! omi := malloc I (OmItem key value None) in
  let! li := on_list (linked_list_add_item_tail omi) in
  do! store I (Some omi) (λ i, OmItem (omi_key i) (omi_value i) (Some li)) in
  let! err := tree (kv_add key (Some omi)) in
  do! assertM (err =? 0)%Z in
  ret err.

Definition ordered_map_add_item_head (key : K) (value : V) : M (ordered_map T K V) Z :=
  let! found := tree (kv_lookup key) in
  if is_set found then ret (-1)%Z else
  let! omi := malloc I (OmItem key value None) in
  let! li := on_list (linked_list_add_item_head omi) in
  do! store I (Some omi) (λ i, OmItem (omi_key i) (omi_value i) (Some li)) in
  let! err := tree (kv_add key (Some omi)) in
  do! assertM (err =? 0)%Z in
  ret err.

Definition ordered_map_remove_item (key : K) : M (ordered_map T K V) (option V) :=
  let! found := tree (kv_lookup key) in
  if negb (is_set found) then ret None else
  let! omi := tree (kv_lookup key) in
  let! i := load I omi in
  let li := omi_list_item i in
  let! _ := tree (kv_delete key) in
  let! _ := on_list (linked_list_remove_item li) in
  let! i := load I omi in
  do! free I omi in
  ret (Some (omi_value i)).

(** The common part of [ordered_map_remove_head] and [ordered_map_remove_tail],
    which differ in the list item they start from. *)
Definition remove_list_item (li : option positive) : M (ordered_map T K V) (option V) :=
  let! item := on_list (load LinkedList.H li) in
  let omi := Some (li_data item) in
  let! i := load I omi in
  do! assertM (bool_decide (omi_list_item i = li)) in
  let! _ := tree (kv_delete (omi_key i)) in
  let! _ := on_list (linked_list_remove_item li) in
  do! free I omi in
  ret (Some (omi_value i)).

Definition ordered_map_remove_head : M (ordered_map T K V) (option V) :=
  let! c := gets (λ s, ll_count (om_list s)) in
  if (c =? 0)%Z then ret None else
  let! li := gets (λ s, ll_head (om_list s)) in
  remove_list_item li.

Definition ordered_map_remove_tail : M (ordered_map T K V) (option V) :=
  let! c := gets (λ s, ll_count (om_list s)) in
  if (c =? 0)%Z then ret None else
  let! li := gets (λ s, ll_tail (om_list s)) in
  remove_list_item li.

Definition ordered_map_size : M (ordered_map T K V) Z := gets (λ s, ll_count (om_list s)).

Definition ordered_map_lookup (key : K) : M (ordered_map T K V) (option V) :=
  let! omi := tree (kv_lookup key) in
  if is_set omi then let! i := load I omi in ret (Some (omi_value i)) else ret None.

Definition ordered_map_make_item_head (key : K) : M (ordered_map T K V) Z :=
  let! omi := tree (kv_lookup key) in
  if negb (is_set omi) then ret (-1)%Z else
  let! i := load I omi in
  do! on_list (linked_list_make_item_head (omi_list_item i)) in
  ret 0%Z.

Definition ordered_map_free : M (ordered_map T K V) () :=
  let! fuel := gets (λ s, S (size (om_items s))) in
  do! whileM fuel (λ _ : (), let! n := ordered_map_size in ret (0 <? n)%Z)
        (λ _, let! _ := ordered_map_remove_tail in ret ()) () in
  do! on_list linked_list_free in
  tree kv_free.

Definition ordered_map_iterate (omi : option positive) : M (ordered_map T K V) (option positive) :=
  match omi with
  | None =>
      let! li := gets (λ s, ll_head (om_list s)) in
      if is_set li then
        let! item := on_list (load LinkedList.H li) in ret (Some (li_data item))
      else ret None
  | Some _ =>
      let! i := load I omi in
      let! item := on_list (load LinkedList.H (omi_list_item i)) in
      let li := li_next item in
      if is_set li then
        let! item := on_list (load LinkedList.H li) in ret (Some (li_data item))
      else ret None
  end.

(** ** Representation: one entry per pair, in the order of the list *)

Record entry := Entry { e_li : positive; e_oi : positive; e_key : K; e_val : V }.
Definition e_pair (e : entry) : positive * positive := (e_li e, e_oi e).
Definition e_kv (e : entry) : K * V := (e_key e, e_val e).
Definition e_bind (e : entry) : K * option positive := (e_key e, Some (e_oi e)).
Definition e_item (e : entry) : positive * ordered_map_item K V :=
  (e_oi e, OmItem (e_key e) (e_val e) (Some (e_li e))).

(** The part that does not depend on the order. *)
Record om_bag (t : T) (h : gmap positive (ordered_map_item K V)) (es : list entry) : Prop := {
  om_kv : kv_rep t (list_to_map (e_bind <$> es));
  om_heap : h = list_to_map (e_item <$> es);
  om_keys : NoDup (e_key <$> es);
  om_addrs : NoDup (e_oi <$> es);
}.
Record om_rep s (es : list entry) : Prop := {
  om_ll : ll_rep (om_list s) (e_pair <$> es);
  om_all : om_bag (om_tree s) (om_items s) es;
}.

(** What a client sees: the pairs in order. *)
Definition om_abs s l : Prop := ∃ es, om_rep s es ∧ l = e_kv <$> es.

Lemma bind_keys (es : list entry) : (e_bind <$> es).*1 = e_key <$> es.
Proof. by rewrite <- list_fmap_compose. Qed.
Lemma item_keys (es : list entry) : (e_item <$> es).*1 = e_oi <$> es.
Proof. by rewrite <- list_fmap_compose. Qed.
Lemma kv_keys (es : list entry) : (e_kv <$> es).*1 = e_key <$> es.
Proof. by rewrite <- list_fmap_compose. Qed.

Lemma om_bag_perm t h es es' : es ≡ₚ es' → om_bag t h es → om_bag t h es'.
Proof.
  intros Hp [Hkv Hh Hk Ha]. split.
  - erewrite <- list_to_map_proper; [exact Hkv|by rewrite bind_keys|by rewrite Hp].
  - rewrite Hh. apply list_to_map_proper; [by rewrite item_keys|by rewrite Hp].
  - by rewrite <- Hp.
  - by rewrite <- Hp.
Qed.

Lemma om_bag_item t h es e : om_bag t h es → e ∈ es → h !! e_oi e = Some (OmItem (e_key e) (e_val e) (Some (e_li e))).
Proof.
  intros [_ -> _ Ha] He. apply elem_of_list_to_map_1; [by rewrite item_keys|].
  exact (list_elem_of_fmap_2 e_item _ _ He).
Qed.

Lemma om_bag_add t t' h es k v oi li :
  om_bag t h es → k ∉ e_key <$> es → h !! oi = None →
  kv_rep t' (<[k:=Some oi]> (list_to_map (e_bind <$> es))) →
  om_bag t' (<[oi := OmItem k v (Some li)]> h) (Entry li oi k v :: es).
Proof.
  intros [Hkv Hh Hk Ha] Hni Hoi Ht. split; simpl.
  - exact Ht.
  - by rewrite Hh.
  - by apply NoDup_cons.
  - apply NoDup_cons. split; [|done]. rewrite Hh in Hoi.
    apply not_elem_of_list_to_map_2 in Hoi. by rewrite item_keys in Hoi.
Qed.

Lemma om_bag_remove t t' h e es :
  om_bag t h (e :: es) → kv_rep t' (delete (e_key e) (list_to_map (e_bind <$> e :: es))) →
  om_bag t' (delete (e_oi e) h) es.
Proof.
  intros [Hkv Hh Hk Ha] Ht. simpl in *. apply NoDup_cons in Hk as [Hk1 Hk]. apply NoDup_cons in Ha as [Ha1 Ha].
  rewrite delete_insert_id in Ht by (apply not_elem_of_list_to_map_1; by rewrite bind_keys).
  split; [done| |done|done].
  rewrite Hh. simpl. rewrite delete_insert_id; [done|]. apply not_elem_of_list_to_map_1. by rewrite item_keys.
Qed.

(** Looking up a key in the tree. *)
Lemma wp_tree_lookup s es k (Q : option positive → ordered_map T K V → Prop) :
  om_rep s es →
  (k ∉ e_key <$> es → Q None s) →
  (∀ es1 e es2, es = es1 ++ e :: es2 → e_key e = k → Q (Some (e_oi e)) s) →
  wp (tree (kv_lookup k)) Q s.
Proof.
  intros [_ [Hkv Hh Hk Ha]] Hno Hyes. apply wp_zoom. eapply kv_lookup_law; [exact Hkv|].
  assert (OMap (om_tree s) (om_list s) (om_items s) = s) as -> by (by destruct s).
  destruct (decide (k ∈ e_key <$> es)) as [Hin|Hni].
  - apply list_elem_of_fmap in Hin as (e & -> & He).
    rewrite (elem_of_list_to_map_1 _ _ (Some (e_oi e))); [|by rewrite bind_keys|].
    + apply list_elem_of_split in He as (es1 & es2 & ->). by eapply Hyes.
    + exact (list_elem_of_fmap_2 e_bind _ _ He).
  - rewrite not_elem_of_list_to_map_1; [by apply Hno|]. by rewrite bind_keys.
Qed.

(** ** The operations *)

Lemma wp_add_tail s es k v (Q : Z → ordered_map T K V → Prop) :
  om_rep s es →
  (k ∈ e_key <$> es → Q (-1)%Z s) →
  (∀ s' e, k ∉ e_key <$> es → e_kv e = (k, v) → om_rep s' (es ++ [e]) → Q 0%Z s') →
  wp (ordered_map_add_item_tail k v) Q s.
Proof.
  intros Hr Hyes Hno. unfold ordered_map_add_item_tail. wp_step.
  eapply wp_tree_lookup; [done| |].
  - intros Hk. simpl. wp_step. apply wp_malloc. intros oi Hoi. wp_step. apply wp_zoom. simpl.
    destruct Hr as [Hll Hb]. eapply wp_add_item_tail; [exact Hll|]. intros li ls' Hli Hll'. wp_step.
    eapply wp_store; [simpl; by rewrite lookup_insert_eq|]. simpl. wp_step. apply wp_zoom. simpl.
    eapply kv_add_law; [apply Hb| |].
    { intros [x Hx]. apply elem_of_list_to_map_2 in Hx.
      apply (list_elem_of_fmap_2 fst) in Hx. rewrite bind_keys in Hx. done. }
    intros t' _ Ht'. wp_step. apply wp_assert; [done|]. wp_step.
    eapply (Hno _ (Entry li oi k v)); [done|done|]. rewrite insert_insert_eq. split; simpl.
    + by rewrite fmap_app.
    + eapply om_bag_perm; [|by eapply om_bag_add]. by rewrite Permutation_app_comm.
  - intros es1 e es2 -> <-. simpl. wp_step. apply Hyes. rewrite fmap_app. simpl.
    apply elem_of_app. right. constructor.
Qed.

Lemma wp_add_head s es k v (Q : Z → ordered_map T K V → Prop) :
  om_rep s es →
  (k ∈ e_key <$> es → Q (-1)%Z s) →
  (∀ s' e, k ∉ e_key <$> es → e_kv e = (k, v) → om_rep s' (e :: es) → Q 0%Z s') →
  wp (ordered_map_add_item_head k v) Q s.
Proof.
  intros Hr Hyes Hno. unfold ordered_map_add_item_head. wp_step.
  eapply wp_tree_lookup; [done| |].
  - intros Hk. simpl. wp_step. apply wp_malloc. intros oi Hoi. wp_step. apply wp_zoom. simpl.
    destruct Hr as [Hll Hb]. eapply wp_add_item_head; [exact Hll|]. intros li ls' Hli Hll'. wp_step.
    eapply wp_store; [simpl; by rewrite lookup_insert_eq|]. simpl. wp_step. apply wp_zoom. simpl.
    eapply kv_add_law; [apply Hb| |].
    { intros [x Hx]. apply elem_of_list_to_map_2 in Hx.
      apply (list_elem_of_fmap_2 fst) in Hx. rewrite bind_keys in Hx. done. }
    intros t' _ Ht'. wp_step. apply wp_assert; [done|]. wp_step.
    eapply (Hno _ (Entry li oi k v)); [done|done|]. rewrite insert_insert_eq. split; simpl; [done|].
    by eapply om_bag_add.
  - intros es1 e es2 -> <-. simpl. wp_step. apply Hyes. rewrite fmap_app. simpl.
    apply elem_of_app. right. constructor.
Qed.

(** An entry leaves the tree, the list and the heap, and its map item is read
    and freed. *)
Lemma om_remove_rep s es1 e es2 t' ls' :
  om_rep s (es1 ++ e :: es2) →
  kv_rep t' (delete (e_key e) (list_to_map (e_bind <$> es1 ++ e :: es2))) →
  ll_rep ls' ((e_pair <$> es1) ++ (e_pair <$> es2)) →
  om_rep (OMap t' ls' (delete (e_oi e) (om_items s))) (es1 ++ es2).
Proof.
  intros [_ Hb] Ht Hl. split; simpl; [by rewrite fmap_app|].
  eapply om_bag_remove; [eapply om_bag_perm; [|exact Hb]; by rewrite Permutation_middle|].
  erewrite list_to_map_proper; [exact Ht| |].
  - rewrite bind_keys. rewrite Permutation_middle. apply Hb.
  - by rewrite Permutation_middle.
Qed.

Lemma om_rep_item s es1 e es2 :
  om_rep s (es1 ++ e :: es2) → om_items s !! e_oi e = Some (OmItem (e_key e) (e_val e) (Some (e_li e))).
Proof. intros [_ Hb]. eapply om_bag_item; [exact Hb|]. apply elem_of_app. right. constructor. Qed.

Lemma wp_om_remove_item s es k (Q : option V → ordered_map T K V → Prop) :
  om_rep s es →
  (k ∉ e_key <$> es → Q None s) →
  (∀ s' es1 e es2, es = es1 ++ e :: es2 → e_key e = k → om_rep s' (es1 ++ es2) → Q (Some (e_val e)) s') →
  wp (ordered_map_remove_item k) Q s.
Proof.
  intros Hr Hno Hyes. unfold ordered_map_remove_item. wp_step.
  eapply wp_tree_lookup; [done|intros Hk; simpl; wp_step; by apply Hno|].
  intros es1 e es2 -> Hk. simpl. wp_step. eapply wp_tree_lookup; [done| |].
  { intros Hni. destruct Hni. rewrite fmap_app. apply elem_of_app. right. simpl. rewrite Hk. constructor. }
  intros es3 f es4 E Hf.
  assert (e = f) as <-.
  { pose proof (om_keys _ _ _ (om_all _ _ Hr)) as Hn. rewrite E in Hn.
    assert (e ∈ es3 ++ f :: es4) as He by (rewrite <- E; apply elem_of_app; right; constructor).
    apply elem_of_app in He as [He|[->|He]%elem_of_cons]; [|done|]; exfalso;
      rewrite fmap_app, NoDup_app in Hn; simpl in Hn; destruct Hn as (_ & Hn1 & [Hn2 _]%NoDup_cons).
    - apply (Hn1 (e_key e)); [exact (list_elem_of_fmap_2 e_key _ _ He)|]. rewrite Hk, <- Hf. constructor.
    - apply Hn2. rewrite Hf, <- Hk. exact (list_elem_of_fmap_2 e_key _ _ He). }
  pose proof (om_rep_item _ _ _ _ Hr) as Hi. wp_step. eapply wp_load; [exact Hi|]. wp_step.
  apply wp_zoom. eapply kv_delete_law; [apply Hr|]. intros t' Ht'. wp_step. apply wp_zoom. simpl.
  eapply (wp_remove_item _ (e_pair <$> es1) (e_li e) (e_oi e) (e_pair <$> es2)).
  { pose proof (om_ll _ _ Hr) as Hl. by rewrite fmap_app in Hl. }
  intros ls' Hls. wp_step. eapply wp_load; [exact Hi|]. wp_step. eapply wp_free; [exact Hi|]. simpl. wp_step.
  rewrite <- Hk in Ht'. eapply (Hyes _ es1 e es2); [done|done|by eapply om_remove_rep].
Qed.

Lemma wp_remove_list_item s es1 e es2 (Q : option V → ordered_map T K V → Prop) :
  om_rep s (es1 ++ e :: es2) →
  (∀ s', om_rep s' (es1 ++ es2) → Q (Some (e_val e)) s') →
  wp (remove_list_item (Some (e_li e))) Q s.
Proof.
  intros Hr HQ. pose proof (om_rep_item _ _ _ _ Hr) as Hi.
  pose proof (om_ll _ _ Hr) as Hl. rewrite fmap_app in Hl. simpl in Hl.
  unfold remove_list_item. wp_step. apply wp_zoom. eapply wp_load; [exact (rep_item _ _ _ _ _ Hl)|].
  assert (OMap (om_tree s) (om_list s) (om_items s) = s) as -> by (by destruct s).
  wp_step. eapply wp_load; [exact Hi|]. wp_step. apply wp_assert; [by apply bool_decide_true|]. wp_step.
  apply wp_zoom. eapply kv_delete_law; [apply Hr|]. intros t' Ht'. wp_step. apply wp_zoom. simpl.
  eapply (wp_remove_item _ (e_pair <$> es1) (e_li e) (e_oi e) (e_pair <$> es2)); [done|].
  intros ls' Hls. wp_step. eapply wp_free; [exact Hi|]. simpl. wp_step.
  by eapply HQ, om_remove_rep.
Qed.

Lemma om_rep_count s es : om_rep s es → ll_count (om_list s) = Z.of_nat (length es).
Proof. intros [Hl _]. by rewrite (rep_count _ _ Hl), length_fmap. Qed.

Lemma wp_om_remove_head s es (Q : option V → ordered_map T K V → Prop) :
  om_rep s es →
  (es = [] → Q None s) →
  (∀ s' e es', es = e :: es' → om_rep s' es' → Q (Some (e_val e)) s') →
  wp ordered_map_remove_head Q s.
Proof.
  intros Hr Hno Hyes. unfold ordered_map_remove_head. do 2 wp_step. rewrite (om_rep_count _ _ Hr).
  destruct es as [|e es]; simpl; [wp_step; by apply Hno|]. do 2 wp_step.
  rewrite (rep_head _ _ (om_ll _ _ Hr)). simpl.
  eapply (wp_remove_list_item s []); [exact Hr|]. intros s' Hr'. by eapply Hyes.
Qed.

Lemma wp_om_remove_tail s es (Q : option V → ordered_map T K V → Prop) :
  om_rep s es →
  (es = [] → Q None s) →
  (∀ s' e es', es = es' ++ [e] → om_rep s' es' → Q (Some (e_val e)) s') →
  wp ordered_map_remove_tail Q s.
Proof.
  intros Hr Hno Hyes. unfold ordered_map_remove_tail. do 2 wp_step. rewrite (om_rep_count _ _ Hr).
  destruct es as [|e es' _] using rev_ind; simpl; [wp_step; by apply Hno|].
  rewrite (proj2 (Z.eqb_neq _ _)) by (rewrite length_app; simpl; lia). do 2 wp_step.
  rewrite (rep_tail _ _ (om_ll _ _ Hr)), !fmap_app. simpl. rewrite (lastp_snoc _ _ (e_li e)).
  eapply (wp_remove_list_item s es' e []); [exact Hr|]. rewrite app_nil_r. intros s' Hr'. by eapply Hyes.
Qed.

Lemma wp_om_lookup s es k (Q : option V → ordered_map T K V → Prop) :
  om_rep s es →
  (k ∉ e_key <$> es → Q None s) →
  (∀ es1 e es2, es = es1 ++ e :: es2 → e_key e = k → Q (Some (e_val e)) s) →
  wp (ordered_map_lookup k) Q s.
Proof.
  intros Hr Hno Hyes. unfold ordered_map_lookup. wp_step. eapply wp_tree_lookup; [done| |].
  - intros Hk. simpl. wp_step. by apply Hno.
  - intros es1 e es2 -> Hk. simpl. wp_step. eapply wp_load; [by eapply om_rep_item|]. wp_step. by eapply Hyes.
Qed.

Lemma wp_om_make_head s es k (Q : Z → ordered_map T K V → Prop) :
  om_rep s es →
  (k ∉ e_key <$> es → Q (-1)%Z s) →
  (∀ s' es1 e es2, es = es1 ++ e :: es2 → e_key e = k → om_rep s' (e :: es1 ++ es2) → Q 0%Z s') →
  wp (ordered_map_make_item_head k) Q s.
Proof.
  intros Hr Hno Hyes. unfold ordered_map_make_item_head. wp_step. eapply wp_tree_lookup; [done| |].
  - intros Hk. simpl. wp_step. by apply Hno.
  - intros es1 e es2 -> Hk. simpl. wp_step. eapply wp_load; [by eapply om_rep_item|]. wp_step.
    apply wp_zoom. pose proof (om_ll _ _ Hr) as Hl. rewrite fmap_app in Hl. simpl in *.
    eapply wp_make_item_head; [exact Hl|]. intros ls' Hl'. wp_step. eapply Hyes; [done|done|].
    split; simpl; [by rewrite fmap_app|]. eapply om_bag_perm; [|apply Hr]. by rewrite Permutation_middle.
Qed.

(** Everything the map allocated is gone. *)
Definition om_freed s : Prop := kv_freed (om_tree s) ∧ ll_items (om_list s) = ∅ ∧ om_items s = ∅.

Lemma wp_om_free s es (Q : () → ordered_map T K V → Prop) :
  om_rep s es → (∀ s', om_freed s' → Q () s') → wp ordered_map_free Q s.
Proof.
  intros Hr HQ. unfold ordered_map_free. do 3 wp_step.
  eapply (wp_whileM (λ _ s, ∃ es, om_rep s es) (λ _ s, Z.to_nat (ll_count (om_list s)))).
  - intros [] s1 (es1 & Hr1). unfold ordered_map_size. do 3 wp_step.
    pose proof (om_rep_count _ _ Hr1) as Hc.
    destruct (Z.ltb_spec 0 (ll_count (om_list s1))) as [Hlt|Hge].
    + wp_step. eapply wp_om_remove_tail; [exact Hr1|intros ->; simpl in *; lia|].
      intros s2 e es2 -> Hr2. wp_step. split; [by exists es2|].
      rewrite Hc, (om_rep_count _ _ Hr2), length_app. simpl. lia.
    + wp_step. assert (es1 = []) as -> by (destruct es1; simpl in *; [done|lia]).
      destruct Hr1 as [Hl1 [Hkv1 Hh1 _ _]]. apply wp_zoom. eapply wp_linked_list_free; [exact Hl1|].
      apply wp_zoom. eapply kv_free_law; [exact Hkv1|]. intros t' Ht'. apply HQ. split; simpl; [done|].
      split; [|done]. apply (dom_empty_inv_L (D := gset positive)). by rewrite (rep_dom _ _ Hl1).
  - by exists es.
  - rewrite (om_rep_count _ _ Hr), Nat2Z.id. simpl.
    rewrite (om_heap _ _ _ (om_all _ _ Hr)).
    pose proof (om_addrs _ _ _ (om_all _ _ Hr)) as Ha. rewrite <- item_keys in Ha.
    rewrite <- (size_dom (D := gset positive)), dom_list_to_map_L, size_list_to_set by done.
    rewrite !length_fmap. lia.
Qed.

(** ** Iteration *)

(** The loop [omi = NULL; while((omi = ordered_map_iterate(om, omi))) ...] of a
    client that visits every item; it collects key and value. *)
Fixpoint iterate_all (fuel : nat) (omi : option positive) : M (ordered_map T K V) (list (K * V)) :=
  match fuel with
  | 0 => ub
  | S n =>
      let! omi := ordered_map_iterate omi in
      if is_set omi then
        let! i := load I omi in
        let! rest := iterate_all n omi in
        ret ((omi_key i, omi_value i) :: rest)
      else ret []
  end.

Lemma wp_iterate s es1 es2 (Q : option positive → ordered_map T K V → Prop) :
  om_rep s (es1 ++ es2) →
  Q (e_oi <$> head es2) s →
  wp (ordered_map_iterate (e_oi <$> last es1)) Q s.
Proof.
  intros Hr HQ. pose proof (om_ll _ _ Hr) as Hl. rewrite fmap_app in Hl.
  assert (OMap (om_tree s) (om_list s) (om_items s) = s) as Es by (by destruct s).
  destruct es1 as [|e es1 _] using rev_ind; simpl.
  - do 2 wp_step. rewrite (rep_head _ _ Hl). destruct es2 as [|f es2]; simpl; [by wp_step|].
    wp_step. apply wp_zoom. eapply wp_load; [exact (rep_item _ [] _ _ _ Hl)|]. rewrite Es. by wp_step.
  - rewrite last_snoc. simpl. rewrite <- (app_assoc es1) in Hr. simpl in Hr.
    rewrite fmap_app in Hl. simpl in Hl. rewrite <- (app_assoc (e_pair <$> es1)) in Hl. simpl in Hl.
    wp_step. eapply wp_load; [by eapply om_rep_item|]. wp_step. apply wp_zoom.
    eapply wp_load; [exact (rep_item _ _ _ _ _ Hl)|]. rewrite Es. simpl.
    destruct es2 as [|f es2]; simpl; [by wp_step|]. wp_step. apply wp_zoom.
    assert (ll_rep (om_list s) (((e_pair <$> es1) ++ [e_pair e]) ++ e_pair f :: (e_pair <$> es2))) as Hl'.
    { by rewrite <- app_assoc. }
    eapply wp_load; [exact (rep_item _ _ _ _ _ Hl')|]. rewrite Es. by wp_step.
Qed.

Lemma wp_iterate_all s es1 es2 fuel (Q : list (K * V) → ordered_map T K V → Prop) :
  om_rep s (es1 ++ es2) → length es2 < fuel → Q (e_kv <$> es2) s →
  wp (iterate_all fuel (e_oi <$> last es1)) Q s.
Proof.
  revert es1 es2 Q. induction fuel as [|fuel IH]; intros es1 es2 Q Hr Hf HQ; [lia|]. simpl. wp_step.
  eapply wp_iterate; [exact Hr|]. destruct es2 as [|e es2]; simpl; [by wp_step|].
  wp_step. eapply wp_load; [by eapply om_rep_item|]. wp_step. simpl.
  replace (Some (e_oi e)) with (e_oi <$> last (es1 ++ [e])) by (by rewrite last_snoc).
  eapply (IH _ es2); [by rewrite <- app_assoc|simpl in Hf; lia|]. by wp_step.
Qed.

(** ** The contract: an ordered list of pairs with distinct keys *)

Inductive om_op :=
  | OmAddTail (k : K) (v : V)
  | OmAddHead (k : K) (v : V)
  | OmRemove (k : K)
  | OmRemoveHead
  | OmRemoveTail
  | OmLookup (k : K)
  | OmMakeHead (k : K)
  | OmSize
  | OmIterate.
Inductive om_result :=
  | OmInt (z : Z)
  | OmPtr (v : option V)
  | OmItems (l : list (K * V)).

Definition run_om_op (op : om_op) : M (ordered_map T K V) om_result :=
  match op with
  | OmAddTail k v => let! r := ordered_map_add_item_tail k v in ret (OmInt r)
  | OmAddHead k v => let! r := ordered_map_add_item_head k v in ret (OmInt r)
  | OmRemove k => let! r := ordered_map_remove_item k in ret (OmPtr r)
  | OmRemoveHead => let! r := ordered_map_remove_head in ret (OmPtr r)
  | OmRemoveTail => let! r := ordered_map_remove_tail in ret (OmPtr r)
  | OmLookup k => let! r := ordered_map_lookup k in ret (OmPtr r)
  | OmMakeHead k => let! r := ordered_map_make_item_head k in ret (OmInt r)
  | OmSize => let! r := ordered_map_size in ret (OmInt r)
  | OmIterate =>
      let! fuel := gets (λ s, S (size (om_items s))) in
      let! r := iterate_all fuel None in ret (OmItems r)
  end.

Definition assoc (k : K) l : option V := (list_to_map l : gmap K V) !! k.
Definition without (k : K) l : list (K * V) := filter (λ p, p.1 ≠ k) l.

Definition om_spec (op : om_op) l : om_result * list (K * V) :=
  match op with
  | OmAddTail k v => if assoc k l is Some _ then (OmInt (-1), l) else (OmInt 0, l ++ [(k, v)])
  | OmAddHead k v => if assoc k l is Some _ then (OmInt (-1), l) else (OmInt 0, (k, v) :: l)
  | OmRemove k => (OmPtr (assoc k l), without k l)
  | OmRemoveHead => (OmPtr (snd <$> head l), tail l)
  | OmRemoveTail => (OmPtr (snd <$> last l), take (length l - 1) l)
  | OmLookup k => (OmPtr (assoc k l), l)
  | OmMakeHead k =>
      match assoc k l with
      | Some v => (OmInt 0, (k, v) :: without k l)
      | None => (OmInt (-1), l)
      end
  | OmSize => (OmInt (Z.of_nat (length l)), l)
  | OmIterate => (OmItems l, l)
  end.

Lemma assoc_none (es : list entry) k : k ∉ e_key <$> es → assoc k (e_kv <$> es) = None.
Proof. intros Hk. apply not_elem_of_list_to_map_1. by rewrite kv_keys. Qed.

Lemma without_id l k : k ∉ l.*1 → without k l = l.
Proof.
  unfold without. induction l as [|[k' v] l IH]; [done|]. simpl. intros Hk.
  rewrite filter_cons_True by (simpl; intros ->; apply Hk; constructor).
  f_equal. apply IH. intros Hin. apply Hk. by constructor.
Qed.

Lemma assoc_found es1 e es2 :
  NoDup (e_key <$> es1 ++ e :: es2) →
  assoc (e_key e) (e_kv <$> es1 ++ e :: es2) = Some (e_val e) ∧
  without (e_key e) (e_kv <$> es1 ++ e :: es2) = e_kv <$> es1 ++ es2.
Proof.
  intros Hn. split.
  - apply elem_of_list_to_map_1; [by rewrite kv_keys|].
    apply (list_elem_of_fmap_2 e_kv _ e). apply elem_of_app. right. constructor.
  - rewrite fmap_app in Hn. apply NoDup_app in Hn as (_ & Hn1 & [Hn2 _]%NoDup_cons).
    unfold without. rewrite !fmap_app, fmap_cons, filter_app, filter_cons_False by (simpl; tauto).
    f_equal; apply without_id; rewrite kv_keys; [|done]. intros Hin. apply (Hn1 _ Hin). constructor.
Qed.

Lemma run_om_op_spec op s l :
  om_abs s l → wp (run_om_op op) (λ r s', r = (om_spec op l).1 ∧ om_abs s' (om_spec op l).2) s.
Proof.
  intros (es & Hr & ->). pose proof (om_keys _ _ _ (om_all _ _ Hr)) as Hk.
  assert (∀ k, k ∈ e_key <$> es → ∃ es1 e es2, es = es1 ++ e :: es2 ∧ k = e_key e) as Hsplit.
  { intros k (e & -> & (es1 & es2 & ->)%list_elem_of_split)%list_elem_of_fmap. by exists es1, e, es2. }
  destruct op as [k v|k v|k| | |k|k| |]; simpl; wp_step.
  - eapply wp_add_tail; [exact Hr|..].
    + intros (es1 & e & es2 & -> & ->)%Hsplit. wp_step. destruct (assoc_found _ _ _ Hk) as [-> _].
      split; [done|]. by eexists.
    + intros s' e Hni He Hr'. wp_step. rewrite assoc_none by done. split; [done|]. eexists. split; [done|].
      simpl. by rewrite fmap_app, <- He.
  - eapply wp_add_head; [exact Hr|..].
    + intros (es1 & e & es2 & -> & ->)%Hsplit. wp_step. destruct (assoc_found _ _ _ Hk) as [-> _].
      split; [done|]. by eexists.
    + intros s' e Hni He Hr'. wp_step. rewrite assoc_none by done. split; [done|]. eexists. split; [done|].
      simpl. by rewrite <- He.
  - eapply wp_om_remove_item; [exact Hr|..].
    + intros Hni. wp_step. rewrite assoc_none, without_id by (done || by rewrite kv_keys).
      split; [done|]. by eexists.
    + intros s' es1 e es2 -> <- Hr'. wp_step. destruct (assoc_found _ _ _ Hk) as [-> ->].
      split; [done|]. by eexists.
  - eapply wp_om_remove_head; [exact Hr|..].
    + intros ->. wp_step. split; [done|]. by exists [].
    + intros s' e es' -> Hr'. wp_step. split; [done|]. by eexists.
  - eapply wp_om_remove_tail; [exact Hr|..].
    + intros ->. wp_step. split; [done|]. by exists [].
    + intros s' e es' -> Hr'. wp_step. rewrite fmap_app. simpl. rewrite last_snoc, length_app. simpl.
      split; [done|]. eexists. split; [done|]. rewrite Nat.add_sub. by rewrite take_app_length.
  - eapply wp_om_lookup; [exact Hr|..].
    + intros Hni. wp_step. rewrite assoc_none by done. split; [done|]. by eexists.
    + intros es1 e es2 -> <-. wp_step. destruct (assoc_found _ _ _ Hk) as [-> _]. split; [done|]. by eexists.
  - eapply wp_om_make_head; [exact Hr|..].
    + intros Hni. wp_step. rewrite assoc_none by done. split; [done|]. by eexists.
    + intros s' es1 e es2 -> <- Hr'. wp_step. destruct (assoc_found _ _ _ Hk) as [-> ->].
      split; [done|]. by eexists.
  - unfold ordered_map_size. wp_steps. rewrite (om_rep_count _ _ Hr), length_fmap. split; [done|]. by eexists.
  - do 2 wp_step. apply (wp_iterate_all s [] es); [done| |wp_step; split; [done|by eexists]].
    rewrite (om_heap _ _ _ (om_all _ _ Hr)). pose proof (om_addrs _ _ _ (om_all _ _ Hr)) as Ha.
    rewrite <- item_keys in Ha.
    rewrite <- (size_dom (D := gset positive)), dom_list_to_map_L, size_list_to_set by done.
    rewrite !length_fmap. lia.
Qed.

Fixpoint run_om_ops (ops : list om_op) : M (ordered_map T K V) (list om_result) :=
  match ops with
  | [] => ret []
  | op :: ops => let! r := run_om_op op in let! rs := run_om_ops ops in ret (r :: rs)
  end.
Fixpoint om_specs (ops : list om_op) l : list om_result * list (K * V) :=
  match ops with
  | [] => ([], l)
  | op :: ops => let (r, l1) := om_spec op l in let (rs, l2) := om_specs ops l1 in (r :: rs, l2)
  end.

Lemma ordered_map_new_abs : om_abs ordered_map_new [].
Proof.
  exists []. split; [|done]. split; [apply linked_list_new_rep|].
  split; simpl; try done; try constructor. apply kv_new_law.
Qed.

Lemma run_om_ops_spec ops s l :
  om_abs s l → wp (run_om_ops ops) (λ rs s', rs = (om_specs ops l).1 ∧ om_abs s' (om_specs ops l).2) s.
Proof.
  revert s l. induction ops as [|op ops IH]; intros s l Hl; simpl; wp_steps; [done|].
  eapply wp_mono; [by apply run_om_op_spec|]. intros r s1 [-> Hl1]. wp_step.
  eapply wp_mono; [by apply IH|]. intros rs s2 [-> Hl2]. wp_step.
  destruct (om_spec op l) as [r l1]. simpl in *. by destruct (om_specs ops l1).
Qed.

(** C30: The ordered map behaves as a list of (key, value) pairs with distinct
    keys: whatever the sequence of calls on a new map, over any tree that
    implements a finite map, the calls run without undefined behaviour and
    without a failed [assert], return what the list returns (-1 for an
    existing key to add or an absent key to move, NULL for an absent key),
    iteration visits the pairs in order, and [ordered_map_free] releases every
    item, list item and tree node. *)
Theorem ordered_map_refines_list (ops : list om_op) :
  ∃ s s', run_om_ops ops ordered_map_new = Some ((om_specs ops []).1, s) ∧
    om_abs s (om_specs ops []).2 ∧
    ordered_map_free s = Some ((), s') ∧ om_freed s'.
Proof.
  destruct (run_om_ops_spec ops _ _ ordered_map_new_abs) as (rs & s & Hrun & -> & (es & Hr & E)).
  destruct (wp_om_free s es (λ _ s', om_freed s') Hr) as ([] & s' & ? & ?); [done|].
  exists s, s'. split; [done|]. split; [by exists es|done].
Qed.
End ordered_map.

(** ** Witness: the map over the AVL tree *)

Definition om_example : list (om_op (K := Z) (V := Z)) :=
  [OmAddTail 5 50; OmAddTail 7 70; OmMakeHead 7; OmAddTail 5 51; OmIterate]%Z.

Lemma ordered_map_refines_list_witness :
  let _ := avl_kvmap (W := positive) int_cmp in
  ∃ s s' : ordered_map (avltree Z positive) Z Z,
    run_om_ops om_example ordered_map_new =
      Some ([OmInt 0; OmInt 0; OmInt 0; OmInt (-1); OmItems [(7, 70); (5, 50)]], s)%Z ∧
    om_abs s [(7, 70); (5, 50)]%Z ∧
    ordered_map_free s = Some ((), s') ∧ om_freed s'.
Proof.
  pose proof (avl_kvmap_laws (W := positive) int_cmp) as Hlaws.
  exact (ordered_map_refines_list (KVMapLaws0 := Hlaws) om_example).
Defined.
