(* ===== verification/Stream.v ===== *)
(** * The data stream between the library and a reader process

    The ring of buffers in shared memory (src/src/lib/shared_data.h.in), the
    chunk buffer through which the reader process writes it
    (src/src/hdf5/msgpack_chunkbuffer.c) and the functions with which the
    library reads it (hdfstream_read_chunk and hdfstream_close_stream of
    src/src/lib/hdfstream.c, worker_process_wait_for_semaphore of
    src/src/util/worker_process.c).

    The two sides are programs over operations on the shared memory; the
    processes run interleaved, one operation at a time. *)
From stdpp Require Import base tactics numbers list relations.
From S2P Require Import Prelude.

(** ** Shared memory *)

Definition BUFFER_STATUS_OK : Z := 0.
Definition BUFFER_STATUS_END : Z := 1.
Definition BUFFER_STATUS_ERROR : Z := 2.
Definition BUFFER_STATUS_CANCEL : Z := 3.

Section stream.
(** Bytes are any type: the stream does not look at them. *)
Context {byte : Type}.

(** [struct buffer_data] and the data area it points to. *)
Record buffer := Buffer {
  b_used : Z;
  b_write : Z; (* ready_for_write *)
  b_read : Z;  (* ready_for_read *)
  b_status : Z;
  b_data : list byte;
}.

(** [struct shared_reader_data]; the data areas have [buffer_size] bytes. *)
Record shared := Shared {
  sh_status : Z;
  sh_buffer : list buffer;
}.

(** ** Programs *)

Inductive op :=
  | GetStreamStatus                        (* srd->status *)
  | SetStreamStatus (v : Z)
  | GetUsed (i : Z)                        (* buffer[i].used *)
  | SetUsed (i v : Z)
  | GetStatus (i : Z)                      (* buffer[i].status *)
  | SetStatus (i v : Z)
  | CopyIn (i off : Z) (bs : list byte)    (* memcpy to the data area *)
  | CopyOut (i n : Z)                      (* memcpy from the data area *)
  | PostRead (i : Z)                       (* sem_post(&buffer[i].ready_for_read) *)
  | PostWrite (i : Z)
  | WaitWrite (i : Z)                      (* semaphore_wait(&buffer[i].ready_for_write) *)
  | WaitRead (i : Z).                      (* worker_process_wait_for_semaphore *)

Inductive value :=
  | VUnit
  | VInt (z : Z)
  | VBytes (bs : list byte)
  | VDead.

(** [Crash]: a failed [assert], or a loop that ran out of fuel. *)
Inductive prog (A : Type) :=
  | Ret (a : A)
  | Crash
  | Do (o : op) (k : value → prog A).
Arguments Ret {A} _.
Arguments Crash {A}.
Arguments Do {A} _ _.

Fixpoint pbind {A B} (p : prog A) (f : A → prog B) : prog B :=
  match p with
  | Ret a => f a
  | Crash => Crash
  | Do o k => Do o (λ v, pbind (k v) f)
  end.

Definition act (o : op) : prog () := Do o (λ v, match v with VUnit => Ret () | _ => Crash end).
Definition get (o : op) : prog Z := Do o (λ v, match v with VInt z => Ret z | _ => Crash end).
Definition copy_out (i n : Z) : prog (list byte) :=
  Do (CopyOut i n) (λ v, match v with VBytes bs => Ret bs | _ => Crash end).
(** 0 when the semaphore was taken, -1 when the process is dead. *)
Definition wait_read (i : Z) : prog Z :=
  Do (WaitRead i) (λ v, match v with VUnit => Ret 0%Z | VDead => Ret (-1)%Z | _ => Crash end).

(** What one operation does: it may have to wait, or be undefined (an index or
    a copy out of range). *)
Inductive outcome :=
  | Blocked
  | Fault
  | Done (v : value) (sh : shared).

Definition on_buffer (sh : shared) (i : Z) (f : buffer → outcome) : outcome :=
  match arr_get (sh_buffer sh) i with Some b => f b | None => Fault end.
Definition put_buffer (sh : shared) (i : Z) (b : buffer) : shared :=
  Shared (sh_status sh) (<[Z.to_nat i := b]> (sh_buffer sh)).

Definition exec (o : op) (sh : shared) : outcome :=
  match o with
  | GetStreamStatus => Done (VInt (sh_status sh)) sh
  | SetStreamStatus v => Done VUnit (Shared v (sh_buffer sh))
  | GetUsed i => on_buffer sh i (λ b, Done (VInt (b_used b)) sh)
  | SetUsed i v => on_buffer sh i (λ b,
      Done VUnit (put_buffer sh i (Buffer v (b_write b) (b_read b) (b_status b) (b_data b))))
  | GetStatus i => on_buffer sh i (λ b, Done (VInt (b_status b)) sh)
  | SetStatus i v => on_buffer sh i (λ b,
      Done VUnit (put_buffer sh i (Buffer (b_used b) (b_write b) (b_read b) v (b_data b))))
  | CopyIn i off bs => on_buffer sh i (λ b,
      if decide (0 ≤ off ∧ off + Z.of_nat (length bs) ≤ Z.of_nat (length (b_data b)))%Z then
        Done VUnit (put_buffer sh i (Buffer (b_used b) (b_write b) (b_read b) (b_status b)
          (take (Z.to_nat off) (b_data b) ++ bs ++ drop (Z.to_nat off + length bs) (b_data b))))
      else Fault)
  | CopyOut i n => on_buffer sh i (λ b,
      if decide (0 ≤ n ≤ Z.of_nat (length (b_data b)))%Z then
        Done (VBytes (take (Z.to_nat n) (b_data b))) sh
      else Fault)
  | PostRead i => on_buffer sh i (λ b,
      Done VUnit (put_buffer sh i (Buffer (b_used b) (b_write b) (b_read b + 1) (b_status b) (b_data b))))
  | PostWrite i => on_buffer sh i (λ b,
      Done VUnit (put_buffer sh i (Buffer (b_used b) (b_write b + 1) (b_read b) (b_status b) (b_data b))))
  | WaitWrite i => on_buffer sh i (λ b,
      if (0 <? b_write b)%Z then
        Done VUnit (put_buffer sh i (Buffer (b_used b) (b_write b - 1) (b_read b) (b_status b) (b_data b)))
      else Blocked)
  | WaitRead i => on_buffer sh i (λ b,
      if (0 <? b_read b)%Z then
        Done VUnit (put_buffer sh i (Buffer (b_used b) (b_write b) (b_read b - 1) (b_status b) (b_data b)))
      else Blocked)
  end.

(** ** The writer: msgpack_chunkbuffer.c *)

Context (NR_BUFFERS : Z).

(** [struct msgpack_chunkbuffer]: [buffer_nr] and [buffer_size]. *)
Record chunkbuffer := CB {
  cb_nr : Z;
  cb_size : Z;
}.

Definition msgpack_chunkbuffer_init (buffer_size srd_buffer_size : Z) : prog chunkbuffer :=
  if ((0 <? buffer_size) && (buffer_size <=? srd_buffer_size))%Z
  then Ret (CB (-1) buffer_size) else Crash.

Definition msgpack_chunkbuffer_flush (cb : chunkbuffer) : prog (chunkbuffer * Z) :=
  pbind (get GetStreamStatus) (λ status,
  if negb (status =? BUFFER_STATUS_OK)%Z then Ret (cb, -1)%Z else
  if (cb_nr cb <? 0)%Z then Ret (cb, 0%Z) else
  pbind (get (GetUsed (cb_nr cb))) (λ used,
  if (used =? 0)%Z then Ret (cb, 0%Z) else
  pbind (act (PostRead (cb_nr cb))) (λ _,
  let nr := ((cb_nr cb + 1) `mod` NR_BUFFERS)%Z in
  pbind (act (WaitWrite nr)) (λ _,
  Ret (CB nr (cb_size cb), 0%Z))))).

(** The first buffer is claimed when it is needed. *)
Definition claim (cb : chunkbuffer) : prog chunkbuffer :=
  if (cb_nr cb <? 0)%Z then
    pbind (act (WaitWrite 0)) (λ _,
    pbind (act (SetUsed 0 0)) (λ _, Ret (CB 0 (cb_size cb))))
  else Ret cb.

Definition msgpack_chunkbuffer_destroy (cb : chunkbuffer) (return_code : Z) : prog () :=
  pbind (msgpack_chunkbuffer_flush cb) (λ r,
  pbind (claim r.1) (λ cb,
  pbind (act (SetUsed (cb_nr cb) 0)) (λ _,
  pbind (act (SetStatus (cb_nr cb) return_code)) (λ _,
  act (PostRead (cb_nr cb)))))).

(** The loop of [msgpack_chunkbuffer_write]; [ptr] is what is left to write. *)
Fixpoint write_loop (fuel : nat) (cb : chunkbuffer) (ptr : list byte) : prog (chunkbuffer * Z) :=
  if (Z.of_nat (length ptr) =? 0)%Z then Ret (cb, 0%Z) else
  match fuel with
  | 0 => Crash
  | S fuel =>
      pbind (get (GetUsed (cb_nr cb))) (λ used,
      let bytes_free := u64 (cb_size cb - used) in
      let left_to_write := Z.of_nat (length ptr) in
      let nr_to_copy := if (left_to_write >? bytes_free)%Z then bytes_free else left_to_write in
      pbind (act (CopyIn (cb_nr cb) used (take (Z.to_nat nr_to_copy) ptr))) (λ _,
      let used := u64 (used + nr_to_copy) in
      pbind (act (SetUsed (cb_nr cb) used)) (λ _,
      let ptr := drop (Z.to_nat nr_to_copy) ptr in
      if (used >=? cb_size cb `div` 2)%Z then
        pbind (msgpack_chunkbuffer_flush cb) (λ r,
        if (r.2 <? 0)%Z then Ret (r.1, -1)%Z else write_loop fuel r.1 ptr)
      else write_loop fuel cb ptr)))
  end.

Definition msgpack_chunkbuffer_write (cb : chunkbuffer) (buf : list byte) : prog (chunkbuffer * Z) :=
  pbind (claim cb) (λ cb, write_loop (length buf) cb buf).

(** What packs the data: it writes some bytes, looks at the return code, and
    so on; it ends with the return code of the request. *)
Inductive packer :=
  | PackDone (result : Z)
  | PackWrite (bs : list byte) (k : Z → packer).

Fixpoint run_packer (cb : chunkbuffer) (p : packer) : prog (chunkbuffer * Z) :=
  match p with
  | PackDone result => Ret (cb, result)
  | PackWrite bs k => pbind (msgpack_chunkbuffer_write cb bs) (λ r, run_packer r.1 (k r.2))
  end.

(** The part of [do_read_dataset] and [do_read_object] that streams. *)
Definition write_stream (buffer_size srd_buffer_size : Z) (p : packer) : prog () :=
  pbind (msgpack_chunkbuffer_init buffer_size srd_buffer_size) (λ cb,
  pbind (run_packer cb p) (λ r, msgpack_chunkbuffer_destroy r.1 r.2)).

(** ** The reader: hdfstream.c *)

(** The fields of [struct data_stream] that change. *)
Record data_stream := DS {
  ds_ended : bool;
  ds_next_buffer : Z;
}.

(** The result of [hdfstream_read_chunk]: the length returned, the bytes copied
    to the output buffer and the status, if [*status] was set. *)
Record chunk_result := Chunk {
  r_len : Z;
  r_bytes : list byte;
  r_status : option Z;
}.

(** [buffer]: whether the output buffer is not NULL. *)
Definition hdfstream_read_chunk (stream : data_stream) (buffer : bool)
    : prog (data_stream * chunk_result) :=
  if ds_ended stream then Ret (stream, Chunk 0 [] None) else
  let i := ds_next_buffer stream in
  pbind (wait_read i) (λ r,
  if (r <? 0)%Z then Ret (DS true i, Chunk 0 [] (Some BUFFER_STATUS_ERROR)) else
  pbind (get (GetUsed i)) (λ block_len,
  if (block_len =? 0)%Z then
    pbind (get (GetStatus i)) (λ status, Ret (DS true i, Chunk 0 [] (Some status)))
  else
    pbind (if buffer then copy_out i block_len else Ret []) (λ bytes,
    pbind (act (SetUsed i 0)) (λ _,
    pbind (act (PostWrite i)) (λ _,
    Ret (DS false ((i + 1) `mod` NR_BUFFERS)%Z, Chunk block_len bytes (Some 0%Z))))))).

(** [while(hdfstream_read_chunk(stream, NULL, &status) > 0) {};] *)
Fixpoint drain (fuel : nat) (stream : data_stream) : prog data_stream :=
  match fuel with
  | 0 => Crash
  | S fuel =>
      pbind (hdfstream_read_chunk stream false) (λ r,
      if (r_len r.2 >? 0)%Z then drain fuel r.1 else Ret r.1)
  end.

(** What [hdfstream_close_stream] does with the ring; it then releases the
    worker (ProcessPool.v) and frees the stream. *)
Definition close_ring (fuel : nat) (stream : data_stream) : prog () :=
  if negb (ds_ended stream) then
    pbind (act (SetStreamStatus BUFFER_STATUS_CANCEL)) (λ _,
    pbind (drain fuel stream) (λ _, Ret ()))
  else Ret ().

(** A client of the stream: it reads chunks, decides with each whether to go
    on, and closes the stream. *)
Inductive client :=
  | Close
  | Read (k : chunk_result → client).

Fixpoint run_client (fuel : nat) (stream : data_stream) (c : client) : prog (list chunk_result) :=
  match c with
  | Close => pbind (close_ring fuel stream) (λ _, Ret [])
  | Read k => pbind (hdfstream_read_chunk stream true) (λ r,
      pbind (run_client fuel r.1 (k r.2)) (λ rest, Ret (r.2 :: rest)))
  end.

Definition read_stream (fuel : nat) (c : client) : prog (list chunk_result) :=
  run_client fuel (DS false 0) c.

(** ** Two processes *)

Record config := Config {
  c_shared : shared;
  c_writer : prog ();
  c_reader : prog (list chunk_result);
  c_dead : bool; (* the reader process has died *)
}.

(** One operation of one side.  With [signals], a wait of the writer may be
    interrupted by a signal: [sem_wait] then returns -1, which
    [while(err == EINTR)] does not recognise.  The worker may die at any time;
    the wait of the library then fails when its timeout finds out. *)
Inductive step (signals : bool) : config → config → Prop :=
  | step_writer sh sh' o k v r :
      exec o sh = Done v sh' →
      step signals (Config sh (Do o k) r false) (Config sh' (k v) r false)
  | step_signal sh i k r :
      signals = true →
      step signals (Config sh (Do (WaitWrite i) k) r false) (Config sh (k VUnit) r false)
  | step_reader sh sh' w o k v d :
      exec o sh = Done v sh' →
      step signals (Config sh w (Do o k) d) (Config sh' w (k v) d)
  | step_reader_dead sh w i k :
      step signals (Config sh w (Do (WaitRead i) k) true) (Config sh w (k VDead) true)
  | step_die sh w r :
      step signals (Config sh w r false) (Config sh w r true).

(** The same without deaths. *)
Inductive live_step (signals : bool) : config → config → Prop :=
  | Live c c' : step signals c c' → c_dead c' = false → live_step signals c c'.
End stream.
Arguments Ret {byte A} _.
Arguments Crash {byte A}.
Arguments Do {byte A} _ _.
