(* ===== verification/SharedData.v ===== *)
(** * The shared memory of a reader process

    src/src/lib/shared_data.c: the layout of the region, its initialisation,
    and the reset of the ring of buffers before each request.  The ring itself
    is the type [shared] of Stream.v. *)
From stdpp Require Import base tactics numbers list.
From S2P Require Import Prelude Stream.

Definition ALIGNMENT : Z := 1024.

Section shared_data.
Context {byte : Type}.
(** [sizeof(struct shared_reader_data)] depends on the platform; the number of
    buffers is set when the library is built. *)
Context (struct_size : Z) (NR_BUFFERS : nat).

(** ** Layout *)

Definition header_size : Z :=
  let size := struct_size in
  if negb (size `mod` ALIGNMENT =? 0)%Z then u64 (u64 (size - size `mod` ALIGNMENT) + ALIGNMENT) else size.

Definition shared_data_size (buffer_size : Z) : Z :=
  let shared_size := header_size in
  u64 (shared_size + u64 (Z.of_nat NR_BUFFERS * buffer_size)).

(** The fields of [struct shared_reader_data] that describe the region, with
    the [offset] of each buffer, and the ring. *)
Record region := Region {
  rg_total_size : Z;
  rg_buffer_size : Z;
  rg_nr_file_cache_hits : Z;
  rg_nr_file_cache_misses : Z;
  rg_offset : list Z;
  rg_ring : shared (byte := byte);
}.

Definition set_ring (r : region) (f : shared → option shared) : option region :=
  s ← f (rg_ring r);
  Some (Region (rg_total_size r) (rg_buffer_size r) (rg_nr_file_cache_hits r)
    (rg_nr_file_cache_misses r) (rg_offset r) s).
Definition set_offset (r : region) (j v : Z) : option region :=
  o ← arr_set (rg_offset r) j v;
  Some (Region (rg_total_size r) (rg_buffer_size r) (rg_nr_file_cache_hits r)
    (rg_nr_file_cache_misses r) o (rg_ring r)).
Definition set_buffer (i : Z) (f : buffer → buffer) (s : shared (byte := byte)) : option shared :=
  b ← arr_get (sh_buffer s) i; l ← arr_set (sh_buffer s) i (f b); Some (Shared (sh_status s) l).

Definition shared_data_populate (srd : region) (buffer_size : Z) : option region :=
  let buffer_offset := header_size in
  let total_size := shared_data_size buffer_size in
  let srd := Region total_size buffer_size 0 0 (rg_offset srd) (rg_ring srd) in
  for_range NR_BUFFERS 0 (λ j srd,
    srd ← set_offset srd j (u64 (buffer_offset + u64 (j * buffer_size)));
    set_ring srd (set_buffer j (λ b, Buffer 0 0 0 0 (b_data b)))) srd.

(** ** The reset before a request *)

(** [sem_getvalue(s, &value); while(value > 0) { sem_wait(s); ... }], with the
    value of the semaphore as the state; nobody else uses it at this time. *)
Definition drain_sem (value : Z) : option Z :=
  while (S (Z.to_nat value)) (λ value, 0 <? value)%Z (λ value, Some (value - 1)%Z) value.
Definition fill_sem (value : Z) : option Z :=
  while (S (Z.to_nat (1 - value))) (λ value, value <? 1)%Z (λ value, Some (value + 1)%Z) value.

Definition shared_data_init_semaphores (srd : shared (byte := byte)) : option shared :=
  srd ← for_range NR_BUFFERS 0 (λ i srd,
    b ← arr_get (sh_buffer srd) i;
    v ← drain_sem (b_read b);
    set_buffer i (λ b, Buffer (b_used b) (b_write b) v (b_status b) (b_data b)) srd) srd;
  srd ← for_range NR_BUFFERS 0 (λ i srd,
    b ← arr_get (sh_buffer srd) i;
    v ← fill_sem (b_write b);
    set_buffer i (λ b, Buffer (b_used b) v (b_read b) (b_status b) (b_data b)) srd) srd;
  for_range NR_BUFFERS 0 (λ i srd,
    set_buffer i (λ b, Buffer 0 (b_write b) (b_read b) (b_status b) (b_data b)) srd) srd.

(** Destroying a semaphore that is not initialized is undefined; -1 is the value
    of one that has been destroyed. *)
Definition sem_destroy (value : Z) : option Z := guard (0 ≤ value)%Z;; Some (-1)%Z.
Definition shared_data_free (srd : shared (byte := byte)) : option shared :=
  for_range NR_BUFFERS 0 (λ j srd,
    b ← arr_get (sh_buffer srd) j;
    ready_for_write ← sem_destroy (b_write b);
    ready_for_read ← sem_destroy (b_read b);
    set_buffer j (λ b, Buffer (b_used b) ready_for_write ready_for_read (b_status b) (b_data b)) srd) srd.

(** What [hdfstream_dataset_multi_slice_open] and [hdfstream_object_open] do
    to the shared memory before they send the request. *)
Definition open_ring (srd : shared (byte := byte)) : option shared :=
  shared_data_init_semaphores (Shared 0 (sh_buffer srd)).

(** ** Properties *)

(** The ring at the start of a request. *)
Definition fresh_buffer (cap : Z) (b : buffer (byte := byte)) : Prop :=
  b_used b = 0%Z ∧ b_write b = 1%Z ∧ b_read b = 0%Z ∧ length (b_data b) = Z.to_nat cap.
Definition fresh_ring (cap : Z) (srd : shared (byte := byte)) : Prop :=
  sh_status srd = 0%Z ∧ length (sh_buffer srd) = NR_BUFFERS ∧ Forall (fresh_buffer cap) (sh_buffer srd).

(** A loop that changes each buffer of the ring once maps the ring. *)
Lemma for_buffers (f : buffer → buffer) (g : Z → shared → option shared) (srd : shared (byte := byte)) :
  length (sh_buffer srd) = NR_BUFFERS →
  (∀ i s b, arr_get (sh_buffer s) i = Some b → b ∈ sh_buffer srd →
     g i s = set_buffer i f s) →
  for_range NR_BUFFERS 0 g srd = Some (Shared (sh_status srd) (f <$> sh_buffer srd)).
Proof.
  intros Hlen Hg.
  destruct (for_range_inv (λ i s, s = Shared (sh_status srd)
    ((f <$> take (Z.to_nat i) (sh_buffer srd)) ++ drop (Z.to_nat i) (sh_buffer srd))) g NR_BUFFERS 0 srd)
    as (s & -> & ->).
  - by destruct srd.
  - intros i s Hi ->.
    destruct (lookup_lt_is_Some_2 (sh_buffer srd) (Z.to_nat i)) as [b Hb]; [lia|].
    set (l := (f <$> take (Z.to_nat i) (sh_buffer srd)) ++ drop (Z.to_nat i) (sh_buffer srd)).
    assert (length (f <$> take (Z.to_nat i) (sh_buffer srd)) = Z.to_nat i) as Hlf.
    { rewrite length_fmap, length_take. lia. }
    assert (drop (Z.to_nat i) (sh_buffer srd) = b :: drop (S (Z.to_nat i)) (sh_buffer srd)) as Hd
      by (by apply drop_S).
    assert (length l = NR_BUFFERS) as Hll.
    { unfold l. rewrite length_app, Hlf, length_drop. lia. }
    assert (arr_get l i = Some b) as Hget.
    { rewrite arr_get_nth by lia. unfold l. rewrite lookup_app_r by lia. by rewrite Hlf, Nat.sub_diag, Hd. }
    rewrite (Hg i _ b); [|done|by eapply list_elem_of_lookup_2].
    unfold set_buffer. simpl. fold l. rewrite Hget. simpl. rewrite arr_set_total by lia. simpl.
    eexists. split; [done|]. f_equal. unfold l. rewrite Hd.
    rewrite insert_app_r_alt, Hlf, Nat.sub_diag by lia. simpl.
    replace (Z.to_nat (i + 1)) with (S (Z.to_nat i)) by lia.
    rewrite (take_S_r _ _ _ Hb), fmap_app, <- app_assoc. done.
  - rewrite Z.add_0_l, Nat2Z.id, take_ge, drop_ge, app_nil_r by lia. done.
Qed.

Lemma drain_sem_zero v : (0 ≤ v)%Z → drain_sem v = Some 0%Z.
Proof.
  intros Hv. unfold drain_sem.
  destruct (while_inv (λ v, 0 ≤ v)%Z Z.to_nat (λ value, 0 <? value)%Z (λ value, Some (value - 1)%Z)
    (S (Z.to_nat v)) v) as (v' & -> & ? & Hv'); [|done|lia|].
  - intros a Ha Hc%Z.ltb_lt. eexists. split; [done|]. lia.
  - apply Z.ltb_ge in Hv'. f_equal. lia.
Qed.

Lemma fill_sem_one v : (v ≤ 1)%Z → fill_sem v = Some 1%Z.
Proof.
  intros Hv. unfold fill_sem.
  destruct (while_inv (λ v, v ≤ 1)%Z (λ v, Z.to_nat (1 - v)) (λ value, value <? 1)%Z (λ value, Some (value + 1)%Z)
    (S (Z.to_nat (1 - v))) v) as (v' & -> & ? & Hv'); [|done|lia|].
  - intros a Ha Hc%Z.ltb_lt. eexists. split; [done|]. lia.
  - apply Z.ltb_ge in Hv'. f_equal. lia.
Qed.

(** A ring on which no semaphore for writing is above one. *)
Definition usable_buffer (cap : Z) (b : buffer (byte := byte)) : Prop :=
  (b_write b ≤ 1)%Z ∧ (0 ≤ b_read b)%Z ∧ length (b_data b) = Z.to_nat cap.

Lemma open_ring_fresh cap srd :
  length (sh_buffer srd) = NR_BUFFERS → Forall (usable_buffer cap) (sh_buffer srd) →
  ∃ srd', open_ring srd = Some srd' ∧ fresh_ring cap srd'.
Proof.
  intros Hlen Hus. unfold open_ring, shared_data_init_semaphores. rewrite Forall_forall in Hus.
  rewrite (for_buffers (λ b, Buffer (b_used b) (b_write b) 0 (b_status b) (b_data b))); [|done|]; simpl.
  2: { intros i s b Hb Hin. rewrite Hb. simpl. rewrite drain_sem_zero; [done|]. by apply Hus. }
  rewrite (for_buffers (λ b, Buffer (b_used b) 1 (b_read b) (b_status b) (b_data b))); simpl.
  2: { by rewrite length_fmap. }
  2: { intros i s b Hb (b0 & -> & Hin)%list_elem_of_fmap. rewrite Hb. simpl.
       rewrite fill_sem_one; [done|]. by apply Hus. }
  rewrite (for_buffers (λ b, Buffer 0 (b_write b) (b_read b) (b_status b) (b_data b))); simpl.
  2: { by rewrite !length_fmap. }
  2: { done. }
  eexists. split; [done|]. split_and!; simpl; [done|by rewrite !length_fmap|].
  apply Forall_forall. intros b Hb. repeat (apply list_elem_of_fmap in Hb as (? & -> & Hb)).
  split_and!; simpl; try done. by apply Hus.
Qed.

(** A ring whose semaphores exist can be freed; it has none then. *)
Definition live_ring (srd : shared (byte := byte)) : Prop :=
  length (sh_buffer srd) = NR_BUFFERS ∧ Forall (λ b, 0 ≤ b_write b ∧ 0 ≤ b_read b)%Z (sh_buffer srd).

Lemma free_live srd : live_ring srd → ∃ srd', shared_data_free srd = Some srd' ∧
  Forall (λ b, b_write b = -1 ∧ b_read b = -1)%Z (sh_buffer srd').
Proof.
  intros [Hlen Hl]. rewrite Forall_forall in Hl. unfold shared_data_free.
  rewrite (for_buffers (λ b, Buffer (b_used b) (-1) (-1) (b_status b) (b_data b))); [|done|].
  - eexists. split; [done|]. apply Forall_fmap, Forall_true. by intros [].
  - intros i s b Hb Hin. rewrite Hb. simpl. destruct (Hl b Hin).
    unfold sem_destroy. by rewrite !option_guard_True by done.
Qed.

(** ** The layout *)

Lemma header_size_spec :
  (0 ≤ struct_size)%Z → (struct_size + ALIGNMENT < 2 ^ 64)%Z →
  (struct_size ≤ header_size < struct_size + ALIGNMENT)%Z ∧ (header_size `mod` ALIGNMENT = 0)%Z.
Proof.
  intros H0 H1. unfold header_size. unfold ALIGNMENT in *.
  destruct (Z.eqb_spec (struct_size `mod` 1024) 0) as [E|E]; simpl; [lia|].
  pose proof (Z.mod_pos_bound struct_size 1024). pose proof (Z.div_mod struct_size 1024).
  rewrite (u64_small (struct_size - _)) by (unfold is_u64; lia).
  rewrite u64_small by (unfold is_u64; lia). split; [lia|].
  apply Z.mod_divide; [lia|]. exists (struct_size `div` 1024 + 1)%Z. lia.
Qed.

Definition set_region (buffer_size : Z) (o : list Z) (l : list buffer) (st : Z) : region :=
  Region (shared_data_size buffer_size) buffer_size 0 0 o (Shared st l).

(** The state of the loop that populates the region, at buffer [j]. *)
Lemma populate_step bs j o l st b :
  (0 ≤ j < Z.of_nat NR_BUFFERS)%Z → length o = NR_BUFFERS → length l = NR_BUFFERS → l !! Z.to_nat j = Some b →
  (srd ← set_offset (set_region bs o l st) j (u64 (header_size + u64 (j * bs)));
   set_ring srd (set_buffer j (λ b, Buffer 0 0 0 0 (b_data b)))) =
  Some (set_region bs (<[Z.to_nat j := u64 (header_size + u64 (j * bs))]> o)
    (<[Z.to_nat j := Buffer 0 0 0 0 (b_data b)]> l) st).
Proof.
  intros Hj Ho Hl Hb. unfold set_offset, set_ring, set_buffer. simpl.
  rewrite arr_set_total by lia. simpl. rewrite arr_get_nth by lia. rewrite Hb. simpl.
  by rewrite arr_set_total by lia.
Qed.

Definition blank_buffer (cap : Z) (b : buffer (byte := byte)) : Prop :=
  b_used b = 0%Z ∧ b_write b = 0%Z ∧ b_read b = 0%Z ∧ length (b_data b) = Z.to_nat cap.

Lemma populate_spec bs r :
  length (rg_offset r) = NR_BUFFERS → length (sh_buffer (rg_ring r)) = NR_BUFFERS →
  Forall (λ b, length (b_data b) = Z.to_nat bs) (sh_buffer (rg_ring r)) →
  ∃ o l, shared_data_populate r bs = Some (set_region bs o l (sh_status (rg_ring r))) ∧
    length o = NR_BUFFERS ∧ length l = NR_BUFFERS ∧
    (∀ j, j < NR_BUFFERS → o !! j = Some (u64 (header_size + u64 (Z.of_nat j * bs)))) ∧
    Forall (blank_buffer bs) l.
Proof.
  intros Ho Hl Hd. unfold shared_data_populate.
  edestruct (for_range_inv (λ i r', ∃ o l, r' = set_region bs o l (sh_status (rg_ring r)) ∧
      length o = NR_BUFFERS ∧ length l = NR_BUFFERS ∧
      (∀ j, j < NR_BUFFERS → (Z.of_nat j < i)%Z → o !! j = Some (u64 (header_size + u64 (Z.of_nat j * bs)))) ∧
      (∀ j b, l !! j = Some b → length (b_data b) = Z.to_nat bs ∧ ((Z.of_nat j < i)%Z → blank_buffer bs b))))
    as (r' & -> & o & l & -> & Ho' & Hl' & Hoff & Hb).
  - exists (rg_offset r), (sh_buffer (rg_ring r)). split.
    { unfold set_region. by destruct (rg_ring r). }
    split_and!; [done|done|lia|]. intros j b Hj. split; [|lia]. rewrite Forall_forall in Hd.
    eapply Hd, list_elem_of_lookup_2, Hj.
  - intros i r' Hi (o & l & -> & Ho' & Hl' & Hoff & Hb).
    destruct (lookup_lt_is_Some_2 l (Z.to_nat i)) as [b Hbi]; [lia|].
    rewrite (populate_step bs i o l (sh_status (rg_ring r)) b) by (assumption || lia).
    eexists. split; [done|]. eexists _, _. split; [done|].
    split_and!; [by rewrite length_insert|by rewrite length_insert| |].
    + intros j Hj Hji. destruct (decide (j = Z.to_nat i)) as [->|].
      * rewrite list_lookup_insert_eq by lia. by rewrite Z2Nat.id by lia.
      * rewrite list_lookup_insert_ne by done. apply Hoff; lia.
    + intros j b' Hj. destruct (decide (j = Z.to_nat i)) as [->|].
      * rewrite list_lookup_insert_eq in Hj by lia. destruct (Hb _ _ Hbi) as [Hlen _]. injection Hj as <-.
        split; [done|]. intros _. by split_and!.
      * rewrite list_lookup_insert_ne in Hj by done. destruct (Hb j b' Hj) as [? Hbl]. split; [done|].
        intros ?. apply Hbl. lia.
  - exists o, l. split; [done|]. split; [done|]. split; [done|]. split.
    + intros j Hj. apply Hoff; lia.
    + apply Forall_lookup. intros j b Hj. apply (Hb j b Hj). apply lookup_lt_Some in Hj. lia.
Qed.
End shared_data.

(** C33: [shared_data_populate] lays the region out: it is as long as
    [shared_data_size] says, each buffer is inside it and after the header, no
    two overlap, and opening a request on the new region gives a fresh ring.
    The first buffer is aligned; the others follow each other without gaps, so
    they are aligned if the size of a buffer is a multiple of the alignment. *)
Theorem shared_data_layout {byte} size NR_BUFFERS bs (r : region (byte := byte)) :
  (0 ≤ size)%Z → (0 ≤ bs)%Z → (size + ALIGNMENT + Z.of_nat NR_BUFFERS * bs < 2 ^ 64)%Z →
  length (rg_offset r) = NR_BUFFERS → length (sh_buffer (rg_ring r)) = NR_BUFFERS →
  Forall (λ b, length (b_data b) = Z.to_nat bs) (sh_buffer (rg_ring r)) →
  ∃ r', shared_data_populate size NR_BUFFERS r bs = Some r' ∧
    rg_total_size r' = shared_data_size size NR_BUFFERS bs ∧ rg_buffer_size r' = bs ∧
    (∀ j o, rg_offset r' !! j = Some o → (size ≤ o ∧ o + bs ≤ rg_total_size r')%Z) ∧
    (∀ j o, rg_offset r' !! j = Some o → j = 0 ∨ (bs `mod` ALIGNMENT = 0)%Z → (o `mod` ALIGNMENT = 0)%Z) ∧
    (∀ i j oi oj, i < j → rg_offset r' !! i = Some oi → rg_offset r' !! j = Some oj → (oi + bs ≤ oj)%Z) ∧
    ∃ s, open_ring NR_BUFFERS (rg_ring r') = Some s ∧ fresh_ring NR_BUFFERS bs s.
Proof.
  intros Hs Hbs Hmax Ho Hl Hd.
  destruct (populate_spec size NR_BUFFERS bs r Ho Hl Hd) as (o & l & -> & Ho' & Hl' & Hoff & Hb).
  destruct (header_size_spec size) as [Hh Ha]; [done|unfold ALIGNMENT in *; nia|].
  assert (∀ j v, o !! j = Some v → j < NR_BUFFERS ∧ v = (header_size size + Z.of_nat j * bs)%Z) as Hv.
  { intros j v Hj. assert (j < NR_BUFFERS) as Hlt by (apply lookup_lt_Some in Hj; lia). split; [done|].
    rewrite (Hoff j Hlt) in Hj. simplify_eq. rewrite !u64_small; [done|..]; unfold is_u64; unfold ALIGNMENT in *;
    rewrite ?u64_small; unfold is_u64; nia. }
  assert (shared_data_size size NR_BUFFERS bs = header_size size + Z.of_nat NR_BUFFERS * bs)%Z as Htot.
  { unfold shared_data_size. rewrite !u64_small; [done|..]; unfold is_u64; unfold ALIGNMENT in *;
    rewrite ?u64_small; unfold is_u64; nia. }
  eexists. split; [done|]. simpl. split_and!; try done.
  - intros j v Hj. apply Hv in Hj as [? ->]. rewrite Htot. nia.
  - intros j v Hj Hal. apply Hv in Hj as [_ ->]. destruct Hal as [->|Hbm]; [by rewrite Z.mul_0_l, Z.add_0_r|].
    apply Z.mod_divide in Hbm as [q ->]; [|done]. by rewrite Z.mul_assoc, Z.mod_add.
  - intros i j oi oj Hij Hi Hj. apply Hv in Hi as [_ ->]. apply Hv in Hj as [_ ->]. nia.
  - apply open_ring_fresh; [done|]. eapply Forall_impl; [exact Hb|]. intros b (? & Hw & Hr & ?).
    unfold usable_buffer. rewrite Hw, Hr. done.
Qed.

Definition blank_region : region (byte := nat) :=
  Region 0 0 0 0 [0%Z; 0%Z] (Shared 0 [Buffer 7 7 7 7 [1; 1; 1; 1]; Buffer 7 7 7 7 [1; 1; 1; 1]]).

Lemma shared_data_layout_witness :
  (0 ≤ 200)%Z ∧ ∃ r', shared_data_populate 200 2 blank_region 4 = Some r' ∧
    rg_total_size r' = shared_data_size 200 2 4.
Proof.
  split; [lia|].
  destruct (shared_data_layout 200 2 4 blank_region) as (r' & ? & ? & _);
    [lia|lia|unfold ALIGNMENT; lia|reflexivity|reflexivity|repeat constructor|].
  by exists r'.
Defined.
