(* ===== verification/StreamProof.v ===== *)
(** * Correctness of the data stream

    Each side of Stream.v is verified alone against what it may assume of the
    ring of buffers ([wsafe], [rsafe]); one invariant of the two processes
    together then gives the theorems: no data race, no overflow, no deadlock,
    and the reader gets exactly the bytes that were packed. *)
From stdpp Require Import base tactics numbers list relations.
From S2P Require Import Prelude Stream SharedData.

Section proof.
Context {byte : Type}.
Implicit Types hist consumed : list (list byte + Z).

(** ** Chunks

    What is posted in a buffer: data, or the end of the stream with its return
    code.  [total] are the bytes that the packer writes when no write fails,
    [rc] the return code it then ends with. *)
Abbreviation chunk := (list byte + Z)%type.
Context (N : nat) (bs cap : Z) (total : list byte) (rc : Z).
Context (HN : 0 < N) (Hbs : (0 < bs ≤ cap)%Z) (Hcap : (cap < 2 ^ 64)%Z).

Definition pos (k : nat) : Z := Z.of_nat (k `mod` N).

Fixpoint bytes_of hist : list byte :=
  match hist with
  | [] => []
  | inl b :: hist => b ++ bytes_of hist
  | inr _ :: hist => bytes_of hist
  end.
Definition ended hist : Prop := ∃ h c, hist = h ++ [inr c].

(** The histories of posted chunks; [seen]: the writer saw the cancellation. *)
Record good (hist : list chunk) (seen : bool) : Prop := {
  good_data b : inl b ∈ hist → b ≠ [] ∧ (Z.of_nat (length b) ≤ bs)%Z;
  good_end h c h' : hist = h ++ inr c :: h' → h' = [];
  good_bytes : bytes_of hist `prefix_of` total;
  good_rc h c : hist = h ++ [inr c] → seen = true ∨ (bytes_of h = total ∧ c = rc);
}.

Lemma bytes_of_app h h' : bytes_of (h ++ h') = bytes_of h ++ bytes_of h'.
Proof. induction h as [|[b|c] h IH]; simpl; [done| |done]. by rewrite IH, app_assoc. Qed.

Lemma good_prefix h h' seen : good (h ++ h') seen → good h seen.
Proof.
  intros [Hd He Hb Hr]. split.
  - intros b Hin. apply Hd, elem_of_app. by left.
  - intros h0 c h1 ->. rewrite <- app_assoc in He. simpl in He.
    pose proof (He h0 c (h1 ++ h') eq_refl) as E. by apply app_eq_nil in E as [? _].
  - etrans; [|exact Hb]. rewrite bytes_of_app. by eexists.
  - intros h0 c ->. rewrite <- app_assoc in He, Hr. simpl in He, Hr.
    pose proof (He h0 c h' eq_refl) as ->. by apply Hr.
Qed.

Lemma good_seen h seen seen' : good h seen → (seen = true → seen' = true) → good h seen'.
Proof. intros [Hd He Hb Hr] Hs. split; [done..|]. intros h0 c E. destruct (Hr h0 c E); auto. Qed.

(** A good history has at most one chunk more than there are bytes. *)
Lemma good_length h seen : good h seen → length h ≤ S (length total).
Proof.
  intros Hg.
  assert (∀ h, (∀ b, inl b ∈ h → b ≠ []) → (∀ c, inr c ∉ h) → length h ≤ length (bytes_of h)) as Hdata.
  { clear. induction h as [|[b|c] h IH]; intros Hb Hc; simpl; [done| |].
    - rewrite length_app. assert (b ≠ []) by (apply Hb; constructor). destruct b; [done|]. simpl.
      assert (length h ≤ length (bytes_of h)); [|lia]. apply IH.
      + intros b' ?. apply Hb. by constructor.
      + intros c Hin. apply (Hc c). by constructor.
    - destruct (Hc c). constructor. }
  assert (∀ h, good h seen → (∀ c, inr c ∉ h) → length h ≤ length total) as Hall.
  { intros h0 Hg0 Hc. etrans; [apply Hdata|].
    - intros b Hin. by apply (good_data _ _ Hg0) in Hin as [? _].
    - done.
    - apply prefix_length. apply Hg0. }
  destruct (decide (Exists (λ c, is_Some (match c with inr z => Some z | inl _ => None end)) h)) as [He|He].
  - apply Exists_exists in He as ([b|c] & Hin & Hc); [by destruct Hc|].
    apply list_elem_of_split in Hin as (h1 & h2 & ->).
    pose proof (good_end _ _ Hg _ _ _ eq_refl) as ->. rewrite length_app. simpl.
    apply good_prefix in Hg as Hg1. assert (length h1 ≤ length total); [|lia]. apply Hall; [done|].
    intros c' (h3 & h4 & ->)%list_elem_of_split.
    rewrite <- app_assoc in Hg. by pose proof (good_end _ _ Hg _ _ _ eq_refl) as ?%app_eq_nil%proj2.
  - assert (length h ≤ length total); [|lia]. apply Hall; [done|]. intros c Hin. apply He, Exists_exists.
    exists (inr c). split; [done|]. by eexists.
Qed.

(** ** The writer's side *)

(** The chunks it posted, the fields of the buffer it holds (used, status,
    data), and whether it has read a stream status other than OK. *)
Record wghost := WG {
  w_hist : list chunk;
  w_cur : option (Z * Z * list byte);
  w_seen : bool;
}.

Definition posted (u st : Z) (d : list byte) : chunk :=
  if (u =? 0)%Z then inr st else inl (take (Z.to_nat u) d).

(** [wsafe p Q g]: from the state [g] the writer's program [p] only touches the
    buffer it holds, posts good histories, does not crash, and ends in [Q]. *)
Fixpoint wsafe {A} (p : prog A) (Q : A → wghost → Prop) (g : wghost) : Prop :=
  match p with
  | Ret a => Q a g
  | Crash => False
  | Do o k =>
      let i := pos (length (w_hist g)) in
      match o, w_cur g with
      | GetStreamStatus, _ => ∀ v, (w_seen g = true → v ≠ 0%Z) →
          wsafe (k (VInt v)) Q (WG (w_hist g) (w_cur g) (w_seen g || negb (v =? 0)%Z))
      | GetUsed j, Some (u, st, d) => j = i ∧ wsafe (k (VInt u)) Q g
      | SetUsed j v, Some (u, st, d) => j = i ∧ wsafe (k VUnit) Q (WG (w_hist g) (Some (v, st, d)) (w_seen g))
      | SetStatus j v, Some (u, st, d) => j = i ∧ wsafe (k VUnit) Q (WG (w_hist g) (Some (u, v, d)) (w_seen g))
      | CopyIn j off l, Some (u, st, d) =>
          j = i ∧ (0 ≤ off ∧ off + Z.of_nat (length l) ≤ cap)%Z ∧
          wsafe (k VUnit) Q (WG (w_hist g) (Some (u, st,
            take (Z.to_nat off) d ++ l ++ drop (Z.to_nat off + length l) d)) (w_seen g))
      | PostRead j, Some (u, st, d) =>
          j = i ∧ (0 ≤ u ≤ cap)%Z ∧ ¬ ended (w_hist g) ∧ good (w_hist g ++ [posted u st d]) (w_seen g) ∧
          wsafe (k VUnit) Q (WG (w_hist g ++ [posted u st d]) None (w_seen g))
      | WaitWrite j, None =>
          j = i ∧ ¬ ended (w_hist g) ∧
          ∀ st d, length d = Z.to_nat cap → wsafe (k VUnit) Q (WG (w_hist g) (Some (0%Z, st, d)) (w_seen g))
      | _, _ => False
      end
  end.

Lemma wsafe_bind {A B} (p : prog A) (f : A → prog B) Q g :
  wsafe p (λ a g', wsafe (f a) Q g') g → wsafe (pbind p f) Q g.
Proof.
  revert g. induction p as [a| |o k IH]; intros g; simpl; [done..|].
  destruct o, (w_cur g) as [[[u st] d]|]; simpl; try done; try naive_solver.
Qed.

Lemma wsafe_mono {A} (p : prog A) (Q Q' : A → wghost → Prop) g :
  wsafe p Q g → (∀ a g', Q a g' → Q' a g') → wsafe p Q' g.
Proof.
  intros Hp HQ. revert g Hp. induction p as [a| |o k IH]; intros g; simpl; [by auto|done|].
  destruct o, (w_cur g) as [[[u st] d]|]; simpl; try done; try naive_solver.
Qed.

Lemma pos_succ k : ((pos k + 1) `mod` Z.of_nat N)%Z = pos (S k).
Proof.
  unfold pos. rewrite !Nat2Z.inj_mod, Z.add_mod_idemp_l by lia. f_equal. lia.
Qed.
Lemma pos_0 : pos 0 = 0%Z.
Proof. unfold pos. by rewrite Nat.Div0.mod_0_l. Qed.
Lemma pos_nonneg k : (0 ≤ pos k)%Z.
Proof. unfold pos. lia. Qed.

(** What the writer knows between two calls; [W] are the bytes it has taken. *)
Record cb_inv (cb : chunkbuffer) (g : wghost) (W : list byte) : Prop := {
  ci_size : cb_size cb = bs;
  ci_open : ¬ ended (w_hist g);
  ci_good : good (w_hist g) (w_seen g);
  ci_total : w_seen g = false → W `prefix_of` total;
  ci_cur :
    (cb_nr cb = (-1)%Z ∧ w_hist g = [] ∧ w_cur g = None ∧ W = []) ∨
    (∃ u st d, cb_nr cb = pos (length (w_hist g)) ∧ w_cur g = Some (u, st, d) ∧
       length d = Z.to_nat cap ∧ (0 ≤ u ≤ bs)%Z ∧ W = bytes_of (w_hist g) ++ take (Z.to_nat u) d);
}.
(** There is room in the buffer, unless the stream is cancelled. *)
Definition room (g : wghost) (n : Z) : Prop :=
  w_seen g = false → match w_cur g with Some (u, _, _) => (u < n)%Z | None => True end.

Lemma good_snoc hist b :
  good hist false → ¬ ended hist → b ≠ [] → (Z.of_nat (length b) ≤ bs)%Z →
  bytes_of hist ++ b `prefix_of` total → good (hist ++ [inl b]) false.
Proof.
  intros [Hd He Hb Hr] Hopen Hne Hlen Hpre. split.
  - intros b' [Hin|[[= ->]|Hin%elem_of_nil]%elem_of_cons]%elem_of_app; [by apply Hd|done|done].
  - intros h c h' E. destruct h' as [|x h' _] using rev_ind; [done|].
    rewrite app_comm_cons, app_assoc in E. apply app_inj_tail in E as [E _].
    pose proof (He _ _ _ E) as ->. destruct Hopen. by exists h, c.
  - rewrite bytes_of_app. simpl. by rewrite app_nil_r.
  - intros h c [_ [=]]%app_inj_tail.
Qed.

Lemma not_ended_snoc hist b : ¬ ended (hist ++ [inl b]).
Proof. intros (h & c & [_ [=]]%app_inj_tail). Qed.

Lemma flush_safe cb g W :
  cb_inv cb g W →
  wsafe (msgpack_chunkbuffer_flush (Z.of_nat N) cb) (λ r g',
    cb_inv r.1 g' W ∧ (w_cur g ≠ None → w_cur g' ≠ None) ∧
    ((r.2 = 0%Z ∧ w_seen g = false ∧ w_seen g' = false ∧ room g' 1) ∨ (r.2 = (-1)%Z ∧ w_seen g' = true))) g.
Proof.
  intros Hi. unfold msgpack_chunkbuffer_flush. apply wsafe_bind. simpl. intros v Hv.
  unfold BUFFER_STATUS_OK. destruct (Z.eqb_spec v 0) as [->|Hne]; simpl; last first.
  { split; [|split; [done|right; by rewrite orb_true_r]]. destruct Hi as [? ? Hg ? Hc]. split; simpl; try done.
    - eapply good_seen; [done|]. by rewrite orb_true_r.
    - by rewrite orb_true_r. }
  rewrite orb_false_r. destruct g as [hist cur seen]; simpl in *.
  assert (seen = false) as -> by (destruct seen; [by destruct Hv|done]). clear Hv.
  pose proof Hi as [Hs Ho Hg Ht Hc]. simpl in *.
  destruct Hc as [(Hnr & -> & -> & ->)|(u & st & d & Hnr & -> & Hd & Hu & ->)]; rewrite Hnr.
  { simpl. split; [done|]. split; [done|by left]. }
  rewrite (proj2 (Z.ltb_ge _ _)) by apply pos_nonneg. simpl. split; [done|].
  destruct (Z.eqb_spec u 0) as [->|Hu0]; simpl.
  { split; [done|]. split; [done|by left]. }
  assert (posted u st d = inl (take (Z.to_nat u) d)) as Hp by (unfold posted; by rewrite (proj2 (Z.eqb_neq _ _))).
  assert (length (take (Z.to_nat u) d) = Z.to_nat u) as Hlt by (rewrite length_take; lia).
  assert (good (hist ++ [inl (take (Z.to_nat u) d)]) false) as Hg'.
  { apply good_snoc; [done|done| | |by apply Ht].
    - intros E. rewrite E in Hlt. simpl in Hlt. lia.
    - lia. }
  simpl. rewrite Hp. split; [done|]. split; [lia|]. split; [done|]. split; [done|].
  simpl. rewrite pos_succ, length_app. simpl. rewrite Nat.add_1_r. split; [done|].
  split; [apply not_ended_snoc|]. intros st' d' Hd'. split; [|split; [done|]; left; split_and!; [done..|intros _; simpl; lia]].
  split; simpl; [done|apply not_ended_snoc|done|done|]. right. exists 0%Z, st', d'.
  rewrite length_app. simpl. rewrite Nat.add_1_r. split; [done|]. split; [done|]. split; [done|]. split; [lia|].
  rewrite bytes_of_app. simpl. by rewrite !app_nil_r.
Qed.

Lemma claim_safe cb g W :
  cb_inv cb g W → room g bs →
  wsafe (claim cb) (λ cb' g', cb_inv cb' g' W ∧ room g' bs ∧ w_cur g' ≠ None ∧ w_seen g' = w_seen g ∧
    (match w_cur g with None => match w_cur g' with Some (u, _, _) => u = 0%Z | None => True end | _ => g' = g end)) g.
Proof.
  intros Hi Hroom. unfold claim.
  pose proof Hi as [Hs Ho Hg Ht [(Hnr & Hh & Hc & ->)|(u & st & d & Hnr & Hc & Hd & Hu & ->)]]; rewrite Hnr; simpl.
  - rewrite Hh, Hc in *. simpl. rewrite !pos_0. split; [done|]. split; [done|].
    intros st d Hd. split; [done|].
    split_and!; simpl; [|intros _; simpl; lia|done|done|done].
    split; simpl; [done|done|by apply (good_seen [] (w_seen g))|done|]. right. exists 0%Z, st, d.
    rewrite pos_0. split_and!; try done; lia.
  - rewrite (proj2 (Z.ltb_ge _ _)) by apply pos_nonneg. simpl. rewrite Hc. split_and!; try done.
Qed.

#[local] Opaque msgpack_chunkbuffer_flush.

(** Copying into the buffer that is held. *)
Lemma take_copy (d l : list byte) u :
  u + length l ≤ length d →
  take (u + length l) (take u d ++ l ++ drop (u + length l) d) = take u d ++ l ∧
  length (take u d ++ l ++ drop (u + length l) d) = length d.
Proof.
  intros Hl. split.
  - rewrite take_app. rewrite length_take, Nat.min_l by lia.
    rewrite (take_ge (take u d)) by (rewrite length_take; lia). f_equal.
    replace (u + length l - u) with (length l) by lia. by rewrite take_app_length.
  - rewrite !length_app, length_take, length_drop. lia.
Qed.

(** The invariant of a call that may be followed by another one. *)
Definition idle_inv cb g W : Prop := cb_inv cb g W ∧ room g bs.

Lemma write_loop_safe fuel cb g W ptr :
  length ptr ≤ fuel → idle_inv cb g W → w_cur g ≠ None →
  (w_seen g = false → W ++ ptr `prefix_of` total) →
  wsafe (write_loop (Z.of_nat N) fuel cb ptr) (λ r g', ∃ W', idle_inv r.1 g' W' ∧
    ((r.2 = 0%Z ∧ W' = W ++ ptr ∧ (w_seen g' = false → w_seen g = false)) ∨ (r.2 = (-1)%Z ∧ w_seen g' = true))) g.
Proof.
  revert cb g W ptr. induction fuel as [|fuel IH]; intros cb g W ptr Hf [Hi Hroom] Hcur Htot.
  { destruct ptr; [|simpl in Hf; lia]. simpl. exists W. split; [done|]. left. by rewrite app_nil_r. }
  simpl. destruct (Z.eqb_spec (Z.of_nat (length ptr)) 0) as [E0|E0].
  { destruct ptr; [|done]. simpl. exists W. split; [done|]. left. by rewrite app_nil_r. }
  pose proof Hi as [Hs Ho Hg Ht [(_ & _ & Hc & _)|(u & st & d & Hnr & Hc & Hd & Hu & HW)]]; [done|].
  destruct g as [hist cur seen]; simpl in *. subst cur W. rewrite Hnr, Hs. split; [done|].
  rewrite (u64_small (bs - u)) by (unfold is_u64; lia).
  set (n := if (Z.of_nat (length ptr) >? bs - u)%Z then (bs - u)%Z else Z.of_nat (length ptr)).
  assert (n = Z.of_nat (length ptr) `min` (bs - u))%Z as Hn.
  { unfold n. rewrite Z.gtb_ltb. destruct (Z.ltb_spec (bs - u) (Z.of_nat (length ptr))); lia. }
  assert (length (take (Z.to_nat n) ptr) = Z.to_nat n) as Hln by (rewrite length_take; lia).
  split; [done|]. rewrite Hln. split; [lia|].
  destruct (take_copy d (take (Z.to_nat n) ptr) (Z.to_nat u)) as [Htk Hlc]; [rewrite Hln; lia|].
  rewrite Hln in Htk, Hlc. rewrite (u64_small (u + n)) by (unfold is_u64; lia). split; [done|].
  set (d' := take (Z.to_nat u) d ++ take (Z.to_nat n) ptr ++ drop (Z.to_nat u + Z.to_nat n) d) in *.
  assert (cb_inv cb (WG hist (Some ((u + n)%Z, st, d')) seen)
    ((bytes_of hist ++ take (Z.to_nat u) d) ++ take (Z.to_nat n) ptr)) as Hi'.
  { split; simpl; [done|done|done| |].
    - intros Hsn. etrans; [|by apply Htot]. apply prefix_app, prefix_take.
    - right. exists (u + n)%Z, st, d'. split_and!; try done; try lia.
      rewrite <- app_assoc. f_equal. by replace (Z.to_nat (u + n)) with (Z.to_nat u + Z.to_nat n) by lia. }
  assert (((bytes_of hist ++ take (Z.to_nat u) d) ++ take (Z.to_nat n) ptr) ++ drop (Z.to_nat n) ptr =
    (bytes_of hist ++ take (Z.to_nat u) d) ++ ptr) as HWp by (by rewrite <- app_assoc, take_drop).
  assert (seen = false → (0 < n)%Z) as Hpos.
  { intros Hsn. specialize (Hroom Hsn). simpl in Hroom. lia. }
  rewrite Z.geb_leb. destruct (Z.leb_spec (bs `div` 2) (u + n)) as [Hhalf|Hhalf].
  - apply wsafe_bind. eapply wsafe_mono; [by apply flush_safe|].
    intros [cb1 r1] g1 (Hi1 & Hc1 & [(Hr & Hsn & Hsn1 & Hroom1)|(Hr & Hsn)]); simpl in *; subst r1; simpl.
    + rewrite <- HWp. eapply wsafe_mono.
      * apply IH; [rewrite length_drop; specialize (Hpos Hsn); lia| |by apply Hc1|].
        { split; [done|]. intros Hs1. specialize (Hroom1 Hs1). destruct (w_cur g1) as [[[??]?]|]; [lia|done]. }
        intros _. rewrite HWp. by apply Htot.
      * intros r g' (W' & HI & [(? & ? & ?)|?]); exists W'; (split; [done|]); [left|right]; done.
    + eexists. split; [split; [done|]|by right]. intros Hs'. congruence.
  - rewrite <- HWp. assert (bs `div` 2 < bs)%Z by (apply Z.div_lt; lia). eapply wsafe_mono.
    + eapply IH; [rewrite length_drop; lia|split; [exact Hi'|intros _; simpl; lia]|done|].
      simpl. intros Hsn. rewrite HWp. by apply Htot.
    + intros r g' (W' & HI & [(? & ? & ?)|?]); exists W'; (split; [done|]); [left|right]; done.
Qed.

Lemma write_safe cb g W buf :
  idle_inv cb g W → (w_seen g = false → W ++ buf `prefix_of` total) →
  wsafe (msgpack_chunkbuffer_write (Z.of_nat N) cb buf) (λ r g', ∃ W', idle_inv r.1 g' W' ∧
    ((r.2 = 0%Z ∧ W' = W ++ buf ∧ (w_seen g' = false → w_seen g = false)) ∨ (r.2 = (-1)%Z ∧ w_seen g' = true))) g.
Proof.
  intros [Hi Hroom] Htot. unfold msgpack_chunkbuffer_write. apply wsafe_bind.
  eapply wsafe_mono; [by apply claim_safe|]. intros cb1 g1 (Hi1 & Hroom1 & Hc1 & Hsn1 & _).
  eapply wsafe_mono; [apply (write_loop_safe _ cb1 g1 W buf); [done|done|done|by rewrite Hsn1]|].
  intros r g' (W' & HI & Hor). exists W'. split; [done|]. by rewrite Hsn1 in Hor.
Qed.

(** The bytes a packer writes and the return code it ends with when no write
    fails. *)
Fixpoint packer_bytes (p : packer) : list byte :=
  match p with PackDone _ => [] | PackWrite b k => b ++ packer_bytes (k 0%Z) end.
Fixpoint packer_result (p : packer (byte := byte)) : Z :=
  match p with PackDone c => c | PackWrite b k => packer_result (k 0%Z) end.

Lemma run_packer_safe p cb g W :
  idle_inv cb g W → (w_seen g = false → W ++ packer_bytes p = total ∧ packer_result p = rc) →
  wsafe (run_packer (Z.of_nat N) cb p) (λ r g', ∃ W', idle_inv r.1 g' W' ∧
    (w_seen g' = false → W' = total ∧ r.2 = rc)) g.
Proof.
  revert cb g W. induction p as [c|b k IH]; intros cb g W HI Htot; simpl.
  - exists W. split; [done|]. intros Hs. destruct (Htot Hs) as [E ?]. by rewrite app_nil_r in E.
  - apply wsafe_bind. eapply wsafe_mono; [eapply write_safe; [done|]|].
    + intros Hs. destruct (Htot Hs) as [<- _]. simpl. rewrite app_assoc. by eexists.
    + intros [cb1 r1] g1 (W1 & HI1 & Hor). simpl in *. apply (IH r1 cb1 g1 W1 HI1).
      intros Hs. destruct Hor as [(-> & -> & Hs')|(_ & ?)]; [|congruence].
      rewrite <- app_assoc. by apply Htot, Hs'.
Qed.

Lemma good_end_snoc hist c seen :
  good hist seen → ¬ ended hist → (seen = false → bytes_of hist = total ∧ c = rc) →
  good (hist ++ [inr c]) seen.
Proof.
  intros [Hd He Hb Hr] Hopen Hfin. split.
  - intros b [Hin|[[=]|Hin%elem_of_nil]%elem_of_cons]%elem_of_app; [by apply Hd|done].
  - intros h c' h' E. destruct h' as [|x h' _] using rev_ind; [done|].
    rewrite app_comm_cons, app_assoc in E. apply app_inj_tail in E as [E _].
    pose proof (He _ _ _ E) as ->. destruct Hopen. by exists h, c'.
  - rewrite bytes_of_app. simpl. by rewrite app_nil_r.
  - intros h c' [-> [= ->]]%app_inj_tail. destruct seen; [by left|right; by apply Hfin].
Qed.

Lemma destroy_safe cb g W c :
  idle_inv cb g W → (w_seen g = false → W = total ∧ c = rc) →
  wsafe (msgpack_chunkbuffer_destroy (Z.of_nat N) cb c) (λ _ g', ended (w_hist g')) g.
Proof.
  intros [Hi _] Hfin. unfold msgpack_chunkbuffer_destroy. apply wsafe_bind.
  eapply wsafe_mono; [by apply flush_safe|]. intros [cb1 r1] g1 (Hi1 & _ & Hor). simpl in *.
  assert (room g1 1) as Hroom1.
  { destruct Hor as [(_ & _ & _ & ?)|[_ Hs]]; [done|]. intros ?. congruence. }
  apply wsafe_bind. eapply wsafe_mono; [apply (claim_safe cb1 g1 W Hi1)|].
  { intros Hs. specialize (Hroom1 Hs). destruct (w_cur g1) as [[[??]?]|]; [lia|done]. }
  intros cb2 g2 (Hi2 & _ & Hc2 & Hs2 & Hu2).
  pose proof Hi2 as [Hs Ho Hg Ht [(_ & _ & Hc & _)|(u & st & d & Hnr & Hc & Hd & Hu & HW)]]; [done|].
  assert (w_seen g2 = false → bytes_of (w_hist g2) = total ∧ c = rc) as Hend.
  { intros Hsf. destruct Hor as [(_ & Hs0 & Hs1 & Hr1)|[_ ?]]; [|congruence].
    destruct (Hfin Hs0) as [HWt ?]. split; [|done]. specialize (Hr1 Hs1).
    assert (u = 0%Z) as ->.
    { rewrite Hc in Hu2. destruct (w_cur g1) as [[[u1 ?]?]|] eqn:E1; [|done]. subst g2.
      rewrite Hc in E1. simplify_eq. lia. }
    rewrite <- HWt, HW. simpl. by rewrite app_nil_r. }
  destruct g2 as [hist cur seen]; simpl in *. subst cur. rewrite Hnr.
  split; [done|]. split; [done|]. split; [done|]. split; [lia|]. split; [done|].
  split; [by apply good_end_snoc|]. by exists hist, c.
Qed.

Lemma write_stream_safe p :
  packer_bytes p = total → packer_result p = rc →
  wsafe (write_stream (Z.of_nat N) bs cap p) (λ _ g', ended (w_hist g')) (WG [] None false).
Proof.
  intros Htot Hrc. unfold write_stream, msgpack_chunkbuffer_init.
  rewrite (proj2 (Z.ltb_lt _ _)), (proj2 (Z.leb_le _ _)) by lia. simpl. apply wsafe_bind.
  eapply wsafe_mono; [apply (run_packer_safe p (CB (-1) bs) (WG [] None false) [])|].
  - split; [|done]. split; simpl; [done| | |intros _; apply prefix_nil|by left].
    + by intros (h & c & E%eq_sym%app_eq_nil%proj2).
    + split; simpl; [by intros b ?%elem_of_nil| |apply prefix_nil|]; intros h c; [intros h'|]; intros E;
        symmetry in E; by apply app_eq_nil in E as [_ ?].
  - done.
  - intros [cb1 c] g1 (W & HI & Hfin). simpl in *. by eapply destroy_safe.
Qed.

(** ** The reader's side *)

(** The chunks it gave back, the chunk it holds with the current [used] field,
    whether it cancelled the stream, whether it found the worker dead. *)
Record rghost := RG {
  r_cons : list chunk;
  r_hold : option (chunk * Z);
  r_closed : bool;
  r_dead : bool;
}.

Definition used_of (c : chunk) : Z := match c with inl b => Z.of_nat (length b) | inr _ => 0%Z end.

(** [mortal]: the worker may die. *)
Context (mortal : bool).

Fixpoint rsafe {A} (p : prog A) (Q : A → rghost → Prop) (g : rghost) : Prop :=
  match p with
  | Ret a => Q a g
  | Crash => False
  | Do o k =>
      let i := pos (length (r_cons g)) in
      match o, r_hold g with
      | SetStreamStatus v, _ => v ≠ 0%Z ∧ rsafe (k VUnit) Q (RG (r_cons g) (r_hold g) true (r_dead g))
      | WaitRead j, None =>
          j = i ∧ ¬ ended (r_cons g) ∧
          (∀ c, good (r_cons g ++ [c]) (r_closed g) →
             rsafe (k VUnit) Q (RG (r_cons g) (Some (c, used_of c)) (r_closed g) (r_dead g))) ∧
          (mortal = true → rsafe (k VDead) Q (RG (r_cons g) None (r_closed g) true))
      | GetUsed j, Some (c, u) => j = i ∧ rsafe (k (VInt u)) Q g
      | GetStatus j, Some (inr st, u) => j = i ∧ rsafe (k (VInt st)) Q g
      | CopyOut j n, Some (inl b, u) => j = i ∧ n = Z.of_nat (length b) ∧ rsafe (k (VBytes b)) Q g
      | SetUsed j v, Some (c, u) =>
          j = i ∧ rsafe (k VUnit) Q (RG (r_cons g) (Some (c, v)) (r_closed g) (r_dead g))
      | PostWrite j, Some (inl b, u) =>
          j = i ∧ u = 0%Z ∧ rsafe (k VUnit) Q (RG (r_cons g ++ [inl b]) None (r_closed g) (r_dead g))
      | _, _ => False
      end
  end.

Lemma rsafe_bind {A B} (p : prog A) (f : A → prog B) Q g :
  rsafe p (λ a g', rsafe (f a) Q g') g → rsafe (pbind p f) Q g.
Proof.
  revert g. induction p as [a| |o k IH]; intros g; simpl; [done..|].
  destruct o, (r_hold g) as [[[b|c] u]|]; simpl; try done; try naive_solver.
Qed.

Lemma rsafe_mono {A} (p : prog A) (Q Q' : A → rghost → Prop) g :
  rsafe p Q g → (∀ a g', Q a g' → Q' a g') → rsafe p Q' g.
Proof.
  intros Hp HQ. revert g Hp. induction p as [a| |o k IH]; intros g; simpl; [by auto|done|].
  destruct o, (r_hold g) as [[[b|c] u]|]; simpl; try done; try naive_solver.
Qed.

(** What the reader knows between two calls. *)
Record st_open (st : data_stream) (g : rghost) : Prop := {
  so_ended : ds_ended st = false;
  so_next : ds_next_buffer st = pos (length (r_cons g));
  so_hold : r_hold g = None;
  so_open : ¬ ended (r_cons g);
  so_good : good (r_cons g) (r_closed g);
}.
Definition over (g : rghost) : Prop := (∃ c u, r_hold g = Some (inr c, u)) ∨ r_dead g = true.

Definition none_result : chunk_result (byte := byte) := Chunk 0 [] None.
Definition result_of (c : chunk) : chunk_result :=
  match c with inl b => Chunk (Z.of_nat (length b)) b (Some 0%Z) | inr st => Chunk 0 [] (Some st) end.
Definition dead_result : chunk_result (byte := byte) := Chunk 0 [] (Some BUFFER_STATUS_ERROR).

(** The three ways in which a call of [hdfstream_read_chunk] can end. *)
Definition read_post (want : bool) (g : rghost) (r : data_stream * chunk_result) (g' : rghost) : Prop :=
  r_closed g' = r_closed g ∧
  ((∃ b, st_open r.1 g' ∧ r_cons g' = r_cons g ++ [inl b] ∧ good (r_cons g') (r_closed g) ∧
      r.2 = (if want then result_of (inl b) else Chunk (Z.of_nat (length b)) [] (Some 0%Z))) ∨
   (∃ c, ds_ended r.1 = true ∧ over g' ∧ good (r_cons g ++ [inr c]) (r_closed g) ∧ r.2 = result_of (inr c)) ∨
   (mortal = true ∧ ds_ended r.1 = true ∧ over g' ∧ r.2 = dead_result)).

Lemma read_chunk_safe st g want :
  st_open st g →
  rsafe (hdfstream_read_chunk (Z.of_nat N) st want) (read_post want g) g.
Proof.
  intros [He Hn Hh Ho Hg]. unfold hdfstream_read_chunk. rewrite He, Hn. simpl. rewrite Hh.
  split; [done|]. split; [done|]. split.
  - intros c Hc. split; [done|]. destruct c as [b|c]; simpl.
    + pose proof (good_data _ _ Hc b) as [Hb Hlen]; [apply elem_of_app; right; constructor|].
      rewrite (proj2 (Z.eqb_neq _ _)) by (destruct b; [done|simpl; lia]).
      assert (rsafe (pbind (if want then copy_out (pos (length (r_cons g))) (Z.of_nat (length b)) else Ret [])
        (λ bytes, pbind (act (SetUsed (pos (length (r_cons g))) 0)) (λ _,
          pbind (act (PostWrite (pos (length (r_cons g))))) (λ _,
          Ret (DS false ((pos (length (r_cons g)) + 1) `mod` Z.of_nat N), Chunk (Z.of_nat (length b)) bytes (Some 0%Z))))))%Z
        (read_post want g) (RG (r_cons g) (Some (inl b, Z.of_nat (length b))) (r_closed g) (r_dead g))) as Hrest.
      { assert (∀ bytes, bytes = (if want then b else []) → read_post want g
          (DS false ((pos (length (r_cons g)) + 1) `mod` Z.of_nat N)%Z, Chunk (Z.of_nat (length b)) bytes (Some 0%Z))
          (RG (r_cons g ++ [inl b]) None (r_closed g) (r_dead g))) as Hfin.
        { intros bytes ->. split; [done|]. left. exists b. split; [|split; [done|split; [done|by destruct want]]].
          split; simpl; [done| |done|apply not_ended_snoc|done].
          by rewrite pos_succ, length_app, Nat.add_1_r. }
        destruct want; simpl; split_and!; try done; by apply Hfin. }
      exact Hrest.
    + split; [done|]. split; [done|]. right. left. exists c. split_and!; try done. left. by eexists _, _.
  - intros Hm. split; [done|]. right. right. split_and!; try done. by right.
Qed.

Lemma read_chunk_ended st g want :
  ds_ended st = true → rsafe (hdfstream_read_chunk (Z.of_nat N) st want) (λ r g', r = (st, none_result) ∧ g' = g) g.
Proof. intros He. unfold hdfstream_read_chunk. rewrite He. simpl. done. Qed.

#[local] Opaque hdfstream_read_chunk.

Lemma drain_safe fuel st g :
  st_open st g → S (S (length total)) ≤ fuel + length (r_cons g) →
  rsafe (drain (Z.of_nat N) fuel st) (λ _ g', over g') g.
Proof.
  revert st g. induction fuel as [|fuel IH]; intros st g Hst Hf.
  { pose proof (good_length _ _ (so_good _ _ Hst)). lia. }
  simpl. apply rsafe_bind. eapply rsafe_mono; [by apply read_chunk_safe|].
  intros [st' r] g' (Hcl & [(b & Hst' & Hcons & Hg' & Hr)|[(c & _ & Hov & _ & Hr)|(_ & _ & Hov & Hr)]]); simpl in *; subst r; simpl; [|done..].
  assert (b ≠ []) as Hb.
  { rewrite Hcons in Hg'. apply (good_data _ _ Hg' b). apply elem_of_app. right. constructor. }
  rewrite Z.gtb_ltb, (proj2 (Z.ltb_lt _ _)) by (destruct b; [done|simpl; lia]).
  apply IH; [done|]. rewrite Hcons, length_app. simpl. lia.
Qed.

(** The results that a client sees, from a stream of which the chunks [h] were
    read before. *)
Inductive log_from : list chunk → list chunk_result → Prop :=
  | log_stop h : log_from h []
  | log_data h b log :
      good (h ++ [inl b]) false → log_from (h ++ [inl b]) log → log_from h (result_of (inl b) :: log)
  | log_end h c n : good (h ++ [inr c]) false → log_from h (result_of (inr c) :: replicate n none_result)
  | log_dead h n : mortal = true → log_from h (dead_result :: replicate n none_result).

(** The results are those that the client's decisions lead to. *)
Inductive client_log : client (byte := byte) → list chunk_result → Prop :=
  | cl_close : client_log Close []
  | cl_read k r log : client_log (k r) log → client_log (Read k) (r :: log).

Lemma run_client_ended fuel st c g :
  ds_ended st = true → over g →
  rsafe (run_client (Z.of_nat N) fuel st c) (λ log g', over g' ∧ client_log c log ∧ ∃ n, log = replicate n none_result) g.
Proof.
  intros He Hov. revert g Hov. induction c as [|k IH]; intros g Hov; simpl.
  - unfold close_ring. rewrite He. simpl. split; [done|]. split; [constructor|]. by exists 0.
  - apply rsafe_bind. eapply rsafe_mono; [by apply read_chunk_ended|]. intros r g' [-> ->]. simpl.
    apply rsafe_bind. eapply rsafe_mono; [by apply IH|]. intros log g' (? & ? & n & ->). simpl.
    split; [done|]. split; [by constructor|]. by exists (S n).
Qed.

Lemma run_client_safe fuel st c g :
  st_open st g → r_closed g = false → S (S (length total)) ≤ fuel →
  rsafe (run_client (Z.of_nat N) fuel st c) (λ log g', over g' ∧ client_log c log ∧ log_from (r_cons g) log) g.
Proof.
  intros Hst Hcl Hf. revert st g Hst Hcl. induction c as [|k IH]; intros st g Hst Hcl; simpl.
  - unfold close_ring. rewrite (so_ended _ _ Hst). simpl. split; [done|].
    apply rsafe_bind. apply rsafe_bind.
    eapply rsafe_mono; [apply drain_safe|].
    + destruct Hst. split; simpl; try done. by eapply good_seen.
    + simpl. lia.
    + intros ? g' Hov. simpl. split; [done|]. split; constructor.
  - apply rsafe_bind. eapply rsafe_mono; [by apply read_chunk_safe|].
    intros [st' r] g' (Hcl' & [(b & Hst' & Hcons & Hg' & Hr)|[(c & He & Hov & Hg' & Hr)|(Hm & He & Hov & Hr)]]);
      simpl in *; subst r; simpl; apply rsafe_bind; rewrite Hcl in *.
    + eapply rsafe_mono; [by apply IH|]. intros log g2 (? & ? & Hlog). simpl. split; [done|].
      split; [by constructor|]. rewrite Hcons in *. by apply log_data.
    + eapply rsafe_mono; [by apply run_client_ended|]. intros log g2 (? & ? & n & ->).
      split; [done|]. split; [by constructor|by apply log_end].
    + eapply rsafe_mono; [by apply run_client_ended|]. intros log g2 (? & ? & n & ->).
      split; [done|]. split; [by constructor|by apply log_dead].
Qed.

(** ** The invariant of the two processes *)

(** What is known of the buffer of the chunk number [k]: held by the reader,
    readable, held by the writer, or writable. *)
Inductive slot :=
  | SHeld (c : chunk) (u : Z)
  | SFull (c : chunk)
  | SFill (u st : Z) (d : list byte)
  | SFree.

Definition slot_at (wg : wghost) (rg : rghost) (k : nat) : slot :=
  match (if decide (k = length (r_cons rg)) then r_hold rg else None) with
  | Some (c, u) => SHeld c u
  | None =>
      match w_hist wg !! k with
      | Some c => SFull c
      | None =>
          match (if decide (k = length (w_hist wg)) then w_cur wg else None) with
          | Some (u, st, d) => SFill u st d
          | None => SFree
          end
      end
  end.

Definition content (c : chunk) (b : buffer) : Prop :=
  match c with inl x => take (length x) (b_data b) = x | inr st => b_status b = st end.

Definition slot_ok (s : slot) (b : buffer) : Prop :=
  length (b_data b) = Z.to_nat cap ∧
  match s with
  | SHeld c u => b_write b = 0%Z ∧ b_read b = 0%Z ∧ b_used b = u ∧ content c b
  | SFull c => b_write b = 0%Z ∧ b_read b = 1%Z ∧ b_used b = used_of c ∧ content c b
  | SFill u st d => b = Buffer u 0 0 st d
  | SFree => b_write b = 1%Z ∧ b_read b = 0%Z ∧ b_used b = 0%Z
  end.

Definition claimed (wg : wghost) : nat := length (w_hist wg) + match w_cur wg with Some _ => 1 | None => 0 end.

Record inv (sh : shared) (wg : wghost) (rg : rghost) : Prop := {
  iv_len : length (sh_buffer sh) = N;
  iv_cons : r_cons rg ++ match r_hold rg with Some (c, _) => [c] | None => [] end `prefix_of` w_hist wg;
  iv_window : claimed wg ≤ length (r_cons rg) + N;
  iv_slots k : length (r_cons rg) ≤ k < length (r_cons rg) + N →
    ∃ b, sh_buffer sh !! (k `mod` N) = Some b ∧ slot_ok (slot_at wg rg k) b;
  iv_good : good (w_hist wg) (w_seen wg);
  iv_seen : w_seen wg = true → sh_status sh ≠ 0%Z;
  iv_closed : sh_status sh ≠ 0%Z → r_closed rg = true;
}.

Lemma window_inj a k k' :
  a ≤ k < a + N → a ≤ k' < a + N → k `mod` N = k' `mod` N → k = k'.
Proof.
  intros Hk Hk' E. pose proof (Nat.div_mod_eq k N). pose proof (Nat.div_mod_eq k' N).
  assert (k / N = k' / N ∨ k / N < k' / N ∨ k' / N < k / N) as [?|[?|?]] by lia; nia.
Qed.

Lemma on_buffer_pos (sh : shared (byte := byte)) k b f :
  sh_buffer sh !! (k `mod` N) = Some b → on_buffer sh (pos k) f = f b.
Proof.
  intros Hb. unfold on_buffer. rewrite arr_get_nth by apply pos_nonneg. unfold pos. rewrite Nat2Z.id. by rewrite Hb.
Qed.

(** One buffer of the window changes. *)
Lemma inv_update sh wg rg wg' rg' k0 b' :
  inv sh wg rg → length (r_cons rg) ≤ k0 < length (r_cons rg) + N →
  r_cons rg' = r_cons rg →
  slot_ok (slot_at wg' rg' k0) b' →
  (∀ k, k ≠ k0 → slot_at wg' rg' k = slot_at wg rg k) →
  r_cons rg' ++ match r_hold rg' with Some (c, _) => [c] | None => [] end `prefix_of` w_hist wg' →
  claimed wg' ≤ length (r_cons rg) + N →
  good (w_hist wg') (w_seen wg') → w_seen wg' = w_seen wg → r_closed rg' = r_closed rg →
  inv (put_buffer sh (pos k0) b') wg' rg'.
Proof.
  intros Hi Hk0 Hc Hs Hother Hpre Hcl Hg Hseen Hclosed.
  assert (Z.to_nat (pos k0) = k0 `mod` N) as Hp by (unfold pos; lia).
  assert (k0 `mod` N < N) as Hlt by (apply Nat.mod_upper_bound; lia).
  split; simpl.
  - rewrite length_insert. apply Hi.
  - done.
  - by rewrite Hc.
  - intros k Hk. rewrite Hc in Hk. rewrite Hp. destruct (decide (k = k0)) as [->|Hne].
    + exists b'. split; [|done]. apply list_lookup_insert_eq. by rewrite (iv_len _ _ _ Hi).
    + destruct (iv_slots _ _ _ Hi k Hk) as (b & Hb & Hok). exists b. rewrite Hother by done. split; [|done].
      rewrite list_lookup_insert_ne; [done|]. intros E. apply Hne. by eapply window_inj.
  - done.
  - rewrite Hseen. apply Hi.
  - rewrite Hclosed. apply Hi.
Qed.

Lemma inv_lengths sh wg rg : inv sh wg rg →
  length (r_cons rg) + match r_hold rg with Some _ => 1 | None => 0 end ≤ length (w_hist wg).
Proof.
  intros Hi. pose proof (prefix_length _ _ (iv_cons _ _ _ Hi)) as Hl. rewrite length_app in Hl.
  destruct (r_hold rg) as [[??]|]; simpl in *; lia.
Qed.

(** The reader holds an earlier chunk than the writer's next one. *)
Lemma hold_before sh wg rg : inv sh wg rg →
  (if decide (length (w_hist wg) = length (r_cons rg)) then r_hold rg else None) = None.
Proof.
  intros Hi. pose proof (inv_lengths _ _ _ Hi) as Hl. case_decide as E; [|done]. rewrite E in Hl.
  destruct (r_hold rg); [lia|done].
Qed.

(** The slot of the writer's next chunk is its own or free; once posted it is full. *)
Lemma slot_next sh wg rg cur seen : inv sh wg rg →
  slot_at (WG (w_hist wg) cur seen) rg (length (w_hist wg)) =
    match cur with Some (u, st, d) => SFill u st d | None => SFree end.
Proof.
  intros Hi. unfold slot_at. cbn [w_hist w_cur]. rewrite (hold_before _ _ _ Hi), lookup_ge_None_2 by lia.
  rewrite decide_True by done. by destruct cur as [[[??]?]|].
Qed.
Lemma slot_writer sh wg rg : inv sh wg rg →
  slot_at wg rg (length (w_hist wg)) = match w_cur wg with Some (u, st, d) => SFill u st d | None => SFree end.
Proof. intros Hi. rewrite <- (slot_next _ _ _ (w_cur wg) (w_seen wg) Hi). by destruct wg. Qed.
Lemma slot_posted sh wg rg c seen : inv sh wg rg →
  slot_at (WG (w_hist wg ++ [c]) None seen) rg (length (w_hist wg)) = SFull c.
Proof.
  intros Hi. unfold slot_at. cbn [w_hist w_cur]. by rewrite (hold_before _ _ _ Hi), list_lookup_middle.
Qed.

Lemma snoc_lookup_ne (hist : list chunk) c j :
  j ≠ length hist → (hist ++ [c]) !! j = hist !! j.
Proof.
  intros Hj. destruct (decide (j < length hist)); [by rewrite lookup_app_l|].
  rewrite !lookup_ge_None_2; [done|lia|]. rewrite length_app. simpl. lia.
Qed.

Lemma slot_other wg rg hist' cur' seen' k :
  w_hist wg `prefix_of` hist' → (∀ j, j ≠ length (w_hist wg) → hist' !! j = w_hist wg !! j) →
  (length hist' ≠ length (w_hist wg) → cur' = None) →
  k ≠ length (w_hist wg) →
  slot_at (WG hist' cur' seen') rg k = slot_at wg rg k.
Proof.
  intros Hp Hl Hc Hk. unfold slot_at. simpl. rewrite (Hl k) by done.
  destruct (if decide (k = length (r_cons rg)) then r_hold rg else None) as [[??]|]; [done|].
  destruct (w_hist wg !! k) as [c|]; [done|]. rewrite (decide_False (P := k = length (w_hist wg))) by done.
  case_decide as E; [|done]. rewrite Hc; [done|]. congruence.
Qed.

(** The writer reads the status of the stream. *)
Lemma inv_status sh wg rg : inv sh wg rg →
  inv sh (WG (w_hist wg) (w_cur wg) (w_seen wg || negb (sh_status sh =? 0)%Z)) rg.
Proof.
  intros [? ? ? ? ? Hse ?]. split; simpl; try done.
  - eapply good_seen; [done|]. intros ->. done.
  - destruct (w_seen wg); [by auto|]. simpl. by destruct (Z.eqb_spec (sh_status sh) 0).
Qed.

(** The buffer the writer holds. *)
Lemma writer_held sh wg rg u st d : inv sh wg rg → w_cur wg = Some (u, st, d) →
  length (r_cons rg) ≤ length (w_hist wg) < length (r_cons rg) + N ∧
  sh_buffer sh !! (length (w_hist wg) `mod` N) = Some (Buffer u 0 0 st d) ∧ length d = Z.to_nat cap.
Proof.
  intros Hi Hc. pose proof (inv_lengths _ _ _ Hi). pose proof (iv_window _ _ _ Hi) as Hw. unfold claimed in Hw.
  rewrite Hc in Hw. assert (length (r_cons rg) ≤ length (w_hist wg) < length (r_cons rg) + N) as Hwin by lia.
  split; [done|]. destruct (iv_slots _ _ _ Hi _ Hwin) as (b & Hb & Hok).
  rewrite (slot_writer _ _ _ Hi), Hc in Hok. destruct Hok as [? ->]. done.
Qed.

(** The writer changes the fields of the buffer it holds or gets. *)
Lemma writer_put sh wg rg u st d : inv sh wg rg →
  length (r_cons rg) ≤ length (w_hist wg) < length (r_cons rg) + N → length d = Z.to_nat cap →
  inv (put_buffer sh (pos (length (w_hist wg))) (Buffer u 0 0 st d)) (WG (w_hist wg) (Some (u, st, d)) (w_seen wg)) rg.
Proof.
  intros Hi Hwin Hd. eapply inv_update; [done|exact Hwin|done| | | | |apply Hi|done|done].
  - rewrite (slot_next _ _ _ _ _ Hi). by split.
  - intros j Hj. by apply slot_other.
  - apply (iv_cons _ _ _ Hi).
  - unfold claimed. simpl. lia.
Qed.

(** The writer posts the buffer it holds. *)
Lemma writer_post sh wg rg u st d : inv sh wg rg → w_cur wg = Some (u, st, d) → (0 ≤ u ≤ cap)%Z →
  good (w_hist wg ++ [posted u st d]) (w_seen wg) →
  inv (put_buffer sh (pos (length (w_hist wg))) (Buffer u 0 1 st d)) (WG (w_hist wg ++ [posted u st d]) None (w_seen wg)) rg.
Proof.
  intros Hi Hc Hu Hg. destruct (writer_held _ _ _ _ _ _ Hi Hc) as (Hwin & _ & Hd).
  eapply inv_update; [done|exact Hwin|done| | | | |done|done|done].
  - rewrite (slot_posted _ _ _ _ _ Hi). split; [done|]. unfold posted.
    destruct (Z.eqb_spec u 0) as [->|Hne]; simpl; [done|].
    rewrite length_take. split_and!; try done; [lia|]. f_equal. lia.
  - intros j Hj. apply slot_other; [by eexists| |done|done]. intros j' Hj'. by apply snoc_lookup_ne.
  - simpl. etrans; [apply (iv_cons _ _ _ Hi)|by eexists].
  - unfold claimed. simpl. rewrite length_app. simpl. lia.
Qed.

(** All buffers are in use: the next one is that of the chunk [N] numbers earlier. *)
Lemma writer_full sh wg rg : inv sh wg rg → length (w_hist wg) = length (r_cons rg) + N →
  ∃ b, sh_buffer sh !! (length (w_hist wg) `mod` N) = Some b ∧ b_write b = 0%Z.
Proof.
  intros Hi Efull. destruct (iv_slots _ _ _ Hi (length (r_cons rg))) as (b & Hb & Hok); [lia|].
  exists b. rewrite Efull. rewrite <- (Nat.mul_1_l N) at 1. rewrite Nat.Div0.mod_add. split; [done|].
  assert (is_Some (w_hist wg !! length (r_cons rg))) as [c Hc] by (apply lookup_lt_is_Some; lia).
  unfold slot_at in Hok. rewrite decide_True, Hc in Hok by done.
  destruct Hok as [_ Hok]. by destruct (r_hold rg) as [[??]|]; destruct Hok.
Qed.

(** A step of the writer: it does not crash, keeps the invariant, and waits
    only when all buffers are in use. *)
Lemma writer_step {A} o (k : value → prog A) Q sh wg rg :
  inv sh wg rg → wsafe (Do o k) Q wg →
  match exec o sh with
  | Fault => False
  | Blocked => w_cur wg = None ∧ ¬ ended (w_hist wg) ∧ length (w_hist wg) = length (r_cons rg) + N
  | Done v sh' => ∃ wg', inv sh' wg' rg ∧ wsafe (k v) Q wg'
  end.
Proof.
  intros Hi Hs. destruct (w_cur wg) as [[[u st] d]|] eqn:Hc.
  - destruct (writer_held _ _ _ _ _ _ Hi Hc) as (Hwin & Hb & Hd).
    destruct o as [|v|i|i v|i|i v|i off l|i n|i|i|i|i]; simpl in Hs |- *; rewrite ?Hc in Hs; try done.
    + eexists. split; [by apply inv_status|]. rewrite Hc. apply Hs, Hi.
    + destruct Hs as [-> Hs]. rewrite (on_buffer_pos _ _ _ _ Hb). simpl. eauto.
    + destruct Hs as [-> Hs]. rewrite (on_buffer_pos _ _ _ _ Hb). eexists. by split; [apply writer_put|exact Hs].
    + destruct Hs as [-> Hs]. rewrite (on_buffer_pos _ _ _ _ Hb). eexists. by split; [apply writer_put|exact Hs].
    + destruct Hs as (-> & Hoff & Hs). rewrite (on_buffer_pos _ _ _ _ Hb). simpl.
      rewrite decide_True by lia. eexists. split; [apply writer_put; [done..|]|exact Hs].
      rewrite !length_app, length_take, length_drop. lia.
    + destruct Hs as (-> & Hu & Ho & Hg & Hs). rewrite (on_buffer_pos _ _ _ _ Hb).
      eexists. by split; [apply writer_post|exact Hs].
  - destruct o as [|v|i|i v|i|i v|i off l|i n|i|i|i|i]; simpl in Hs |- *; rewrite ?Hc in Hs; try done.
    + eexists. split; [by apply inv_status|]. rewrite Hc. apply Hs, Hi.
    + destruct Hs as (-> & Ho & Hs). pose proof (inv_lengths _ _ _ Hi). pose proof (iv_window _ _ _ Hi) as Hw.
      unfold claimed in Hw. rewrite Hc in Hw.
      destruct (decide (length (w_hist wg) = length (r_cons rg) + N)) as [Efull|Hfree].
      { destruct (writer_full _ _ _ Hi Efull) as (b & Hb & Hbw). rewrite (on_buffer_pos _ _ b), Hbw by done. done. }
      assert (length (r_cons rg) ≤ length (w_hist wg) < length (r_cons rg) + N) as Hwin by lia.
      destruct (iv_slots _ _ _ Hi _ Hwin) as (b & Hb & Hok).
      rewrite (slot_writer _ _ _ Hi), Hc in Hok.
      destruct b as [u w r st d]. destruct Hok as (Hd & Hbw & Hbr & Hbu). simpl in *. subst.
      rewrite (on_buffer_pos _ _ _ _ Hb). simpl. eexists. split; [|by apply (Hs st d)]. by apply (writer_put _ _ _ _ _ _ Hi).
Qed.

(** The reader's post gives its buffer back: the window moves by one. *)
Lemma inv_release sh wg rg b buf :
  inv sh wg rg → r_hold rg = Some (inl b, 0%Z) →
  sh_buffer sh !! (length (r_cons rg) `mod` N) = Some buf → length (b_data buf) = Z.to_nat cap →
  b_write buf = 0%Z → b_read buf = 0%Z → b_used buf = 0%Z →
  inv (put_buffer sh (pos (length (r_cons rg)))
        (Buffer (b_used buf) (b_write buf + 1) (b_read buf) (b_status buf) (b_data buf))) wg
      (RG (r_cons rg ++ [inl b]) None (r_closed rg) (r_dead rg)).
Proof.
  intros Hi Hh Hb Hd Hw Hr Hu. set (gr := length (r_cons rg)) in *.
  assert (Z.to_nat (pos gr) = gr `mod` N) as Hp by (unfold pos; lia).
  assert (gr `mod` N < N) as Hlt by (apply Nat.mod_upper_bound; lia).
  pose proof (iv_window _ _ _ Hi) as Hwin. unfold claimed in Hwin. fold gr in Hwin.
  pose proof (iv_cons _ _ _ Hi) as Hcons. rewrite Hh in Hcons.
  split; simpl; try apply Hi.
  - rewrite length_insert. apply Hi.
  - by rewrite app_nil_r.
  - rewrite length_app. simpl. fold gr. unfold claimed. lia.
  - intros k Hk. rewrite length_app in Hk. simpl in Hk. fold gr in Hk. rewrite Hp.
    destruct (decide (k = gr + N)) as [->|Hne].
    + assert ((gr + N) `mod` N = gr `mod` N) as ->.
      { rewrite <- (Nat.mul_1_l N) at 1. by rewrite Nat.Div0.mod_add. }
      rewrite list_lookup_insert_eq by (by rewrite (iv_len _ _ _ Hi)). eexists. split; [done|].
      unfold slot_at. simpl. rewrite lookup_ge_None_2 by lia.
      assert ((if decide (gr + N = length (w_hist wg)) then w_cur wg else None) = None) as ->.
      { case_decide as E; [|done]. rewrite <- E in Hwin. destruct (w_cur wg) as [[[??]?]|]; [lia|done]. }
      assert ((if decide (gr + N = length (r_cons rg ++ [inl b])) then None else None) = @None (chunk * Z)) as ->
        by (by case_decide).
      split; simpl; [done|]. rewrite Hw, Hr, Hu. done.
    + destruct (iv_slots _ _ _ Hi k) as (b' & Hb' & Hok); [fold gr; lia|]. exists b'.
      rewrite list_lookup_insert_ne.
      * split; [done|]. unfold slot_at in Hok |- *. simpl.
        rewrite (decide_False (P := k = length (r_cons rg))) in Hok by (fold gr; lia).
        by destruct (decide (k = length (r_cons rg ++ [inl b]))).
      * intros E. assert (gr = k); [|lia]. eapply (window_inj gr); [lia|lia|done].
Qed.

(** What the reader knows of the chunk it takes. *)
Lemma reader_take sh wg rg c :
  inv sh wg rg → r_hold rg = None → w_hist wg !! length (r_cons rg) = Some c →
  r_cons rg ++ [c] `prefix_of` w_hist wg ∧ good (r_cons rg ++ [c]) (r_closed rg).
Proof.
  intros Hi Hh Hc. pose proof (iv_cons _ _ _ Hi) as [h E]. rewrite Hh, app_nil_r in E.
  rewrite E, lookup_app_r, Nat.sub_diag in Hc by done. destruct h as [|c' h]; [done|]. simpl in Hc. simplify_eq.
  assert (w_hist wg = (r_cons rg ++ [c]) ++ h) as E' by (by rewrite <- app_assoc).
  split; [by exists h|]. apply (good_prefix _ h). rewrite <- E'.
  eapply good_seen; [apply Hi|]. intros Hs. by apply (iv_closed _ _ _ Hi), (iv_seen _ _ _ Hi).
Qed.

(** The buffer of the reader's next chunk. *)
Lemma reader_buffer sh wg rg : inv sh wg rg →
  ∃ b, sh_buffer sh !! (length (r_cons rg) `mod` N) = Some b ∧ slot_ok (slot_at wg rg (length (r_cons rg))) b.
Proof. intros Hi. apply (iv_slots _ _ _ Hi). lia. Qed.
Lemma reader_held sh wg rg c u : inv sh wg rg → r_hold rg = Some (c, u) →
  ∃ b, sh_buffer sh !! (length (r_cons rg) `mod` N) = Some b ∧ slot_ok (SHeld c u) b.
Proof.
  intros Hi Hh. destruct (reader_buffer _ _ _ Hi) as (b & Hb & Hok). exists b. split; [done|].
  unfold slot_at in Hok. by rewrite decide_True, Hh in Hok by done.
Qed.

(** The reader takes a chunk or changes the buffer of the one it holds. *)
Lemma reader_put sh wg rg c u b : inv sh wg rg →
  r_cons rg ++ [c] `prefix_of` w_hist wg → slot_ok (SHeld c u) b →
  inv (put_buffer sh (pos (length (r_cons rg))) b) wg (RG (r_cons rg) (Some (c, u)) (r_closed rg) (r_dead rg)).
Proof.
  intros Hi Hpre Hb. eapply inv_update; [done|split; [done|lia]|done| | | |apply Hi|apply Hi|done|done].
  - unfold slot_at. simpl. by rewrite decide_True by done.
  - intros j Hj. unfold slot_at. simpl. by rewrite !(decide_False (P := j = length (r_cons rg))) by done.
  - done.
Qed.

(** The reader waits for the next chunk. *)
Lemma reader_wait sh wg rg b : inv sh wg rg → r_hold rg = None →
  sh_buffer sh !! (length (r_cons rg) `mod` N) = Some b →
  (b_read b = 0%Z ∧ length (w_hist wg) = length (r_cons rg)) ∨
  (b_read b = 1%Z ∧ ∃ c, good (r_cons rg ++ [c]) (r_closed rg) ∧
     inv (put_buffer sh (pos (length (r_cons rg))) (Buffer (b_used b) (b_write b) (b_read b - 1) (b_status b) (b_data b)))
       wg (RG (r_cons rg) (Some (c, used_of c)) (r_closed rg) (r_dead rg))).
Proof.
  intros Hi Hh Hb. destruct (reader_buffer _ _ _ Hi) as (b' & Hb' & Hok). simplify_eq.
  unfold slot_at in Hok. rewrite decide_True, Hh in Hok by done.
  destruct (w_hist wg !! length (r_cons rg)) as [c|] eqn:Hc.
  - right. destruct Hok as (Hd & Hbw & Hbr & Hbu & Hbc). destruct (reader_take _ _ _ _ Hi Hh Hc) as [Hpre Hg].
    split; [done|]. exists c. split; [done|]. rewrite Hbr, Hbw. apply reader_put; [done|done|]. by split.
  - left. apply lookup_ge_None in Hc. pose proof (inv_lengths _ _ _ Hi). split; [|lia].
    destruct (if decide (length (r_cons rg) = length (w_hist wg)) then w_cur wg else None) as [[[??]?]|];
      [by destruct Hok as [_ ->]|by destruct Hok as (_ & _ & ? & _)].
Qed.

(** A step of the reader: it does not crash, keeps the invariant, and waits
    only when it has consumed all that was posted. *)
Lemma reader_step {A} o (k : value → prog A) Q sh wg rg :
  inv sh wg rg → rsafe (Do o k) Q rg →
  match exec o sh with
  | Fault => False
  | Blocked => r_hold rg = None ∧ ¬ ended (r_cons rg) ∧ length (w_hist wg) = length (r_cons rg)
  | Done v sh' => ∃ rg', inv sh' wg rg' ∧ rsafe (k v) Q rg' ∧ r_dead rg' = r_dead rg
  end.
Proof.
  intros Hi Hs.
  assert (Hset : ∀ v, v ≠ 0%Z → inv (Shared v (sh_buffer sh)) wg (RG (r_cons rg) (r_hold rg) true (r_dead rg))).
  { intros v Hv. destruct Hi. by split. }
  destruct (r_hold rg) as [[c u]|] eqn:Hh.
  - destruct (reader_held _ _ _ _ _ Hi Hh) as (b & Hb & Hd & Hbw & Hbr & Hbu & Hbc).
    pose proof (iv_cons _ _ _ Hi) as Hpre. rewrite Hh in Hpre.
    destruct o as [|v|i|i v|i|i v|i off l|i n|i|i|i|i], c as [x|c]; simpl in Hs |- *; rewrite ?Hh in Hs; try done.
    all: try (destruct Hs as [-> Hs]; rewrite (on_buffer_pos _ _ _ _ Hb)).
    1,2: destruct Hs as [Hv Hs]; eexists; by split; [apply Hset|].
    1,2: rewrite Hbu; eauto.
    1,2: eexists; split; [by apply reader_put; [|exact Hpre|]|done].
    + simpl in Hbc. rewrite Hbc. eauto.
    + destruct Hs as [-> Hs]. simpl in Hbc. rewrite Nat2Z.id, Hbc.
      rewrite decide_True; [eauto|]. assert (length x ≤ length (b_data b)); [|lia].
      rewrite <- Hbc at 1. rewrite length_take. lia.
    + destruct Hs as [-> Hs]. eexists. split; [|by split; [exact Hs|]]. by apply inv_release.
  - destruct o as [|v|i|i v|i|i v|i off l|i n|i|i|i|i]; simpl in Hs |- *; rewrite ?Hh in Hs; try done.
    + destruct Hs as [Hv Hs]. eexists. by split; [apply Hset|].
    + destruct Hs as (-> & Ho & Hs & _). destruct (reader_buffer _ _ _ Hi) as (b & Hb & _).
      rewrite (on_buffer_pos _ _ _ _ Hb).
      destruct (reader_wait _ _ _ _ Hi Hh Hb) as [[-> Hlen]|(Hbr & c & Hg & Hi')]; [done|].
      rewrite Hbr. simpl. rewrite Hbr in Hi'. eexists. split; [exact Hi'|]. by split; [apply Hs|].
Qed.

(** ** Configurations *)

Definition ginv (cl : client (byte := byte)) (c : config (byte := byte)) : Prop :=
  ∃ wg rg, inv (c_shared c) wg rg ∧
    wsafe (c_writer c) (λ _ g, ended (w_hist g)) wg ∧
    rsafe (c_reader c) (λ log g, over g ∧ client_log cl log ∧ log_from [] log) rg ∧
    (r_dead rg = true → c_dead c = true).

Lemma ginv_step cl c c' :
  ginv cl c → step false c c' → (c_dead c' = true → mortal = true) → ginv cl c'.
Proof.
  intros (wg & rg & Hi & Hw & Hr & Hd) Hstep Hm.
  destruct Hstep as [sh sh' o k v r He|sh i k r ?|sh sh' w o k v d He|sh w i k|sh w r]; simpl in *; [|done|..].
  - pose proof (writer_step _ _ _ _ _ _ Hi Hw) as Hs. rewrite He in Hs. destruct Hs as (wg' & Hi' & Hw').
    exists wg', rg. by split_and!.
  - pose proof (reader_step _ _ _ _ _ _ Hi Hr) as Hs. rewrite He in Hs. destruct Hs as (rg' & Hi' & Hr' & E).
    exists wg, rg'. rewrite E. by split_and!.
  - simpl in Hr. exists wg, (RG (r_cons rg) None (r_closed rg) true).
    destruct (r_hold rg) as [[[?|?]?]|] eqn:Eh; try done. destruct Hr as (_ & _ & _ & Hr). split_and!; [|done|by apply Hr, Hm|done].
    destruct Hi as [H1 H2 H3 H4 H5 H6 H7]. split; simpl; try done; [by rewrite Eh in H2|].
    intros j Hj. destruct (H4 j Hj) as (b & Hb & Hok). exists b. split; [done|].
    unfold slot_at in *. simpl. by rewrite Eh in Hok.
  - exists wg, rg. by split_and!.
Qed.

(** No race, no crash, no access out of range. *)
Definition touches (o : op (byte := byte)) : option Z :=
  match o with
  | GetUsed i | SetUsed i _ | GetStatus i | SetStatus i _ | CopyIn i _ _ | CopyOut i _ => Some i
  | _ => None
  end.
Definition race (c : config (byte := byte)) : Prop :=
  ∃ o k o' k' i, c_writer c = Do o k ∧ c_reader c = Do o' k' ∧ touches o = Some i ∧ touches o' = Some i.
Definition faulty (c : config (byte := byte)) : Prop :=
  c_writer c = Crash ∨ c_reader c = Crash ∨
  (∃ o k, c_writer c = Do o k ∧ exec o (c_shared c) = Fault) ∨
  (∃ o k, c_reader c = Do o k ∧ exec o (c_shared c) = Fault).

Lemma ginv_safe cl c : ginv cl c → ¬ race c ∧ ¬ faulty c.
Proof.
  intros (wg & rg & Hi & Hw & Hr & _). split.
  - intros (o & k & o' & k' & i & Ew & Er & Ho & Ho'). rewrite Ew in Hw. rewrite Er in Hr. simpl in Hw, Hr.
    pose proof (inv_lengths _ _ _ Hi) as Hl. pose proof (iv_window _ _ _ Hi) as Hwin. unfold claimed in Hwin.
    assert (w_cur wg ≠ None ∧ i = pos (length (w_hist wg))) as [Hc Hpw].
    { destruct (w_cur wg) as [[[??]?]|], o; simplify_eq/=; naive_solver. }
    assert (r_hold rg ≠ None ∧ i = pos (length (r_cons rg))) as [Hh Hpr].
    { clear Hw; destruct (r_hold rg) as [[[?|?]?]|], o'; simplify_eq/=; naive_solver. }
    destruct (w_cur wg); [|done]. destruct (r_hold rg); [|done].
    assert (length (w_hist wg) = length (r_cons rg)); [|lia].
    eapply (window_inj (length (r_cons rg))); [lia|lia|]. unfold pos in *. lia.
  - intros [E|[E|[(o & k & E & He)|(o & k & E & He)]]]; rewrite E in *.
    + by apply Hw.
    + by apply Hr.
    + pose proof (writer_step _ _ _ _ _ _ Hi Hw) as Hs. by rewrite He in Hs.
    + pose proof (reader_step _ _ _ _ _ _ Hi Hr) as Hs. by rewrite He in Hs.
Qed.

Lemma over_ended sh wg rg : inv sh wg rg → over rg → r_dead rg = false → ended (w_hist wg).
Proof.
  intros Hi [(c & u & Hh)|?] Hd; [|congruence]. pose proof (iv_cons _ _ _ Hi) as [h E].
  rewrite Hh, <- app_assoc in E. simpl in E. pose proof (good_end _ _ (iv_good _ _ _ Hi) _ _ _ E) as ->.
  by exists (r_cons rg), c.
Qed.

(** Without deaths one of the sides can go on, or both are done. *)
Lemma ginv_progress cl c :
  ginv cl c → c_dead c = false →
  (∃ c', live_step false c c') ∨
  (c_writer c = Ret () ∧ ∃ log, c_reader c = Ret log ∧ client_log cl log ∧ log_from [] log).
Proof.
  intros (wg & rg & Hi & Hw & Hr & Hd) Hdead. destruct c as [sh w r d]. simpl in *. subst d.
  assert (r_dead rg = false) as Hrd by (destruct (r_dead rg); [by destruct Hd|done]).
  pose proof (inv_lengths _ _ _ Hi) as Hl.
  (* the reader can go on, or waits with nothing to read, or is done *)
  assert ((∃ c', live_step false (Config sh w r false) c') ∨
    (¬ ended (r_cons rg) ∧ r_hold rg = None ∧ length (w_hist wg) = length (r_cons rg)) ∨
    (ended (w_hist wg) ∧ ∃ log, r = Ret log ∧ client_log cl log ∧ log_from [] log)) as Hreader.
  { destruct r as [log| |o k]; [|done|].
    - destruct Hr as (Hov & ? & ?). right; right. split; [by eapply over_ended|]. eauto.
    - pose proof (reader_step _ _ _ _ _ _ Hi Hr) as Hs. destruct (exec o sh) as [| |v sh'] eqn:He; [|done|].
      + right; left. tauto.
      + left. eexists. constructor; [by eapply step_reader|done]. }
  destruct Hreader as [?|Hreader]; [by left|]. destruct w as [[]| |o k]; [|done|].
  - destruct Hreader as [(Ho & Hh & El)|(_ & log & -> & ? & ?)]; [|right; eauto].
    destruct Ho. pose proof (iv_cons _ _ _ Hi) as [h E]. rewrite Hh, app_nil_r in E.
    destruct h; [|rewrite E, length_app in El; simpl in El; lia]. rewrite app_nil_r in E. rewrite <- E. exact Hw.
  - pose proof (writer_step _ _ _ _ _ _ Hi Hw) as Hs. destruct (exec o sh) as [| |v sh'] eqn:He; [|done|].
    + destruct Hs as (_ & Hne & El). destruct Hreader as [(_ & _ & ?)|(? & _)]; [lia|done].
    + left. eexists. constructor; [by eapply step_writer|done].
Qed.

(** After a death the reader can go on or is done. *)
Lemma ginv_progress_dead cl c :
  ginv cl c → c_dead c = true →
  (∃ c', step false c c') ∨ (∃ log, c_reader c = Ret log ∧ client_log cl log ∧ log_from [] log).
Proof.
  intros (wg & rg & Hi & Hw & Hr & Hd) Hdead. destruct c as [sh w r d]. simpl in *. subst d.
  destruct r as [log| |o k]; [|done|].
  - destruct Hr as (_ & ? & ?). right. eauto.
  - left. pose proof (reader_step _ _ _ _ _ _ Hi Hr) as Hs. destruct (exec o sh) as [| |v sh'] eqn:He; [|done|].
    + destruct o; simpl in Hr; destruct (r_hold rg) as [[[?|?]?]|]; try done; simpl in He;
        try (unfold on_buffer in He; case_match; [|done]; repeat case_match; done); by eexists; constructor.
    + eexists. by eapply step_reader.
Qed.

(** ** Start and end *)

Lemma ginv_init sh p cl fuel :
  fresh_ring N cap sh → packer_bytes p = total → packer_result p = rc →
  S (S (length total)) ≤ fuel →
  ginv cl (Config sh (write_stream (Z.of_nat N) bs cap p) (read_stream (Z.of_nat N) fuel cl) false).
Proof.
  intros (Hst & Hlen & Hbuf) Htot Hrc Hf. exists (WG [] None false), (RG [] None false false). simpl.
  assert (good [] false) as Hg.
  { split; [by intros b ?%elem_of_nil| |apply prefix_nil|]; intros h c; [intros h'|]; intros E;
      symmetry in E; by apply app_eq_nil in E as [_ ?]. }
  split_and!; [|by apply write_stream_safe| |done].
  - split; simpl; try done.
    + unfold claimed. simpl. lia.
    + intros k Hk. rewrite Nat.mod_small by lia.
      destruct (lookup_lt_is_Some_2 (sh_buffer sh) k) as [b Hb]; [lia|]. exists b. split; [done|].
      rewrite Forall_forall in Hbuf. destruct (Hbuf b) as (? & ? & ? & ?); [by eapply list_elem_of_lookup_2|].
      assert (slot_at (WG [] None false) (RG [] None false false) k = SFree) as ->; [|by split_and!].
      unfold slot_at. simpl. by repeat case_decide.
  - apply (run_client_safe fuel (DS false 0) cl (RG [] None false false)); [|done|done].
    split; simpl; try done; [by rewrite pos_0|]. by intros (h & c & E%eq_sym%app_eq_nil%proj2).
Qed.

(** The ring can be used again. *)
Lemma ginv_usable cl c :
  ginv cl c → length (sh_buffer (c_shared c)) = N ∧ Forall (usable_buffer cap) (sh_buffer (c_shared c)).
Proof.
  intros (wg & rg & Hi & _). pose proof (iv_len _ _ _ Hi) as Hlen. split; [done|].
  apply Forall_lookup. intros j b Hb.
  assert (∃ k, length (r_cons rg) ≤ k < length (r_cons rg) + N ∧ k `mod` N = j) as (k & Hk & <-).
  { apply lookup_lt_Some in Hb. rewrite Hlen in Hb. set (a := length (r_cons rg)).
    pose proof (Nat.div_mod_eq a N). pose proof (Nat.mod_upper_bound a N).
    destruct (decide (a `mod` N ≤ j)).
    - exists (j + a / N * N). split; [lia|]. rewrite Nat.Div0.mod_add. by apply Nat.mod_small.
    - exists (j + S (a / N) * N). split; [lia|]. rewrite Nat.Div0.mod_add. by apply Nat.mod_small. }
  destruct (iv_slots _ _ _ Hi k Hk) as (b' & Hb' & Hd & Hok). simplify_eq. unfold usable_buffer.
  destruct (slot_at wg rg k); [| |subst b; simpl in *|]; naive_solver lia.
Qed.

Definition delivered (log : list (chunk_result (byte := byte))) : list byte := concat (r_bytes <$> log).

Lemma delivered_none n : delivered (replicate n none_result) = [].
Proof. induction n as [|n IH]; [done|]. exact IH. Qed.

Lemma log_bytes h log :
  log_from h log → bytes_of h `prefix_of` total → bytes_of h ++ delivered log `prefix_of` total.
Proof.
  induction 1 as [h|h b log Hg Hlog IH|h c n Hg|h n Hm]; intros Hp.
  - unfold delivered. simpl. by rewrite app_nil_r.
  - specialize (IH (good_bytes _ _ Hg)). rewrite bytes_of_app in IH. simpl in IH.
    rewrite app_nil_r, <- app_assoc in IH. exact IH.
  - change (bytes_of h ++ delivered (replicate n none_result) `prefix_of` total).
    by rewrite delivered_none, app_nil_r.
  - change (bytes_of h ++ delivered (replicate n none_result) `prefix_of` total).
    by rewrite delivered_none, app_nil_r.
Qed.

(** Who is told that the stream ended without an error got everything. *)
Lemma log_truth h log r c :
  log_from h log → r ∈ log → r_len r = 0%Z → r_status r = Some c →
  (c = BUFFER_STATUS_ERROR ∧ mortal = true) ∨ (bytes_of h ++ delivered log = total ∧ c = rc).
Proof.
  intros Hlog Hin Hl Hs.
  assert (∀ n, r ∈ replicate n none_result → False) as Hnone.
  { intros n [-> _]%elem_of_replicate. done. }
  induction Hlog as [h|h b log Hg Hlog IH|h c' n Hg|h n Hm].
  - by apply elem_of_nil in Hin.
  - apply elem_of_cons in Hin as [->|Hin].
    + simpl in Hl. destruct (good_data _ _ Hg b) as [Hb _]; [apply elem_of_app; right; constructor|].
      destruct b; [done|]. simpl in Hl. lia.
    + destruct (IH Hin) as [?|[E ?]]; [by left|]. right. split; [|done].
      rewrite bytes_of_app in E. simpl in E. by rewrite app_nil_r, <- app_assoc in E.
  - apply elem_of_cons in Hin as [->|Hin]; [|by apply Hnone in Hin]. simpl in Hs. simplify_eq.
    right. destruct (good_rc _ _ Hg h c eq_refl) as [?|[E ->]]; [done|]. split; [|done].
    change (bytes_of h ++ delivered (replicate n none_result) = total).
    by rewrite delivered_none, app_nil_r.
  - apply elem_of_cons in Hin as [->|Hin]; [|by apply Hnone in Hin]. simpl in Hs. simplify_eq. by left.
Qed.

(** The chunks fit the buffer of the reader. *)
Lemma log_sizes h log :
  log_from h log → Forall (λ r, r_len r = Z.of_nat (length (r_bytes r)) ∧ (r_len r ≤ bs)%Z) log.
Proof.
  assert (∀ n, Forall (λ r : chunk_result (byte := byte), r_len r = Z.of_nat (length (r_bytes r)) ∧ (r_len r ≤ bs)%Z)
    (replicate n none_result)) as Hnone.
  { intros n. apply Forall_replicate. simpl. lia. }
  induction 1 as [h|h b log Hg Hlog IH|h c n Hg|h n Hm]; constructor; simpl; try done; try lia.
  split; [done|]. apply (good_data _ _ Hg b), elem_of_app. right. constructor.
Qed.

(** A client that reads until a call returns 0. *)
Fixpoint read_all (n : nat) : client (byte := byte) :=
  match n with
  | 0 => Close
  | S n => Read (λ r, if (r_len r =? 0)%Z then Close else read_all n)
  end.

Lemma read_all_log n h log :
  mortal = false → client_log (read_all n) log → log_from h log → good h false →
  S (S (length total)) ≤ n + length h →
  ∃ log', log = log' ++ [Chunk 0 [] (Some rc)] ∧ bytes_of h ++ delivered log' = total.
Proof.
  intros Hm Hc Hlog. revert n Hc. induction Hlog as [h|h b log Hg Hlog IH|h c k Hg|h k Hm']; intros n Hc Hgh Hn.
  - destruct n; [|inversion Hc]. pose proof (good_length _ _ Hgh). simpl in Hn. lia.
  - destruct n; inversion_clear Hc as [|? ? ? Hc']. simpl in Hc'.
    rewrite (proj2 (Z.eqb_neq _ _)) in Hc'.
    + destruct (IH n Hc' Hg) as (log' & -> & E); [rewrite length_app; simpl; lia|].
      exists (result_of (inl b) :: log'). split; [done|]. rewrite bytes_of_app in E. simpl in E.
      by rewrite app_nil_r, <- app_assoc in E.
    + destruct (good_data _ _ Hg b) as [Hb _]; [apply elem_of_app; right; constructor|].
      destruct b; [done|]. simpl. lia.
  - destruct n; inversion_clear Hc as [|? ? ? Hc']. simpl in Hc'.
    destruct k; [|inversion Hc']. destruct (good_rc _ _ Hg h c eq_refl) as [?|[E ->]]; [done|].
    exists []. split; [done|]. unfold delivered. simpl. by rewrite app_nil_r.
  - congruence.
Qed.
End proof.
