(* ===== verification/StreamMain.v ===== *)
(** * The data stream: the theorems

    A request is served by two processes, the worker that packs data into the
    ring (Stream.v, [write_stream]) and the library that reads it for a client
    ([read_stream]).  The theorems are about all their interleavings, from a
    ring that was reset for the request (SharedData.v, [open_ring]). *)
From stdpp Require Import base tactics numbers list relations.
From S2P Require Import Prelude Stream SharedData StreamProof.

(** ** Every run ends *)

Section acc.
Context {byte : Type}.
Implicit Types c : config (byte := byte).

Lemma acc_dead signals w r sh : Acc (flip (step signals)) (Config (byte := byte) sh w r true).
Proof.
  revert sh. induction r as [log| |o k IH]; intros sh; constructor; intros c' Hs; unfold flip in Hs.
  - inversion Hs.
  - inversion Hs.
  - inversion Hs; subst; apply IH.
Qed.

Lemma step_acc signals c : Acc (flip (step signals)) c.
Proof.
  destruct c as [sh w r []]; [apply acc_dead|]. revert r sh.
  induction w as [a| |o k IHw]; intros r; induction r as [log| |o' k' IHr]; intros sh;
    constructor; intros c' Hs; unfold flip in Hs; inversion Hs; subst; auto using acc_dead.
Qed.

Lemma live_step_acc signals c : Acc (flip (live_step signals)) c.
Proof.
  induction (step_acc signals c) as [c _ IH]. constructor. intros c' Hs. apply IH. by destruct Hs.
Qed.
End acc.

(** Whether a run can go on can be decided. *)
Lemma live_step_or {byte} (c : config (byte := byte)) :
  (∃ c', live_step false c c') ∨ ∀ c', ¬ live_step false c c'.
Proof.
  destruct c as [sh w r []].
  { right. intros c' Hc. inversion Hc as [? ? Hs Hd]; subst. inversion Hs; subst; simpl in Hd; congruence. }
  destruct w as [a| |o k]; [| |destruct (exec o sh) as [| |v sh'] eqn:Ew;
    [| |left; eexists; constructor; [by apply step_writer|done]]];
    (destruct r as [b| |o' k']; [| |destruct (exec o' sh) as [| |v' sh''] eqn:Er;
      [| |left; eexists; constructor; [by apply step_reader|done]]]);
    right; intros c' Hc; inversion Hc as [? ? Hs Hd]; subst; inversion Hs; subst; simpl in Hd; congruence.
Qed.

(** ** Runs *)

Section runs.
Context {byte : Type}.

(** A request: the packer of the worker, the client of the library, the
    buffer size asked for and the size of the buffers of the ring. *)
Definition start (N : nat) (bs cap : Z) (sh : shared (byte := byte)) (p : packer) (fuel : nat)
    (cl : client) : config :=
  Config sh (write_stream (Z.of_nat N) bs cap p) (read_stream (Z.of_nat N) fuel cl) false.

(** The sizes that the code ensures (do_read_dataset cuts [bs] to the size of
    the ring's buffers), and enough fuel for the loop that drains the stream. *)
Definition sizes_ok (N : nat) (bs cap : Z) (p : packer (byte := byte)) (fuel : nat) : Prop :=
  0 < N ∧ (0 < bs ≤ cap)%Z ∧ (cap < 2 ^ 64)%Z ∧ 2 + length (packer_bytes p) ≤ fuel.

(** Both sides have returned. *)
Definition finished (c : config (byte := byte)) (log : list chunk_result) : Prop :=
  c_writer c = Ret () ∧ c_reader c = Ret log.

(** From [c] every run ends, and where it ends [P] holds. *)
Definition always_ends (step : config (byte := byte) → config → Prop) (c : config) (P : config → Prop) : Prop :=
  Acc (flip step) c ∧ ∀ c', rtc step c c' → (∀ c'', ¬ step c' c'') → P c'.

Lemma start_ginv mortal N bs cap sh p fuel cl c :
  sizes_ok N bs cap p fuel → fresh_ring N cap sh →
  rtc (if (mortal : bool) then step false else live_step false) (start N bs cap sh p fuel cl) c →
  ginv N bs cap (packer_bytes p) (packer_result p) mortal cl c ∧ (mortal = false → c_dead c = false).
Proof.
  intros (HN & Hbs & Hcap & Hf) Hsh Hr.
  assert (ginv N bs cap (packer_bytes p) (packer_result p) mortal cl (start N bs cap sh p fuel cl)) as H0
    by (by apply ginv_init).
  assert (mortal = false → c_dead (start N bs cap sh p fuel cl) = false) as Hd0 by done.
  revert H0 Hd0. induction Hr as [c|c1 c2 c3 Hs _ IH]; intros H0 Hd0; [done|].
  destruct mortal.
  - apply IH; [|done]. eapply ginv_step; try done.
  - destruct Hs as [c1 c2 Hs Hd]. apply IH; [|done]. eapply ginv_step; try done. intros E. congruence.
Qed.

(** A run without deaths. *)
Lemma start_ends N bs cap sh p fuel cl :
  sizes_ok N bs cap p fuel → fresh_ring N cap sh →
  always_ends (live_step false) (start N bs cap sh p fuel cl) (λ c, ∃ log,
    finished c log ∧ client_log cl log ∧
    log_from bs (packer_bytes p) (packer_result p) false [] log ∧
    length (sh_buffer (c_shared c)) = N ∧ Forall (usable_buffer cap) (sh_buffer (c_shared c))).
Proof.
  intros Hok Hsh. split; [apply live_step_acc|]. intros c Hr Hstuck.
  destruct (start_ginv false _ _ _ _ _ _ _ _ Hok Hsh Hr) as [Hg Hd]. destruct Hok as (HN & Hbs & Hcap & Hf).
  destruct (ginv_progress _ _ _ _ _ HN Hbs _ _ _ Hg (Hd eq_refl)) as [[c' Hc]|(Hw & log & Hrd & ? & ?)].
  - by apply Hstuck in Hc.
  - exists log. split; [done|]. split; [done|]. split; [done|]. by eapply ginv_usable.
Qed.

Lemma always_ends_mono step c P Q : (∀ c, P c → Q c) → always_ends step c P → always_ends step c Q.
Proof. intros HPQ [Ha He]. split; [done|]. auto. Qed.

Lemma good_nil bs (total : list byte) rc : good bs total rc [] false.
Proof.
  split; [by intros b ?%elem_of_nil| |apply prefix_nil|]; intros h c; [intros h'|]; intros E;
    symmetry in E; by apply app_eq_nil in E as [_ ?].
Qed.

Lemma always_ends_some c P : always_ends (live_step false) c P → ∃ c', rtc (live_step false) c c' ∧ P c'.
Proof.
  intros [Hacc Hend]. assert (∃ c', rtc (live_step false) c c' ∧ ∀ c'', ¬ live_step false c' c'') as (c' & Hr & Hst).
  { clear Hend. induction Hacc as [c _ IH]. destruct (live_step_or c) as [[c1 H1]|Hno]; [|by exists c].
    destruct (IH c1 H1) as (c' & Hr & Hst). exists c'. split; [by eapply rtc_l|done]. }
  exists c'. split; [done|by apply Hend].
Qed.

(** What a client that reads to the end has seen when it returns. *)
Lemma read_all_chunks N bs cap p fuel n log :
  sizes_ok N bs cap p fuel → 2 + length (packer_bytes p) ≤ n → client_log (read_all n) log →
  log_from bs (packer_bytes p) (packer_result p) false [] log →
  ∃ chunks, log = chunks ++ [Chunk 0 [] (Some (packer_result p))] ∧
    concat (r_bytes <$> chunks) = packer_bytes p ∧
    Forall (λ r, r_len r = Z.of_nat (length (r_bytes r)) ∧ (r_len r ≤ bs)%Z) chunks.
Proof.
  intros (HN & Hbs & _) Hn Hcl Hlog.
  destruct (read_all_log _ _ _ _ HN _ n [] log eq_refl Hcl Hlog) as (chunks & -> & E); [apply good_nil|simpl; lia|].
  exists chunks. split; [done|]. split; [done|].
  apply (log_sizes _ _ _ _ _ HN Hbs) in Hlog. by apply Forall_app in Hlog as [? _].
Qed.
End runs.

(** ** Schedules

    A run given by who makes the next step: the writer, a signal that
    interrupts its wait, or the reader. *)
Inductive who := Wr | Sig | Rd.

Section schedules.
Context {byte : Type}.

Definition sched_step (c : config (byte := byte)) (w : who) : option config :=
  if c_dead c then None else
  match w with
  | Wr => match c_writer c with
          | Do o k => match exec o (c_shared c) with
                      | Done v sh => Some (Config sh (k v) (c_reader c) false)
                      | _ => None
                      end
          | _ => None
          end
  | Sig => match c_writer c with
           | Do (WaitWrite i) k => Some (Config (c_shared c) (k VUnit) (c_reader c) false)
           | _ => None
           end
  | Rd => match c_reader c with
          | Do o k => match exec o (c_shared c) with
                      | Done v sh => Some (Config sh (c_writer c) (k v) false)
                      | _ => None
                      end
          | _ => None
          end
  end.

(** Steps that cannot be made are left out. *)
Definition sched (ws : list who) (c : config (byte := byte)) : config :=
  foldl (λ c w, default c (sched_step c w)) c ws.

Lemma sched_rtc ws c : rtc (live_step true) c (sched ws c).
Proof.
  revert c. induction ws as [|w ws IH]; intros c; [done|]. simpl.
  destruct (sched_step c w) as [c'|] eqn:E; [|apply IH]. simpl. eapply rtc_l; [|apply IH].
  unfold sched_step in E. destruct c as [sh wr rd []]; simpl in E; [done|].
  destruct w; [destruct wr as [| |o k]|destruct wr as [| |[] k]|destruct rd as [| |o k]]; try done.
  - destruct (exec o sh) eqn:Ex; simplify_eq. constructor; [by apply step_writer|done].
  - simplify_eq. constructor; [by apply step_signal|done].
  - destruct (exec o sh) eqn:Ex; simplify_eq. constructor; [by apply step_reader|done].
Qed.
End schedules.

(** ** Concrete requests *)

(** A ring of two buffers of four bytes, and a packer of seven bytes. *)
Definition ring2 : shared (byte := nat) :=
  Shared 0 [Buffer 0 1 0 0 [0; 0; 0; 0]; Buffer 0 1 0 0 [0; 0; 0; 0]].
Definition pack7 : packer (byte := nat) :=
  PackWrite [1; 2; 3] (λ _, PackWrite [4; 5; 6; 7] (λ _, PackDone 0)).
(** Four writes of two bytes. *)
Definition pack8 : packer (byte := nat) :=
  PackWrite [1; 2] (λ _, PackWrite [3; 4] (λ _, PackWrite [5; 6] (λ _, PackWrite [7; 8] (λ _, PackDone 0)))).

Lemma ring2_fresh : fresh_ring 2 4 ring2.
Proof. split_and!; [done|done|]. repeat constructor. Qed.

(** ** Properties *)

(** C3: A stream delivers what was packed: however the two processes are
    interleaved, the run ends with both of them done (no deadlock, no loop),
    and a client that reads to the end has got exactly the packed bytes, in
    order, in chunks that fit its buffer, and then the return code. *)
Theorem stream_delivers {byte} N bs cap (sh : shared (byte := byte)) p fuel n :
  sizes_ok N bs cap p fuel → fresh_ring N cap sh → 2 + length (packer_bytes p) ≤ n →
  always_ends (live_step false) (start N bs cap sh p fuel (read_all n)) (λ c, ∃ chunks,
    finished c (chunks ++ [Chunk 0 [] (Some (packer_result p))]) ∧
    concat (r_bytes <$> chunks) = packer_bytes p ∧
    Forall (λ r, r_len r = Z.of_nat (length (r_bytes r)) ∧ (r_len r ≤ bs)%Z) chunks).
Proof.
  intros Hok Hsh Hn. eapply always_ends_mono; [|by apply start_ends].
  intros c (log & Hfin & Hcl & Hlog & _).
  destruct (read_all_chunks _ _ _ _ _ _ _ Hok Hn Hcl Hlog) as (chunks & -> & ? & ?). by exists chunks.
Qed.

(** C4: No reachable state of the two processes, whatever the client does
    and even when the worker dies, has both of them about to access the same
    buffer, and none has a failed check, a copy out of range or an index out of
    range. *)
Theorem stream_safe {byte} N bs cap (sh : shared (byte := byte)) p fuel cl c :
  sizes_ok N bs cap p fuel → fresh_ring N cap sh →
  rtc (step false) (start N bs cap sh p fuel cl) c → ¬ race c ∧ ¬ faulty c.
Proof.
  intros Hok Hsh Hr. destruct (start_ginv true _ _ _ _ _ _ _ _ Hok Hsh Hr) as [Hg _].
  destruct Hok as (HN & Hbs & _). by eapply ginv_safe.
Qed.

(** C19: A client may stop early: whatever it does, closing the stream makes
    the worker finish, what the client got is a prefix of the packed bytes, and
    resetting the ring for the next request succeeds and makes it fresh. *)
Theorem stream_closes {byte} N bs cap (sh : shared (byte := byte)) p fuel cl :
  sizes_ok N bs cap p fuel → fresh_ring N cap sh →
  always_ends (live_step false) (start N bs cap sh p fuel cl) (λ c, ∃ log,
    finished c log ∧ client_log cl log ∧ concat (r_bytes <$> log) `prefix_of` packer_bytes p ∧
    ∃ sh', open_ring N (c_shared c) = Some sh' ∧ fresh_ring N cap sh').
Proof.
  intros Hok Hsh. destruct (start_ends _ _ _ _ _ _ cl Hok Hsh) as [Hacc Hend]. split; [done|].
  intros c Hr Hstuck. destruct (Hend c Hr Hstuck) as (log & Hfin & Hcl & Hlog & Hlen & Hus).
  exists log. split; [done|]. split; [done|]. split.
  - exact (log_bytes _ _ _ _ [] log Hlog (prefix_nil _)).
  - by apply open_ring_fresh.
Qed.

(** C24: The worker may die at any time: the reader then does not wait for
    ever, it gets a prefix of the packed bytes, and it is told that the stream
    ended with another status than ERROR only if it got all of them. *)
Theorem stream_worker_dies {byte} N bs cap (sh : shared (byte := byte)) p fuel cl c :
  sizes_ok N bs cap p fuel → fresh_ring N cap sh →
  rtc (step false) (start N bs cap sh p fuel cl) c → c_dead c = true →
  always_ends (step false) c (λ c', ∃ log,
    c_reader c' = Ret log ∧ client_log cl log ∧ concat (r_bytes <$> log) `prefix_of` packer_bytes p ∧
    ∀ r st, r ∈ log → r_len r = 0%Z → r_status r = Some st →
      st = BUFFER_STATUS_ERROR ∨ (concat (r_bytes <$> log) = packer_bytes p ∧ st = packer_result p)).
Proof.
  intros Hok Hsh Hr Hdead. split; [apply step_acc|]. intros c' Hr' Hstuck.
  assert (c_dead c' = true) as Hdead'.
  { clear -Hdead Hr'. induction Hr' as [|c1 c2 c3 Hs _ IH]; [done|]. apply IH. destruct Hs; simpl in *; congruence. }
  assert (rtc (step false) (start N bs cap sh p fuel cl) c') as Hr2 by (by etrans).
  destruct (start_ginv true _ _ _ _ _ _ _ _ Hok Hsh Hr2) as [Hg _].
  destruct Hok as (HN & Hbs & Hcap & Hf).
  destruct (ginv_progress_dead _ _ _ _ _ HN Hbs _ _ _ Hg Hdead') as [[c'' Hc]|(log & Hrd & Hcl & Hlog)].
  { by apply Hstuck in Hc. }
  exists log. split; [done|]. split; [done|]. split.
  - exact (log_bytes _ _ _ _ [] log Hlog (prefix_nil _)).
  - intros r st Hin Hl Hst. destruct (log_truth _ _ _ _ HN _ [] log r st Hlog Hin Hl Hst) as [[? _]|?]; auto.
Qed.

(** C34: A signal that interrupts the writer's wait breaks the stream: the
    return value of [sem_wait] is compared with EINTR, which it never is, so
    the writer goes on without the buffer.  In a ring of two buffers the reader
    can then get bytes out of order and the end of the stream, with status 0,
    before all bytes. *)
Theorem stream_interrupted :
  ∃ c, rtc (live_step true) (start 2 4 4 ring2 pack8 20 (read_all 20)) c ∧
    c_reader c = Ret [Chunk 4 [1; 2; 5; 6] (Some 0%Z); Chunk 2 [3; 4] (Some 0%Z); Chunk 0 [] (Some 0%Z)].
Proof.
  eexists. split.
  - apply (sched_rtc (repeat Wr 100 ++ [Sig] ++ repeat Wr 100 ++ repeat Rd 100)).
  - vm_compute. reflexivity.
Qed.

(** ** Witnesses *)

Lemma pack7_sizes : sizes_ok 2 4 4 pack7 9.
Proof. split_and!; simpl; lia. Qed.

Lemma stream_delivers_witness :
  sizes_ok 2 4 4 pack7 9 ∧ always_ends (live_step false) (start 2 4 4 ring2 pack7 9 (read_all 9))
    (λ c, ∃ chunks,
      finished c (chunks ++ [Chunk 0 [] (Some (packer_result pack7))]) ∧
      concat (r_bytes <$> chunks) = packer_bytes pack7 ∧
      Forall (λ r, r_len r = Z.of_nat (length (r_bytes r)) ∧ (r_len r ≤ 4)%Z) chunks).
Proof.
  split; [exact pack7_sizes|]. apply (stream_delivers 2 4 4 ring2 pack7 9 9 pack7_sizes ring2_fresh). simpl. lia.
Defined.

Lemma stream_safe_witness :
  sizes_ok 2 4 4 pack7 9 ∧ ¬ race (start 2 4 4 ring2 pack7 9 (read_all 3)).
Proof.
  split; [exact pack7_sizes|].
  exact (proj1 (stream_safe 2 4 4 ring2 pack7 9 (read_all 3) _ pack7_sizes ring2_fresh (rtc_refl _ _))).
Defined.

Lemma stream_closes_witness :
  sizes_ok 2 4 4 pack7 9 ∧
  always_ends (live_step false) (start 2 4 4 ring2 pack7 9 (Read (λ _, Close))) (λ c, ∃ log,
    finished c log ∧ client_log (Read (λ _, Close)) log ∧ concat (r_bytes <$> log) `prefix_of` packer_bytes pack7 ∧
    ∃ sh', open_ring 2 (c_shared c) = Some sh' ∧ fresh_ring 2 4 sh').
Proof.
  split; [exact pack7_sizes|]. exact (stream_closes 2 4 4 ring2 pack7 9 _ pack7_sizes ring2_fresh).
Defined.

Lemma stream_worker_dies_witness :
  sizes_ok 2 4 4 pack7 9 ∧
  Acc (flip (step false)) (Config ring2 (write_stream 2 4 4 pack7) (read_stream 2 9 (read_all 3)) true).
Proof.
  split; [exact pack7_sizes|].
  exact (proj1 (stream_worker_dies 2 4 4 ring2 pack7 9 (read_all 3) _ pack7_sizes ring2_fresh
    (rtc_once _ _ (step_die _ _ _ _)) eq_refl)).
Defined.
