(* ===== verification/Caches.v ===== *)
(** * What the two caches share

    The HDF5 calls that open and close files and datasets, as an interface with
    laws; ownership of the open handles; and the ordered map as its clients see
    it, a list of pairs with distinct keys. *)
From stdpp Require Import base tactics numbers list gmap.
From S2P Require Import Prelude MapInterface LinkedList OrderedMap.

(** ** HDF5 handles *)

(** [L] is the state of the HDF5 library in one process, [h5_handles] the
    handles that are open in it and what each of them denotes: the file with
    the name it was opened with, or the object with a name in a file. *)
Class H5Files (K L : Type) := {
  h5_what : Type;
  h5_file : K → h5_what;
  h5_member : h5_what → K → h5_what;
  H5Fopen : K → M L Z;
  H5Fclose : Z → M L ();
  H5Dopen : Z → K → M L Z;
  H5Dclose : Z → M L ();
  h5_handles : L → gmap Z h5_what;
}.
Definition h5_open `{H5Files K L} (h : L) : gset Z := dom (h5_handles h).

(** A call either fails, with a negative result, or returns a new handle for
    [w]. *)
Definition opened `{H5Files K L} (h : L) (r : Z) (w : h5_what) (h' : L) : Prop :=
  ((r < 0)%Z ∧ h5_handles h' = h5_handles h) ∨
  ((0 ≤ r)%Z ∧ h5_handles h !! r = None ∧ h5_handles h' = <[r := w]> (h5_handles h)).

Class H5FilesLaws (K L : Type) `{H5Files K L} : Prop := {
  fopen_law h name (Q : Z → L → Prop) :
    (∀ r h', opened h r (h5_file name) h' → Q r h') → wp (H5Fopen name) Q h;
  dopen_law h f w name (Q : Z → L → Prop) :
    h5_handles h !! f = Some w → (∀ r h', opened h r (h5_member w name) h' → Q r h') → wp (H5Dopen f name) Q h;
  fclose_law h id (Q : () → L → Prop) :
    is_Some (h5_handles h !! id) → (∀ h', h5_handles h' = delete id (h5_handles h) → Q () h') → wp (H5Fclose id) Q h;
  dclose_law h id (Q : () → L → Prop) :
    is_Some (h5_handles h !! id) → (∀ h', h5_handles h' = delete id (h5_handles h) → Q () h') → wp (H5Dclose id) Q h;
}.

(** The caches are compiled twice: in the reader process, and as a "shadow
    copy" in the library ([SHADOW_CACHE]) that makes no HDF5 calls.
    [owns shadow h base hs]: the handles [hs], each once, are the ones the cache
    holds open, besides those in [base], and denote what is said there. *)
Section owns.
Context `{H5FilesLaws K L}.
Implicit Types (base : gmap Z h5_what) (hs : list (Z * h5_what)).

Definition owns (shadow : bool) (h : L) base hs : Prop :=
  if shadow then h5_handles h = base
  else h5_handles h = list_to_map hs ∪ base ∧ NoDup hs.*1 ∧ ∀ id, id ∈ hs.*1 → base !! id = None.

Lemma owns_perm shadow h base hs hs' : hs ≡ₚ hs' → owns shadow h base hs → owns shadow h base hs'.
Proof.
  destruct shadow; [done|]. intros Hp (Ho & Hn & Hd). split_and!.
  - rewrite Ho. f_equal. by apply list_to_map_proper.
  - by rewrite <- Hp.
  - intros id. rewrite <- Hp. apply Hd.
Qed.

Lemma owns_elem shadow h base hs id w :
  owns shadow h base hs → shadow = false → (id, w) ∈ hs → h5_handles h !! id = Some w.
Proof.
  intros Ho -> Hin. destruct Ho as (-> & Hn & _). apply lookup_union_Some_l. by apply elem_of_list_to_map_1.
Qed.
Lemma owns_none h base hs : owns false h base hs → base = h5_handles h → hs = [].
Proof.
  intros (Ho & _ & Hd) E. destruct hs as [|[id w] hs]; [done|]. specialize (Hd id). simpl in *.
  assert (base !! id = Some w) as Hi; [|rewrite Hd in Hi; [done|constructor]].
  rewrite E, Ho. apply lookup_union_Some_l, lookup_insert_eq.
Qed.
Lemma owns_no_handle shadow h : owns shadow h (h5_handles h) [].
Proof.
  unfold owns. destruct shadow; [done|]. simpl. rewrite map_empty_union. split_and!; [done|constructor|].
  by intros id ?%elem_of_nil.
Qed.
Lemma owns_all_closed shadow h base : owns shadow h base [] → h5_handles h = base.
Proof. unfold owns. destruct shadow; [done|]. simpl. intros (-> & _). by rewrite map_empty_union. Qed.

Lemma owns_opened h base hs r w h' : opened h r w h' → owns false h base hs →
  ((r < 0)%Z ∧ owns false h' base hs) ∨ ((0 ≤ r)%Z ∧ owns false h' base ((r, w) :: hs)).
Proof.
  intros [[Hr Ho]|(Hr & Hni & Ho)] (He & Hn & Hd); [left|right]; (split; [done|]).
  - unfold owns. by rewrite Ho.
  - unfold owns. rewrite Ho. rewrite He in *. apply lookup_union_None in Hni as [Hni1 Hni2].
    apply not_elem_of_list_to_map_2 in Hni1. split_and!; simpl.
    + by rewrite insert_union_l.
    + by apply NoDup_cons.
    + intros id [->|Hin]%elem_of_cons; [done|by apply Hd].
Qed.

Lemma owns_closed h base id w hs h' :
  owns false h base ((id, w) :: hs) → h5_handles h' = delete id (h5_handles h) → owns false h' base hs.
Proof.
  intros (He & Hn & Hd) Ho. simpl in *. apply NoDup_cons in Hn as [Hni Hn]. unfold owns. rewrite Ho, He.
  split_and!; [|done|intros i Hi; apply Hd; by constructor].
  rewrite delete_union, delete_insert_id by (by apply not_elem_of_list_to_map_1).
  by rewrite (delete_id base) by (apply Hd; constructor).
Qed.
End owns.

(** ** The ordered map for its clients *)

Section client.
Context {T K V : Type} `{KVMapLaws T K positive}.
Implicit Types s : ordered_map T K V.
Implicit Types l : list (K * V).

Lemma om_abs_nodup s l : om_abs s l → NoDup l.*1.
Proof. intros (es & Hr & ->). rewrite kv_keys. apply Hr. Qed.

Lemma wp_om_call {R} (op : om_op) (m : M (ordered_map T K V) R) (wrap : R → om_result) s l Q :
  run_om_op op = bind m (λ r, ret (wrap r)) → om_abs s l →
  (∀ r s', wrap r = (om_spec op l).1 → om_abs s' (om_spec op l).2 → Q r s') →
  wp m Q s.
Proof.
  intros E Hl HQ. pose proof (run_om_op_spec op s l Hl) as Hr. rewrite E in Hr. apply wp_bind_inv in Hr.
  eapply wp_mono; [exact Hr|]. intros r s' (r' & s2 & [= <- <-] & Hw & Hs). by apply HQ.
Qed.

Lemma wp_abs_lookup k s l Q :
  om_abs s l → (∀ s', om_abs s' l → Q (assoc k l) s') → wp (ordered_map_lookup k) Q s.
Proof.
  intros Hl HQ. eapply (wp_om_call (OmLookup k) _ OmPtr); [done|done|]. intros r s' [= ->] Hs. by apply HQ.
Qed.

Lemma wp_abs_make_head k v s l Q :
  om_abs s l → assoc k l = Some v →
  (∀ s', om_abs s' ((k, v) :: without k l) → Q 0%Z s') → wp (ordered_map_make_item_head k) Q s.
Proof.
  intros Hl Hk HQ. eapply (wp_om_call (OmMakeHead k) _ OmInt); [done|done|]. simpl. rewrite Hk.
  intros r s' [= ->] Hs. by apply HQ.
Qed.

Lemma wp_abs_add_head k v s l Q :
  om_abs s l → assoc k l = None → (∀ s', om_abs s' ((k, v) :: l) → Q 0%Z s') →
  wp (ordered_map_add_item_head k v) Q s.
Proof.
  intros Hl Hk HQ. eapply (wp_om_call (OmAddHead k v) _ OmInt); [done|done|]. simpl. rewrite Hk.
  intros r s' [= ->] Hs. by apply HQ.
Qed.

Lemma wp_abs_remove_tail k v s l Q :
  om_abs s (l ++ [(k, v)]) → (∀ s', om_abs s' l → Q (Some v) s') → wp ordered_map_remove_tail Q s.
Proof.
  intros Hl HQ. eapply (wp_om_call OmRemoveTail _ OmPtr); [done|done|]. simpl.
  rewrite last_snoc, length_app. simpl. rewrite Nat.add_sub, take_app_length.
  intros r s' [= ->] Hs. by apply HQ.
Qed.

Lemma wp_abs_size s l Q :
  om_abs s l → (∀ s', om_abs s' l → Q (Z.of_nat (length l)) s') → wp ordered_map_size Q s.
Proof.
  intros Hl HQ. eapply (wp_om_call OmSize _ OmInt); [done|done|]. intros r s' [= ->] Hs. by apply HQ.
Qed.

Lemma wp_abs_free s l Q : om_abs s l → (∀ s', om_freed s' → Q () s') → wp ordered_map_free Q s.
Proof. intros (es & Hr & ->) HQ. by eapply wp_om_free. Qed.

(** A pair of a list with distinct keys, found by its key. *)
Lemma assoc_cases {E} (f : E → K * V) (es : list E) k :
  NoDup (f <$> es).*1 →
  (assoc k (f <$> es) = None ∧ (∀ e, e ∈ es → (f e).1 ≠ k)) ∨
  (∃ es1 e es2, es = es1 ++ e :: es2 ∧ (f e).1 = k ∧ assoc k (f <$> es) = Some (f e).2 ∧
     (f e :: without k (f <$> es) = f <$> e :: es1 ++ es2)).
Proof.
  intros Hn. destruct (decide (k ∈ (f <$> es).*1)) as [Hin|Hni].
  - right. rewrite <- list_fmap_compose in Hin. apply list_elem_of_fmap in Hin as (e & -> & He).
    apply list_elem_of_split in He as (es1 & es2 & ->). exists es1, e, es2. split; [done|]. split; [done|].
    split.
    + apply elem_of_list_to_map_1; [done|]. simpl. rewrite <- surjective_pairing.
      apply list_elem_of_fmap_2, elem_of_app. right. constructor.
    + rewrite !fmap_app, fmap_cons, NoDup_app in Hn. simpl in Hn. destruct Hn as (_ & Hn1 & [Hn2 _]%NoDup_cons).
      simpl. f_equal. unfold without. rewrite fmap_app, fmap_cons, filter_app, filter_cons_False by (simpl; tauto).
      rewrite fmap_app. f_equal; apply without_id; [|done]. intros Hin. apply (Hn1 _ Hin). constructor.
  - left. split; [by apply not_elem_of_list_to_map_1|]. intros e He <-. apply Hni.
    apply (list_elem_of_fmap_2 fst), (list_elem_of_fmap_2 f), He.
Qed.
End client.
