(* ===== verification/DatasetCache.v ===== *)
(** * The cache of open datasets of a file (src/src/hdf5/dataset_cache.c)

    The file is compiled twice, for the reader process and, with
    [SHADOW_CACHE], for the library: the flag is the parameter [shadow]. *)
From stdpp Require Import base tactics numbers list gmap.
From S2P Require Import Prelude MapInterface OrderedMap Caches.

(** [struct dataset_cache_entry] *)
Record dataset_cache_entry (K : Type) := DEntry {
  de_dataset_id : Z;
  de_name : K;
}.
Arguments DEntry {K} _ _.
Arguments de_dataset_id {K} _.
Arguments de_name {K} _.

(** [struct dataset_cache], with the memory of its entries. *)
Record dataset_cache (T K : Type) := DCache {
  dc_max_open_datasets : Z;
  dc_file_id : Z;
  dc_map : ordered_map T K positive;
  dc_entries : gmap positive (dataset_cache_entry K);
}.
Arguments DCache {T K} _ _ _ _.
Arguments dc_max_open_datasets {T K} _.
Arguments dc_file_id {T K} _.
Arguments dc_map {T K} _.
Arguments dc_entries {T K} _.

Section dataset_cache.
Context {T K L : Type} `{KVMapLaws T K positive} `{!H5Files K L, !H5FilesLaws K L}.
Context (shadow : bool).
Abbreviation state := (L * dataset_cache T K)%type.
Implicit Types (d : dataset_cache T K) (h : L).

(** Access to the parts of the state. *)
Definition hdf5 {A} : M L A → M state A := zoom fst (λ h s, (h, s.2)).
Definition map {A} : M (ordered_map T K positive) A → M state A :=
  zoom (λ s, dc_map s.2) (λ m s,
    (s.1, DCache (dc_max_open_datasets s.2) (dc_file_id s.2) m (dc_entries s.2))).
Definition E : heap_of state (dataset_cache_entry K) :=
  HeapOf (λ s, dc_entries s.2) (λ e s,
    (s.1, DCache (dc_max_open_datasets s.2) (dc_file_id s.2) (dc_map s.2) e)).

#[local] Arguments whileM : simpl never.

(** ** The operations *)

Definition dataset_cache_new (file_id max_open_datasets : Z) : dataset_cache T K :=
  DCache max_open_datasets file_id ordered_map_new ∅.

(** The body of the loops that close the last dataset of the list. *)
Definition close_last_dataset : M state () :=
  let! last_entry := map ordered_map_remove_tail in
  let! e := load E last_entry in
  do! when (negb shadow) (hdf5 (H5Dclose (de_dataset_id e))) in
  free E last_entry.

Definition dataset_cache_free : M state () :=
  let! size := map ordered_map_size in
  do! whileM (S (Z.to_nat size)) (λ _ : (), let! n := map ordered_map_size in ret (0 <? n)%Z)
        (λ _, close_last_dataset) () in
  map ordered_map_free.

Definition dataset_cache_open_dataset (name : K) : M state Z :=
  let! entry := map (ordered_map_lookup name) in
  if is_set entry then
    let! e := load E entry in
    do! assertM (bool_decide (de_name e = name)) in
    let! _ := map (ordered_map_make_item_head name) in
    let! e := load E entry in
    ret (de_dataset_id e)
  else
    let! file_id := gets (λ s : state, dc_file_id s.2) in
    let! dataset_id := if shadow then ret 0%Z else hdf5 (H5Dopen file_id name) in
    if (dataset_id <? 0)%Z then ret dataset_id else
    let! max := gets (λ s : state, dc_max_open_datasets s.2) in
    do! assertM (1 <=? max)%Z in
    let! size := map ordered_map_size in
    do! whileM (S (Z.to_nat size)) (λ _ : (), let! n := map ordered_map_size in ret (max <=? n)%Z)
          (λ _, close_last_dataset) () in
    let! new_entry := malloc E (DEntry dataset_id name) in
    let! _ := map (ordered_map_add_item_head name new_entry) in
    ret dataset_id.

(** ** Representation: one entry per open dataset, the last used first *)

Record dsent := Dsent { dn_ptr : positive; dn_name : K; dn_id : Z }.
Implicit Types es : list dsent.
Definition dn_kv (e : dsent) : K * positive := (dn_name e, dn_ptr e).
Definition dn_item (e : dsent) : positive * dataset_cache_entry K := (dn_ptr e, DEntry (dn_id e) (dn_name e)).
(** What the clients see: names and handles. *)
Definition dn_view (e : dsent) : K * Z := (dn_name e, dn_id e).

Record dc_rep d es : Prop := {
  dr_map : om_abs (dc_map d) (dn_kv <$> es);
  dr_entries : dc_entries d = list_to_map (dn_item <$> es);
  dr_ptrs : NoDup (dn_ptr <$> es);
}.

Lemma item_ptrs es : (dn_item <$> es).*1 = dn_ptr <$> es.
Proof. by rewrite <- list_fmap_compose. Qed.

Lemma dc_rep_entry d es1 e es2 : dc_rep d (es1 ++ e :: es2) →
  dc_entries d !! dn_ptr e = Some (DEntry (dn_id e) (dn_name e)).
Proof.
  intros [_ -> Hn]. apply elem_of_list_to_map_1; [by rewrite item_ptrs|].
  apply (list_elem_of_fmap_2 dn_item), elem_of_app. right. constructor.
Qed.

Lemma dc_entries_perm es es' :
  NoDup (dn_ptr <$> es) → es ≡ₚ es' → (list_to_map (dn_item <$> es) : gmap positive _) = list_to_map (dn_item <$> es').
Proof. intros Hn Hp. apply list_to_map_proper; [by rewrite item_ptrs|by rewrite Hp]. Qed.

Lemma dc_entries_remove es1 e es2 : NoDup (dn_ptr <$> es1 ++ e :: es2) →
  delete (dn_ptr e) (list_to_map (dn_item <$> es1 ++ e :: es2)) =
    (list_to_map (dn_item <$> es1 ++ es2) : gmap positive _) ∧ NoDup (dn_ptr <$> es1 ++ es2).
Proof.
  intros Hn. rewrite (dc_entries_perm _ (e :: es1 ++ es2)) by (done || by rewrite Permutation_middle).
  rewrite <- Permutation_middle in Hn. apply NoDup_cons in Hn as [Hni Hn]. split; [|done]. simpl.
  rewrite delete_insert_id; [done|]. apply not_elem_of_list_to_map_1. by rewrite item_ptrs.
Qed.

(** The handles of the cache of the file [w], when it is not a shadow. *)
Definition dn_handles (w : h5_what) es : list (Z * h5_what) := (λ e, (dn_id e, h5_member w (dn_name e))) <$> es.

(** Closing the last dataset of the list. *)
Lemma wp_close_last w h d es e base hs (Q : () → state → Prop) :
  dc_rep d (es ++ [e]) → owns shadow h base (dn_handles w (es ++ [e]) ++ hs) →
  (∀ h' d', dc_rep d' es → owns shadow h' base (dn_handles w es ++ hs) →
     dc_max_open_datasets d' = dc_max_open_datasets d → dc_file_id d' = dc_file_id d → Q () (h', d')) →
  wp close_last_dataset Q (h, d).
Proof.
  intros Hr Ho HQ. pose proof (dc_rep_entry _ _ _ _ Hr) as He. destruct Hr as [Hm Hen Hn].
  unfold close_last_dataset. wp_step. apply wp_zoom. simpl. rewrite fmap_app in Hm. simpl in Hm.
  eapply wp_abs_remove_tail; [exact Hm|]. intros m' Hm'. wp_step. eapply wp_load; [exact He|]. wp_step.
  rewrite Hen. destruct (dc_entries_remove _ _ _ Hn) as [Hen' Hn'].
  assert (∀ h', owns shadow h' base (dn_handles w es ++ hs) → wp (free E (Some (dn_ptr e))) Q
    (h', DCache (dc_max_open_datasets d) (dc_file_id d) m' (list_to_map (dn_item <$> es ++ [e])))) as Hfin.
  { intros h' Ho'. eapply wp_free; [simpl; by rewrite <- Hen|]. simpl. rewrite Hen', app_nil_r.
    rewrite app_nil_r in Hn'. apply HQ; [by split|done|done|done]. }
  assert (dn_handles w (es ++ [e]) ++ hs ≡ₚ (dn_id e, h5_member w (dn_name e)) :: dn_handles w es ++ hs) as Hp.
  { unfold dn_handles. rewrite fmap_app, <- app_assoc. simpl. by rewrite Permutation_middle. }
  apply (owns_perm _ _ _ _ _ Hp) in Ho. apply wp_when.
  - intros Hs%negb_true_iff. apply wp_zoom. simpl. apply dclose_law.
    { eexists. eapply owns_elem; [exact Ho|done|constructor]. }
    intros h' Hh'. apply Hfin. rewrite Hs in *. by eapply owns_closed.
  - intros Hs%negb_false_iff. apply Hfin. by rewrite Hs in *.
Qed.

(** The loops that do so until at most [m] datasets are left. *)
Lemma wp_close_loop w m cond fuel h d es base hs (Q : () → state → Prop) :
  (∀ h d es (Q : bool → state → Prop), dc_rep d es →
     (∀ d', dc_rep d' es → dc_max_open_datasets d' = dc_max_open_datasets d → dc_file_id d' = dc_file_id d →
        Q (bool_decide (m < length es)) (h, d')) → wp cond Q (h, d)) →
  dc_rep d es → owns shadow h base (dn_handles w es ++ hs) → length es < fuel →
  (∀ h' d', dc_rep d' (take m es) → owns shadow h' base (dn_handles w (take m es) ++ hs) →
     dc_max_open_datasets d' = dc_max_open_datasets d → dc_file_id d' = dc_file_id d → Q () (h', d')) →
  wp (whileM fuel (λ _ : (), cond) (λ _, close_last_dataset) ()) Q (h, d).
Proof.
  intros Hcond Hr Ho Hf HQ. revert h d es Hr Ho Hf HQ.
  induction fuel as [|fuel IH]; intros h d es Hr Ho Hf HQ; [lia|]. rewrite whileM_S.
  wp_step. eapply Hcond; [exact Hr|]. intros d1 Hr1 Hm1 Hi1. rewrite <- Hm1, <- Hi1 in HQ.
  destruct es as [|e es _] using rev_ind.
  { rewrite bool_decide_false by (simpl; lia). wp_step. rewrite take_nil in HQ. by apply HQ. }
  rewrite length_app in Hf. simpl in Hf. case_bool_decide as Hlen.
  - rewrite length_app in Hlen. simpl in Hlen. wp_step. eapply wp_close_last; [exact Hr1|exact Ho|].
    intros h' d' Hr' Ho' Hm' Hi'. eapply IH; [exact Hr'|exact Ho'|lia|].
    rewrite Hm', Hi'. rewrite take_app_le in HQ by lia. exact HQ.
  - rewrite take_ge in HQ by lia. wp_step. by apply HQ.
Qed.

(** The condition of both loops. *)
Lemma wp_size_cond m (test : Z → bool) h d es (Q : bool → state → Prop) :
  (∀ n, test (Z.of_nat n) = bool_decide (m < n)) → dc_rep d es →
  (∀ d', dc_rep d' es → dc_max_open_datasets d' = dc_max_open_datasets d → dc_file_id d' = dc_file_id d →
     Q (bool_decide (m < length es)) (h, d')) →
  wp (let! n := map ordered_map_size in ret (test n)) Q (h, d).
Proof.
  intros Ht [Hm Hen Hn] HQ. wp_step. apply wp_zoom. simpl. eapply wp_abs_size; [exact Hm|].
  intros m' Hm'. wp_step. rewrite length_fmap, Ht. by apply HQ.
Qed.

(** ** Correctness *)

Lemma dataset_cache_new_rep file_id max : dc_rep (dataset_cache_new file_id max) [].
Proof. split; simpl; [apply ordered_map_new_abs|done|constructor]. Qed.

Definition dc_freed d : Prop := om_freed (dc_map d) ∧ dc_entries d = ∅.

Lemma wp_dataset_cache_free w h d es base hs (Q : () → state → Prop) :
  dc_rep d es → owns shadow h base (dn_handles w es ++ hs) →
  (∀ h' d', dc_freed d' → owns shadow h' base hs → Q () (h', d')) →
  wp dataset_cache_free Q (h, d).
Proof.
  intros Hr Ho HQ. unfold dataset_cache_free. wp_step. apply wp_zoom. simpl. destruct Hr as [Hm Hen Hn].
  eapply wp_abs_size; [exact Hm|]. intros m' Hm'. rewrite length_fmap, Nat2Z.id. wp_step.
  eapply (wp_close_loop w 0); [|by split|exact Ho|lia|].
  - intros h1 d1 es1 Q1 Hr1 HQ1. eapply (wp_size_cond 0 (λ n, 0 <? n)%Z); [|exact Hr1|done].
    intros n. apply eq_true_iff_eq. rewrite bool_decide_eq_true, Z.ltb_lt. lia.
  - simpl. intros h' d' [Hm2 Hen2 _] Ho2 _ _. apply wp_zoom. simpl. eapply wp_abs_free; [exact Hm2|].
    intros m2 Hm2'. apply HQ; [|done]. split; simpl; [done|]. exact Hen2.
Qed.

(** Opening a dataset: the list afterwards, and what is returned. *)
Definition dc_opened (max : Z) (name : K) es (r : Z) es' : Prop :=
  (∃ es1 e es2, es = es1 ++ e :: es2 ∧ dn_name e = name ∧ r = dn_id e ∧ es' = e :: es1 ++ es2) ∨
  ((∀ e, e ∈ es → dn_name e ≠ name) ∧
     ((r < 0)%Z ∧ shadow = false ∧ es' = es ∨
      (0 ≤ r)%Z ∧ (shadow = true → r = 0%Z) ∧
        ∃ p, es' = Dsent p name r :: take (Z.to_nat max - 1) es)).

(** The dataset that an entry is for; none without HDF5. *)
Lemma wp_open_dataset_id w name h d base hs (Q : Z → state → Prop) :
  owns shadow h base hs → (dc_file_id d, w) ∈ hs ∨ shadow = true →
  (∀ r h', (r < 0)%Z → shadow = false → owns shadow h' base hs → Q r (h', d)) →
  (∀ r h', (0 ≤ r)%Z → (shadow = true → r = 0%Z) → owns shadow h' base (if shadow then hs else (r, h5_member w name) :: hs) → Q r (h', d)) →
  wp (if shadow then ret 0%Z else hdf5 (H5Dopen (dc_file_id d) name)) Q (h, d).
Proof.
  intros Ho Hfile Hneg Hpos. destruct shadow; [wp_step; by apply Hpos|].
  apply wp_zoom. simpl.
  eapply dopen_law; [eapply owns_elem; [exact Ho|done|destruct Hfile as [Hf|Hf]; [exact Hf|done]]|].
  intros r h' Hop. destruct (owns_opened _ _ _ _ _ _ Hop Ho) as [[? ?]|[? ?]]; [by apply Hneg|by apply Hpos].
Qed.

(** An entry for a dataset that has none is added in front. *)
Lemma wp_add_dataset name r h d es (Q : Z → state → Prop) :
  dc_rep d es → (∀ e, e ∈ es → dn_name e ≠ name) →
  (∀ d' p, dc_rep d' (Dsent p name r :: es) → dc_max_open_datasets d' = dc_max_open_datasets d →
     dc_file_id d' = dc_file_id d → Q r (h, d')) →
  wp (let! new_entry := malloc E (DEntry r name) in
      let! _ := map (ordered_map_add_item_head name new_entry) in
      ret r) Q (h, d).
Proof.
  intros [Hm Hen Hn] Hni HQ. wp_step. apply wp_malloc. intros p Hp. simpl in Hp. wp_step. apply wp_zoom. simpl.
  eapply wp_abs_add_head; [exact Hm| |].
  { destruct (assoc_cases dn_kv es name (om_abs_nodup _ _ Hm)) as [[? _]|(es1 & e & es2 & -> & Hk & _)]; [done|].
    exfalso. apply (Hni e); [|done]. apply elem_of_app. right. constructor. }
  intros m4 Hm4. wp_step. apply (HQ _ p); [|done|done]. split; simpl; [exact Hm4|by rewrite Hen|].
  apply NoDup_cons. split; [|done]. rewrite Hen in Hp. apply not_elem_of_list_to_map_2 in Hp. by rewrite item_ptrs in Hp.
Qed.

(** The entry of a dataset that is open moves to the front. *)
Lemma wp_touch_dataset h d es1 e es2 (Q : Z → state → Prop) :
  dc_rep d (es1 ++ e :: es2) → assoc (dn_name e) (dn_kv <$> es1 ++ e :: es2) = Some (dn_ptr e) →
  dn_kv e :: without (dn_name e) (dn_kv <$> es1 ++ e :: es2) = dn_kv <$> e :: es1 ++ es2 →
  (∀ d', dc_rep d' (e :: es1 ++ es2) → dc_max_open_datasets d' = dc_max_open_datasets d →
     dc_file_id d' = dc_file_id d → Q (dn_id e) (h, d')) →
  wp (let! c := load E (Some (dn_ptr e)) in
      do! assertM (bool_decide (de_name c = dn_name e)) in
      let! _ := map (ordered_map_make_item_head (dn_name e)) in
      let! c := load E (Some (dn_ptr e)) in
      ret (de_dataset_id c)) Q (h, d).
Proof.
  intros Hr Ha Hw HQ. pose proof (dc_rep_entry _ _ _ _ Hr) as He.
  wp_step. eapply wp_load; [exact He|]. wp_step. apply wp_assert; [by apply bool_decide_true|]. wp_step.
  apply wp_zoom. simpl. eapply wp_abs_make_head; [apply Hr|exact Ha|]. intros m2 Hm2. wp_step.
  eapply wp_load; [exact He|]. wp_step. apply HQ; [|done|done]. destruct Hr as [_ Hen Hn].
  assert (es1 ++ e :: es2 ≡ₚ e :: es1 ++ es2) as Hp by (by rewrite Permutation_middle).
  split; [exact (eq_ind_r (λ l, om_abs m2 l) Hm2 (eq_sym Hw))| |by rewrite <- Hp].
  simpl. rewrite Hen. exact (dc_entries_perm _ _ Hn Hp).
Qed.

Lemma wp_dataset_cache_open_dataset w h d es base hs name (Q : Z → state → Prop) :
  dc_rep d es → owns shadow h base (dn_handles w es ++ hs) → (1 ≤ dc_max_open_datasets d)%Z →
  (dc_file_id d, w) ∈ hs ∨ shadow = true →
  (∀ r h' d' es', dc_opened (dc_max_open_datasets d) name es r es' → dc_rep d' es' →
     owns shadow h' base (dn_handles w es' ++ hs) →
     dc_max_open_datasets d' = dc_max_open_datasets d → dc_file_id d' = dc_file_id d → Q r (h', d')) →
  wp (dataset_cache_open_dataset name) Q (h, d).
Proof.
  intros Hr Ho Hmax Hfile HQ. unfold dataset_cache_open_dataset. wp_step. apply wp_zoom. simpl.
  eapply wp_abs_lookup; [apply Hr|]. intros m1 Hm1. set (d1 := DCache _ _ m1 _).
  assert (dc_rep d1 es) as Hr1 by (destruct Hr; by split).
  destruct (assoc_cases dn_kv es name (om_abs_nodup _ _ (dr_map _ _ Hr))) as [[Ha Hni]|(es1 & e & es2 & -> & Hk & Ha & Hw)];
    rewrite Ha; simpl.
  - wp_step. wp_step. wp_step. eapply (wp_open_dataset_id w name _ d1); [exact Ho| |..].
    { destruct Hfile; [left|by right]. apply elem_of_app. by right. }
    all: intros r h1 Hrr Hs Ho1.
    { rewrite (proj2 (Z.ltb_lt _ _)) by lia. wp_step. eapply HQ; [|exact Hr1|done|done|done].
      right. split; [done|]. by left. }
    rewrite (proj2 (Z.ltb_ge _ _)) by lia. wp_steps. apply wp_assert; [by apply Z.leb_le|]. wp_step.
    apply wp_zoom. simpl. eapply wp_abs_size; [exact Hm1|]. intros m2 Hm2. rewrite length_fmap, Nat2Z.id.
    wp_step. set (m := Z.to_nat (dc_max_open_datasets d) - 1).
    eapply (wp_close_loop w m _ _ _ _ es base (if shadow then hs else (r, h5_member w name) :: hs)).
    + intros h2 d2 es2 Q2 Hr2 HQ2. eapply (wp_size_cond m (λ n, dc_max_open_datasets d <=? n)%Z); [|exact Hr2|done].
      intros n. apply eq_true_iff_eq. rewrite bool_decide_eq_true, Z.leb_le. lia.
    + destruct Hr1. by split.
    + destruct shadow; [exact Ho1|]. eapply owns_perm; [|exact Ho1]. by rewrite Permutation_middle.
    + lia.
    + intros h2 d2 Hr2 Ho2 Hmx Hid. simpl in Hmx, Hid. eapply wp_add_dataset; [exact Hr2| |].
      { intros e He. apply Hni. rewrite <- (take_drop m es). apply elem_of_app. by left. }
      intros d' p Hr' Hmx' Hid'. eapply HQ; [|exact Hr'| |congruence|congruence].
      * right. split; [done|]. right. split; [done|]. split; [done|]. by exists p.
      * destruct shadow; [exact Ho2|]. eapply owns_perm; [|exact Ho2]. simpl. by rewrite Permutation_middle.
  - simpl in Hk. subst name. eapply wp_touch_dataset; [exact Hr1|exact Ha|exact Hw|]. intros d' Hr' Hmx Hid.
    eapply HQ; [|exact Hr'| |done|done]; [left; by exists es1, e, es2|].
    eapply owns_perm; [|exact Ho]. unfold dn_handles. by rewrite <- (Permutation_middle es1 es2 e).
Qed.
End dataset_cache.
