(* ===== verification/FileCache.v ===== *)
(** * The cache of open files (src/src/hdf5/file_cache.c)

    Each open file has a cache of its open datasets (DatasetCache.v).  Like that
    one, the file is compiled for the reader process and as a shadow copy for
    the library.  [now] is what [time(NULL)] returns. *)
From stdpp Require Import base tactics numbers list gmap.
From S2P Require Import Prelude MapInterface OrderedMap Caches DatasetCache.

(** [struct file_cache_entry] *)
Record file_cache_entry (K : Type) := FEntry {
  fe_file_id : Z;
  fe_last_accessed : Z;
  fe_name : K;
  fe_ds_cache : option positive;
}.
Arguments FEntry {K} _ _ _ _.
Arguments fe_file_id {K} _.
Arguments fe_last_accessed {K} _.
Arguments fe_name {K} _.
Arguments fe_ds_cache {K} _.

(** [struct file_cache], with the memory of its entries and of their dataset
    caches.  The counters, of type [int] in C, are without bound here. *)
Record file_cache (T K : Type) := FCache {
  fc_max_open_files : Z;
  fc_max_open_datasets : Z;
  fc_map : ordered_map T K positive;
  fc_nr_cache_hits : Z;
  fc_nr_cache_misses : Z;
  fc_entries : gmap positive (file_cache_entry K);
  fc_ds_caches : gmap positive (dataset_cache T K);
}.
Arguments FCache {T K} _ _ _ _ _ _ _.
Arguments fc_max_open_files {T K} _.
Arguments fc_max_open_datasets {T K} _.
Arguments fc_map {T K} _.
Arguments fc_nr_cache_hits {T K} _.
Arguments fc_nr_cache_misses {T K} _.
Arguments fc_entries {T K} _.
Arguments fc_ds_caches {T K} _.

Section file_cache.
Context {T K L : Type} `{KVMapLaws T K positive} `{!H5Files K L, !H5FilesLaws K L}.
Context (shadow : bool).
Abbreviation state := (L * file_cache T K)%type.
Implicit Types (c : file_cache T K) (h : L).

Definition fhdf5 {A} : M L A → M state A := zoom fst (λ h s, (h, s.2)).
Definition fmap_ {A} : M (ordered_map T K positive) A → M state A :=
  zoom (λ s, fc_map s.2) (λ m s, (s.1, FCache (fc_max_open_files s.2) (fc_max_open_datasets s.2) m
    (fc_nr_cache_hits s.2) (fc_nr_cache_misses s.2) (fc_entries s.2) (fc_ds_caches s.2))).
Definition F : heap_of state (file_cache_entry K) :=
  HeapOf (λ s, fc_entries s.2) (λ e s, (s.1, FCache (fc_max_open_files s.2) (fc_max_open_datasets s.2)
    (fc_map s.2) (fc_nr_cache_hits s.2) (fc_nr_cache_misses s.2) e (fc_ds_caches s.2))).
Definition DS : heap_of state (dataset_cache T K) :=
  HeapOf (λ s, fc_ds_caches s.2) (λ d s, (s.1, FCache (fc_max_open_files s.2) (fc_max_open_datasets s.2)
    (fc_map s.2) (fc_nr_cache_hits s.2) (fc_nr_cache_misses s.2) (fc_entries s.2) d)).
Definition count_cache (hits misses : Z) : M state () :=
  modify (λ s : state, (s.1, FCache (fc_max_open_files s.2) (fc_max_open_datasets s.2) (fc_map s.2)
    (fc_nr_cache_hits s.2 + hits) (fc_nr_cache_misses s.2 + misses) (fc_entries s.2) (fc_ds_caches s.2))).
(** A call on the dataset cache at an address. *)
Definition on_ds_cache {A} (p : option positive) (m : M (L * dataset_cache T K) A) : M state A :=
  let! d := load DS p in
  λ s, match m (s.1, d) with
       | Some (a, (h', d')) => store DS p (λ _, d') (h', s.2) ≫= λ r, Some (a, r.2)
       | None => None
       end.

#[local] Arguments whileM : simpl never.

(** ** The operations *)

Definition file_cache_entry_new (now file_id : Z) (name : K) (max_open_datasets : Z) : M state loc :=
  let! entry := malloc F (FEntry file_id now name None) in
  let! ds_cache := malloc DS (dataset_cache_new file_id max_open_datasets) in
  do! store F (Some entry) (λ e, FEntry (fe_file_id e) (fe_last_accessed e) (fe_name e) (Some ds_cache)) in
  ret entry.

Definition file_cache_entry_free (entry : option positive) : M state () :=
  let! e := load F entry in
  do! on_ds_cache (fe_ds_cache e) (dataset_cache_free shadow) in
  do! free DS (fe_ds_cache e) in
  free F entry.

Definition file_cache_new (max_open_files max_open_datasets : Z) : file_cache T K :=
  FCache max_open_files max_open_datasets ordered_map_new 0 0 ∅ ∅.

(** The body of the loops that close the last file of the list. *)
Definition close_last_file : M state () :=
  let! last_entry := fmap_ ordered_map_remove_tail in
  let! e := load F last_entry in
  do! when (negb shadow) (fhdf5 (H5Fclose (fe_file_id e))) in
  file_cache_entry_free last_entry.

Definition file_cache_free : M state () :=
  let! size := fmap_ ordered_map_size in
  do! whileM (S (Z.to_nat size)) (λ _ : (), let! n := fmap_ ordered_map_size in ret (0 <? n)%Z)
        (λ _, close_last_file) () in
  fmap_ ordered_map_free.

Definition file_cache_open_file (now : Z) (name : K) : M state (option positive) :=
  let! entry := fmap_ (ordered_map_lookup name) in
  if is_set entry then
    let! e := load F entry in
    do! assertM (bool_decide (fe_name e = name)) in
    let! _ := fmap_ (ordered_map_make_item_head name) in
    do! store F entry (λ e, FEntry (fe_file_id e) now (fe_name e) (fe_ds_cache e)) in
    do! count_cache 1 0 in
    ret entry
  else
    let! file_id := if shadow then ret 0%Z else fhdf5 (H5Fopen name) in
    if (file_id <? 0)%Z then ret None else
    let! max := gets (λ s : state, fc_max_open_files s.2) in
    do! assertM (1 <=? max)%Z in
    let! size := fmap_ ordered_map_size in
    do! whileM (S (Z.to_nat size)) (λ _ : (), let! n := fmap_ ordered_map_size in ret (max <=? n)%Z)
          (λ _, close_last_file) () in
    let! max_datasets := gets (λ s : state, fc_max_open_datasets s.2) in
    let! new_entry := file_cache_entry_new now file_id name max_datasets in
    let! _ := fmap_ (ordered_map_add_item_head name new_entry) in
    do! count_cache 0 1 in
    ret (Some new_entry).

Definition file_cache_open_dataset (file : option positive) (name : K) : M state Z :=
  let! e := load F file in
  on_ds_cache (fe_ds_cache e) (dataset_cache_open_dataset shadow name).

(** [*have_file] and [*have_dataset]. *)
Definition file_cache_query (file_name : K) (dataset_name : option K) : M state (Z * Z) :=
  let! file := fmap_ (ordered_map_lookup file_name) in
  if is_set file then
    match dataset_name with
    | Some dataset_name =>
        let! e := load F file in
        let! dataset := on_ds_cache (fe_ds_cache e) (DatasetCache.map (ordered_map_lookup dataset_name)) in
        ret (1, if is_set dataset then 1 else 0)%Z
    | None => ret (1, 1)%Z
    end
  else ret (0, 0)%Z.

(** The loop that counts the entries that have expired. *)
Fixpoint count_expired (fuel : nat) (now max_age : Z) (omi : option positive) (nr_expired : Z) : M state Z :=
  match fuel with
  | 0 => ub
  | S fuel =>
      let! omi := fmap_ (ordered_map_iterate omi) in
      if is_set omi then
        let! i := fmap_ (load OrderedMap.I omi) in
        let! fce := load F (Some (omi_value i)) in
        count_expired fuel now max_age omi
          (if (fe_last_accessed fce + max_age <? now)%Z then nr_expired + 1 else nr_expired)%Z
      else ret nr_expired
  end.

Fixpoint remove_expired (nr_expired : nat) : M state () :=
  match nr_expired with
  | 0 => ret ()
  | S n => do! close_last_file in remove_expired n
  end.

(** [malloc_trim], at the end, has no effect on the state. *)
Definition file_cache_expire_entries (now max_age : Z) : M state () :=
  if (max_age <=? 0)%Z then ret () else
  let! size := fmap_ ordered_map_size in
  let! nr_expired := count_expired (S (Z.to_nat size)) now max_age None 0 in
  remove_expired (Z.to_nat nr_expired).

(** ** Clients *)

Definition RESULT_FILE_OPENED : Z := 1.
Definition RESULT_DATASET_OPENED : Z := 2.

(** The worker opens what a request asks for, and sends the result: the part
    of [do_read_dataset] and, without a dataset, of [do_read_object]. *)
Definition open_request (now : Z) (file_name : K) (dataset_name : option K) : M state Z :=
  let! file := file_cache_open_file now file_name in
  if is_set file then
    match dataset_name with
    | Some name =>
        let! dataset_id := file_cache_open_dataset file name in
        ret (if (0 <=? dataset_id)%Z then Z.lor RESULT_FILE_OPENED RESULT_DATASET_OPENED
             else RESULT_FILE_OPENED)
    | None => ret RESULT_FILE_OPENED
    end
  else ret 0%Z.

(** The library updates its shadow copy with the result it receives: in
    [hdfstream_dataset_multi_slice_open] and [hdfstream_object_open]. *)
Definition update_shadow (now retcode : Z) (file_name : K) (dataset_name : option K) : M state () :=
  if negb (Z.land retcode RESULT_FILE_OPENED =? 0)%Z then
    let! file := file_cache_open_file now file_name in
    match dataset_name with
    | Some name =>
        if negb (Z.land retcode RESULT_DATASET_OPENED =? 0)%Z then
          let! _ := file_cache_open_dataset file name in ret ()
        else ret ()
    | None => ret ()
    end
  else ret ().

(** [cache_score] of hdfstream.c *)
Definition cache_score (file_name : K) (dataset_name : option K) : M state Z :=
  let! r := file_cache_query file_name dataset_name in
  ret ((if r.1 =? 0 then 0 else 1) + (if r.2 =? 0 then 0 else 1))%Z.
End file_cache.
