(* ===== verification/FileCacheProof.v ===== *)
(** * Correctness of the file cache

    The pointer operations of FileCache.v are those of a list of open files,
    the last used first, each with its open datasets; the cache owns exactly the
    handles that it holds open. *)
From stdpp Require Import base tactics numbers list gmap.
From S2P Require Import Prelude MapInterface OrderedMap Caches DatasetCache FileCache.

Section proof.
Context {T K L : Type} `{KVMapLaws T K positive} `{!H5Files K L, !H5FilesLaws K L}.
Context (shadow : bool).
Abbreviation state := (L * file_cache T K)%type.
Implicit Types (c : file_cache T K) (h : L).

(** ** Representation *)

Record fent := Fent {
  fn_ptr : positive;
  fn_name : K;
  fn_id : Z;
  fn_time : Z;
  fn_ds_ptr : positive;
  fn_ds : dataset_cache T K;
  fn_dss : list (dsent (K := K));
}.
Implicit Types (fs : list fent) (f : fent).

Definition fn_kv f : K * positive := (fn_name f, fn_ptr f).
Definition fn_item f : positive * file_cache_entry K :=
  (fn_ptr f, FEntry (fn_id f) (fn_time f) (fn_name f) (Some (fn_ds_ptr f))).
Definition fn_cache f : positive * dataset_cache T K := (fn_ds_ptr f, fn_ds f).
Definition fn_file f : h5_what := h5_file (fn_name f).
Definition fn_handles f : list (Z * h5_what) := (fn_id f, fn_file f) :: dn_handles (fn_file f) (fn_dss f).
Definition handles fs : list (Z * h5_what) := fs ≫= fn_handles.

Definition f_ok (max_open_datasets : Z) f : Prop :=
  dc_rep (fn_ds f) (fn_dss f) ∧ dc_max_open_datasets (fn_ds f) = max_open_datasets ∧
  dc_file_id (fn_ds f) = fn_id f.

Record fc_rep c fs : Prop := {
  fr_map : om_abs (fc_map c) (fn_kv <$> fs);
  fr_entries : fc_entries c = list_to_map (fn_item <$> fs);
  fr_ptrs : NoDup (fn_ptr <$> fs);
  fr_caches : fc_ds_caches c = list_to_map (fn_cache <$> fs);
  fr_cptrs : NoDup (fn_ds_ptr <$> fs);
  fr_ok : Forall (f_ok (fc_max_open_datasets c)) fs;
}.

Lemma handles_app fs fs' : handles (fs ++ fs') = handles fs ++ handles fs'.
Proof. apply bind_app. Qed.
Lemma handles_one f : handles [f] = fn_handles f.
Proof. unfold handles. simpl. by rewrite app_nil_r. Qed.
Lemma handles_perm fs fs' : fs ≡ₚ fs' → handles fs ≡ₚ handles fs'.
Proof. intros Hp. unfold handles. by rewrite Hp. Qed.

(** A heap that holds one value for each member of a list, at its address. *)
Lemma heap_lookup {V} (g : fent → positive * V) fs1 f fs2 :
  NoDup (g <$> fs1 ++ f :: fs2).*1 →
  (list_to_map (g <$> fs1 ++ f :: fs2) : gmap positive V) !! (g f).1 = Some (g f).2.
Proof.
  intros Hn. apply elem_of_list_to_map_1; [done|]. rewrite <- surjective_pairing.
  apply list_elem_of_fmap_2, elem_of_app. right. constructor.
Qed.
Lemma heap_perm {V} (g : fent → positive * V) fs fs' :
  NoDup (g <$> fs).*1 → fs ≡ₚ fs' →
  (list_to_map (g <$> fs) : gmap positive V) = list_to_map (g <$> fs').
Proof. intros Hn Hp. apply list_to_map_proper; [done|]. by rewrite Hp. Qed.
Lemma heap_remove {V} (g : fent → positive * V) fs f fs' :
  NoDup (g <$> fs).*1 → fs ≡ₚ f :: fs' →
  delete (g f).1 (list_to_map (g <$> fs) : gmap positive V) = list_to_map (g <$> fs').
Proof.
  intros Hn Hp. rewrite (heap_perm g _ _ Hn Hp). rewrite Hp in Hn. simpl in *.
  apply NoDup_cons in Hn as [Hni _]. destruct (g f) as [a v] eqn:E. simpl in *. rewrite delete_insert_id; [done|].
  by apply not_elem_of_list_to_map_1.
Qed.
(** One of the values changes. *)
Lemma heap_update {V} (g : fent → positive * V) fs1 f f' fs2 :
  NoDup (g <$> fs1 ++ f :: fs2).*1 → (g f').1 = (g f).1 →
  <[(g f).1 := (g f').2]> (list_to_map (g <$> fs1 ++ f :: fs2) : gmap positive V) =
    list_to_map (g <$> fs1 ++ f' :: fs2).
Proof.
  intros Hn Ha.
  assert (NoDup (g <$> fs1 ++ f' :: fs2).*1) as Hn'.
  { rewrite !fmap_app in Hn |- *. simpl in *. by rewrite Ha. }
  rewrite (heap_perm g _ _ Hn (symmetry (Permutation_middle _ _ _))).
  rewrite (heap_perm g _ _ Hn' (symmetry (Permutation_middle _ _ _))). simpl.
  destruct (g f), (g f'). simpl in *. subst. by rewrite insert_insert_eq.
Qed.

Lemma fn_item_ptrs fs : (fn_item <$> fs).*1 = fn_ptr <$> fs.
Proof. by rewrite <- list_fmap_compose. Qed.
Lemma fn_cache_ptrs fs : (fn_cache <$> fs).*1 = fn_ds_ptr <$> fs.
Proof. by rewrite <- list_fmap_compose. Qed.

Lemma fc_rep_entry c fs1 f fs2 : fc_rep c (fs1 ++ f :: fs2) →
  fc_entries c !! fn_ptr f = Some (FEntry (fn_id f) (fn_time f) (fn_name f) (Some (fn_ds_ptr f))).
Proof.
  intros Hr. rewrite (fr_entries _ _ Hr). apply (heap_lookup fn_item). rewrite fn_item_ptrs. apply Hr.
Qed.
Lemma fc_rep_cache c fs1 f fs2 : fc_rep c (fs1 ++ f :: fs2) → fc_ds_caches c !! fn_ds_ptr f = Some (fn_ds f).
Proof.
  intros Hr. rewrite (fr_caches _ _ Hr). apply (heap_lookup fn_cache). rewrite fn_cache_ptrs. apply Hr.
Qed.
Lemma fc_rep_ok c fs1 f fs2 : fc_rep c (fs1 ++ f :: fs2) → f_ok (fc_max_open_datasets c) f.
Proof. intros Hr. pose proof (fr_ok _ _ Hr) as Hf. by apply Forall_app in Hf as [_ [? _]%Forall_cons]. Qed.

(** What does not change. *)
Definition same_limits c c' : Prop :=
  fc_max_open_files c' = fc_max_open_files c ∧ fc_max_open_datasets c' = fc_max_open_datasets c.

(** A call on the dataset cache of a file. *)
Lemma wp_on_ds_cache {A} (m : M (L * dataset_cache T K) A) h c fs1 f fs2 (Q : A → state → Prop) :
  fc_rep c (fs1 ++ f :: fs2) →
  wp m (λ a s, ∀ c', fc_ds_caches c' = <[fn_ds_ptr f := s.2]> (fc_ds_caches c) →
      fc_map c' = fc_map c → fc_entries c' = fc_entries c → same_limits c c' →
      Q a (s.1, c')) (h, fn_ds f) →
  wp (on_ds_cache (Some (fn_ds_ptr f)) m) Q (h, c).
Proof.
  intros Hr (a & [h' d'] & Hm & HQ). pose proof (fc_rep_cache _ _ _ _ Hr) as Hd.
  unfold on_ds_cache. wp_step. eapply wp_load; [exact Hd|].
  exists a. eexists. split.
  - simpl. rewrite Hm. unfold store. simpl. rewrite Hd. simpl. done.
  - by apply HQ.
Qed.

(** ** Closing the last file *)

Lemma wp_close_last_file h c fs f base hs (Q : () → state → Prop) :
  fc_rep c (fs ++ [f]) → owns shadow h base (handles (fs ++ [f]) ++ hs) →
  (∀ h' c', fc_rep c' fs → owns shadow h' base (handles fs ++ hs) → same_limits c c' → Q () (h', c')) →
  wp (close_last_file shadow) Q (h, c).
Proof.
  intros Hr Ho HQ. unfold close_last_file. wp_step. apply wp_zoom. simpl.
  pose proof (fr_map _ _ Hr) as Hm. rewrite fmap_app in Hm. simpl in Hm.
  eapply wp_abs_remove_tail; [exact Hm|]. intros m1 Hm1. wp_step.
  set (c1 := FCache _ _ m1 _ _ _ _).
  eapply wp_load; [exact (fc_rep_entry _ _ _ _ Hr)|]. wp_step.
  assert (handles (fs ++ [f]) ++ hs ≡ₚ (fn_id f, fn_file f) :: (dn_handles (fn_file f) (fn_dss f) ++ handles fs ++ hs)) as Hp.
  { rewrite handles_app, handles_one, <- app_assoc. simpl. rewrite <- Permutation_middle.
    apply perm_skip. by rewrite !app_assoc, (Permutation_app_comm (handles fs)). }
  apply (owns_perm _ _ _ _ _ Hp) in Ho.
  assert (∀ h', owns shadow h' base (dn_handles (fn_file f) (fn_dss f) ++ handles fs ++ hs) →
    wp (file_cache_entry_free shadow (Some (fn_ptr f))) Q (h', c1)) as Hfin.
  { clear Ho. intros h1 Ho. unfold file_cache_entry_free. wp_step.
    eapply wp_load; [exact (fc_rep_entry _ _ _ _ Hr)|]. simpl. wp_step.
    unfold on_ds_cache. wp_step. eapply wp_load; [exact (fc_rep_cache _ _ _ _ Hr)|].
    destruct (fc_rep_ok _ _ _ _ Hr) as (Hd & _ & Hid).
    destruct (wp_dataset_cache_free shadow (fn_file f) h1 (fn_ds f) (fn_dss f) base (handles fs ++ hs)
      (λ _ s, owns shadow s.1 base (handles fs ++ hs)) Hd Ho) as ([] & [h2 d2] & Hrun & Ho2); [done|].
    simpl in Ho2. eexists (), _. split.
    { simpl. rewrite Hrun. unfold store. simpl. rewrite (fc_rep_cache _ _ _ _ Hr). simpl. done. }
    wp_step. eapply wp_free; [simpl; by rewrite lookup_insert_eq|]. simpl. rewrite delete_insert_eq.
    eapply wp_free; [exact (fc_rep_entry _ _ _ _ Hr)|]. simpl.
    assert (fs ++ [f] ≡ₚ f :: fs) as Hpf by (by rewrite Permutation_app_comm).
    apply HQ; [|done|done]. destruct Hr as [_ He Hn1 Hc Hn2 Hf]. split; simpl.
    - exact Hm1.
    - rewrite He. apply (heap_remove fn_item); [by rewrite fn_item_ptrs|done].
    - rewrite Hpf in Hn1. by apply NoDup_cons in Hn1 as [_ ?].
    - rewrite Hc. apply (heap_remove fn_cache); [by rewrite fn_cache_ptrs|done].
    - rewrite Hpf in Hn2. by apply NoDup_cons in Hn2 as [_ ?].
    - by apply Forall_app in Hf as [? _]. }
  apply wp_when.
  - intros Hs%negb_true_iff. apply wp_zoom. simpl. apply fclose_law.
    { eexists. eapply owns_elem; [exact Ho|done|constructor]. }
    intros h1 Hh1. apply Hfin. rewrite Hs in *. by eapply owns_closed.
  - intros Hs%negb_false_iff. apply Hfin. by rewrite Hs in *.
Qed.

#[local] Arguments whileM : simpl never.

(** The loops that do so until at most [m] files are left. *)
Lemma wp_close_files m test fuel h c fs base hs (Q : () → state → Prop) :
  (∀ n, test (Z.of_nat n) = bool_decide (m < n)) →
  fc_rep c fs → owns shadow h base (handles fs ++ hs) → length fs < fuel →
  (∀ h' c', fc_rep c' (take m fs) → owns shadow h' base (handles (take m fs) ++ hs) →
     same_limits c c' → Q () (h', c')) →
  wp (whileM fuel (λ _ : (), let! n := fmap_ ordered_map_size in ret (test n))
        (λ _, close_last_file shadow) ()) Q (h, c).
Proof.
  intros Htest Hr Ho Hf HQ. revert h c fs Hr Ho Hf HQ.
  induction fuel as [|fuel IH]; intros h c fs Hr Ho Hf HQ; [lia|]. rewrite whileM_S.
  wp_step. wp_step. apply wp_zoom. simpl. eapply wp_abs_size; [apply Hr|]. intros m1 Hm1. wp_step.
  set (c1 := FCache _ _ m1 _ _ _ _). assert (fc_rep c1 fs) as Hr1 by (destruct Hr; by split).
  rewrite length_fmap, Htest. destruct fs as [|f fs _] using rev_ind.
  { rewrite bool_decide_false by (simpl; lia). wp_step. rewrite take_nil in HQ. by apply HQ. }
  rewrite length_app in Hf. simpl in Hf. case_bool_decide as Hlen.
  - rewrite length_app in Hlen. simpl in Hlen. wp_step. eapply wp_close_last_file; [exact Hr1|exact Ho|].
    intros h2 c2 Hr2 Ho2 [Hs1 Hs2]. eapply IH; [exact Hr2|exact Ho2|lia|].
    rewrite take_app_le in HQ by lia. intros h3 c3 Hr3 Ho3 [Hs3 Hs4]. apply HQ; [done|done|].
    split; etrans; eassumption.
  - rewrite take_ge in HQ by lia. wp_step. by apply HQ.
Qed.

(** ** New and free *)

Lemma file_cache_new_rep max_files max_datasets : fc_rep (file_cache_new max_files max_datasets) [].
Proof. split; simpl; try done; try constructor. apply ordered_map_new_abs. Qed.

Definition fc_freed c : Prop := om_freed (fc_map c) ∧ fc_entries c = ∅ ∧ fc_ds_caches c = ∅.

Lemma wp_file_cache_free h c fs base hs (Q : () → state → Prop) :
  fc_rep c fs → owns shadow h base (handles fs ++ hs) →
  (∀ h' c', fc_freed c' → owns shadow h' base hs → Q () (h', c')) →
  wp (file_cache_free shadow) Q (h, c).
Proof.
  intros Hr Ho HQ. unfold file_cache_free. wp_step. apply wp_zoom. simpl.
  eapply wp_abs_size; [apply Hr|]. intros m1 Hm1. rewrite length_fmap, Nat2Z.id. wp_step.
  eapply (wp_close_files 0 (λ n, 0 <? n)%Z); [|destruct Hr; by split|exact Ho|lia|].
  - intros n. apply eq_true_iff_eq. rewrite bool_decide_eq_true, Z.ltb_lt. lia.
  - simpl. intros h2 c2 Hr2 Ho2 _. apply wp_zoom. eapply wp_abs_free; [apply Hr2|].
    intros m2 Hm2. apply HQ; [|done]. split; simpl; [done|]. split; [apply (fr_entries _ _ Hr2)|apply (fr_caches _ _ Hr2)].
Qed.

(** ** Opening a file *)

Definition touch (now : Z) f : fent :=
  Fent (fn_ptr f) (fn_name f) (fn_id f) now (fn_ds_ptr f) (fn_ds f) (fn_dss f).

(** An entry moves to the front and is changed there, at the same addresses. *)
Lemma fc_rep_front c c' fs1 f f' fs2 :
  fc_rep c (fs1 ++ f :: fs2) → fn_ptr f' = fn_ptr f → fn_ds_ptr f' = fn_ds_ptr f →
  om_abs (fc_map c') (fn_kv <$> f' :: fs1 ++ fs2) →
  fc_entries c' = <[fn_ptr f := (fn_item f').2]> (fc_entries c) →
  fc_ds_caches c' = <[fn_ds_ptr f := fn_ds f']> (fc_ds_caches c) →
  fc_max_open_datasets c' = fc_max_open_datasets c → f_ok (fc_max_open_datasets c) f' →
  fc_rep c' (f' :: fs1 ++ fs2).
Proof.
  intros [Hm He Hn1 Hc Hn2 Hf] Ep Ed Hm' He' Hc' Hl Hok.
  assert (NoDup (fn_ptr <$> fs1 ++ f' :: fs2)) as Hn1'.
  { rewrite !fmap_app in Hn1 |- *. simpl in *. by rewrite Ep. }
  assert (NoDup (fn_ds_ptr <$> fs1 ++ f' :: fs2)) as Hn2'.
  { rewrite !fmap_app in Hn2 |- *. simpl in *. by rewrite Ed. }
  assert (fs1 ++ f' :: fs2 ≡ₚ f' :: fs1 ++ fs2) as Hp by (by rewrite Permutation_middle).
  split.
  - exact Hm'.
  - rewrite He', He. change (fn_ptr f) with (fn_item f).1. rewrite (heap_update fn_item).
    + apply heap_perm; [by rewrite fn_item_ptrs|done].
    + by rewrite fn_item_ptrs.
    + exact Ep.
  - by rewrite <- Hp.
  - rewrite Hc', Hc. change (fn_ds_ptr f) with (fn_cache f).1. change (fn_ds f') with (fn_cache f').2.
    rewrite (heap_update fn_cache).
    + apply heap_perm; [by rewrite fn_cache_ptrs|done].
    + by rewrite fn_cache_ptrs.
    + exact Ed.
  - by rewrite <- Hp.
  - rewrite Hl. constructor; [done|]. rewrite Forall_app, Forall_cons in Hf. apply Forall_app. tauto.
Qed.

(** The file that an entry is for; none without HDF5. *)
Lemma wp_open_file_id name h c base hs (Q : Z → state → Prop) :
  owns shadow h base hs →
  (∀ r h', (r < 0)%Z → shadow = false → owns shadow h' base hs → Q r (h', c)) →
  (∀ r h', (0 ≤ r)%Z → owns shadow h' base (if shadow then hs else (r, h5_file name) :: hs) → Q r (h', c)) →
  wp (if shadow then ret 0%Z else fhdf5 (H5Fopen name)) Q (h, c).
Proof.
  intros Ho Hneg Hpos. destruct shadow; [wp_step; by apply Hpos|].
  apply wp_zoom. simpl. apply fopen_law. intros r h' Hop.
  destruct (owns_opened _ _ _ _ _ _ Hop Ho) as [[? ?]|[? ?]]; [by apply Hneg|by apply Hpos].
Qed.

(** An entry for a file that has none is added in front. *)
Lemma wp_add_file name r now h c fs (Q : option positive → state → Prop) :
  fc_rep c fs → (∀ f, f ∈ fs → fn_name f ≠ name) →
  (∀ c' f, fn_name f = name → fn_id f = r → fn_time f = now → fn_dss f = [] → fc_rep c' (f :: fs) →
     same_limits c c' → Q (Some (fn_ptr f)) (h, c')) →
  wp (let! max_datasets := gets (λ s : state, fc_max_open_datasets s.2) in
      let! new_entry := file_cache_entry_new now r name max_datasets in
      let! _ := fmap_ (ordered_map_add_item_head name new_entry) in
      do! count_cache 0 1 in
      ret (Some new_entry)) Q (h, c).
Proof.
  intros Hr Hni HQ. do 2 wp_step. wp_step. unfold file_cache_entry_new. wp_step.
  apply wp_malloc. intros p Hp. simpl in Hp. wp_step. apply wp_malloc. intros q Hq. simpl in Hq. wp_step.
  eapply wp_store; [simpl; by rewrite lookup_insert_eq|]. wp_step. simpl. rewrite insert_insert_eq. wp_step.
  apply wp_zoom. simpl. eapply wp_abs_add_head; [apply Hr| |].
  { destruct (assoc_cases fn_kv fs name (om_abs_nodup _ _ (fr_map _ _ Hr))) as [[? _]|(fs1 & f & fs2 & -> & Hk & _)];
      [done|]. exfalso. apply (Hni f); [|done]. apply elem_of_app. right. constructor. }
  intros m4 Hm4. wp_step. apply wp_modify. wp_step. simpl.
  set (ds := dataset_cache_new r (fc_max_open_datasets c)).
  eapply (HQ _ (Fent p name r now q ds [])); simpl; try done.
  destruct Hr as [Hm5 He5 Hn5 Hc5 Hn6 Hf5]. rewrite He5 in Hp. rewrite Hc5 in Hq. split; simpl.
  - exact Hm4.
  - by rewrite He5.
  - apply NoDup_cons. split; [|done]. apply not_elem_of_list_to_map_2 in Hp. by rewrite fn_item_ptrs in Hp.
  - by rewrite Hc5.
  - apply NoDup_cons. split; [|done]. apply not_elem_of_list_to_map_2 in Hq. by rewrite fn_cache_ptrs in Hq.
  - constructor; [|done]. split; [apply dataset_cache_new_rep|done].
Qed.

(** The entry of a file that is in the cache moves to the front. *)
Lemma wp_touch_file now h c fs1 f fs2 (Q : option positive → state → Prop) :
  fc_rep c (fs1 ++ f :: fs2) → assoc (fn_name f) (fn_kv <$> fs1 ++ f :: fs2) = Some (fn_ptr f) →
  fn_kv f :: without (fn_name f) (fn_kv <$> fs1 ++ f :: fs2) = fn_kv <$> f :: fs1 ++ fs2 →
  (∀ c', fc_rep c' (touch now f :: fs1 ++ fs2) → same_limits c c' → Q (Some (fn_ptr f)) (h, c')) →
  wp (let! e := load F (Some (fn_ptr f)) in
      do! assertM (bool_decide (fe_name e = fn_name f)) in
      let! _ := fmap_ (ordered_map_make_item_head (fn_name f)) in
      do! store F (Some (fn_ptr f)) (λ e, FEntry (fe_file_id e) now (fe_name e) (fe_ds_cache e)) in
      do! count_cache 1 0 in
      ret (Some (fn_ptr f))) Q (h, c).
Proof.
  intros Hr Ha Hw HQ. pose proof (fc_rep_entry _ _ _ _ Hr) as He. wp_step. eapply wp_load; [exact He|]. wp_step.
  apply wp_assert; [by apply bool_decide_true|]. wp_step.
  apply wp_zoom. simpl. eapply wp_abs_make_head; [apply Hr|exact Ha|]. intros m2 Hm2. wp_step.
  eapply wp_store; [exact He|]. wp_step. apply wp_modify. wp_step. simpl.
  apply HQ; [|done]. eapply (fc_rep_front _ _ _ _ _ _ Hr); simpl; try done.
  - exact (eq_ind_r (λ l, om_abs m2 l) Hm2 (eq_sym Hw)).
  - symmetry. apply insert_id. exact (fc_rep_cache _ _ _ _ Hr).
  - pose proof (fc_rep_ok _ _ _ _ Hr) as Hfo. exact Hfo.
Qed.

Lemma wp_file_cache_open_file h c fs base hs now name (Q : option positive → state → Prop) :
  fc_rep c fs → owns shadow h base (handles fs ++ hs) → (1 ≤ fc_max_open_files c)%Z →
  (∀ c' fs1 f fs2, fs = fs1 ++ f :: fs2 → fn_name f = name → fc_rep c' (touch now f :: fs1 ++ fs2) →
     owns shadow h base (handles (touch now f :: fs1 ++ fs2) ++ hs) → same_limits c c' →
     Q (Some (fn_ptr f)) (h, c')) →
  (∀ h' c' r, (∀ f, f ∈ fs → fn_name f ≠ name) → fc_rep c' fs → shadow = false →
     (r < 0)%Z → owns shadow h' base (handles fs ++ hs) → same_limits c c' → Q None (h', c')) →
  (∀ h' c' f, (∀ f, f ∈ fs → fn_name f ≠ name) → fn_name f = name → fn_time f = now → fn_dss f = [] →
     fc_rep c' (f :: take (Z.to_nat (fc_max_open_files c) - 1) fs) →
     owns shadow h' base (handles (f :: take (Z.to_nat (fc_max_open_files c) - 1) fs) ++ hs) →
     same_limits c c' → Q (Some (fn_ptr f)) (h', c')) →
  wp (file_cache_open_file shadow now name) Q (h, c).
Proof.
  intros Hr Ho Hmax Hhit Hfail Hnew. unfold file_cache_open_file. wp_step. apply wp_zoom. simpl.
  eapply wp_abs_lookup; [apply Hr|]. intros m1 Hm1. set (c1 := FCache _ _ m1 _ _ _ _).
  assert (fc_rep c1 fs) as Hr1 by (destruct Hr; by split).
  destruct (assoc_cases fn_kv fs name (om_abs_nodup _ _ (fr_map _ _ Hr))) as [[Ha Hni]|(fs1 & f & fs2 & -> & Hk & Ha & Hw)];
    rewrite Ha; simpl.
  - wp_step. eapply wp_open_file_id; [exact Ho|..]; intros r h1 Hrr; [intros Hs Ho1|intros Ho1].
    { rewrite (proj2 (Z.ltb_lt _ _)) by lia. wp_step. by eapply Hfail. }
    rewrite (proj2 (Z.ltb_ge _ _)) by lia. wp_steps. apply wp_assert; [by apply Z.leb_le|]. wp_step.
    apply wp_zoom. simpl. eapply wp_abs_size; [exact Hm1|]. intros m2 Hm2. rewrite length_fmap, Nat2Z.id.
    wp_step. set (m := Z.to_nat (fc_max_open_files c) - 1) in *.
    eapply (wp_close_files m (λ n, fc_max_open_files c <=? n)%Z _ _ _ fs base (if shadow then hs else (r, h5_file name) :: hs)).
    + intros n. apply eq_true_iff_eq. rewrite bool_decide_eq_true, Z.leb_le. lia.
    + destruct Hr1. by split.
    + destruct shadow; [exact Ho1|]. eapply owns_perm; [|exact Ho1]. by rewrite Permutation_middle.
    + lia.
    + intros h2 c2 Hr2 Ho2 [Hx1 Hx2]. simpl in Hx1, Hx2. eapply wp_add_file; [exact Hr2| |].
      { intros f Hf. apply Hni. rewrite <- (take_drop m fs). apply elem_of_app. by left. }
      intros c3 f Hn Hid Ht Hd Hr3 [Hx3 Hx4]. apply Hnew; try done; [|by split; congruence].
      destruct shadow; [exact Ho2|]. eapply owns_perm; [|exact Ho2]. unfold handles, fn_handles, fn_file. simpl. rewrite Hid, Hn, Hd. simpl.
      by rewrite Permutation_middle.
  - simpl in Hk. subst name. eapply wp_touch_file; [exact Hr1|exact Ha|exact Hw|]. intros c' Hr' Hl.
    eapply (Hhit _ fs1 f fs2); [done|done|done| |done]. eapply owns_perm; [|exact Ho].
    change (handles (fs1 ++ f :: fs2) ++ hs ≡ₚ handles (f :: fs1 ++ fs2) ++ hs).
    by rewrite (handles_perm _ _ (symmetry (Permutation_middle _ _ _))).
Qed.

(** ** Opening a dataset of the file that was opened last *)

Lemma wp_file_cache_open_dataset h c f fs base hs name (Q : Z → state → Prop) :
  fc_rep c (f :: fs) → owns shadow h base (handles (f :: fs) ++ hs) → (1 ≤ fc_max_open_datasets c)%Z →
  (∀ r h' c' f', dc_opened shadow (fc_max_open_datasets c) name (fn_dss f) r (fn_dss f') →
     fn_name f' = fn_name f → fn_id f' = fn_id f → fn_time f' = fn_time f →
     fc_rep c' (f' :: fs) → owns shadow h' base (handles (f' :: fs) ++ hs) → same_limits c c' → Q r (h', c')) →
  wp (file_cache_open_dataset shadow (Some (fn_ptr f)) name) Q (h, c).
Proof.
  intros Hr Ho Hmax HQ. unfold file_cache_open_dataset. wp_step.
  eapply wp_load; [exact (fc_rep_entry _ [] _ _ Hr)|]. simpl.
  apply (wp_on_ds_cache _ _ _ [] f fs); [exact Hr|]. destruct (fc_rep_ok _ [] _ _ Hr) as (Hd & Hm & Hid).
  assert (∀ g : fent, handles (g :: fs) ++ hs ≡ₚ dn_handles (fn_file g) (fn_dss g) ++ ((fn_id g, fn_file g) :: handles fs ++ hs)) as Hp.
  { intros g. change (handles (g :: fs)) with (fn_handles g ++ handles fs). rewrite <- app_assoc.
    apply Permutation_middle. }
  eapply wp_dataset_cache_open_dataset; [exact Hd|eapply owns_perm; [apply Hp|exact Ho]|lia|left; rewrite Hid; constructor|].
  rewrite Hm. intros r h' d' es' Hop Hd' Ho' Hm' Hid' c' Hc' Hmap He [Hl1 Hl2]. simpl in *.
  eapply (HQ r h' c' (Fent (fn_ptr f) (fn_name f) (fn_id f) (fn_time f) (fn_ds_ptr f) d' es')); try done.
  - eapply (fc_rep_front _ _ [] _ _ _ Hr); simpl; try done.
    + rewrite Hmap. exact (fr_map _ _ Hr).
    + rewrite He. symmetry. apply insert_id. exact (fc_rep_entry _ [] _ _ Hr).
    + split; [done|]. simpl. by rewrite Hm', Hid', ?Hm, ?Hid.
  - eapply owns_perm; [symmetry; apply Hp|]. exact Ho'.
Qed.

(** ** Queries *)

Lemma wp_file_cache_query h c fs file_name dataset_name (Q : Z * Z → state → Prop) :
  fc_rep c fs →
  (∀ c', (∀ f, f ∈ fs → fn_name f ≠ file_name) → fc_rep c' fs → same_limits c c' → Q (0, 0)%Z (h, c')) →
  (∀ c' fs1 f f' fs2, fs = fs1 ++ f :: fs2 → fn_name f = file_name →
     fc_rep c' (fs1 ++ f' :: fs2) → fn_name f' = fn_name f → fn_id f' = fn_id f → fn_time f' = fn_time f →
     fn_dss f' = fn_dss f → same_limits c c' →
     Q (1, match dataset_name with
           | Some name => if bool_decide (name ∈ dn_name <$> fn_dss f) then 1 else 0
           | None => 1
           end)%Z (h, c')) →
  wp (file_cache_query file_name dataset_name) Q (h, c).
Proof.
  intros Hr Hno Hyes. unfold file_cache_query. wp_step. apply wp_zoom. simpl.
  pose proof (om_abs_nodup _ _ (fr_map _ _ Hr)) as Hkeys.
  eapply wp_abs_lookup; [apply Hr|]. intros m1 Hm1. set (c1 := FCache _ _ m1 _ _ _ _).
  assert (fc_rep c1 fs) as Hr1 by (destruct Hr; by split).
  destruct (assoc_cases fn_kv fs file_name Hkeys) as [[Ha Hni]|(fs1 & f & fs2 & -> & Hk & Ha & Hw)]; rewrite Ha; simpl.
  { wp_step. by apply Hno. }
  clear Hno. destruct dataset_name as [name|]; [|wp_step; by eapply (Hyes c1 fs1 f f fs2)].
  wp_step. eapply wp_load; [exact (fc_rep_entry _ _ _ _ Hr1)|]. wp_step. simpl.
  apply (wp_on_ds_cache _ _ _ fs1 f fs2); [exact Hr1|]. destruct (fc_rep_ok _ _ _ _ Hr1) as (Hd & Hm & Hid).
  apply wp_zoom. simpl. eapply wp_abs_lookup; [apply Hd|]. intros m2 Hm2 c' Hc' Hmap He [Hl1 Hl2]. simpl in Hc'.
  set (d' := DCache _ _ m2 _) in Hc'. wp_step.
  assert (dc_rep d' (fn_dss f)) as Hd' by (destruct Hd; by split).
  set (f' := Fent (fn_ptr f) (fn_name f) (fn_id f) (fn_time f) (fn_ds_ptr f) d' (fn_dss f)).
  assert (fc_rep c' (fs1 ++ f' :: fs2)) as Hr'.
  { destruct Hr1 as [Hm3 He3 Hn3 Hc3 Hn4 Hf3]. simpl in *. split.
    - rewrite Hmap. rewrite fmap_app in Hm3 |- *. exact Hm3.
    - rewrite He. simpl. rewrite He3. by rewrite !fmap_app.
    - rewrite fmap_app in Hn3 |- *. exact Hn3.
    - rewrite Hc'. simpl. rewrite Hc3. apply (heap_update fn_cache _ f f'); [by rewrite fn_cache_ptrs|done].
    - rewrite fmap_app in Hn4 |- *. exact Hn4.
    - rewrite Hl2. rewrite Forall_app, Forall_cons in Hf3. apply Forall_app. rewrite Forall_cons.
      split; [tauto|]. split; [|tauto]. split; [done|]. by simpl. }
  assert ((if is_set (assoc name (dn_kv <$> fn_dss f)) then 1 else 0)%Z =
    (if bool_decide (name ∈ dn_name <$> fn_dss f) then 1 else 0)%Z) as ->; [|by eapply (Hyes c' fs1 f f' fs2)].
  destruct (assoc_cases dn_kv (fn_dss f) name (om_abs_nodup _ _ (dr_map _ _ Hd)))
    as [[-> Hni]|(es1 & e & es2 & E1 & He1 & -> & _)]; simpl.
  - rewrite bool_decide_false; [done|]. intros (e & -> & He1)%list_elem_of_fmap. by apply (Hni e He1).
  - rewrite bool_decide_true; [done|]. rewrite <- He1, E1. apply (list_elem_of_fmap_2 dn_name).
    apply elem_of_app. right. constructor.
Qed.

(** ** Expiry *)

Definition expired (now max_age : Z) f : bool := (fn_time f + max_age <? now)%Z.

Lemma wp_count_expired now max_age fuel nr h c fs1 fs2 es1 es2 (Q : Z → state → Prop) :
  fc_rep c (fs1 ++ fs2) → om_rep (fc_map c) (es1 ++ es2) → e_kv <$> es2 = fn_kv <$> fs2 → length fs2 < fuel →
  Q (nr + Z.of_nat (length (filter (λ f, expired now max_age f = true) fs2)))%Z (h, c) →
  wp (count_expired fuel now max_age (e_oi <$> last es1) nr) Q (h, c).
Proof.
  revert nr fs1 fs2 es1 es2. induction fuel as [|fuel IH]; intros nr fs1 fs2 es1 es2 Hr Hm E Hf HQ; [lia|].
  simpl. wp_step. apply wp_zoom. simpl. eapply wp_iterate; [exact Hm|].
  assert ((h, FCache (fc_max_open_files c) (fc_max_open_datasets c) (fc_map c) (fc_nr_cache_hits c)
    (fc_nr_cache_misses c) (fc_entries c) (fc_ds_caches c)) = (h, c)) as Ec by (by destruct c).
  rewrite Ec. destruct es2 as [|e es2], fs2 as [|f fs2]; try done; simpl.
  { wp_step. by rewrite Z.add_0_r in HQ. }
  injection E as E1 E2 E. wp_step. apply wp_zoom. simpl.
  eapply wp_load; [by eapply om_rep_item|]. simpl. rewrite Ec. wp_step. rewrite E2.
  eapply wp_load; [exact (fc_rep_entry _ _ _ _ Hr)|]. simpl.
  assert (e_oi <$> last (es1 ++ [e]) = Some (e_oi e)) as <- by (by rewrite last_snoc).
  apply (IH _ (fs1 ++ [f]) fs2 (es1 ++ [e]) es2); [by rewrite <- app_assoc|by rewrite <- app_assoc|done|simpl in Hf; lia|].
  unfold expired in *. rewrite filter_cons in HQ. destruct (Z.ltb_spec (fn_time f + max_age) now); simpl in HQ.
  - by replace (nr + 1 + Z.of_nat (length (filter (λ f, (fn_time f + max_age <? now)%Z = true) fs2)))%Z
      with (nr + Z.of_nat (S (length (filter (λ f, (fn_time f + max_age <? now)%Z = true) fs2))))%Z by lia.
  - exact HQ.
Qed.

Lemma wp_remove_expired n h c fs base hs (Q : () → state → Prop) :
  fc_rep c fs → owns shadow h base (handles fs ++ hs) → n ≤ length fs →
  (∀ h' c', fc_rep c' (take (length fs - n) fs) →
     owns shadow h' base (handles (take (length fs - n) fs) ++ hs) → same_limits c c' → Q () (h', c')) →
  wp (remove_expired shadow n) Q (h, c).
Proof.
  revert h c fs. induction n as [|n IH]; intros h c fs Hr Ho Hn HQ; simpl.
  { rewrite Nat.sub_0_r, take_ge in HQ by done. wp_step. by apply HQ. }
  destruct fs as [|f fs _] using rev_ind; [simpl in Hn; lia|]. rewrite length_app in Hn. simpl in Hn.
  wp_step. eapply wp_close_last_file; [exact Hr|exact Ho|]. intros h1 c1 Hr1 Ho1 [Hl1 Hl2].
  assert (take (length (fs ++ [f]) - S n) (fs ++ [f]) = take (length fs - n) fs) as E.
  { rewrite length_app. simpl. rewrite take_app_le by lia. f_equal. lia. }
  rewrite E in HQ. apply (IH _ _ fs); [done|done|lia|].
  intros h2 c2 Hr2 Ho2 [Hl3 Hl4]. apply HQ; [done|done|]. split; etrans; eassumption.
Qed.

(** What is left when the entries that are at the end of the list, as many as
    have expired, are removed. *)
Definition unexpired (now max_age : Z) fs : list fent :=
  if (max_age <=? 0)%Z then fs
  else take (length fs - length (filter (λ f, expired now max_age f = true) fs)) fs.

#[local] Arguments count_expired : simpl never.

Lemma wp_file_cache_expire_entries now max_age h c fs base hs (Q : () → state → Prop) :
  fc_rep c fs → owns shadow h base (handles fs ++ hs) →
  (∀ h' c', fc_rep c' (unexpired now max_age fs) →
     owns shadow h' base (handles (unexpired now max_age fs) ++ hs) → same_limits c c' → Q () (h', c')) →
  wp (file_cache_expire_entries shadow now max_age) Q (h, c).
Proof.
  intros Hr Ho HQ. unfold file_cache_expire_entries, unexpired in *.
  destruct (max_age <=? 0)%Z; [wp_step; by apply HQ|]. wp_step. apply wp_zoom. simpl.
  eapply wp_abs_size; [apply Hr|]. intros m1 Hm1. set (c1 := FCache _ _ m1 _ _ _ _).
  assert (fc_rep c1 fs) as Hr1 by (destruct Hr; by split). wp_step. rewrite length_fmap, Nat2Z.id.
  destruct Hm1 as (es & Hes & E). refine (wp_count_expired now max_age _ 0%Z h c1 [] fs [] es _ _ _ _ _ _); [done|done|by symmetry|lia|].
  rewrite Z.add_0_l, Nat2Z.id. eapply wp_remove_expired; [exact Hr1|exact Ho| |].
  - apply length_filter.
  - intros h2 c2 Hr2 Ho2 Hl. by apply HQ.
Qed.
End proof.
