(* ===== verification/FileCacheMain.v ===== *)
(** * The caches: the theorems

    The contract of the file cache, a least-recently-used list of open files
    and of their open datasets, and what follows from it: the limits, the
    ownership of the handles, the expiry, and the agreement of the shadow copy
    in the library with the cache in the worker. *)
From stdpp Require Import base tactics numbers list gmap sorting.
From S2P Require Import Prelude MapInterface OrderedMap Caches DatasetCache FileCache FileCacheProof.
From S2P Require Import AvlTree AvlMap.

Section contract.
Context {K : Type} `{EqDecision K}.

(** ** The contract *)

(** An open file: its handle, when it was last used, its open datasets. *)
Record fview := FView {
  v_name : K;
  v_id : Z;
  v_time : Z;
  v_dss : list (K * Z);
}.
Implicit Types (v : fview) (vs : list fview).

Context (shadow : bool) (max_files max_datasets : nat).

(** Opening a file, or failing to open it; opening a dataset of a file. *)
Inductive lru_file (now : Z) (name : K) vs : bool → list fview → Prop :=
  | lru_file_hit vs1 v vs2 :
      vs = vs1 ++ v :: vs2 → v_name v = name →
      lru_file now name vs true (FView name (v_id v) now (v_dss v) :: vs1 ++ vs2)
  | lru_file_fail :
      (∀ v, v ∈ vs → v_name v ≠ name) → shadow = false → lru_file now name vs false vs
  | lru_file_new id :
      (∀ v, v ∈ vs → v_name v ≠ name) →
      lru_file now name vs true (FView name id now [] :: take (max_files - 1) vs).

Inductive lru_dataset (name : K) (ds : list (K * Z)) : Z → list (K * Z) → Prop :=
  | lru_dataset_hit ds1 id ds2 :
      ds = ds1 ++ (name, id) :: ds2 → lru_dataset name ds id ((name, id) :: ds1 ++ ds2)
  | lru_dataset_fail r : name ∉ ds.*1 → shadow = false → (r < 0)%Z → lru_dataset name ds r ds
  | lru_dataset_new r :
      name ∉ ds.*1 → (0 ≤ r)%Z → (shadow = true → r = 0%Z) →
      lru_dataset name ds r ((name, r) :: take (max_datasets - 1) ds).

(** The calls: a request for a file and maybe a dataset, a query, expiry. *)
Inductive fc_op :=
  | Request (now : Z) (file_name : K) (dataset_name : option K)
  | Query (file_name : K) (dataset_name : option K)
  | Expire (now max_age : Z).
Inductive fc_result :=
  | RCode (retcode : Z)
  | RQuery (have_file have_dataset : Z)
  | RUnit.

Definition v_expired (now max_age : Z) v : bool := (v_time v + max_age <? now)%Z.
Definition query_result vs (file_name : K) (dataset_name : option K) (r : Z * Z) : Prop :=
  (r = (0, 0)%Z ∧ ∀ v, v ∈ vs → v_name v ≠ file_name) ∨
  (∃ v, v ∈ vs ∧ v_name v = file_name ∧
     r = (1, match dataset_name with
             | Some name => if bool_decide (name ∈ (v_dss v).*1) then 1 else 0
             | None => 1
             end)%Z).

Inductive fc_spec vs : fc_op → fc_result → list fview → Prop :=
  | spec_fail now name dname :
      lru_file now name vs false vs → fc_spec vs (Request now name dname) (RCode 0) vs
  | spec_file now name vs' :
      lru_file now name vs true vs' → fc_spec vs (Request now name None) (RCode 1) vs'
  | spec_dataset now name dname v vs' r ds :
      lru_file now name vs true (v :: vs') → lru_dataset dname (v_dss v) r ds →
      fc_spec vs (Request now name (Some dname)) (RCode (if (0 <=? r)%Z then 3 else 1))
        (FView (v_name v) (v_id v) (v_time v) ds :: vs')
  | spec_query name dname r :
      query_result vs name dname r → fc_spec vs (Query name dname) (RQuery r.1 r.2) vs
  | spec_expire now max_age :
      fc_spec vs (Expire now max_age) RUnit
        (if (max_age <=? 0)%Z then vs
         else take (length vs - length (filter (λ v, v_expired now max_age v = true) vs)) vs).

Inductive fc_specs : list fview → list fc_op → list fc_result → list fview → Prop :=
  | specs_nil vs : fc_specs vs [] [] vs
  | specs_cons vs op r vs1 ops rs vs2 :
      fc_spec vs op r vs1 → fc_specs vs1 ops rs vs2 → fc_specs vs (op :: ops) (r :: rs) vs2.

(** The limits are kept. *)
Definition within_limits vs : Prop :=
  length vs ≤ max_files ∧ Forall (λ v, length (v_dss v) ≤ max_datasets) vs.

Lemma lru_file_limits now name vs b vs' :
  0 < max_files → lru_file now name vs b vs' → within_limits vs → within_limits vs'.
Proof.
  intros Hm [vs1 v vs2 -> <-| |id] [Hl Hd]; [| done|]; split; simpl.
  - rewrite length_app in *. simpl in Hl. lia.
  - apply Forall_app in Hd as [Hd1 [Hv Hd2]%Forall_cons]. constructor; [done|]. by apply Forall_app.
  - rewrite length_take. lia.
  - constructor; [simpl; lia|]. by apply Forall_take.
Qed.

Lemma lru_dataset_limits name ds r ds' :
  0 < max_datasets → lru_dataset name ds r ds' → length ds ≤ max_datasets → length ds' ≤ max_datasets.
Proof.
  intros Hm [ds1 id ds2 ->| |r' ? ?] Hl; [|done|]; simpl.
  - rewrite length_app in *. simpl in Hl. lia.
  - rewrite length_take. lia.
Qed.

Lemma fc_spec_limits vs op r vs' :
  0 < max_files → 0 < max_datasets → fc_spec vs op r vs' → within_limits vs → within_limits vs'.
Proof.
  intros Hf Hd [?|? ? ? Hl|? ? ? v ? ? ? Hl Hds|? ? ? ?|? max_age] Hw; [done| | |done|].
  - by eapply lru_file_limits.
  - apply (lru_file_limits _ _ _ _ _ Hf Hl) in Hw as [Hl1 [Hv Hl2]%Forall_cons]. split; [done|].
    constructor; [|done]. simpl. by eapply lru_dataset_limits.
  - destruct (max_age <=? 0)%Z; [done|]. destruct Hw. split; [rewrite length_take; lia|by apply Forall_take].
Qed.

(** ** The order of the entries

    When the clock does not go back, the entries are in decreasing order of
    their last use, so that those that have expired are at the end. *)
Definition time_of (op : fc_op) (t : Z) : Z :=
  match op with Request now _ _ => now | Query _ _ => t | Expire now _ => now end.
Fixpoint clock_ok (t : Z) (ops : list fc_op) : Prop :=
  match ops with [] => True | op :: ops => (t ≤ time_of op t)%Z ∧ clock_ok (time_of op t) ops end.
Fixpoint end_time (t : Z) (ops : list fc_op) : Z :=
  match ops with [] => t | op :: ops => end_time (time_of op t) ops end.

Definition newer v v' : Prop := (v_time v' ≤ v_time v)%Z.
Definition ordered (t : Z) vs : Prop := StronglySorted newer vs ∧ Forall (λ v, v_time v ≤ t)%Z vs.

Lemma StronglySorted_sub vs1 v vs2 : StronglySorted newer (vs1 ++ v :: vs2) → StronglySorted newer (vs1 ++ vs2).
Proof.
  induction vs1 as [|v1 vs1 IH]; simpl; inversion_clear 1; [done|]. constructor; [by apply IH|].
  rewrite Forall_app, Forall_cons in *. tauto.
Qed.

Lemma StronglySorted_take n vs : StronglySorted newer vs → StronglySorted newer (take n vs).
Proof.
  revert n. induction vs as [|v vs IH]; intros [|n]; simpl; [constructor..|].
  inversion_clear 1. constructor; [by apply IH|]. by apply Forall_take.
Qed.

Lemma lru_file_ordered t now name vs b vs' :
  (t ≤ now)%Z → lru_file now name vs b vs' → ordered t vs → ordered now vs'.
Proof.
  intros Ht Hl [Hs Hf].
  assert (∀ vs, Forall (λ v, v_time v ≤ t)%Z vs → Forall (λ v, v_time v ≤ now)%Z vs) as Hmono.
  { intros us Hus. eapply Forall_impl; [exact Hus|]. simpl. lia. }
  destruct Hl as [vs1 v vs2 -> <-|? ?|id ?].
  - assert (Forall (λ v, v_time v ≤ now)%Z (vs1 ++ vs2)).
    { apply Hmono. rewrite Forall_app, Forall_cons in *. tauto. }
    split; [|by constructor; [simpl; lia|]]. constructor; [by eapply StronglySorted_sub|].
    eapply Forall_impl; [done|]. intros u Hu. unfold newer. simpl. exact Hu.
  - split; [done|by apply Hmono].
  - assert (Forall (λ v, v_time v ≤ now)%Z (take (max_files - 1) vs)) by (by apply Forall_take, Hmono).
    split; [|by constructor; [simpl; lia|]]. constructor; [by apply StronglySorted_take|].
    eapply Forall_impl; [done|]. intros u Hu. unfold newer. simpl. exact Hu.
Qed.

Lemma fc_spec_ordered t vs op r vs' :
  fc_spec vs op r vs' → (t ≤ time_of op t)%Z → ordered t vs → ordered (time_of op t) vs'.
Proof.
  intros [? ? ? Hl|? ? ? Hl|? ? ? v ? ? ? Hl Hds|? ? ? ?|? max_age] Ht Ho; simpl in *.
  - by eapply lru_file_ordered.
  - by eapply lru_file_ordered.
  - destruct (lru_file_ordered _ _ _ _ _ _ Ht Hl Ho) as [Hs Hf].
    inversion_clear Hs. inversion_clear Hf. by split; constructor.
  - done.
  - destruct Ho as [Hs Hf]. assert (Forall (λ v, v_time v ≤ now)%Z vs).
    { eapply Forall_impl; [done|]. simpl. lia. }
    destruct (max_age <=? 0)%Z; [done|]. split; [by apply StronglySorted_take|by apply Forall_take].
Qed.

Lemma fc_specs_ordered t vs ops rs vs' :
  fc_specs vs ops rs vs' → clock_ok t ops → ordered t vs → ordered (end_time t ops) vs'.
Proof.
  intros Hs. revert t. induction Hs as [|vs op r vs1 ops rs vs2 Hop _ IH]; intros t; simpl; [done|].
  intros [Ht Hc] Ho. apply IH; [done|]. by eapply fc_spec_ordered.
Qed.

(** In an ordered list those that have expired are a suffix. *)
Lemma expired_suffix now max_age vs :
  StronglySorted newer vs →
  take (length vs - length (filter (λ v, v_expired now max_age v = true) vs)) vs =
    filter (λ v, v_expired now max_age v = false) vs.
Proof.
  assert (∀ vs, Forall (λ v, v_expired now max_age v = true) vs →
    filter (λ v, v_expired now max_age v = true) vs = vs ∧ filter (λ v, v_expired now max_age v = false) vs = []) as Hall.
  { induction 1 as [|v us Hv _ [IH1 IH2]]; [done|]. rewrite filter_cons_True, filter_cons_False by congruence.
    by rewrite IH1, IH2. }
  induction 1 as [|v vs Hs IH Hf]; [done|]. destruct (v_expired now max_age v) eqn:E.
  - assert (Forall (λ v, v_expired now max_age v = true) (v :: vs)) as Ha.
    { constructor; [done|]. eapply Forall_impl; [exact Hf|]. intros u Hu. unfold newer, v_expired in *.
      apply Z.ltb_lt in E. apply Z.ltb_lt. lia. }
    destruct (Hall _ Ha) as [-> ->]. by rewrite Nat.sub_diag.
  - rewrite filter_cons_False, (filter_cons_True (λ v, v_expired now max_age v = false)) by congruence.
    rewrite <- IH. pose proof (length_filter (λ v, v_expired now max_age v = true) vs).
    replace (length (v :: vs) - length (filter (λ v, v_expired now max_age v = true) vs))
      with (S (length vs - length (filter (λ v, v_expired now max_age v = true) vs))) by (simpl; lia). done.
Qed.
End contract.
Arguments fview : clear implicits.
Arguments fc_op : clear implicits.

(** ** The implementation meets the contract *)

Section main.
Context {T K L : Type} `{KVMapLaws T K positive} `{!H5Files K L, !H5FilesLaws K L}.
Context (shadow : bool).
Abbreviation state := (L * file_cache T K)%type.
Implicit Types (c : file_cache T K) (h : L).

Definition fn_view (f : fent (T := T) (K := K)) : fview K :=
  FView (fn_name f) (fn_id f) (fn_time f) (dn_view <$> fn_dss f).
(** What the clients see of a cache. *)
Definition fc_abs c (vs : list (fview K)) : Prop := ∃ fs, fc_rep c fs ∧ vs = fn_view <$> fs.

Definition run_fc_op (op : fc_op K) : M state fc_result :=
  match op with
  | Request now name dname => let! r := open_request shadow now name dname in ret (RCode r)
  | Query name dname => let! r := file_cache_query name dname in ret (RQuery r.1 r.2)
  | Expire now max_age => do! file_cache_expire_entries shadow now max_age in ret RUnit
  end.
Fixpoint run_fc_ops (ops : list (fc_op K)) : M state (list fc_result) :=
  match ops with
  | [] => ret []
  | op :: ops => let! r := run_fc_op op in let! rs := run_fc_ops ops in ret (r :: rs)
  end.

(** The handles of a file and of its datasets. *)
Definition v_handles (v : fview K) : list (Z * h5_what) :=
  (v_id v, h5_file (v_name v)) :: ((λ p, (p.2, h5_member (h5_file (v_name v)) p.1)) <$> v_dss v).
Definition owns_views (h : L) (base : gmap Z h5_what) (vs : list (fview K)) : Prop :=
  owns shadow h base (vs ≫= v_handles).

Lemma handles_views (fs : list (fent (T := T) (K := K))) : handles fs = (fn_view <$> fs) ≫= v_handles.
Proof.
  induction fs as [|f fs IH]; [done|].
  change (fn_handles f ++ handles fs = v_handles (fn_view f) ++ ((fn_view <$> fs) ≫= v_handles)).
  rewrite IH. f_equal.
  unfold fn_handles, dn_handles, fn_file, v_handles, fn_view. simpl. by rewrite <- list_fmap_compose.
Qed.

Lemma dn_names (es : list (dsent (K := K))) : (dn_view <$> es).*1 = dn_name <$> es.
Proof. by rewrite <- list_fmap_compose. Qed.

Lemma lru_dataset_rep max (name : K) (es : list (dsent (K := K))) r (es' : list (dsent (K := K))) :
  dc_opened shadow (Z.of_nat max) name es r es' → lru_dataset shadow max name (dn_view <$> es) r (dn_view <$> es').
Proof.
  intros [(es1 & e & es2 & -> & <- & -> & ->)|(Hni & [(Hr & Hs & ->)|(Hr & Hs & p & ->)])].
  - rewrite fmap_cons, !fmap_app, fmap_cons. by apply lru_dataset_hit.
  - apply lru_dataset_fail; [|done|done]. rewrite dn_names. intros (e & -> & He)%list_elem_of_fmap. by apply (Hni e He).
  - rewrite fmap_cons, fmap_take, Nat2Z.id. apply (lru_dataset_new _ _ name); [|done|done].
    rewrite dn_names. intros (e & -> & He)%list_elem_of_fmap. by apply (Hni e He).
Qed.

Lemma view_absent (fs : list (fent (T := T) (K := K))) name :
  (∀ f, f ∈ fs → fn_name f ≠ name) → ∀ v, v ∈ fn_view <$> fs → v_name v ≠ name.
Proof. intros Hni v (f & -> & Hf)%list_elem_of_fmap. by apply (Hni f). Qed.

(** The state of a cache with the given limits. *)
Record fc_state (base : gmap Z h5_what) (max_files max_datasets : nat) (vs : list (fview K)) (s : state) : Prop := {
  fs_abs : fc_abs s.2 vs;
  fs_owns : owns_views s.1 base vs;
  fs_files : fc_max_open_files s.2 = Z.of_nat max_files;
  fs_datasets : fc_max_open_datasets s.2 = Z.of_nat max_datasets;
}.

Lemma fc_state_intro base mf md h c c' (fs : list (fent (T := T) (K := K))) :
  fc_rep c' fs → owns shadow h base (handles fs ++ []) → same_limits c c' →
  fc_max_open_files c = Z.of_nat mf → fc_max_open_datasets c = Z.of_nat md →
  fc_state base mf md (fn_view <$> fs) (h, c').
Proof.
  intros Hr Ho [Hl1 Hl2] Hf Hd. split; simpl; [by exists fs| |congruence|congruence].
  unfold owns_views. by rewrite <- handles_views, <- (app_nil_r (handles fs)).
Qed.

Lemma open_file_spec base mf md vs s now name (Q : option positive → state → Prop) :
  fc_state base mf md vs s → 0 < mf →
  (∀ s', lru_file shadow mf now name vs false vs → fc_state base mf md vs s' → Q None s') →
  (∀ h' c' f fs, lru_file shadow mf now name vs true (fn_view <$> f :: fs) →
     fc_rep c' (f :: fs) → owns shadow h' base (handles (f :: fs) ++ []) →
     fc_max_open_files c' = Z.of_nat mf → fc_max_open_datasets c' = Z.of_nat md → Q (Some (fn_ptr f)) (h', c')) →
  wp (file_cache_open_file shadow now name) Q s.
Proof.
  intros Hs Hmf Hno Hyes. destruct s as [h c]. pose proof Hs as [(fs & Hr & ->) Ho Hf Hd]. simpl in Hr, Ho, Hf, Hd.
  unfold owns_views in Ho. rewrite <- handles_views, <- (app_nil_r (handles fs)) in Ho.
  eapply wp_file_cache_open_file; [exact Hr|exact Ho|lia|..].
  - intros c' fs1 f fs2 -> <- Hr' Ho' [Hl1 Hl2]. apply (Hyes _ _ (touch now f) (fs1 ++ fs2)); [|done|done|congruence|congruence].
    rewrite fmap_cons, !fmap_app, fmap_cons. by apply (lru_file_hit _ _ _ _ _ _ (fn_view f)).
  - intros h' c' r Hni Hr' Hsh Hr0 Ho' Hl. apply Hno.
    + apply lru_file_fail; [by apply view_absent|done].
    + by eapply fc_state_intro.
  - rewrite Hf, Nat2Z.id. intros h' c' f Hni Hn Ht Hds Hr' Ho' [Hl1 Hl2].
    eapply (Hyes h' c' f _); [|exact Hr'|exact Ho'|congruence|congruence].
    rewrite fmap_cons, fmap_take. assert (fn_view f = FView name (fn_id f) now []) as ->.
    { unfold fn_view. by rewrite Hn, Ht, Hds. }
    apply lru_file_new. by apply view_absent.
Qed.

Lemma free_state base mf md vs s :
  fc_state base mf md vs s →
  wp (file_cache_free shadow) (λ _ s', fc_freed s'.2 ∧ h5_handles s'.1 = base) s.
Proof.
  intros Hs. destruct s as [h c]. destruct Hs as [(fs & Hr & ->) Ho _ _]. simpl in Hr, Ho.
  unfold owns_views in Ho. rewrite <- handles_views, <- (app_nil_r (handles fs)) in Ho.
  eapply wp_file_cache_free; [exact Hr|exact Ho|]. intros h' c' Hfr Ho'. split; [done|]. by eapply owns_all_closed.
Qed.

Lemma run_fc_op_spec base mf md vs s op :
  fc_state base mf md vs s → 0 < mf → 0 < md →
  wp (run_fc_op op) (λ r s', ∃ vs', fc_spec shadow mf md vs op r vs' ∧ fc_state base mf md vs' s') s.
Proof.
  intros Hs Hmf Hmd. destruct op as [now name dname|name dname|now max_age]; simpl; wp_step.
  - unfold open_request. wp_step. eapply open_file_spec; [exact Hs|exact Hmf|..]; clear Hs.
    + intros s' Hl Hs. simpl. wp_steps. exists vs. split; [by constructor|done].
    + intros h c f fs Hl Hr Ho Hf Hd. simpl. destruct dname as [dname|].
      * wp_step. eapply wp_file_cache_open_dataset; [exact Hr|exact Ho|lia|].
        intros r h' c' f' Hop Hn Hi Ht Hr' Ho' Hlim. wp_steps. exists (fn_view <$> f' :: fs). split.
        -- rewrite Hd in Hop. apply lru_dataset_rep in Hop.
           pose proof (spec_dataset shadow mf md vs now name dname _ _ r _ Hl Hop) as Hsp.
           assert (fn_view f' = FView (v_name (fn_view f)) (v_id (fn_view f)) (v_time (fn_view f)) (dn_view <$> fn_dss f')) as Ev.
           { unfold fn_view. simpl. by rewrite Hn, Hi, Ht. }
           rewrite fmap_cons, Ev. by destruct (0 <=? r)%Z.
        -- by eapply fc_state_intro.
      * wp_steps. exists (fn_view <$> f :: fs). split; [by constructor|]. by eapply (fc_state_intro _ _ _ _ c).
  - destruct s as [h c]. pose proof Hs as [(fs & Hr & ->) Ho Hf Hd]. simpl in Hr, Ho, Hf, Hd.
    unfold owns_views in Ho. rewrite <- handles_views, <- (app_nil_r (handles fs)) in Ho.
    eapply wp_file_cache_query; [exact Hr|..].
    + intros c' Hni Hr' Hlim. wp_steps. exists (fn_view <$> fs). split.
      * apply (spec_query _ _ _ _ _ _ (0, 0)%Z). left. split; [done|by apply view_absent].
      * by eapply fc_state_intro.
    + intros c' fs1 f f' fs2 -> <- Hr' En Ei Et Ed Hlim. wp_steps. exists (fn_view <$> fs1 ++ f :: fs2). split.
      * eapply (spec_query _ _ _ _ _ _ (1, _)%Z). right. exists (fn_view f). split_and!; [|done|].
        { apply list_elem_of_fmap_2, elem_of_app. right. constructor. }
        simpl. by rewrite dn_names.
      * assert (fn_view f' = fn_view f) as Ev by (unfold fn_view; by rewrite En, Ei, Et, Ed).
        assert (fn_view <$> fs1 ++ f :: fs2 = fn_view <$> fs1 ++ f' :: fs2) as ->.
        { rewrite !fmap_app, !fmap_cons. by rewrite Ev. }
        eapply fc_state_intro; [exact Hr'| |exact Hlim|done|done].
        assert (handles (fs1 ++ f' :: fs2) = handles (fs1 ++ f :: fs2)) as ->; [|done].
        rewrite !handles_views, !fmap_app, !fmap_cons. by rewrite Ev.
  - destruct s as [h c]. pose proof Hs as [(fs & Hr & ->) Ho Hf Hd]. simpl in Hr, Ho, Hf, Hd.
    unfold owns_views in Ho. rewrite <- handles_views, <- (app_nil_r (handles fs)) in Ho.
    eapply wp_file_cache_expire_entries; [exact Hr|exact Ho|]. intros h' c' Hr' Ho' Hlim. wp_step.
    exists (fn_view <$> unexpired now max_age fs). split; [|by eapply fc_state_intro].
    assert (fn_view <$> unexpired now max_age fs = if (max_age <=? 0)%Z then fn_view <$> fs else
      take (length (fn_view <$> fs) - length (filter (λ v, v_expired now max_age v = true) (fn_view <$> fs))) (fn_view <$> fs)) as ->;
      [|constructor].
    unfold unexpired. destruct (max_age <=? 0)%Z; [done|]. rewrite fmap_take, length_fmap. do 2 f_equal.
    clear. induction fs as [|f fs IH]; [done|]. simpl. rewrite !filter_cons. unfold expired, v_expired in *. simpl.
    destruct (fn_time f + max_age <? now)%Z; simpl; by rewrite IH.
Qed.

Lemma run_fc_ops_spec base mf md vs s ops :
  fc_state base mf md vs s → 0 < mf → 0 < md →
  wp (run_fc_ops ops) (λ rs s', ∃ vs', fc_specs shadow mf md vs ops rs vs' ∧ fc_state base mf md vs' s') s.
Proof.
  intros Hs Hmf Hmd. revert vs s Hs. induction ops as [|op ops IH]; intros vs s Hs; simpl.
  - wp_step. exists vs. split; [constructor|done].
  - wp_step. eapply wp_mono; [by eapply run_fc_op_spec|]. intros r s1 (vs1 & Hop & Hs1). wp_step.
    eapply wp_mono; [by apply IH|]. intros rs s2 (vs2 & Hops & Hs2). wp_step.
    exists vs2. split; [by econstructor|done].
Qed.

Lemma fc_state_new h mf md :
  fc_state (h5_handles h) mf md [] (h, file_cache_new (Z.of_nat mf) (Z.of_nat md)).
Proof.
  split; simpl; [exists []; by split; [apply file_cache_new_rep|]| |done|done]. apply owns_no_handle.
Qed.

Lemma fc_specs_limits mf md (vs : list (fview K)) ops rs vs' :
  0 < mf → 0 < md → fc_specs shadow mf md vs ops rs vs' → within_limits mf md vs → within_limits mf md vs'.
Proof. intros ? ?. induction 1 as [|? ? ? ? ? ? ? Hop _ IH]; [done|]. intros Hw. by eapply IH, fc_spec_limits. Qed.

(** ** Properties of one cache *)

(** C22: The file cache is a least-recently-used cache: whatever the requests,
    queries and expiries on a new cache, and whichever HDF5 calls fail, every
    call returns, without undefined behaviour or a failed [assert], what the
    contract says; there are never more open files and datasets than allowed;
    the handles open in HDF5 are exactly those in the cache, each once, and
    each denotes the file or dataset that it is in the cache for; and
    [file_cache_free] closes all of them and frees all memory. *)
Theorem file_cache_refines_lru h mf md (ops : list (fc_op K)) :
  0 < mf → 0 < md →
  ∃ rs h1 c1 vs, run_fc_ops ops (h, file_cache_new (Z.of_nat mf) (Z.of_nat md)) = Some (rs, (h1, c1)) ∧
    fc_specs shadow mf md [] ops rs vs ∧ fc_abs c1 vs ∧ within_limits mf md vs ∧
    owns_views h1 (h5_handles h) vs ∧
    ∃ h2 c2, file_cache_free shadow (h1, c1) = Some ((), (h2, c2)) ∧ fc_freed c2 ∧ h5_handles h2 = h5_handles h.
Proof.
  intros Hmf Hmd.
  destruct (run_fc_ops_spec _ _ _ _ _ ops (fc_state_new h mf md) Hmf Hmd) as (rs & [h1 c1] & Hrun & vs & Hsp & Hs).
  exists rs, h1, c1, vs. split; [done|]. split; [done|]. pose proof Hs as [Hab Ho _ _]. simpl in Hab, Ho. split; [done|].
  split; [eapply fc_specs_limits; [done|done|done|split; [simpl; lia|constructor]]|]. split; [done|].
  destruct (free_state _ _ _ _ _ Hs) as ([] & [h2 c2] & Hf & Hfr & Ho2).
  by exists h2, c2.
Qed.

(** C38: Expiry removes exactly the files that were last used more than
    [max_age] seconds ago, and keeps the order of the others, as long as the
    clock does not go back: removing from the end of the list as many files as
    have expired is enough. *)
Theorem file_cache_expires_old h mf md (ops : list (fc_op K)) t now max_age :
  0 < mf → 0 < md → clock_ok t (ops ++ [Expire now max_age]) → (0 < max_age)%Z →
  ∃ rs h1 c1 vs h2 c2, run_fc_ops ops (h, file_cache_new (Z.of_nat mf) (Z.of_nat md)) = Some (rs, (h1, c1)) ∧
    fc_abs c1 vs ∧ file_cache_expire_entries shadow now max_age (h1, c1) = Some ((), (h2, c2)) ∧
    fc_abs c2 (filter (λ v, (now - v_time v ≤ max_age)%Z) vs).
Proof.
  intros Hmf Hmd Hclock Hage.
  destruct (run_fc_ops_spec _ _ _ _ _ ops (fc_state_new h mf md) Hmf Hmd) as (rs & [h1 c1] & Hrun & vs & Hsp & Hs).
  assert (clock_ok t ops) as Hc1.
  { clear -Hclock. revert t Hclock. induction ops as [|op ops IH]; intros t; simpl; [done|]. intros [? ?]. auto. }
  pose proof (fc_specs_ordered shadow mf md t [] ops rs vs Hsp Hc1) as [Hord _].
  { split; constructor. }
  destruct (run_fc_op_spec _ _ _ _ _ (Expire now max_age) Hs Hmf Hmd) as (r & [h2 c2] & Hrun2 & vs2 & Hop & Hs2).
  exists rs, h1, c1, vs, h2, c2. split; [done|]. split; [apply Hs|]. simpl in Hrun2. unfold bind in Hrun2.
  destruct (file_cache_expire_entries shadow now max_age (h1, c1)) as [[[] s2]|]; [|done]. injection Hrun2 as _ ->.
  split; [done|]. inversion Hop as [| | | |? ? Hn Ha Hv]; subst. destruct Hs2 as [Hab _ _ _]. simpl in Hab.
  rewrite (proj2 (Z.leb_gt _ _)) in Hab by lia. rewrite expired_suffix in Hab by done.
  erewrite list_filter_iff; [exact Hab|]. intros v. unfold v_expired. rewrite Z.ltb_ge. lia.
Qed.
End main.

(** ** A concrete HDF5

    Names are numbers; those that are negative cannot be opened.  A new handle
    is one more than the largest. *)
Definition max_handle (s : gset Z) : Z := foldr Z.max 0%Z (elements s).
Definition table_open (name : Z) : M (gset Z) Z :=
  λ s, if (name <? 0)%Z then Some ((-1)%Z, s)
       else let id := (max_handle s + 1)%Z in Some (id, {[id]} ∪ s).
Definition table_close (id : Z) : M (gset Z) () :=
  λ s, if decide (id ∈ s) then Some ((), s ∖ {[id]}) else None.

#[export] Instance table_files : H5Files Z (gset Z) := {|
  h5_what := unit;
  h5_file _ := ();
  h5_member _ _ := ();
  H5Fopen := table_open;
  H5Fclose := table_close;
  H5Dopen _ name := table_open name;
  H5Dclose := table_close;
  h5_handles s := gset_to_gmap () s;
|}.

Lemma max_handle_le s id : id ∈ s → (id ≤ max_handle s)%Z.
Proof.
  intros Hin%elem_of_elements. unfold max_handle. induction (elements s) as [|x l IH]; [by apply elem_of_nil in Hin|].
  simpl. apply elem_of_cons in Hin as [->|Hin]; [lia|]. specialize (IH Hin). lia.
Qed.
Lemma max_handle_nonneg s : (0 ≤ max_handle s)%Z.
Proof. unfold max_handle. induction (elements s); simpl; lia. Qed.

Lemma table_opened s name : ∃ r s', table_open name s = Some (r, s') ∧ opened (K := Z) s r () s'.
Proof.
  unfold table_open. destruct (name <? 0)%Z; eexists _, _; (split; [done|]); [by left|right].
  pose proof (max_handle_nonneg s). simpl. split; [lia|]. split; [|apply gset_to_gmap_union_singleton].
  apply lookup_gset_to_gmap_None. intros Hin%max_handle_le. lia.
Qed.

Lemma table_closed s id (Q : () → gset Z → Prop) :
  is_Some (h5_handles (K := Z) s !! id) → (∀ s', h5_handles (K := Z) s' = delete id (h5_handles (K := Z) s) → Q () s') →
  wp (table_close id) Q s.
Proof.
  intros [w [Hin _]%lookup_gset_to_gmap_Some] HQ. eexists (), _. split; [unfold table_close; by rewrite decide_True|].
  apply HQ, gset_to_gmap_difference_singleton.
Qed.

#[export] Instance table_files_laws : H5FilesLaws Z (gset Z).
Proof.
  split.
  - intros s name Q HQ. destruct (table_opened s name) as (r & s' & E & Hop). exists r, s'. auto.
  - intros s f w name Q _ HQ. destruct (table_opened s name) as (r & s' & E & Hop). exists r, s'. auto.
  - apply table_closed.
  - apply table_closed.
Qed.

(** Three files with at most two open, datasets that exist and that do not. *)
Definition fc_example : list (fc_op Z) :=
  [Request 10 1 (Some 7); Request 11 2 (Some (-3)); Request 12 1 (Some 8); Query 1 (Some 7);
   Request 13 3 None; Query 2 None]%Z.

Lemma file_cache_refines_lru_witness :
  let _ := avl_kvmap (W := positive) int_cmp in
  0 < 2 ∧ 0 < 1 ∧
  ∃ rs h1 (c1 : file_cache (avltree Z positive) Z) vs,
    run_fc_ops false fc_example (∅, file_cache_new 2 1) = Some (rs, (h1, c1)) ∧
    fc_specs false 2 1 [] fc_example rs vs.
Proof.
  pose proof (avl_kvmap_laws (W := positive) int_cmp) as Hlaws. split; [lia|]. split; [lia|].
  destruct (file_cache_refines_lru (H1 := Hlaws) false ∅ 2 1 fc_example) as (rs & h1 & c1 & vs & Hrun & Hsp & _);
    [lia|lia|].
  exists rs, h1, c1, vs. split; [exact Hrun|exact Hsp].
Defined.

Lemma file_cache_expires_old_witness :
  let _ := avl_kvmap (W := positive) int_cmp in
  clock_ok 10 (fc_example ++ [Expire 20 8]) ∧
  ∃ rs h1 (c1 : file_cache (avltree Z positive) Z) vs,
    run_fc_ops false fc_example (∅, file_cache_new 2 1) = Some (rs, (h1, c1)) ∧ fc_abs c1 vs.
Proof.
  pose proof (avl_kvmap_laws (W := positive) int_cmp) as Hlaws. split; [simpl; lia|].
  destruct (file_cache_expires_old (H1 := Hlaws) false ∅ 2 1 fc_example 10 20 8)
    as (rs & h1 & c1 & vs & h2 & c2 & Hrun & Hab & _); [lia|lia|simpl; lia|lia|].
  exists rs, h1, c1, vs. split; [exact Hrun|exact Hab].
Defined.

(** The example evaluates to what the contract says. *)
Example fc_example_results :
  let _ := avl_kvmap (W := positive) int_cmp in
  option_map fst (run_fc_ops false fc_example (∅, file_cache_new (T := avltree Z positive) 2 1)) =
    Some [RCode 3; RCode 1; RCode 3; RQuery 1 0; RCode 1; RQuery 0 0].
Proof. vm_compute. reflexivity. Qed.
