(* ===== verification/ShadowCache.v ===== *)
(** * The shadow copy of a worker's cache

    The library keeps for each worker a copy of its file cache, compiled with
    [SHADOW_CACHE], and updates it with the result of each request.  Until the
    worker expires entries, the copy agrees with the cache in the worker: the
    score with which the library chooses a worker (cache_score of hdfstream.c)
    is computed from what the worker really has open. *)
From stdpp Require Import base tactics numbers list gmap.
From S2P Require Import Prelude MapInterface OrderedMap Caches DatasetCache FileCache FileCacheProof.
From S2P Require Import FileCacheMain AvlTree AvlMap.

Section names.
Context {K : Type} `{EqDecision K}.
Implicit Types (vs ws : list (fview K)) (ds es : list (K * Z)).

(** What both copies have in common: the names, in order. *)
Definition v_names (v : fview K) : K * list K := (v_name v, (v_dss v).*1).
Definition names vs : list (K * list K) := v_names <$> vs.

Lemma split_unique {A} (f : A → K) k a1 x b1 a2 y b2 :
  a1 ++ x :: b1 = a2 ++ y :: b2 → f x = k → f y = k →
  (∀ z, z ∈ a1 → f z ≠ k) → (∀ z, z ∈ a2 → f z ≠ k) → a1 = a2 ∧ x = y ∧ b1 = b2.
Proof.
  revert a2. induction a1 as [|z a1 IH]; intros [|z' a2] E Hx Hy H1 H2; simpl in E;
    injection E as E1 E2; [done|..].
  - destruct (H2 z'); [constructor|by rewrite <- E1].
  - destruct (H1 z); [constructor|by rewrite E1].
  - subst z'. destruct (IH a2) as (-> & -> & ->); try done; intros; [apply H1|apply H2]; by constructor.
Qed.

Lemma nodup_before {A} (f : A → K) a1 x b1 z : NoDup (f <$> a1 ++ x :: b1) → z ∈ a1 → f z ≠ f x.
Proof.
  rewrite fmap_app, NoDup_app, fmap_cons. intros (_ & Hd & _) Hz E. apply (Hd (f z)).
  - by apply list_elem_of_fmap_2.
  - rewrite E. constructor.
Qed.

Lemma names_fst vs : (names vs).*1 = v_name <$> vs.
Proof. unfold names. by rewrite <- list_fmap_compose. Qed.

Lemma absent_names vs ws name :
  names vs = names ws → (∀ v, v ∈ vs → v_name v ≠ name) → ∀ w, w ∈ ws → v_name w ≠ name.
Proof.
  intros E Hv w Hw Hn. assert (name ∈ v_name <$> vs) as (v & -> & Hin)%list_elem_of_fmap.
  - rewrite <- names_fst, E, names_fst, <- Hn. by apply list_elem_of_fmap_2.
  - by apply (Hv v).
Qed.

(** Opening the same file keeps the agreement. *)
Lemma lru_file_agree sh sh' mf now now' name vs vs' ws ws' :
  lru_file sh mf now name vs true vs' → lru_file sh' mf now' name ws true ws' →
  names vs = names ws → NoDup (v_name <$> vs) → names vs' = names ws'.
Proof.
  intros Hv Hw E Hn. assert (NoDup (v_name <$> ws)) as Hn' by (by rewrite <- names_fst, <- E, names_fst).
  inversion_clear Hv as [vs1 v vs2 -> Hvn| |id Hni]; inversion_clear Hw as [ws1 w ws2 -> Hwn| |id' Hni'].
  - unfold names in E. rewrite !fmap_app, !fmap_cons in E.
    destruct (split_unique fst name _ _ _ _ _ _ E) as (E1 & E2 & E3); [done|done|..].
    + intros z (u & -> & Hu)%list_elem_of_fmap. simpl. rewrite <- Hvn. by eapply nodup_before.
    + intros z (u & -> & Hu)%list_elem_of_fmap. simpl. rewrite <- Hwn. by eapply nodup_before.
    + unfold names. rewrite !fmap_cons, !fmap_app, E1, E3. f_equal. unfold v_names in *. simpl. congruence.
  - destruct (absent_names _ _ _ (symmetry E) Hni' v); [apply elem_of_app; right; constructor|done].
  - destruct (absent_names _ _ _ E Hni w); [apply elem_of_app; right; constructor|done].
  - unfold names in *. rewrite !fmap_cons, !fmap_take. by rewrite E.
Qed.

Lemma lru_dataset_agree sh sh' md name ds r ds' es r' es' :
  lru_dataset sh md name ds r ds' → lru_dataset sh' md name es r' es' → (0 ≤ r)%Z → (0 ≤ r')%Z →
  ds.*1 = es.*1 → NoDup ds.*1 → ds'.*1 = es'.*1.
Proof.
  intros Hd He Hr Hr' E Hn. assert (NoDup es.*1) as Hn' by (by rewrite <- E).
  inversion Hd as [ds1 id ds2 Ed|? ? ? ?|? Hni ? ?]; inversion He as [es1 id' es2 Ee|? ? ? ?|? Hni' ? ?]; subst; try lia.
  - rewrite !fmap_app, !fmap_cons in E. simpl in E.
    destruct (split_unique id name _ _ _ _ _ _ E) as (E1 & _ & E3); [done|done|..].
    + intros z (u & -> & Hu)%list_elem_of_fmap. by apply (nodup_before fst ds1 (name, r) ds2).
    + intros z (u & -> & Hu)%list_elem_of_fmap. by apply (nodup_before fst es1 (name, r') es2).
    + rewrite !fmap_cons, !fmap_app. simpl. by rewrite E1, E3.
  - destruct Hni'. rewrite <- E, fmap_app. apply elem_of_app. right. constructor.
  - destruct Hni. rewrite E, fmap_app. apply elem_of_app. right. constructor.
  - rewrite !fmap_cons, !fmap_take. simpl. by rewrite E.
Qed.

Lemma query_agree vs ws name dname r r' :
  query_result vs name dname r → query_result ws name dname r' →
  names vs = names ws → NoDup (v_name <$> vs) → r = r'.
Proof.
  intros Hv Hw E Hn. assert (NoDup (v_name <$> ws)) as Hn' by (by rewrite <- names_fst, <- E, names_fst).
  destruct Hv as [[-> Hv]|(v & (vs1 & vs2 & ->)%list_elem_of_split & Hvn & ->)],
    Hw as [[-> Hw]|(w & (ws1 & ws2 & ->)%list_elem_of_split & Hwn & ->)]; [done|..].
  - destruct (absent_names _ _ _ E Hv w); [apply elem_of_app; right; constructor|done].
  - destruct (absent_names _ _ _ (symmetry E) Hw v); [apply elem_of_app; right; constructor|done].
  - unfold names in E. rewrite !fmap_app, !fmap_cons in E.
    destruct (split_unique fst name _ _ _ _ _ _ E) as (_ & [= _ E2] & _); [done|done|..].
    + intros z (u & -> & Hu)%list_elem_of_fmap. simpl. rewrite <- Hvn. by eapply nodup_before.
    + intros z (u & -> & Hu)%list_elem_of_fmap. simpl. rewrite <- Hwn. by eapply nodup_before.
    + by rewrite E2.
Qed.
End names.

Section shadow.
Context {T K L : Type} `{KVMapLaws T K positive} `{!H5Files K L, !H5FilesLaws K L}.
Abbreviation state := (L * file_cache T K)%type.

(** A request: the worker opens what it asks for, the library updates its copy
    with the result.  [nw] and [nl] are the times in the two processes. *)
Definition serve_request (nw nl : Z) (name : K) (dname : option K) : M (state * state) () :=
  let! retcode := zoom fst (λ w s, (w, s.2)) (open_request false nw name dname) in
  zoom snd (λ l s, (s.1, l)) (update_shadow true nl retcode name dname).
Fixpoint serve (reqs : list (Z * Z * K * option K)) : M (state * state) () :=
  match reqs with
  | [] => ret ()
  | (nw, nl, name, dname) :: reqs => do! serve_request nw nl name dname in serve reqs
  end.

Lemma fc_abs_nodup (c : file_cache T K) vs :
  fc_abs c vs → NoDup (v_name <$> vs) ∧ Forall (λ v, NoDup (v_dss v).*1) vs.
Proof.
  intros (fs & Hr & ->). split.
  - pose proof (om_abs_nodup _ _ (fr_map _ _ Hr)) as Hn. by rewrite <- !list_fmap_compose in *.
  - apply Forall_fmap. eapply Forall_impl; [apply (fr_ok _ _ Hr)|]. intros f (Hd & _). simpl.
    pose proof (om_abs_nodup _ _ (dr_map _ _ Hd)) as Hn. by rewrite <- !list_fmap_compose in *.
Qed.

(** The handles of datasets are not negative. *)
Definition valid_ids (vs : list (fview K)) : Prop := Forall (λ v, Forall (λ p, 0 ≤ p.2)%Z (v_dss v)) vs.

Lemma lru_file_valid sh mf now name (vs vs' : list (fview K)) b :
  lru_file sh mf now name vs b vs' → valid_ids vs → valid_ids vs'.
Proof.
  unfold valid_ids. intros [vs1 v vs2 -> <-| |id ?] Hv; [|done|].
  - rewrite Forall_app, Forall_cons in Hv. constructor; [tauto|]. apply Forall_app. tauto.
  - constructor; [constructor|by apply Forall_take].
Qed.
Lemma lru_dataset_valid sh md (name : K) ds r ds' :
  lru_dataset sh md name ds r ds' → Forall (λ p, 0 ≤ p.2)%Z ds → Forall (λ p, 0 ≤ p.2)%Z ds'.
Proof.
  intros [ds1 id ds2 ->| |r' ? ?] Hv; [|done|].
  - rewrite Forall_app, Forall_cons in Hv. constructor; [tauto|]. apply Forall_app. tauto.
  - constructor; [done|by apply Forall_take].
Qed.

(** The two copies agree. *)
Definition agree (bw bl : gmap Z h5_what) mf md (s : state * state) : Prop :=
  ∃ vs ws, fc_state false bw mf md vs s.1 ∧ fc_state true bl mf md ws s.2 ∧
    names vs = names ws ∧ valid_ids vs ∧ valid_ids ws.

Lemma serve_request_agree bw bl mf md s nw nl name dname :
  0 < mf → 0 < md → agree bw bl mf md s →
  wp (serve_request nw nl name dname) (λ _ s', agree bw bl mf md s') s.
Proof.
  intros Hmf Hmd (vs & ws & Hv & Hw & E & Hvv & Hvw). destruct s as [sw sl]. simpl in Hv, Hw.
  destruct (fc_abs_nodup _ _ (fs_abs _ _ _ _ _ _ Hv)) as [Hnv _].
  unfold serve_request. wp_step. apply wp_zoom. simpl.
  pose proof (run_fc_op_spec false bw mf md vs sw (Request nw name dname) Hv Hmf Hmd) as Hop.
  simpl in Hop. apply wp_bind_inv in Hop. eapply wp_mono; [exact Hop|].
  intros retcode sw' (r & s2 & [= <- <-] & vs' & Hsp & Hv'). clear Hop. apply wp_zoom. simpl.
  (* opening the file in the shadow copy *)
  assert (∀ vs1 (Q : option positive → state → Prop), lru_file false mf nw name vs true vs1 →
    (∀ h' c' f fs, names vs1 = names (fn_view <$> f :: fs) → valid_ids (fn_view <$> f :: fs) →
       fc_rep c' (f :: fs) → owns true h' bl (handles (f :: fs) ++ []) →
       fc_max_open_files c' = Z.of_nat mf → fc_max_open_datasets c' = Z.of_nat md → Q (Some (fn_ptr f)) (h', c')) →
    wp (file_cache_open_file true nl name) Q sl) as Hopen.
  { intros vs1 Q Hl HQ. eapply open_file_spec; [exact Hw|done|..].
    - intros s' Hfail. exfalso. by inversion Hfail.
    - intros h' c' f fs Hl' Hr Ho Hf Hd. apply (HQ h' c' f fs); try done.
      + by eapply lru_file_agree.
      + by eapply lru_file_valid. }
  unfold update_shadow. inversion Hsp as [? ? ? Hl|? ? ? Hl|? ? ? v vs1 r ds Hl Hds| |]; subst; simpl.
  - wp_step. exists vs', ws. by split_and!.
  - wp_step. apply (Hopen vs'); [done|]. intros h' c' f fs E' Hvf Hr Ho Hf Hd. wp_step.
    exists vs', (fn_view <$> f :: fs). split_and!; [done| |done|by eapply lru_file_valid|done].
    by eapply (fc_state_intro _ _ _ _ _ c').
  - assert (negb (Z.land (if (0 <=? r)%Z then 3 else 1) RESULT_FILE_OPENED =? 0)%Z = true) as ->
      by (by destruct (0 <=? r)%Z).
    wp_step. apply (Hopen (v :: vs1)); [done|]. intros h' c' f fs E' Hvf Hr Ho Hf Hd.
    pose proof (lru_file_valid _ _ _ _ _ _ _ Hl Hvv) as [Hvv1 Hvv2]%Forall_cons.
    assert (valid_ids (FView (v_name v) (v_id v) (v_time v) ds :: vs1)) as Hvv'.
    { constructor; [|done]. simpl. by eapply lru_dataset_valid. }
    destruct (Z.leb_spec 0 r) as [Hr0|Hr0]; simpl.
    + wp_step. eapply wp_file_cache_open_dataset; [exact Hr|exact Ho|lia|].
      intros r' h2 c2 f' Hop Hn Hi Ht Hr' Ho' Hlim. wp_step. rewrite Hd in Hop. apply lru_dataset_rep in Hop.
      eexists _, (fn_view <$> f' :: fs). split_and!; [exact Hv'|by eapply fc_state_intro| |exact Hvv'|].
      * unfold names in E' |- *. rewrite !fmap_cons in E' |- *. injection E' as E1 E2 E3.
        rewrite E3. f_equal. unfold v_names. simpl. rewrite Hn, E1. f_equal.
        eapply lru_dataset_agree; [exact Hds|exact Hop|done| |exact E2|].
        -- inversion Hop; [|done|done]. apply Forall_cons in Hvf as [Hvf _]. simpl in Hvf.
           match goal with Heq : dn_view <$> fn_dss f = _ |- _ => rewrite Heq in Hvf end.
           apply Forall_app in Hvf as [_ [? _]%Forall_cons]. done.
        -- rewrite E2. destruct (fc_abs_nodup c' (fn_view <$> f :: fs)) as [_ [Hnd _]%Forall_cons]; [by exists (f :: fs)|exact Hnd].
      * rewrite fmap_cons. apply Forall_cons in Hvf as [Hvf1 Hvf2]. constructor; [|done].
        by eapply lru_dataset_valid.
    + wp_step. eexists _, (fn_view <$> f :: fs). split_and!; [exact Hv'|by eapply (fc_state_intro _ _ _ _ _ c')| |exact Hvv'|exact Hvf].
      inversion Hds; subst; try lia; [|by rewrite <- E'; destruct v].
      exfalso. match goal with Heq : v_dss v = _ ++ _ |- _ => rewrite Heq in Hvv1 end.
      apply Forall_app in Hvv1 as [_ [? _]%Forall_cons]. simpl in *. lia.
Qed.

Lemma serve_agree bw bl mf md reqs s :
  0 < mf → 0 < md → agree bw bl mf md s → wp (serve reqs) (λ _ s', agree bw bl mf md s') s.
Proof.
  intros Hmf Hmd. revert s. induction reqs as [|[[[nw nl] name] dname] reqs IH]; intros s Hs; simpl.
  { by apply wp_ret. }
  wp_step. eapply wp_mono; [apply serve_request_agree; [exact Hmf|exact Hmd|exact Hs]|]. intros [] s' Hs'. by apply IH.
Qed.

(** C23: The shadow copy in the library is exact: after any sequence of
    requests, of which some may fail, without expiry, the score that the
    library computes for a worker from its copy is what a query of the
    worker's own cache says about the file and the dataset. *)
Theorem shadow_cache_exact (hw hl : L) mf md reqs name dname :
  0 < mf → 0 < md →
  ∃ w l, serve reqs ((hw, file_cache_new (Z.of_nat mf) (Z.of_nat md)),
                     (hl, file_cache_new (Z.of_nat mf) (Z.of_nat md))) = Some ((), (w, l)) ∧
    ∃ have_file have_dataset w' l',
      file_cache_query name dname w = Some ((have_file, have_dataset), w') ∧
      cache_score name dname l = Some ((have_file + have_dataset)%Z, l') ∧
      (0 ≤ have_dataset ≤ have_file ≤ 1)%Z.
Proof.
  intros Hmf Hmd.
  destruct (serve_agree (h5_handles hw) (h5_handles hl) mf md reqs
    ((hw, file_cache_new (Z.of_nat mf) (Z.of_nat md)), (hl, file_cache_new (Z.of_nat mf) (Z.of_nat md))))
    as ([] & [w l] & Hrun & vs & ws & Hv & Hw & E & _ & _); [done|done| |].
  { exists [], []. split_and!; [apply fc_state_new|apply fc_state_new|done|constructor..]. }
  exists w, l. split; [done|]. simpl in Hv, Hw.
  destruct (fc_abs_nodup _ _ (fs_abs _ _ _ _ _ _ Hv)) as [Hnv _].
  pose proof (run_fc_op_spec false _ _ _ _ _ (Query name dname) Hv Hmf Hmd) as Hqw. simpl in Hqw.
  pose proof (run_fc_op_spec true _ _ _ _ _ (Query name dname) Hw Hmf Hmd) as Hql. simpl in Hql.
  apply wp_bind_inv in Hqw as (qw & w' & Hrw & ? & ? & [= <- <-] & vs' & Hsw & _).
  apply wp_bind_inv in Hql as (ql & l' & Hrl & ? & ? & [= <- <-] & ws' & Hsl & _).
  inversion Hsw as [| | |? ? ? Hqw|]; inversion Hsl as [| | |? ? ? Hql|]; subst.
  assert (r = qw) as -> by (destruct r, qw; simpl in *; congruence).
  assert (r0 = ql) as -> by (destruct r0, ql; simpl in *; congruence).
  pose proof (query_agree _ _ _ _ _ _ Hqw Hql E Hnv) as <-. exists qw.1, qw.2, w', l'.
  split; [by rewrite <- surjective_pairing|]. unfold cache_score, bind. rewrite Hrl.
  destruct Hqw as [[-> _]|(v & _ & _ & ->)]; [done|].
  destruct dname as [d|]; [|done]. by destruct (bool_decide _).
Qed.
End shadow.

Lemma shadow_cache_exact_witness :
  let _ := avl_kvmap (W := positive) int_cmp in
  0 < 2 ∧
  ∃ w l : gset Z * file_cache (avltree Z positive) Z,
    serve [(10, 10, 1, Some 7); (11, 12, 2, Some (-3)); (13, 13, 3, None)]%Z
      ((∅, file_cache_new 2 1), (∅, file_cache_new 2 1)) = Some ((), (w, l)).
Proof.
  pose proof (avl_kvmap_laws (W := positive) int_cmp) as Hlaws. split; [lia|].
  destruct (shadow_cache_exact (H1 := Hlaws) ∅ ∅ 2 1
    [(10, 10, 1, Some 7); (11, 12, 2, Some (-3)); (13, 13, 3, None)]%Z 1%Z None) as (w & l & Hrun & _);
    [lia|lia|].
  exists w, l. exact Hrun.
Defined.
