(* ===== verification/ProcessPool.v ===== *)
(** * The pool of reader processes (src/src/util/process_pool.c)

    Threads of the library take a worker process from the pool, use it for one
    data stream, and give it back.  The fields of the pool are protected by its
    mutex: each critical section is one function here, and one step of a thread
    in the step relation at the end.  What is outside of them (the semaphore,
    the check that a worker is alive) are steps of their own. *)
From stdpp Require Import base tactics numbers list gmap relations.
From S2P Require Import Prelude.

Inductive worker_state_t := IDLE | BUSY | STOPPED.
#[export] Instance worker_state_eq : EqDecision worker_state_t.
Proof. solve_decision. Defined.

(** The field of [struct worker_process] that the pool depends on. *)
Record worker_process := Worker { wk_is_dead : bool }.

(** [struct process_pool], with the memory of the worker structs and the
    processes of the operating system that are running. *)
Record process_pool := Pool {
  max_nr_processes : Z;
  nr_processes_running : Z;
  worker : list (option positive);
  worker_state : list worker_state_t;
  sem : Z;
  next : Z;
  stop : bool;
  pp_workers : gmap positive worker_process;
  pp_alive : gset positive;
}.

Abbreviation P := (M process_pool).

Definition set_running (n : Z) (p : process_pool) : process_pool :=
  Pool (max_nr_processes p) n (worker p) (worker_state p) (sem p) (next p) (stop p) (pp_workers p) (pp_alive p).
Definition set_workers (w : list (option positive)) (p : process_pool) : process_pool :=
  Pool (max_nr_processes p) (nr_processes_running p) w (worker_state p) (sem p) (next p) (stop p) (pp_workers p) (pp_alive p).
Definition set_states (st : list worker_state_t) (p : process_pool) : process_pool :=
  Pool (max_nr_processes p) (nr_processes_running p) (worker p) st (sem p) (next p) (stop p) (pp_workers p) (pp_alive p).
Definition set_sem (n : Z) (p : process_pool) : process_pool :=
  Pool (max_nr_processes p) (nr_processes_running p) (worker p) (worker_state p) n (next p) (stop p) (pp_workers p) (pp_alive p).
Definition set_next (n : Z) (p : process_pool) : process_pool :=
  Pool (max_nr_processes p) (nr_processes_running p) (worker p) (worker_state p) (sem p) n (stop p) (pp_workers p) (pp_alive p).
Definition set_stop (b : bool) (p : process_pool) : process_pool :=
  Pool (max_nr_processes p) (nr_processes_running p) (worker p) (worker_state p) (sem p) (next p) b (pp_workers p) (pp_alive p).
Definition set_heap (h : gmap positive worker_process) (p : process_pool) : process_pool :=
  Pool (max_nr_processes p) (nr_processes_running p) (worker p) (worker_state p) (sem p) (next p) (stop p) h (pp_alive p).
Definition set_alive (a : gset positive) (p : process_pool) : process_pool :=
  Pool (max_nr_processes p) (nr_processes_running p) (worker p) (worker_state p) (sem p) (next p) (stop p) (pp_workers p) a.

Definition WH : heap_of process_pool worker_process := HeapOf pp_workers set_heap.

Definition get_worker_at (i : Z) : P (option positive) := let! p := gets id in lift (arr_get (worker p) i).
Definition get_state_at (i : Z) : P worker_state_t := let! p := gets id in lift (arr_get (worker_state p) i).
Definition put_worker_at (i : Z) (w : option positive) : P () :=
  let! p := gets id in let! l := lift (arr_set (worker p) i w) in modify (set_workers l).
Definition put_state_at (i : Z) (st : worker_state_t) : P () :=
  let! p := gets id in let! l := lift (arr_set (worker_state p) i st) in modify (set_states l).
Definition sem_post : P () := modify (λ p, set_sem (sem p + 1) p).
Definition nr_slots : P nat := gets (λ p, Z.to_nat (max_nr_processes p)).
Definition is_null (w : option positive) : bool := match w with None => true | Some _ => false end.

(** ** Worker processes (worker_process.c) *)

(** [worker_process_new]: starting the process and the init callback may fail,
    then nothing is left. *)
Definition worker_process_new (ok : bool) : P (option positive) :=
  if ok then
    let! w := malloc WH (Worker false) in
    do! modify (λ p, set_alive ({[w]} ∪ pp_alive p) p) in
    ret (Some w)
  else ret None.

(** [worker_process_free] makes sure that the process has ended. *)
Definition worker_process_free (w : option positive) : P () :=
  let! s := load WH w in
  do! when (negb (wk_is_dead s))
        (match w with Some a => modify (λ p, set_alive (pp_alive p ∖ {[a]}) p) | None => ub end) in
  free WH w.

(** [worker_process_kill] *)
Definition worker_process_kill (w : option positive) : P () :=
  let! _ := load WH w in
  match w with Some a => modify (λ p, set_alive (pp_alive p ∖ {[a]}) p) | None => ub end.

Definition worker_process_is_alive (w : option positive) : P bool :=
  let! s := load WH w in
  if wk_is_dead s then ret false else
  let! running := gets (λ p, match w with Some a => bool_decide (a ∈ pp_alive p) | None => false end) in
  if running then ret true
  else do! store WH w (λ _, Worker true) in ret false.

(** ** The critical sections *)

Definition process_pool_new (max : Z) : process_pool :=
  Pool max 0 (replicate (Z.to_nat max) None) (replicate (Z.to_nat max) STOPPED) 0 0 false ∅ ∅.

(** The first stopped process index, or [max_nr_processes]. *)
Fixpoint find_stopped (n : nat) (i : Z) : P Z :=
  match n with
  | 0 => ret i
  | S n => let! st := get_state_at i in
           if bool_decide (st = STOPPED) then ret i else find_stopped n (i + 1)
  end.

(** [ok]: whether [worker_process_new] succeeds. *)
Definition process_pool_start_worker (ok : bool) : P Z :=
  let! p := gets id in
  do! when ((nr_processes_running p <? max_nr_processes p) && negb (stop p))%Z
    (let! n := nr_slots in
     let! i := find_stopped n 0 in
     when (i <? max_nr_processes p)%Z
       (let! w := worker_process_new ok in
        do! put_worker_at i w in
        if negb (is_null w) then
          do! put_state_at i IDLE in
          do! modify (λ p, set_running (nr_processes_running p + 1) p) in
          let! p := gets id in
          do! assertM (nr_processes_running p <=? max_nr_processes p)%Z in
          sem_post
        else put_state_at i STOPPED)) in
  gets nr_processes_running.

(** The loop that picks a worker, from the [i]-th of [n] that are left; [best]
    is [high_score_index], [high_score_value]. *)
Fixpoint pick_worker (cb : option (positive → Z)) (n : nat) (i : Z) (best : Z * Z) : P (Z * Z) :=
  match n with
  | 0 => ret best
  | S n =>
      let! p := gets id in
      let j := ((i + next p) `mod` max_nr_processes p)%Z in
      let! st := get_state_at j in
      if bool_decide (st = IDLE) then
        let! w := get_worker_at j in
        match w with
        | None => ub
        | Some w =>
            match cb with
            | None => ret (j, best.2)
            | Some cb =>
                let score := cb w in
                do! assertM (0 <=? score)%Z in
                pick_worker (Some cb) n (i + 1) (if (score >? best.2)%Z then (j, score) else best)
            end
        end
      else pick_worker cb n (i + 1) best
  end.

(** The part of [try_process_pool_get_worker_by_score] under the lock: the
    worker that is assigned, or NULL. *)
Definition assign_worker (cb : option (positive → Z)) : P (option positive) :=
  let! p := gets id in
  if stop p then do! sem_post in ret None else
  let! n := nr_slots in
  let! best := pick_worker cb n 0 ((-1)%Z, (-1)%Z) in
  do! assertM (0 <=? best.1)%Z in
  let! w := get_worker_at best.1 in
  do! put_state_at best.1 BUSY in
  do! modify (λ p, set_next ((next p + 1) `mod` max_nr_processes p) p) in
  ret w.

(** The part of [process_pool_get_worker_by_score] that removes a dead worker. *)
Definition remove_dead_worker (w : option positive) : P () :=
  let! n := nr_slots in
  forM n 0 (λ j,
    let! v := get_worker_at j in
    when (bool_decide (w = v))
      (do! put_state_at j STOPPED in
       do! worker_process_free w in
       do! put_worker_at j None in
       modify (λ p, set_running (nr_processes_running p - 1) p))).

(** The loop of [process_pool_release_worker], from the [i]-th of [n] that are
    left: whether the worker goes back in the pool. *)
Fixpoint release_loop (w : option positive) (n : nat) (i : Z) : P bool :=
  match n with
  | 0 => ret false
  | S n =>
      let! v := get_worker_at i in
      if bool_decide (w = v) then
        let! alive := worker_process_is_alive w in
        if (alive : bool) then do! put_state_at i IDLE in ret true
        else
          do! put_state_at i STOPPED in
          do! worker_process_free w in
          do! put_worker_at i None in
          do! modify (λ p, set_running (nr_processes_running p - 1) p) in
          ret false
      else release_loop w n (i + 1)
  end.
Definition release_worker (w : option positive) : P bool :=
  let! n := nr_slots in release_loop w n 0.

(** [process_pool_free]: what it does under the lock at first, the count of
    busy workers, and the deallocation at the end. *)
Definition stop_pool : P () :=
  do! modify (set_stop true) in
  let! n := nr_slots in
  do! forM n 0 (λ i,
    let! w := get_worker_at i in
    when (negb (is_null w))
      (let! st := get_state_at i in
       when (bool_decide (st ≠ STOPPED)) (worker_process_kill w))) in
  sem_post.

Fixpoint count_busy (n : nat) (i : Z) (nr_busy : Z) : P Z :=
  match n with
  | 0 => ret nr_busy
  | S n => let! st := get_state_at i in
           count_busy n (i + 1) (if bool_decide (st = BUSY) then nr_busy + 1 else nr_busy)%Z
  end.

Definition free_workers : P () :=
  let! n := nr_slots in
  forM n 0 (λ i,
    let! w := get_worker_at i in
    when (negb (is_null w)) (do! worker_process_free w in put_worker_at i None)).

(** ** Threads *)

(** Where a thread is.  [i] counts the tries of
    [process_pool_get_worker_by_score]. *)
Inductive thread :=
  | TOut                              (* it has no worker *)
  | TGet (i : Z)                      (* sem_getvalue *)
  | TStart (i : Z)                    (* process_pool_start_worker *)
  | TWait (i : Z)                     (* sem_wait *)
  | TAssign (i : Z)                   (* has decremented the semaphore *)
  | TCheck (i : Z) (w : positive)     (* worker_process_is_alive *)
  | TRemove (i : Z) (w : positive)    (* the worker was dead *)
  | THold (w : positive)              (* the worker is in use *)
  | TPost.                            (* has released it, sem_post *)

(** One step of a thread.  A thread that is out may ask for a worker, with any
    score callback, and one that holds a worker may release it, at any time.
    [t_wait]: [sem_wait] returned 0.  When a signal interrupts it, it returns -1,
    which the loop around it does not take for an interruption, and
    [assert(err==0)] ends the process: then there is no next step. *)
Inductive tstep : thread → process_pool → thread → process_pool → Prop :=
  | t_call p : tstep TOut p (TGet 0) p
  | t_tries i p : (max_nr_processes p + 1 ≤ i)%Z → tstep (TGet i) p TOut p
  | t_available i p : (i < max_nr_processes p + 1)%Z → (0 < sem p)%Z → tstep (TGet i) p (TWait i) p
  | t_none i p : (i < max_nr_processes p + 1)%Z → (sem p ≤ 0)%Z → tstep (TGet i) p (TStart i) p
  | t_start i p ok nr_running p' :
      process_pool_start_worker ok p = Some (nr_running, p') →
      tstep (TStart i) p (if (nr_running =? 0)%Z then TOut else TWait i) p'
  | t_wait i p : (0 < sem p)%Z → tstep (TWait i) p (TAssign i) (set_sem (sem p - 1) p)
  | t_assign i p cb w p' :
      (∀ f, cb = Some f → ∀ w, 0 ≤ f w)%Z →
      assign_worker cb p = Some (w, p') →
      tstep (TAssign i) p (match w with Some w => TCheck i w | None => TOut end) p'
  | t_check i w p alive p' :
      worker_process_is_alive (Some w) p = Some (alive, p') →
      tstep (TCheck i w) p (if (alive : bool) then THold w else TRemove i w) p'
  | t_remove i w p p' :
      remove_dead_worker (Some w) p = Some ((), p') → tstep (TRemove i w) p (TGet (i + 1)) p'
  | t_release w p back p' :
      release_worker (Some w) p = Some (back, p') →
      tstep (THold w) p (if (back : bool) then TPost else TOut) p'
  | t_post p p' : sem_post p = Some ((), p') → tstep TPost p TOut p'.

(** The call of [process_pool_free]: not yet, polling, or returned. *)
Inductive shutdown := SNone | SPoll | SDone.

Record system := System {
  s_pool : process_pool;
  s_threads : list thread;
  s_shutdown : shutdown;
}.

Inductive sstep : system → system → Prop :=
  | s_thread p ts sd i t t' p' :
      ts !! i = Some t → tstep t p t' p' → sstep (System p ts sd) (System p' (<[i := t']> ts) sd)
  | s_die p ts sd w :
      sstep (System p ts sd) (System (set_alive (pp_alive p ∖ {[w]}) p) ts sd)
  | s_stop p ts p' :
      stop_pool p = Some ((), p') → sstep (System p ts SNone) (System p' ts SPoll)
  | s_poll p ts n p' :
      count_busy (Z.to_nat (max_nr_processes p)) 0 0 p = Some (n, p') → (n ≠ 0)%Z →
      sstep (System p ts SPoll) (System p' ts SPoll)
  | s_free p ts p' p'' :
      count_busy (Z.to_nat (max_nr_processes p)) 0 0 p = Some (0%Z, p') →
      free_workers p' = Some ((), p'') →
      sstep (System p ts SPoll) (System p'' ts SDone).

(** A pool that was just made, and [n] threads. *)
Definition start_system (max : Z) (n : nat) : system :=
  System (process_pool_new max) (replicate n TOut) SNone.
