(* ===== verification/ProcessPoolProof.v ===== *)
(** * Correctness of the process pool

    One invariant of the pool and of all threads: the semaphore counts the
    idle workers that no thread has reserved, each busy worker is held by
    exactly one thread, and the array of workers owns exactly the allocated
    worker structs. *)
From stdpp Require Import base tactics numbers list gmap relations.
From S2P Require Import Prelude ProcessPool.

(** ** The state of the pool alone *)

Definition idle (st : worker_state_t) : nat := match st with IDLE => 1 | _ => 0 end.
Definition running (st : worker_state_t) : nat := match st with STOPPED => 0 | _ => 1 end.

Record pinv (p : process_pool) : Prop := {
  pi_workers : Z.of_nat (length (worker p)) = max_nr_processes p;
  pi_states : Z.of_nat (length (worker_state p)) = max_nr_processes p;
  pi_null j : worker p !! j = Some None ↔ worker_state p !! j = Some STOPPED;
  pi_inj i j w : worker p !! i = Some (Some w) → worker p !! j = Some (Some w) → i = j;
  pi_heap w : is_Some (pp_workers p !! w) ↔ ∃ j, worker p !! j = Some (Some w);
  pi_running : nr_processes_running p = Z.of_nat (total running (worker_state p));
}.

Lemma pinv_slot p j st :
  pinv p → worker_state p !! j = Some st → st ≠ STOPPED →
  ∃ w, worker p !! j = Some (Some w) ∧ is_Some (pp_workers p !! w).
Proof.
  intros Hp Hj Hne. destruct (lookup_lt_is_Some_2 (worker p) j) as [[w|] Hw].
  - apply lookup_lt_Some in Hj. pose proof (pi_workers _ Hp). pose proof (pi_states _ Hp). lia.
  - exists w. split; [done|]. apply (pi_heap _ Hp). eauto.
  - apply (pi_null _ Hp) in Hw. congruence.
Qed.

(** Reads and writes of the arrays. *)
Lemma wp_get_state p j st (Q : worker_state_t → process_pool → Prop) :
  worker_state p !! j = Some st → Q st p → wp (get_state_at (Z.of_nat j)) Q p.
Proof.
  intros Hj HQ. unfold get_state_at. do 2 wp_step. eapply wp_lift; [|exact HQ].
  by rewrite arr_get_nth, Nat2Z.id by lia.
Qed.
Lemma wp_get_worker p j w (Q : option positive → process_pool → Prop) :
  worker p !! j = Some w → Q w p → wp (get_worker_at (Z.of_nat j)) Q p.
Proof.
  intros Hj HQ. unfold get_worker_at. do 2 wp_step. eapply wp_lift; [|exact HQ].
  by rewrite arr_get_nth, Nat2Z.id by lia.
Qed.
Lemma wp_put_state p j st (Q : () → process_pool → Prop) :
  j < length (worker_state p) → Q () (set_states (<[j := st]> (worker_state p)) p) →
  wp (put_state_at (Z.of_nat j) st) Q p.
Proof.
  intros Hj HQ. unfold put_state_at. do 3 wp_step. eapply wp_lift.
  - apply arr_set_total. unfold id. lia.
  - wp_step. by rewrite Nat2Z.id.
Qed.
Lemma wp_put_worker p j w (Q : () → process_pool → Prop) :
  j < length (worker p) → Q () (set_workers (<[j := w]> (worker p)) p) →
  wp (put_worker_at (Z.of_nat j) w) Q p.
Proof.
  intros Hj HQ. unfold put_worker_at. do 3 wp_step. eapply wp_lift.
  - apply arr_set_total. unfold id. lia.
  - wp_step. by rewrite Nat2Z.id.
Qed.

(** ** Starting a worker *)

Lemma wp_find_stopped p n i (Q : Z → process_pool → Prop) :
  pinv p → (Z.of_nat i + Z.of_nat n = max_nr_processes p)%Z →
  Q (max_nr_processes p) p →
  (∀ j, worker_state p !! j = Some STOPPED → Q (Z.of_nat j) p) →
  wp (find_stopped n (Z.of_nat i)) Q p.
Proof.
  intros Hp. revert i. induction n as [|n IH]; intros i Hn Hno Hyes; simpl.
  { wp_step. by replace (Z.of_nat i) with (max_nr_processes p) by lia. }
  destruct (lookup_lt_is_Some_2 (worker_state p) i) as [st Hst]; [pose proof (pi_states _ Hp); lia|].
  wp_step. eapply wp_get_state; [exact Hst|]. case_bool_decide as E.
  - wp_step. subst st. by apply Hyes.
  - replace (Z.of_nat i + 1)%Z with (Z.of_nat (S i)) by lia. apply IH; [lia|done|done].
Qed.

(** A new worker [w] in the slot [j]. *)
Record started (p p' : process_pool) (j : nat) (w : positive) : Prop := {
  st_stop : stop p = false;
  st_slot : worker_state p !! j = Some STOPPED;
  st_new : pp_workers p !! w = None;
  st_pool : p' = Pool (max_nr_processes p) (nr_processes_running p + 1)
    (<[j := Some w]> (worker p)) (<[j := IDLE]> (worker_state p)) (sem p + 1) (next p) (stop p)
    (<[w := Worker false]> (pp_workers p)) ({[w]} ∪ pp_alive p);
}.

Lemma wp_start_worker ok p (Q : Z → process_pool → Prop) :
  pinv p →
  Q (nr_processes_running p) p →
  (∀ j w p', started p p' j w → Q (nr_processes_running p') p') →
  wp (process_pool_start_worker ok) Q p.
Proof.
  intros Hp Hno Hyes. unfold process_pool_start_worker. do 3 wp_step. unfold id.
  apply wp_when; [|intros _; by wp_step].
  intros [Hlt%Z.ltb_lt Hs%negb_true_iff]%andb_true_iff. unfold nr_slots. do 3 wp_step.
  pose proof (pi_states _ Hp) as Hls. pose proof (pi_workers _ Hp) as Hlw.
  apply (wp_find_stopped p _ 0); [done|lia|..].
  { apply wp_when; [intros ?%Z.ltb_lt; lia|]. intros _. by wp_step. }
  intros j Hj. assert (j < length (worker_state p)) as Hjl by (by eapply lookup_lt_Some).
  apply wp_when; [|intros ?%Z.ltb_ge; lia]. intros _. unfold worker_process_new. destruct ok.
  - wp_step. wp_step. apply wp_malloc. intros w Hw. do 2 wp_step. wp_step. wp_step.
    apply wp_put_worker; [simpl; lia|]. simpl. wp_step. apply wp_put_state; [simpl; lia|].
    do 5 wp_step. unfold id. apply wp_assert; [apply Z.leb_le; simpl; lia|].
    unfold sem_post. wp_step. wp_step. eapply Hyes. by split.
  - wp_step. wp_step. wp_step. apply wp_put_worker; [lia|]. simpl.
    apply wp_put_state; [simpl; lia|]. wp_step. simpl.
    assert (set_states (<[j:=STOPPED]> (worker_state p)) (set_workers (<[j:=None]> (worker p)) p) = p) as ->; [|done].
    unfold set_states, set_workers. simpl. apply (pi_null _ Hp) in Hj as Hn.
    rewrite !list_insert_id by done. by destruct p.
Qed.

Lemma started_pinv p p' j w : pinv p → started p p' j w → pinv p'.
Proof.
  intros Hp [Hs Hj Hw ->]. apply (pi_null _ Hp) in Hj as Hn.
  assert (j < length (worker p)) by (by eapply lookup_lt_Some).
  assert (j < length (worker_state p)) by (by eapply lookup_lt_Some).
  assert (∀ i v, worker p !! i = Some (Some v) → v ≠ w) as Hfresh.
  { intros i v Hi ->. assert (is_Some (pp_workers p !! w)) as [? ?]; [|congruence]. apply (pi_heap _ Hp). eauto. }
  split; simpl.
  - rewrite length_insert. apply Hp.
  - rewrite length_insert. apply Hp.
  - intros i. destruct (decide (i = j)) as [->|].
    + rewrite !list_lookup_insert_eq by done. by split.
    + rewrite !list_lookup_insert_ne by done. apply Hp.
  - intros i i' v. destruct (decide (i = j)) as [->|], (decide (i' = j)) as [->|]; [done|..];
      rewrite ?list_lookup_insert_eq, ?list_lookup_insert_ne by done.
    + intros [= <-] Hv. by apply Hfresh in Hv.
    + intros Hv [= <-]. by apply Hfresh in Hv.
    + apply Hp.
  - intros v. destruct (decide (v = w)) as [->|Hne].
    + rewrite lookup_insert_eq. split; [|by eauto]. intros _. exists j. by rewrite list_lookup_insert_eq.
    + rewrite lookup_insert_ne by done. rewrite (pi_heap _ Hp). split; intros [i Hi].
      * exists i. rewrite list_lookup_insert_ne; [done|]. intros ->. congruence.
      * exists i. destruct (decide (i = j)) as [->|].
        { rewrite list_lookup_insert_eq in Hi by done. congruence. }
        by rewrite list_lookup_insert_ne in Hi.
  - pose proof (total_insert running _ _ _ IDLE Hj) as Ht. rewrite (pi_running _ Hp). simpl in Ht. lia.
Qed.

(** ** Assigning a worker *)

(** The [k]-th slot that is looked at, and that it has the idle worker [w]. *)
Definition slot (p : process_pool) (k : Z) : nat := Z.to_nat ((k + next p) `mod` max_nr_processes p).
Definition idle_at (p : process_pool) (k : Z) (w : positive) : Prop :=
  worker_state p !! slot p k = Some IDLE ∧ worker p !! slot p k = Some (Some w).

Lemma slot_lt p k : pinv p → (0 < max_nr_processes p)%Z →
  slot p k < length (worker_state p) ∧ Z.of_nat (slot p k) = ((k + next p) `mod` max_nr_processes p)%Z.
Proof.
  intros Hp Hm. unfold slot. pose proof (Z.mod_pos_bound (k + next p) (max_nr_processes p) Hm).
  pose proof (pi_states _ Hp). lia.
Qed.
(** Every slot is looked at. *)
Lemma slot_onto p j : pinv p → j < length (worker_state p) →
  ∃ k, (0 ≤ k < max_nr_processes p)%Z ∧ slot p k = j.
Proof.
  intros Hp Hj. pose proof (pi_states _ Hp) as Hl. assert (0 < max_nr_processes p)%Z as Hm by lia.
  exists ((Z.of_nat j - next p) `mod` max_nr_processes p)%Z. split; [by apply Z.mod_pos_bound|].
  unfold slot. rewrite Z.add_mod_idemp_l by lia. replace (Z.of_nat j - next p + next p)%Z with (Z.of_nat j) by lia.
  rewrite Z.mod_small by lia. lia.
Qed.

(** The choice among the slots from [i] on, [n] of them, with scores: the
    first one of those with the highest score, if that is above [best]. *)
Definition picked (f : positive → Z) (p : process_pool) (i n : Z) (best best' : Z * Z) : Prop :=
  (best' = best ∧ ∀ k w, (i ≤ k < i + n)%Z → idle_at p k w → (f w ≤ best.2)%Z) ∨
  (∃ k w, (i ≤ k < i + n)%Z ∧ idle_at p k w ∧ best' = (Z.of_nat (slot p k), f w) ∧ (best.2 < f w)%Z ∧
     (∀ k' w', (i ≤ k' < k)%Z → idle_at p k' w' → (f w' < f w)%Z) ∧
     (∀ k' w', (k ≤ k' < i + n)%Z → idle_at p k' w' → (f w' ≤ f w)%Z)).

Lemma picked_not f p i n best best' :
  (∀ w, ¬ idle_at p i w) → (0 ≤ n)%Z → picked f p (i + 1) n best best' → picked f p i (n + 1) best best'.
Proof.
  intros Hi Hn [[-> Hk]|(k & w & Hk & Hw & -> & Hb & H1 & H2)].
  - left. split; [done|]. intros k w Hr Hw. destruct (decide (k = i)) as [->|]; [by apply Hi in Hw|].
    apply (Hk k); [lia|done].
  - right. exists k, w. split_and!; try done; try lia.
    + intros k' w' Hr Hw'. destruct (decide (k' = i)) as [->|]; [by apply Hi in Hw'|]. apply (H1 k'); [lia|done].
    + intros k' w' Hr Hw'. apply (H2 k'); [lia|done].
Qed.
Lemma picked_yes f p i n best best' w :
  idle_at p i w → (0 ≤ n)%Z →
  picked f p (i + 1) n (if (f w >? best.2)%Z then (Z.of_nat (slot p i), f w) else best) best' →
  picked f p i (n + 1) best best'.
Proof.
  intros Hi Hn Hp. assert (∀ w', idle_at p i w' → w' = w) as Hfun.
  { intros w' [_ Hw']. destruct Hi as [_ Hw]. congruence. }
  rewrite Z.gtb_ltb in Hp. destruct (Z.ltb_spec best.2 (f w)) as [Hlt|Hge].
  - destruct Hp as [[-> Hk]|(k & w' & Hk & Hw & -> & Hb & H1 & H2)]; right; simpl in *.
    + exists i, w. split_and!; try done; try lia.
      intros k' w' Hr Hw'. destruct (decide (k' = i)) as [->|]; [apply Hfun in Hw' as ->; lia|]. apply (Hk k'); [lia|done].
    + exists k, w'. split_and!; try done; try lia.
      * intros k' w2 Hr Hw2. destruct (decide (k' = i)) as [->|]; [by apply Hfun in Hw2 as ->|]. apply (H1 k'); [lia|done].
      * intros k' w2 Hr Hw2. apply (H2 k'); [lia|done].
  - destruct Hp as [[-> Hk]|(k & w' & Hk & Hw & -> & Hb & H1 & H2)]; [left|right].
    + split; [done|]. intros k' w' Hr Hw'. destruct (decide (k' = i)) as [->|]; [by apply Hfun in Hw' as ->|].
      apply (Hk k'); [lia|done].
    + exists k, w'. split_and!; try done; try lia.
      * intros k' w2 Hr Hw2. destruct (decide (k' = i)) as [->|]; [apply Hfun in Hw2 as ->; lia|]. apply (H1 k'); [lia|done].
      * intros k' w2 Hr Hw2. apply (H2 k'); [lia|done].
Qed.

(** Looking at a slot. *)
Lemma wp_pick_slot {A} p i (k : worker_state_t → P A) (Q : A → process_pool → Prop) :
  pinv p → (0 < max_nr_processes p)%Z →
  (∀ st, worker_state p !! slot p i = Some st → wp (k st) Q p) →
  wp (bind (get_state_at ((i + next p) `mod` max_nr_processes p)%Z) k) Q p.
Proof.
  intros Hp Hm HQ. destruct (slot_lt p i Hp Hm) as [Hj <-].
  destruct (lookup_lt_is_Some_2 _ _ Hj) as [st Hst]. wp_step. eapply wp_get_state; [exact Hst|by apply HQ].
Qed.

Lemma wp_pick_score f p n i best (Q : Z * Z → process_pool → Prop) :
  pinv p → (0 < max_nr_processes p)%Z → (∀ w, 0 ≤ f w)%Z →
  (∀ best', picked f p i (Z.of_nat n) best best' → Q best' p) →
  wp (pick_worker (Some f) n i best) Q p.
Proof.
  intros Hp Hm Hf. revert i best. induction n as [|n IH]; intros i best HQ; simpl.
  { wp_step. apply HQ. left. split; [done|]. intros; lia. }
  replace (Z.of_nat (S n)) with (Z.of_nat n + 1)%Z in HQ by lia.
  do 2 wp_step. unfold id. apply wp_pick_slot; [done|done|]. intros st Hst. case_bool_decide as E.
  - subst st. destruct (pinv_slot _ _ _ Hp Hst) as (w & Hw & _); [done|].
    destruct (slot_lt p i Hp Hm) as [_ Hj]. rewrite <- Hj. wp_step. eapply wp_get_worker; [exact Hw|].
    simpl. wp_step. apply wp_assert; [by apply Z.leb_le|]. apply IH. intros best' Hb. apply HQ.
    eapply picked_yes; [by split|lia|exact Hb].
  - apply IH. intros best' Hb. apply HQ. apply picked_not; [|lia|done]. intros w [Hw _]. congruence.
Qed.

Lemma wp_pick_first p n i best (Q : Z * Z → process_pool → Prop) :
  pinv p → (0 < max_nr_processes p)%Z →
  ((∀ k w, (i ≤ k < i + Z.of_nat n)%Z → ¬ idle_at p k w) → Q best p) →
  (∀ k w, (i ≤ k < i + Z.of_nat n)%Z → idle_at p k w →
     (∀ k' w', (i ≤ k' < k)%Z → ¬ idle_at p k' w') → Q (Z.of_nat (slot p k), best.2) p) →
  wp (pick_worker None n i best) Q p.
Proof.
  intros Hp Hm. revert i. induction n as [|n IH]; intros i Hno Hyes; simpl.
  { wp_step. apply Hno. intros; lia. }
  do 2 wp_step. unfold id. apply wp_pick_slot; [done|done|]. intros st Hst. case_bool_decide as E.
  - subst st. destruct (pinv_slot _ _ _ Hp Hst) as (w & Hw & _); [done|].
    destruct (slot_lt p i Hp Hm) as [_ Hj]. rewrite <- Hj. wp_step. eapply wp_get_worker; [exact Hw|].
    simpl. wp_step. apply (Hyes i w); [lia|by split|]. intros; lia.
  - assert (∀ w, ¬ idle_at p i w) as Hi by (intros w [Hw _]; congruence). apply IH.
    + intros Hk. apply Hno. intros k w Hr. destruct (decide (k = i)) as [->|]; [apply Hi|]. apply Hk. lia.
    + intros k w Hr Hw Hbefore. apply (Hyes k w); [lia|done|]. intros k' w' Hr'.
      destruct (decide (k' = i)) as [->|]; [apply Hi|]. apply Hbefore. lia.
Qed.

(** The worker that is assigned: with scores, the first one of those with the
    highest score, otherwise the first idle one, from slot [next] on. *)
Definition chosen (cb : option (positive → Z)) (p : process_pool) (k : Z) (w : positive) : Prop :=
  (0 ≤ k < max_nr_processes p)%Z ∧ idle_at p k w ∧
  match cb with
  | Some f =>
      (∀ k' w', (0 ≤ k' < k)%Z → idle_at p k' w' → (f w' < f w)%Z) ∧
      (∀ k' w', (k ≤ k' < max_nr_processes p)%Z → idle_at p k' w' → (f w' ≤ f w)%Z)
  | None => ∀ k' w', (0 ≤ k' < k)%Z → ¬ idle_at p k' w'
  end.
Definition assigned (p : process_pool) (j : nat) : process_pool :=
  set_next ((next p + 1) `mod` max_nr_processes p) (set_states (<[j := BUSY]> (worker_state p)) p).

Lemma wp_assign_worker cb p (Q : option positive → process_pool → Prop) :
  pinv p → (∀ f, cb = Some f → ∀ w, 0 ≤ f w)%Z →
  (stop p = false → 0 < total idle (worker_state p)) →
  (stop p = true → Q None (set_sem (sem p + 1) p)) →
  (∀ k w, stop p = false → chosen cb p k w → Q (Some w) (assigned p (slot p k))) →
  wp (assign_worker cb) Q p.
Proof.
  intros Hp Hcb Hidle Hstop Hyes. unfold assign_worker. do 2 wp_step. unfold id.
  destruct (stop p) eqn:Es; [unfold sem_post; wp_steps; by apply Hstop|]. clear Hstop.
  destruct (total_pos _ _ (Hidle eq_refl)) as (j & st & Hj & Hst).
  assert (j < length (worker_state p)) as Hjl by (by eapply lookup_lt_Some).
  pose proof (pi_states _ Hp) as Hl. assert (0 < max_nr_processes p)%Z as Hm by lia.
  assert (∃ k w, (0 ≤ k < max_nr_processes p)%Z ∧ idle_at p k w) as (k0 & w0 & Hk0 & Hi0).
  { destruct st; simpl in Hst; try lia. destruct (slot_onto p j Hp Hjl) as (k & Hk & <-).
    destruct (pinv_slot _ _ _ Hp Hj) as (w & Hw & _); [done|]. by exists k, w. }
  (* once the worker is chosen *)
  assert (∀ k w (v : Z), chosen cb p k w →
    wp (do! assertM (0 <=? (Z.of_nat (slot p k), v).1)%Z in
        let! w := get_worker_at (Z.of_nat (slot p k), v).1 in
        do! put_state_at (Z.of_nat (slot p k), v).1 BUSY in
        do! modify (λ p, set_next ((next p + 1) `mod` max_nr_processes p) p) in ret w) Q p) as Hfin.
  { intros k w v Hc. pose proof Hc as (Hk & [Hs Hw] & _). wp_step. apply wp_assert; [apply Z.leb_le; simpl; lia|].
    wp_step. eapply wp_get_worker; [exact Hw|]. wp_step. apply wp_put_state; [apply (slot_lt p k Hp Hm)|].
    wp_steps. by apply Hyes. }
  unfold nr_slots. do 3 wp_step. destruct cb as [f|].
  - specialize (Hcb f eq_refl). apply wp_pick_score; [done|done|done|]. rewrite Z2Nat.id by lia.
    intros best [[-> Hk]|(k & w & Hk & Hw & -> & Hb & H1 & H2)].
    + specialize (Hk k0 w0). simpl in Hk. specialize (Hcb w0). rewrite Z.add_0_l in Hk. specialize (Hk Hk0 Hi0). lia.
    + apply (Hfin k w). split; [lia|]. split; [done|]. split; [done|]. intros k' w' Hr. apply H2. lia.
  - apply wp_pick_first; [done|done|..]; rewrite Z2Nat.id by lia; rewrite Z.add_0_l.
    + intros Hk. by destruct (Hk k0 w0).
    + intros k w Hk Hw Hbefore. apply (Hfin k w). split; [exact Hk|]. split; [exact Hw|exact Hbefore].
Qed.

(** A slot that is not stopped changes its state. *)
Lemma set_state_pinv p j st st' n :
  pinv p → worker_state p !! j = Some st → st ≠ STOPPED → st' ≠ STOPPED →
  pinv (set_next n (set_states (<[j := st']> (worker_state p)) p)).
Proof.
  intros Hp Hj Hne Hne'. assert (j < length (worker_state p)) by (by eapply lookup_lt_Some). split; simpl.
  - apply Hp.
  - rewrite length_insert. apply Hp.
  - intros i. rewrite (pi_null _ Hp). destruct (decide (i = j)) as [->|].
    + rewrite list_lookup_insert_eq by done. naive_solver.
    + by rewrite list_lookup_insert_ne by done.
  - apply Hp.
  - apply Hp.
  - rewrite (pi_running _ Hp). pose proof (total_insert running _ _ _ st' Hj). destruct st, st'; simpl in *; try done; lia.
Qed.

(** ** Workers that die *)

(** [is_dead] is set. *)
Definition mark (w : positive) (p : process_pool) : process_pool :=
  set_heap (<[w := Worker true]> (pp_workers p)) p.

Lemma mark_pinv w p : pinv p → is_Some (pp_workers p !! w) → pinv (mark w p).
Proof.
  intros Hp Hw. split; simpl; try apply Hp. intros v. rewrite <- (pi_heap _ Hp).
  destruct (decide (v = w)) as [->|]; [by rewrite lookup_insert_eq|by rewrite lookup_insert_ne].
Qed.

Lemma wp_is_alive p w (Q : bool → process_pool → Prop) :
  is_Some (pp_workers p !! w) → Q true p → Q false (mark w p) →
  wp (worker_process_is_alive (Some w)) Q p.
Proof.
  intros [[d] Hw] Hyes Hno. unfold worker_process_is_alive. wp_step. eapply wp_load; [exact Hw|].
  destruct d; simpl.
  { wp_step. unfold mark in Hno. rewrite insert_id in Hno by done. by destruct p. }
  do 2 wp_step. case_bool_decide; [by wp_step|]. wp_step. eapply wp_store; [exact Hw|]. by wp_step.
Qed.

Lemma wp_process_free p w (Q : () → process_pool → Prop) :
  is_Some (pp_workers p !! w) →
  (∀ a, Q () (set_alive a (set_heap (delete w (pp_workers p)) p))) →
  wp (worker_process_free (Some w)) Q p.
Proof.
  intros [s Hw] HQ. unfold worker_process_free. wp_step. eapply wp_load; [exact Hw|]. wp_step.
  apply wp_when; intros _; [wp_step|]; (eapply wp_free; [exact Hw|]).
  - apply HQ.
  - specialize (HQ (pp_alive p)). exact HQ.
Qed.

(** The worker [w] in slot [j] is gone. *)
Definition removed (p : process_pool) (j : nat) (w : positive) (p' : process_pool) : Prop :=
  ∃ a, p' = Pool (max_nr_processes p) (nr_processes_running p - 1) (<[j := None]> (worker p))
    (<[j := STOPPED]> (worker_state p)) (sem p) (next p) (stop p) (delete w (pp_workers p)) a.

Lemma removed_pinv p j w p' :
  pinv p → worker p !! j = Some (Some w) → removed p j w p' → pinv p'.
Proof.
  intros Hp Hw [a ->]. assert (j < length (worker p)) as Hj by (by eapply lookup_lt_Some).
  destruct (lookup_lt_is_Some_2 (worker_state p) j) as [st Hst].
  { pose proof (pi_workers _ Hp). pose proof (pi_states _ Hp). lia. }
  assert (st ≠ STOPPED) as Hne by (intros ->; apply (pi_null _ Hp) in Hst; congruence).
  assert (j < length (worker_state p)) by (by eapply lookup_lt_Some).
  split; simpl.
  - rewrite length_insert. apply Hp.
  - rewrite length_insert. apply Hp.
  - intros i. destruct (decide (i = j)) as [->|].
    + rewrite !list_lookup_insert_eq by done. by split.
    + rewrite !list_lookup_insert_ne by done. apply Hp.
  - intros i i' v Hi Hi'. apply (pi_inj _ Hp i i' v); [clear Hi'|clear Hi].
    + destruct (decide (i = j)) as [->|]; [by rewrite list_lookup_insert_eq in Hi|by rewrite list_lookup_insert_ne in Hi].
    + destruct (decide (i' = j)) as [->|]; [by rewrite list_lookup_insert_eq in Hi'|by rewrite list_lookup_insert_ne in Hi'].
  - intros v. rewrite lookup_delete_is_Some, (pi_heap _ Hp). split.
    + intros [Hne' [i Hi]]. exists i. rewrite list_lookup_insert_ne; [done|]. intros ->. congruence.
    + intros [i Hi]. destruct (decide (i = j)) as [->|]; [by rewrite list_lookup_insert_eq in Hi|].
      rewrite list_lookup_insert_ne in Hi by done. split; [|by eauto]. intros <-.
      assert (i = j); [|done]. by eapply (pi_inj _ Hp).
  - rewrite (pi_running _ Hp). pose proof (total_insert running _ _ _ STOPPED Hst). destruct st; simpl in *; try done; lia.
Qed.

(** The common end of the two places where a dead worker is removed. *)
Lemma wp_remove_slot p j w (Q : () → process_pool → Prop) :
  pinv p → worker p !! j = Some (Some w) →
  (∀ p', removed p j w p' → Q () p') →
  wp (do! put_state_at (Z.of_nat j) STOPPED in
      do! worker_process_free (Some w) in
      do! put_worker_at (Z.of_nat j) None in
      modify (λ p, set_running (nr_processes_running p - 1) p)) Q p.
Proof.
  intros Hp Hw HQ. assert (j < length (worker p)) by (by eapply lookup_lt_Some).
  assert (j < length (worker_state p)) by (pose proof (pi_workers _ Hp); pose proof (pi_states _ Hp); lia).
  assert (is_Some (pp_workers p !! w)) as Hh by (apply (pi_heap _ Hp); eauto).
  wp_step. apply wp_put_state; [done|]. wp_step. apply wp_process_free; [exact Hh|]. intros a. wp_step.
  apply wp_put_worker; [done|]. wp_step. apply HQ. by exists a.
Qed.

Lemma wp_remove_dead p j w (Q : () → process_pool → Prop) :
  pinv p → worker p !! j = Some (Some w) →
  (∀ p', removed p j w p' → Q () p') →
  wp (remove_dead_worker (Some w)) Q p.
Proof.
  intros Hp Hw HQ. assert (j < length (worker p)) as Hj by (by eapply lookup_lt_Some).
  pose proof (pi_workers _ Hp) as Hl. unfold remove_dead_worker, nr_slots. do 2 wp_step.
  apply (wp_forM (λ i s, if bool_decide (i ≤ Z.of_nat j)%Z then s = p else removed p j w s)).
  - intros i s Hi Hs. destruct (decide (i = Z.of_nat j)) as [->|Hne].
    + rewrite bool_decide_true in Hs by lia. subst s. wp_step. eapply wp_get_worker; [exact Hw|].
      rewrite (bool_decide_true (Some w = Some w)) by done. simpl.
      eapply wp_remove_slot; [done|exact Hw|]. intros p' Hr. by rewrite bool_decide_false by lia.
    + replace (bool_decide (i + 1 ≤ Z.of_nat j)%Z) with (bool_decide (i ≤ Z.of_nat j)%Z)
        by (apply bool_decide_ext; lia).
      destruct (lookup_lt_is_Some_2 (worker p) (Z.to_nat i)) as [v Hv]; [lia|].
      assert (worker s !! Z.to_nat i = Some v) as Hsv.
      { case_bool_decide; [by subst|]. destruct Hs as [a ->]. simpl. rewrite list_lookup_insert_ne; [done|lia]. }
      wp_step. rewrite <- (Z2Nat.id i) by lia. eapply wp_get_worker; [exact Hsv|]. rewrite Z2Nat.id by lia.
      apply wp_when; [|done]. intros <-%bool_decide_eq_true. exfalso.
      assert (Z.to_nat i = j); [|lia]. by eapply (pi_inj _ Hp).
  - by rewrite bool_decide_true by lia.
  - intros s. rewrite bool_decide_false by lia. apply HQ.
Qed.

Lemma wp_release_loop p j w n i (Q : bool → process_pool → Prop) :
  pinv p → worker p !! j = Some (Some w) → i ≤ j < i + n →
  Q true (set_states (<[j := IDLE]> (worker_state p)) p) →
  (∀ p', removed (mark w p) j w p' → Q false p') →
  wp (release_loop (Some w) n (Z.of_nat i)) Q p.
Proof.
  intros Hp Hw Hj Hyes Hno. revert i Hj. induction n as [|n IH]; intros i Hj; [lia|]. simpl.
  assert (j < length (worker p)) by (by eapply lookup_lt_Some).
  assert (j < length (worker_state p)) by (pose proof (pi_workers _ Hp); pose proof (pi_states _ Hp); lia).
  destruct (decide (i = j)) as [->|Hne].
  - wp_step. eapply wp_get_worker; [exact Hw|]. rewrite (bool_decide_true (Some w = Some w)) by done. wp_step.
    assert (is_Some (pp_workers p !! w)) as Hh by (apply (pi_heap _ Hp); eauto).
    apply wp_is_alive; [done|..].
    + wp_step. apply wp_put_state; [done|]. by wp_step.
    + pose proof (mark_pinv w p Hp Hh) as Hp'. pose proof (wp_remove_slot (mark w p) j w (λ _ s, Q false s) Hp' Hw Hno) as Hrm.
      repeat (apply wp_bind_inv in Hrm; wp_step; eapply wp_mono; [exact Hrm|]; clear Hrm; intros [] ? Hrm).
      wp_step. eapply wp_mono; [exact Hrm|]. intros [] s Hs. by wp_step.
  - destruct (lookup_lt_is_Some_2 (worker p) i) as [v Hv]; [lia|]. wp_step. eapply wp_get_worker; [exact Hv|].
    case_bool_decide as E.
    { exfalso. apply Hne. eapply (pi_inj _ Hp); [|exact Hw]. by rewrite Hv, E. }
    replace (Z.of_nat i + 1)%Z with (Z.of_nat (S i)) by lia. apply IH. lia.
Qed.

Lemma wp_release p j w (Q : bool → process_pool → Prop) :
  pinv p → worker p !! j = Some (Some w) →
  Q true (set_states (<[j := IDLE]> (worker_state p)) p) →
  (∀ p', removed (mark w p) j w p' → Q false p') →
  wp (release_worker (Some w)) Q p.
Proof.
  intros Hp Hw Hyes Hno. unfold release_worker, nr_slots. do 2 wp_step.
  apply (wp_release_loop p j w _ 0); [done|done| |done|done].
  assert (j < length (worker p)) by (by eapply lookup_lt_Some). pose proof (pi_workers _ Hp). lia.
Qed.

(** ** Shutting down *)

Lemma wp_stop_pool p (Q : () → process_pool → Prop) :
  pinv p →
  (∀ a, Q () (set_sem (sem p + 1) (set_alive a (set_stop true p)))) →
  wp stop_pool Q p.
Proof.
  intros Hp HQ. pose proof (pi_workers _ Hp) as Hl. unfold stop_pool, nr_slots. do 5 wp_step. simpl.
  apply (wp_forM (λ _ s, ∃ a, s = set_alive a (set_stop true p))).
  - intros i s Hi [a ->]. wp_step. rewrite <- (Z2Nat.id i) by lia.
    destruct (lookup_lt_is_Some_2 (worker p) (Z.to_nat i)) as [w Hw]; [lia|].
    eapply wp_get_worker; [exact Hw|]. apply wp_when; [|intros _; by exists a]. intros Hn. destruct w as [w|]; [|done].
    destruct (lookup_lt_is_Some_2 (worker_state p) (Z.to_nat i)) as [st Hst]; [pose proof (pi_states _ Hp); lia|].
    wp_step. eapply wp_get_state; [exact Hst|]. apply wp_when; [|intros _; by exists a]. intros _.
    assert (is_Some (pp_workers p !! w)) as [v Hv] by (apply (pi_heap _ Hp); eauto).
    unfold worker_process_kill. wp_step. eapply wp_load; [exact Hv|]. wp_step. by eexists.
  - exists (pp_alive p). by destruct p.
  - intros s [a ->]. unfold sem_post. wp_step. apply HQ.
Qed.

Lemma wp_count_busy p n i nr (Q : Z → process_pool → Prop) :
  (i + n ≤ length (worker_state p)) →
  (∀ r, (nr ≤ r)%Z → (r = nr → ∀ j, i ≤ j < i + n → worker_state p !! j ≠ Some BUSY) → Q r p) →
  wp (count_busy n (Z.of_nat i) nr) Q p.
Proof.
  revert i nr. induction n as [|n IH]; intros i nr Hn HQ; simpl.
  { wp_step. apply HQ; [lia|]. intros; lia. }
  destruct (lookup_lt_is_Some_2 (worker_state p) i) as [st Hst]; [lia|].
  wp_step. eapply wp_get_state; [exact Hst|]. replace (Z.of_nat i + 1)%Z with (Z.of_nat (S i)) by lia.
  apply IH; [lia|]. intros r Hr Hz. case_bool_decide as E; apply HQ; try lia.
  intros -> j Hj. destruct (decide (j = i)) as [->|]; [congruence|]. apply Hz; [done|lia].
Qed.

(** The pool when all its workers are freed. *)
Record emptied (p p' : process_pool) : Prop := {
  em_max : max_nr_processes p' = max_nr_processes p;
  em_states : worker_state p' = worker_state p;
  em_sem : sem p' = sem p;
  em_stop : stop p' = stop p;
  em_workers j w : worker p' !! j ≠ Some (Some w);
  em_heap : pp_workers p' = ∅;
}.

Lemma wp_free_workers p (Q : () → process_pool → Prop) :
  pinv p → (∀ p', emptied p p' → Q () p') → wp free_workers Q p.
Proof.
  intros Hp HQ. pose proof (pi_workers _ Hp) as Hl. unfold free_workers, nr_slots. do 2 wp_step.
  apply (wp_forM (λ i s, (max_nr_processes s = max_nr_processes p ∧ worker_state s = worker_state p ∧
    sem s = sem p ∧ stop s = stop p) ∧ length (worker s) = length (worker p) ∧
    (∀ j, worker s !! j = if bool_decide (Z.of_nat j < i)%Z then (λ _, None) <$> (worker p !! j) else worker p !! j) ∧
    (∀ w, is_Some (pp_workers s !! w) ↔ ∃ j, (i ≤ Z.of_nat j)%Z ∧ worker p !! j = Some (Some w)))).
  - intros i s Hi (Hsame & Hls & Hw & Hh).
    destruct (lookup_lt_is_Some_2 (worker p) (Z.to_nat i)) as [v Hv]; [lia|].
    assert (worker s !! Z.to_nat i = Some v) as Hsv by (by rewrite Hw, bool_decide_false by lia).
    wp_step. rewrite <- (Z2Nat.id i) by lia. eapply wp_get_worker; [exact Hsv|]. rewrite Z2Nat.id by lia.
    destruct v as [v|]; simpl.
    + wp_step. apply wp_process_free; [apply Hh; exists (Z.to_nat i); split; [lia|done]|]. intros a.
      rewrite <- (Z2Nat.id i) by lia. apply wp_put_worker; [simpl; rewrite Hls; lia|]. rewrite Z2Nat.id by lia.
      simpl. split; [done|]. split; [by rewrite length_insert|]. split.
      * intros j. destruct (decide (j = Z.to_nat i)) as [->|].
        { rewrite list_lookup_insert_eq by lia. rewrite bool_decide_true, Hv by lia. done. }
        rewrite list_lookup_insert_ne, Hw by done.
        replace (bool_decide (Z.of_nat j < i + 1)%Z) with (bool_decide (Z.of_nat j < i)%Z); [done|].
        apply bool_decide_ext. lia.
      * intros w. rewrite lookup_delete_is_Some, Hh. split.
        { intros [Hne (j & Hj & Hjw)]. exists j. split; [|done]. destruct (decide (j = Z.to_nat i)) as [->|]; [congruence|lia]. }
        { intros (j & Hj & Hjw). split; [|exists j; split; [lia|done]]. intros <-.
          assert (j = Z.to_nat i); [|lia]. by eapply (pi_inj _ Hp). }
    + apply wp_ret. split; [done|]. split; [done|]. split.
      * intros j. rewrite Hw. destruct (decide (j = Z.to_nat i)) as [->|].
        { rewrite bool_decide_false, bool_decide_true, Hv by lia. done. }
        replace (bool_decide (Z.of_nat j < i + 1)%Z) with (bool_decide (Z.of_nat j < i)%Z); [done|].
        apply bool_decide_ext. lia.
      * intros w. rewrite Hh. split; intros (j & Hj & Hjw); exists j; (split; [|done]); [|lia].
        destruct (decide (j = Z.to_nat i)) as [->|]; [congruence|lia].
  - split; [done|]. split; [done|]. split; [by intros j; rewrite bool_decide_false by lia|].
    intros w. rewrite (pi_heap _ Hp). split; intros [j Hj]; exists j; [split; [lia|done]|by destruct Hj].
  - intros s ((E1 & E2 & E3 & E4) & Hls & Hw & Hh). apply HQ. split; [done..| |].
    + intros j w. rewrite Hw. destruct (worker p !! j) eqn:E; [|by destruct (bool_decide _)].
      apply lookup_lt_Some in E as Hj. by rewrite bool_decide_true by lia.
    + apply map_empty. intros w. apply eq_None_not_Some. rewrite Hh. intros (j & Hj & Hjw).
      apply lookup_lt_Some in Hjw. lia.
Qed.
