(* ===== verification/ProcessPoolMain.v ===== *)
(** * The process pool: the theorems

    The invariant of all threads together, and the theorems about every state
    that they can reach from a new pool. *)
From stdpp Require Import base tactics numbers list gmap relations.
From S2P Require Import Prelude ProcessPool ProcessPoolProof.

(** ** The invariant *)

(** A thread that has decremented the semaphore and not yet taken a worker, or
    made a worker idle and not yet incremented it. *)
Definition token (t : thread) : nat := match t with TAssign _ | TPost => 1 | _ => 0 end.
Definition holds (t : thread) : option positive :=
  match t with TCheck _ w | TRemove _ w | THold w => Some w | _ => None end.
Definition busy (p : process_pool) (w : positive) : Prop :=
  ∃ j, worker p !! j = Some (Some w) ∧ worker_state p !! j = Some BUSY.

Record live (p : process_pool) (ts : list thread) : Prop := {
  lv_pool : pinv p;
  lv_owner i t w : ts !! i = Some t → holds t = Some w → busy p w;
  lv_excl i i' t t' w :
    ts !! i = Some t → ts !! i' = Some t' → holds t = Some w → holds t' = Some w → i = i';
  lv_busy w : busy p w → ∃ i t, ts !! i = Some t ∧ holds t = Some w;
}.

Record sinv (s : system) : Prop := {
  si_sem : (0 ≤ sem (s_pool s))%Z;
  si_tokens : (sem (s_pool s) + Z.of_nat (total token (s_threads s)) =
    Z.of_nat (total idle (worker_state (s_pool s))) + (if stop (s_pool s) then 1 else 0))%Z;
  si_stop : stop (s_pool s) = true ↔ s_shutdown s ≠ SNone;
  si_live : match s_shutdown s with
    | SDone => (∀ i t, s_threads s !! i = Some t → holds t = None) ∧ pp_workers (s_pool s) = ∅
    | _ => live (s_pool s) (s_threads s)
    end;
}.

(** A thread changes without taking or losing a worker, takes one, loses one. *)
Lemma live_same p p' ts i t t' :
  live p ts → pinv p' → (∀ w, busy p' w ↔ busy p w) → ts !! i = Some t → holds t' = holds t →
  live p' (<[i := t']> ts).
Proof.
  intros [Hp Ho He Hb] Hp' Hbusy Hi Hh. assert (i < length ts) by (by eapply lookup_lt_Some).
  assert (∀ k u, <[i:=t']> ts !! k = Some u → ∃ u', ts !! k = Some u' ∧ holds u' = holds u) as Hold.
  { intros k u. destruct (decide (k = i)) as [->|].
    - rewrite list_lookup_insert_eq by done. intros [= <-]. by exists t.
    - rewrite list_lookup_insert_ne by done. eauto. }
  split; [done|..].
  - intros k u w (u' & Hk & Hu)%Hold Hw. apply Hbusy. eapply Ho; [exact Hk|congruence].
  - intros k k' u u' w (v & Hk & Hv)%Hold (v' & Hk' & Hv')%Hold Hw Hw'. apply (He k k' v v' w); [done|done|congruence..].
  - intros w Hw%Hbusy. destruct (Hb w Hw) as (k & u & Hk & Hu). destruct (decide (k = i)) as [->|].
    + exists i, t'. rewrite list_lookup_insert_eq by done. split; [done|]. congruence.
    + exists k, u. by rewrite list_lookup_insert_ne.
Qed.

Lemma live_take p p' ts i t t' w :
  live p ts → pinv p' → ¬ busy p w → (∀ v, busy p' v ↔ busy p v ∨ v = w) →
  ts !! i = Some t → holds t = None → holds t' = Some w → live p' (<[i := t']> ts).
Proof.
  intros [Hp Ho He Hb] Hp' Hw Hbusy Hi Hh Hh'. assert (i < length ts) by (by eapply lookup_lt_Some).
  assert (∀ k u v, ts !! k = Some u → holds u = Some v → v ≠ w) as Hne.
  { intros k u v Hk Hu ->. by apply Hw, (Ho k u). }
  split; [done|..].
  - intros k u v. destruct (decide (k = i)) as [->|].
    + rewrite list_lookup_insert_eq by done. intros [= <-] Hv. apply Hbusy. right. congruence.
    + rewrite list_lookup_insert_ne by done. intros Hk Hv. apply Hbusy. left. by eapply Ho.
  - intros k k' u u' v. destruct (decide (k = i)) as [->|], (decide (k' = i)) as [->|]; [done|..];
      rewrite ?list_lookup_insert_eq, ?list_lookup_insert_ne by done.
    + intros [= <-] Hk' Hv Hv'. destruct (Hne k' u' v Hk' Hv'). congruence.
    + intros Hk [= <-] Hv Hv'. destruct (Hne k u v Hk Hv). congruence.
    + apply He.
  - intros v [Hv| ->]%Hbusy.
    + destruct (Hb v Hv) as (k & u & Hk & Hu). exists k, u. rewrite list_lookup_insert_ne; [done|]. intros ->. congruence.
    + exists i, t'. by rewrite list_lookup_insert_eq.
Qed.

Lemma live_lose p p' ts i t t' w :
  live p ts → pinv p' → (∀ v, busy p' v ↔ busy p v ∧ v ≠ w) →
  ts !! i = Some t → holds t = Some w → holds t' = None → live p' (<[i := t']> ts).
Proof.
  intros [Hp Ho He Hb] Hp' Hbusy Hi Hh Hh'. assert (i < length ts) by (by eapply lookup_lt_Some).
  split; [done|..].
  - intros k u v. destruct (decide (k = i)) as [->|].
    + rewrite list_lookup_insert_eq by done. intros [= <-] Hv. congruence.
    + rewrite list_lookup_insert_ne by done. intros Hk Hv. apply Hbusy. split; [by eapply Ho|].
      intros ->. by destruct (He k i u t w).
  - intros k k' u u' v. destruct (decide (k = i)) as [->|], (decide (k' = i)) as [->|]; [done|..];
      rewrite ?list_lookup_insert_eq, ?list_lookup_insert_ne by done; [congruence..|]. apply He.
  - intros v [Hv Hne]%Hbusy. destruct (Hb v Hv) as (k & u & Hk & Hu).
    exists k, u. rewrite list_lookup_insert_ne; [done|]. intros ->. congruence.
Qed.

(** ** The busy workers after each critical section *)

Lemma started_busy p p' j w : pinv p → started p p' j w → ∀ v, busy p' v ↔ busy p v.
Proof.
  intros Hp [_ Hj _ ->] v. apply (pi_null _ Hp) in Hj as Hn.
  assert (j < length (worker p)) by (by eapply lookup_lt_Some).
  assert (j < length (worker_state p)) by (by eapply lookup_lt_Some).
  unfold busy. simpl. split; intros (k & Hk & Hs); exists k; (destruct (decide (k = j)) as [->|]; [|by
    rewrite ?list_lookup_insert_ne in *]).
  - by rewrite list_lookup_insert_eq in Hs.
  - congruence.
Qed.

Lemma assigned_busy p k w : pinv p → idle_at p k w → ¬ busy p w ∧ ∀ v, busy (assigned p (slot p k)) v ↔ busy p v ∨ v = w.
Proof.
  intros Hp [Hs Hw]. generalize dependent (slot p k). intros j0 Hs Hw. assert (j0 < length (worker_state p)) by (by eapply lookup_lt_Some). split.
  - intros (j & Hj & Hjs). assert (j = j0) as -> by (by eapply (pi_inj _ Hp)). congruence.
  - intros v. unfold busy. simpl. split.
    + intros (j & Hj & Hjs). destruct (decide (j = j0)) as [->|].
      * right. congruence.
      * left. exists j. by rewrite list_lookup_insert_ne in Hjs.
    + intros [(j & Hj & Hjs)| ->].
      * exists j. split; [done|]. rewrite list_lookup_insert_ne; [done|]. intros ->. congruence.
      * exists j0. by rewrite list_lookup_insert_eq.
Qed.

Lemma removed_busy p j w p' : pinv p → worker p !! j = Some (Some w) → removed p j w p' →
  ∀ v, busy p' v ↔ busy p v ∧ v ≠ w.
Proof.
  intros Hp Hj [a ->] v. assert (j < length (worker p)) by (by eapply lookup_lt_Some). unfold busy. simpl. split.
  - intros (k & Hk & Hs). destruct (decide (k = j)) as [->|]; [by rewrite list_lookup_insert_eq in Hk|].
    rewrite list_lookup_insert_ne in Hk by done. rewrite list_lookup_insert_ne in Hs by done. split; [by exists k|]. intros ->.
    assert (k = j); [|done]. by eapply (pi_inj _ Hp).
  - intros [(k & Hk & Hs) Hne]. exists k. rewrite !list_lookup_insert_ne; [done|intros ->; congruence..].
Qed.

Lemma idled_busy p j w : pinv p → worker p !! j = Some (Some w) → j < length (worker_state p) →
  ∀ v, busy (set_states (<[j := IDLE]> (worker_state p)) p) v ↔ busy p v ∧ v ≠ w.
Proof.
  intros Hp Hj Hl v. unfold busy. simpl. split.
  - intros (k & Hk & Hs). destruct (decide (k = j)) as [->|]; [by rewrite list_lookup_insert_eq in Hs|].
    rewrite list_lookup_insert_ne in Hs by done. split; [by exists k|]. intros ->.
    assert (k = j); [|done]. by eapply (pi_inj _ Hp).
  - intros [(k & Hk & Hs) Hne]. exists k. rewrite list_lookup_insert_ne; [done|intros ->; congruence].
Qed.

(** ** Every step keeps the invariant *)

Lemma idle_pos s : sinv s → 0 < total token (s_threads s) → stop (s_pool s) = false →
  0 < total idle (worker_state (s_pool s)).
Proof. intros [Hs Ht _ _] Hpos Hst. rewrite Hst in Ht. lia. Qed.

(** What a step of the thread [i] to [t'] keeps, while the pool has its
    workers. *)
Definition kept (p : process_pool) (ts : list thread) (i : nat) (t' : thread) (p' : process_pool) : Prop :=
  live p' (<[i := t']> ts) ∧ stop p' = stop p ∧ (0 ≤ sem p')%Z ∧
  (sem p' + Z.of_nat (total token (<[i := t']> ts)) =
    Z.of_nat (total idle (worker_state p')) + (if stop p then 1 else 0))%Z.

Section steps.
Context (p : process_pool) (ts : list thread) (sd : shutdown) (i : nat) (t : thread).
Context (Hs : sinv (System p ts sd)) (Hl : live p ts) (Hi : ts !! i = Some t).

Lemma kept_intro t' p' n :
  live p' (<[i := t']> ts) → stop p' = stop p → (sem p' = sem p + n)%Z → (0 ≤ sem p')%Z →
  (n + Z.of_nat (token t') + Z.of_nat (total idle (worker_state p)) =
    Z.of_nat (token t) + Z.of_nat (total idle (worker_state p')))%Z →
  kept p ts i t' p'.
Proof.
  intros Hl' Hst Hsem H0 Htok. split_and!; [done|done|done|]. destruct Hs as [_ Ht _ _]. simpl in Ht.
  pose proof (total_insert token _ _ _ t' Hi). lia.
Qed.

(** The pool does not change, but for the semaphore. *)
Lemma kept_same t' n :
  holds t' = holds t → (0 ≤ sem p + n)%Z → (n + Z.of_nat (token t') = Z.of_nat (token t))%Z →
  kept p ts i t' (set_sem (sem p + n) p).
Proof.
  intros Hh H0 Htok. apply (kept_intro _ _ n); [|done|done|done|simpl; lia].
  eapply live_same; [exact Hl| |done|exact Hi|done]. by destruct (lv_pool _ _ Hl); split.
Qed.

Lemma kept_refl t' : holds t' = holds t → token t' = token t → kept p ts i t' p.
Proof.
  intros Hh Htok. pose proof (kept_same t' 0 Hh) as Hk. rewrite Z.add_0_r in Hk.
  assert (set_sem (sem p) p = p) as Ep by (by destruct p). rewrite Ep in Hk. apply Hk; [apply Hs|lia].
Qed.

Lemma holder w : holds t = Some w →
  ∃ j, worker p !! j = Some (Some w) ∧ worker_state p !! j = Some BUSY ∧ is_Some (pp_workers p !! w).
Proof.
  intros Hw. destruct (lv_owner _ _ Hl i t w Hi Hw) as (j & Hj & Hjs). exists j. split; [done|]. split; [done|].
  apply (pi_heap _ (lv_pool _ _ Hl)). eauto.
Qed.

Lemma wp_start_kept ok : token t = 0 → holds t = None →
  wp (process_pool_start_worker ok)
    (λ nr, kept p ts i (if (nr =? 0)%Z then TOut else match t with TStart k => TWait k | _ => TOut end)) p.
Proof.
  intros Ht Hh.
  assert (∀ nr k, holds (if (nr =? 0)%Z then TOut else TWait k) = None ∧ token (if (nr =? 0)%Z then TOut else TWait k) = 0)
    as Hu by (intros nr k; by destruct (nr =? 0)%Z).
  assert (∀ nr, ∃ u, (if (nr =? 0)%Z then TOut else match t with TStart k => TWait k | _ => TOut end) = u ∧
    holds u = None ∧ token u = 0) as Hv.
  { intros nr. eexists. split; [done|]. destruct (nr =? 0)%Z; [done|]. by destruct t. }
  pose proof (lv_pool _ _ Hl) as Hp. apply wp_start_worker; [done|..].
  - destruct (Hv (nr_processes_running p)) as (u & -> & Hu1 & Hu2). apply kept_refl; congruence.
  - intros j w p' Hst. destruct (Hv (nr_processes_running p')) as (u & -> & Hu1 & Hu2).
    pose proof (total_insert idle _ _ _ IDLE (st_slot _ _ _ _ Hst)) as Hid. pose proof (si_sem _ Hs) as H0. simpl in H0.
    apply (kept_intro _ _ 1).
    + eapply live_same; [exact Hl|by eapply started_pinv|by eapply started_busy|exact Hi|congruence].
    + by rewrite (st_pool _ _ _ _ Hst).
    + by rewrite (st_pool _ _ _ _ Hst).
    + rewrite (st_pool _ _ _ _ Hst). simpl. lia.
    + rewrite (st_pool _ _ _ _ Hst). simpl in *. lia.
Qed.

Lemma wp_assign_kept k cb : t = TAssign k → (∀ f, cb = Some f → ∀ w, 0 ≤ f w)%Z →
  wp (assign_worker cb) (λ w, kept p ts i (match w with Some w => TCheck k w | None => TOut end)) p.
Proof.
  intros E Hcb. pose proof (lv_pool _ _ Hl) as Hp. pose proof (si_sem _ Hs) as H0. simpl in H0.
  apply wp_assign_worker; [done|done|..].
  - apply (idle_pos _ Hs). simpl. pose proof (total_lookup token _ _ _ Hi) as Ht. rewrite E in Ht. simpl in Ht. lia.
  - intros Hst. apply kept_same; [by rewrite E|lia|by rewrite E].
  - intros k' v Hst (_ & Hv & _). destruct (assigned_busy p k' v Hp Hv) as [Hnb Hbs].
    pose proof (total_insert idle _ _ _ BUSY (proj1 Hv)) as Hid. simpl in Hid.
    apply (kept_intro _ _ 0); [|done|simpl; lia|done|rewrite E; simpl; lia].
    eapply live_take; [exact Hl| |exact Hnb|exact Hbs|exact Hi|by rewrite E|done].
    eapply set_state_pinv; [done|apply Hv|done|done].
Qed.

Lemma wp_check_kept k w : t = TCheck k w →
  wp (worker_process_is_alive (Some w)) (λ alive, kept p ts i (if (alive : bool) then THold w else TRemove k w)) p.
Proof.
  intros E. destruct (holder w) as (j & Hj & Hjs & Hh); [by rewrite E|].
  apply wp_is_alive; [done|apply kept_refl; by rewrite E|].
  apply (kept_intro _ _ 0); [|done|simpl; lia|apply Hs|rewrite E; simpl; lia].
  eapply live_same; [exact Hl|apply mark_pinv; [apply Hl|done]|done|exact Hi|by rewrite E].
Qed.

(** The worker is gone. *)
Lemma removed_kept p0 j w t' p' :
  holds t = Some w → token t = 0 → holds t' = None → token t' = 0 →
  worker p !! j = Some (Some w) → worker_state p !! j = Some BUSY →
  p0 = p ∨ p0 = mark w p → is_Some (pp_workers p !! w) → removed p0 j w p' → kept p ts i t' p'.
Proof.
  intros Hw Ht Hw' Ht' Hj Hjs Hp0 Hh Hr. pose proof (lv_pool _ _ Hl) as Hp.
  pose proof (total_insert idle _ _ _ STOPPED Hjs) as Hid. simpl in Hid.
  assert (pinv p0 ∧ worker p0 !! j = Some (Some w) ∧ (∀ v, busy p0 v ↔ busy p v) ∧ stop p0 = stop p ∧
    sem p0 = sem p ∧ worker_state p0 = worker_state p) as (Hp0' & Hj0 & Hb0 & E1 & E2 & E3).
  { destruct Hp0 as [->| ->]; [done|]. split; [by apply mark_pinv|done]. }
  pose proof (removed_pinv _ _ _ _ Hp0' Hj0 Hr) as Hp2. pose proof (removed_busy _ _ _ _ Hp0' Hj0 Hr) as Hb2.
  destruct Hr as [a ->]. apply (kept_intro _ _ 0); simpl; [|done|lia|rewrite E2; apply Hs|rewrite E3, Ht, Ht'; lia].
  eapply live_lose; [exact Hl|exact Hp2| |exact Hi|exact Hw|done]. intros v. by rewrite Hb2, Hb0.
Qed.

Lemma wp_remove_kept k w : t = TRemove k w →
  wp (remove_dead_worker (Some w)) (λ _, kept p ts i (TGet (k + 1))) p.
Proof.
  intros E. destruct (holder w) as (j & Hj & Hjs & Hh); [by rewrite E|].
  eapply wp_remove_dead; [apply Hl|exact Hj|]. intros p' Hr.
  eapply (removed_kept p); [by rewrite E|by rewrite E|done|done|exact Hj|exact Hjs|by left|exact Hh|exact Hr].
Qed.

Lemma wp_release_kept w : t = THold w →
  wp (release_worker (Some w)) (λ back, kept p ts i (if (back : bool) then TPost else TOut)) p.
Proof.
  intros E. destruct (holder w) as (j & Hj & Hjs & Hh); [by rewrite E|]. pose proof (lv_pool _ _ Hl) as Hp.
  eapply wp_release; [done|exact Hj|..].
  - pose proof (total_insert idle _ _ _ IDLE Hjs) as Hid. simpl in Hid.
    apply (kept_intro _ _ 0); [|done|simpl; lia|apply Hs|rewrite E; simpl; lia].
    eapply live_lose; [exact Hl| |apply (idled_busy p j w Hp Hj)|exact Hi|by rewrite E|done].
    + pose proof (set_state_pinv p j BUSY IDLE (next p) Hp Hjs) as Hp2. by destruct Hp2; [done..|split].
    + by eapply lookup_lt_Some.
  - intros p' Hr.
    eapply (removed_kept (mark w p)); [by rewrite E|by rewrite E|done|done|exact Hj|exact Hjs|by right|exact Hh|exact Hr].
Qed.
End steps.

(** A step of a thread while the pool has its workers. *)
Lemma tstep_live p ts sd i t t' p' :
  sinv (System p ts sd) → live p ts → ts !! i = Some t → tstep t p t' p' → kept p ts i t' p'.
Proof.
  intros Hs Hl Hi Hstep.
  destruct Hstep as [p|k p|k p|k p|k p ok nr p' He|k p|k p cb w p' Hcb He|k w p alive p' He|k w p p' He|w p back p' He|p p' He].
  - by eapply kept_refl.
  - by eapply kept_refl.
  - by eapply kept_refl.
  - by eapply kept_refl.
  - exact (wp_run _ _ _ _ _ (wp_start_kept p ts sd i _ Hs Hl Hi ok eq_refl eq_refl) He).
  - apply (kept_same p ts sd i _ Hs Hl Hi (TAssign k) (-1)); [done|lia|done].
  - exact (wp_run _ _ _ _ _ (wp_assign_kept p ts sd i _ Hs Hl Hi k cb eq_refl Hcb) He).
  - exact (wp_run _ _ _ _ _ (wp_check_kept p ts sd i _ Hs Hl Hi k w eq_refl) He).
  - exact (wp_run _ _ _ _ _ (wp_remove_kept p ts sd i _ Hs Hl Hi k w eq_refl) He).
  - exact (wp_run _ _ _ _ _ (wp_release_kept p ts sd i _ Hs Hl Hi w eq_refl) He).
  - injection He as <-. pose proof (si_sem _ Hs) as H0. simpl in H0.
    apply (kept_same p ts sd i _ Hs Hl Hi TOut 1); [done|lia|done].
Qed.

(** A step of a thread after the pool was freed: it cannot get a worker. *)
Lemma tstep_done p ts i t t' p' :
  sinv (System p ts SDone) → ts !! i = Some t → tstep t p t' p' →
  sinv (System p' (<[i := t']> ts) SDone).
Proof.
  intros [Hsem Htok Hstop [Hno Hheap]] Hi Hstep. simpl in *. pose proof (Hno i t Hi) as Hh.
  assert (stop p = true) as Est by (by apply Hstop).
  pose proof (total_insert token _ _ _ t' Hi) as Ht'. pose proof (total_lookup token _ _ _ Hi) as Htl.
  assert (holds t' = None → ∀ k u, <[i := t']> ts !! k = Some u → holds u = None) as Hall.
  { intros Hh' k u. destruct (decide (k = i)) as [->|].
    - rewrite list_lookup_insert_eq by (by eapply lookup_lt_Some). by intros [= <-].
    - rewrite list_lookup_insert_ne by done. apply Hno. }
  assert (∀ n, holds t' = None → (0 ≤ sem p + n)%Z → (n + Z.of_nat (token t') = Z.of_nat (token t))%Z →
    sinv (System (set_sem (sem p + n) p) (<[i := t']> ts) SDone)) as Hsame.
  { intros n Hh' H0 Hn. split; simpl; [done|lia|done|]. split; [by apply Hall|done]. }
  assert (set_sem (sem p + 0) p = p) as E0 by (rewrite Z.add_0_r; by destruct p).
  destruct Hstep as [p|k p|k p|k p|k p ok nr p' He|k p|k p cb w p' Hcb He|k w p alive p' He|k w p p' He|w p back p' He|p p' He];
    simpl in *; try done.
  - rewrite <- E0. apply Hsame; [done|lia|done].
  - rewrite <- E0. apply Hsame; [done|lia|done].
  - rewrite <- E0. apply Hsame; [done|lia|done].
  - rewrite <- E0. apply Hsame; [done|lia|done].
  - unfold process_pool_start_worker, bind, when, gets, id in He. simpl in He. rewrite Est, andb_false_r in He.
    injection He as <- <-. rewrite <- E0.
    assert (∀ u, u = (if (nr_processes_running p =? 0)%Z then TOut else TWait k) → holds u = None ∧ token u = 0) as Hu
      by (intros u ->; by destruct (_ =? _)%Z).
    destruct (Hu _ eq_refl) as [Hu1 Hu2]. apply Hsame; [done|lia|by rewrite Hu2].
  - apply (Hsame (-1)%Z); [done|lia|done].
  - unfold assign_worker, bind, gets, id in He. rewrite Est in He. injection He as <- <-. apply Hsame; [done|lia|done].
  - injection He as <-. apply Hsame; [done|lia|done].
Qed.

Lemma sinv_step s s' : sinv s → sstep s s' → sinv s'.
Proof.
  intros Hs Hstep. pose proof Hs as [Hsem Htok Hstop Hl].
  destruct Hstep as [p ts sd i t t' p' Hi Ht|p ts sd w|p ts p' He|p ts n p' He Hn|p ts p' p'' He Hf]; simpl in *.
  - destruct sd; [| |by eapply tstep_done].
    all: destruct (tstep_live _ _ _ _ _ _ _ Hs Hl Hi Ht) as (Hl' & Hst & H0 & Hk);
      split; simpl; [done|by rewrite Hst|by rewrite Hst|done].
  - split; simpl; [done|done|done|]. destruct sd; [| |done]; destruct Hl as [[? ? ? ? ? ?] ? ? ?]; by split; [split|..].
  - assert (stop p = false) as Est by (apply not_true_is_false; intros E; by apply Hstop in E).
    rewrite Est in Htok.
    assert (∃ a, p' = set_sem (sem p + 1) (set_alive a (set_stop true p))) as [a ->].
    { apply (wp_run _ (λ _ p', ∃ a, p' = set_sem (sem p + 1) (set_alive a (set_stop true p))) _ _ _
        (wp_stop_pool p _ (lv_pool _ _ Hl) (λ a, ex_intro _ a eq_refl)) He). }
    split; simpl; [lia|lia|done|]. destruct Hl as [[? ? ? ? ? ?] ? ? ?]; by split; [split|..].
  - assert (p' = p) as ->; [|done].
    refine (wp_run _ (λ _ p', p' = p) _ _ _ _ He). pose proof (pi_states _ (lv_pool _ _ Hl)).
    apply (wp_count_busy p _ 0); [lia|done].
  - assert (p' = p ∧ ∀ j, worker_state p !! j ≠ Some BUSY) as [-> Hnb].
    { pose proof (pi_states _ (lv_pool _ _ Hl)) as Hls.
      refine (wp_run _ (λ r p', r = 0%Z → p' = p ∧ ∀ j, worker_state p !! j ≠ Some BUSY) _ _ _ _ He eq_refl).
      apply (wp_count_busy p _ 0); [lia|]. intros r _ Hz E. split; [done|]. intros j Hj.
      apply (Hz E j); [|done]. apply lookup_lt_Some in Hj. lia. }
    assert (emptied p p'') as [E1 E2 E3 E4 E5 E6].
    { refine (wp_run _ (λ _ p', emptied p p') _ _ _ _ Hf). apply wp_free_workers; [apply Hl|done]. }
    split; simpl; rewrite ?E2, ?E3, ?E4; [done|done|naive_solver|]. split; [|done].
    intros i t Hi. destruct (holds t) as [w|] eqn:Hh; [|done].
    destruct (lv_owner _ _ Hl i t w Hi Hh) as (j & _ & Hj). by apply Hnb in Hj.
Qed.

Lemma replicate_total {A} (f : A → nat) n x : f x = 0 → total f (replicate n x) = 0.
Proof. intros Hx. induction n as [|n IH]; simpl; [done|]. by rewrite Hx. Qed.

Lemma process_pool_new_pinv max : (0 ≤ max)%Z → pinv (process_pool_new max).
Proof.
  intros Hm. split; simpl.
  - rewrite length_replicate. lia.
  - rewrite length_replicate. lia.
  - intros j. rewrite !lookup_replicate. naive_solver.
  - intros i j w [[=] _]%lookup_replicate.
  - intros w. rewrite lookup_empty. split; [by intros [? ?]|]. intros (j & [[=] _]%lookup_replicate).
  - by rewrite replicate_total.
Qed.

Lemma start_sinv max n : (0 ≤ max)%Z → sinv (start_system max n).
Proof.
  intros Hm. assert (∀ i t, replicate n TOut !! i = Some t → holds t = None) as Hno.
  { by intros i t [-> _]%lookup_replicate. }
  split; simpl; [done| |by split|].
  - by rewrite !replicate_total.
  - split; [by apply process_pool_new_pinv|..].
    + intros i t w Hi. by rewrite (Hno i t Hi).
    + intros i i' t t' w Hi _. by rewrite (Hno i t Hi).
    + intros w (j & [[=] _]%lookup_replicate & _).
Qed.

Lemma reachable_sinv max n s : (0 ≤ max)%Z → rtc sstep (start_system max n) s → sinv s.
Proof.
  intros Hm Hr. pose proof (start_sinv max n Hm) as Hs.
  induction Hr as [|s1 s2 s3 Hstep _ IH]; [done|]. by apply IH; eapply sinv_step.
Qed.

(** ** Properties *)

(** The critical section or the check that a thread is at is defined: no
    [assert] fails, no array is read out of range, no freed worker is used. *)
Definition defined (t : thread) (p : process_pool) : Prop :=
  match t with
  | TStart _ => ∀ ok, is_Some (process_pool_start_worker ok p)
  | TAssign _ => ∀ cb, (∀ f, cb = Some f → ∀ w, 0 ≤ f w)%Z → is_Some (assign_worker cb p)
  | TCheck _ w => is_Some (worker_process_is_alive (Some w) p)
  | TRemove _ w => is_Some (remove_dead_worker (Some w) p)
  | THold w => is_Some (release_worker (Some w) p)
  | _ => True
  end.

Lemma wp_defined {S A} (m : M S A) Q s : wp m Q s → is_Some (m s).
Proof. intros (a & s' & -> & _). by eexists. Qed.

Lemma live_defined p ts sd i t : sinv (System p ts sd) → live p ts → ts !! i = Some t → defined t p.
Proof.
  intros Hs Hl Hi. destruct t; simpl; try done; intros;
    (eapply wp_defined; first [by eapply wp_start_kept|by eapply wp_assign_kept|by eapply wp_check_kept
      |by eapply wp_remove_kept|by eapply wp_release_kept]).
Qed.

Lemma done_defined p ts i t : sinv (System p ts SDone) → ts !! i = Some t → defined t p.
Proof.
  intros [_ _ Hstop [Hno _]] Hi. simpl in *. specialize (Hno i t Hi).
  assert (stop p = true) as Est by (by apply Hstop). destruct t; simpl in *; try done.
  - intros ok. unfold process_pool_start_worker, bind, when, gets, id. simpl. rewrite Est, andb_false_r. by eexists.
  - intros cb _. unfold assign_worker, bind, gets, id. rewrite Est. by eexists.
Qed.

(** C9: The pool is safe: in every state that any number of threads can
    reach, with workers dying at any time and whether or not the pool is being
    freed, every critical section that a thread may enter is defined (no
    [assert] fails, no freed worker is used); two threads never hold the same
    worker; and there are never more workers than allowed. *)
Theorem process_pool_safe max n s :
  (0 ≤ max)%Z → rtc sstep (start_system max n) s →
  (∀ i t, s_threads s !! i = Some t → defined t (s_pool s)) ∧
  (∀ i i' t t' w, s_threads s !! i = Some t → s_threads s !! i' = Some t' →
     holds t = Some w → holds t' = Some w → i = i' ∧ is_Some (pp_workers (s_pool s) !! w)) ∧
  (s_shutdown s ≠ SDone → 0 ≤ nr_processes_running (s_pool s) ≤ max_nr_processes (s_pool s))%Z.
Proof.
  intros Hm Hr. pose proof (reachable_sinv _ _ _ Hm Hr) as Hs. destruct s as [p ts sd].
  pose proof Hs as [_ _ _ Hl]. simpl in *. split_and!.
  - intros i t Hi. destruct sd; [by eapply live_defined|by eapply live_defined|by eapply done_defined].
  - intros i i' t t' w Hi Hi' Hw Hw'.
    destruct sd; [| |destruct Hl as [Hno _]; by rewrite (Hno i t Hi) in Hw];
      (split; [by eapply (lv_excl _ _ Hl)|]; destruct (lv_owner _ _ Hl i t w Hi Hw) as (j & Hj & _);
       apply (pi_heap _ (lv_pool _ _ Hl)); eauto).
  - intros Hsd. assert (pinv p) as Hp by (destruct sd; [apply Hl|apply Hl|done]).
    rewrite (pi_running _ Hp). pose proof (pi_states _ Hp).
    assert (∀ l, total running l ≤ length l); [|pose proof (H0 (worker_state p)); lia].
    induction l as [|st l IH]; simpl; [done|]. destruct st; simpl; lia.
Qed.

(** C36: No worker is lost: at any time each busy worker is held by a thread,
    and when no thread uses the pool, and it was not freed, no worker is busy
    and the semaphore is the number of idle workers. *)
Theorem process_pool_no_lost_worker max n s :
  (0 ≤ max)%Z → rtc sstep (start_system max n) s → s_shutdown s = SNone →
  (∀ w, busy (s_pool s) w → ∃ i t, s_threads s !! i = Some t ∧ holds t = Some w) ∧
  (Forall (λ t, t = TOut) (s_threads s) →
     (∀ j, worker_state (s_pool s) !! j ≠ Some BUSY) ∧
     sem (s_pool s) = Z.of_nat (total idle (worker_state (s_pool s)))).
Proof.
  intros Hm Hr Hsd. pose proof (reachable_sinv _ _ _ Hm Hr) as Hs. destruct s as [p ts sd]. simpl in *. subst sd.
  pose proof Hs as [_ Htok Hst Hl]. simpl in *. split; [apply Hl|]. intros Hout.
  assert (∀ i t, ts !! i = Some t → t = TOut) as Ho by (intros i t Hi; by apply (proj1 (Forall_lookup _ _) Hout i t)). split.
  - intros j Hj. destruct (pinv_slot _ _ _ (lv_pool _ _ Hl) Hj) as (w & Hw & _); [done|].
    destruct (lv_busy _ _ Hl w) as (i & t & Hi & Ht); [by exists j|]. by rewrite (Ho i t Hi) in Ht.
  - assert (total token ts = 0) as Ht.
    { destruct (decide (total token ts = 0)) as [|Hne]; [done|].
      destruct (total_pos token ts) as (i & t & Hi & Hpos); [lia|]. rewrite (Ho i t Hi) in Hpos. simpl in Hpos. lia. }
    destruct (stop p); [|lia]. exfalso. by apply (proj1 Hst).
Qed.

(** C35: The worker that a thread is given is the first one, in the order that
    starts at [next], of the idle workers with the highest score (without a
    callback, the first idle one). *)
Theorem process_pool_assigns_best max n s i k cb w p' :
  (0 ≤ max)%Z → rtc sstep (start_system max n) s → s_threads s !! i = Some (TAssign k) →
  (∀ f, cb = Some f → ∀ w, 0 ≤ f w)%Z →
  assign_worker cb (s_pool s) = Some (Some w, p') →
  ∃ j, chosen cb (s_pool s) j w ∧ p' = assigned (s_pool s) (slot (s_pool s) j).
Proof.
  intros Hm Hr Hi Hcb He. pose proof (reachable_sinv _ _ _ Hm Hr) as Hs. destruct s as [p ts sd]. simpl in *.
  destruct (stop p) eqn:Est.
  { unfold assign_worker, bind, gets, id in He. by rewrite Est in He. }
  pose proof Hs as [_ _ Hst Hl]. simpl in *.
  rewrite Est in Hst.
  assert (sd = SNone) as -> by (destruct sd; [done|assert (false = true) by (by apply Hst); done..]).
  refine (wp_run _ (λ r p', ∀ w, r = Some w → ∃ j, chosen cb p j w ∧ p' = assigned p (slot p j)) _ _ _ _ He w eq_refl).
  apply wp_assign_worker; [apply Hl|done|..].
  - apply (idle_pos _ Hs). simpl. pose proof (total_lookup token _ _ _ Hi). simpl in *. lia.
  - intros ?. by rewrite Est in *.
  - intros j v _ Hv w' [= <-]. by exists j.
Qed.

(** C37: Freeing the pool is safe: its steps are defined whatever the threads
    do, and when [process_pool_free] has returned, every worker struct is freed
    and no thread has a worker or can get one. *)
Theorem process_pool_shuts_down max n s :
  (0 ≤ max)%Z → rtc sstep (start_system max n) s →
  match s_shutdown s with
  | SNone => is_Some (stop_pool (s_pool s))
  | SPoll => is_Some (count_busy (Z.to_nat (max_nr_processes (s_pool s))) 0 0 (s_pool s)) ∧
             is_Some (free_workers (s_pool s))
  | SDone => pp_workers (s_pool s) = ∅ ∧
             ∀ s', rtc sstep s s' → ∀ i t, s_threads s' !! i = Some t → holds t = None
  end.
Proof.
  intros Hm Hr. pose proof (reachable_sinv _ _ _ Hm Hr) as Hs. destruct s as [p ts sd].
  pose proof Hs as [_ _ _ Hl]. simpl in *. destruct sd.
  - eapply wp_defined, (wp_stop_pool p (λ _ _, True)); [apply Hl|done].
  - pose proof (pi_states _ (lv_pool _ _ Hl)) as Hls. split.
    + eapply wp_defined, (wp_count_busy p _ 0 0%Z (λ _ _, True)); [lia|done].
    + eapply wp_defined, (wp_free_workers p (λ _ _, True)); [apply Hl|done].
  - destruct Hl as [Hno Hh]. split; [done|]. intros s' Hr'.
    assert (sinv s' ∧ s_shutdown s' = SDone) as [[_ _ _ Hl'] Esd].
    { remember (System p ts SDone) as s eqn:Es. assert (s_shutdown s = SDone) as Esd by (by subst s). clear -Hs Esd Hr'.
      induction Hr' as [s|s1 s2 s3 Hstep _ IH]; [done|]. apply IH; [by eapply sinv_step|].
      by destruct Hstep. }
    rewrite Esd in Hl'. apply Hl'.
Qed.

(** ** A thread that waits for ever

    Two threads and a pool of one worker.  The first has the worker, the second
    waits for it; the worker dies, so the first does not give it back. *)

Inductive move := MThread (i : nat) (ok : bool) | MDie (w : positive).

(** The step that a thread makes, when [ok] says whether a process starts. *)
Definition tmove (t : thread) (ok : bool) (p : process_pool) : option (thread * process_pool) :=
  match t with
  | TOut => Some (TGet 0, p)
  | TGet i => Some (if (max_nr_processes p + 1 <=? i)%Z then TOut else if (0 <? sem p)%Z then TWait i else TStart i, p)
  | TStart i => '(nr, p') ← process_pool_start_worker ok p; Some (if (nr =? 0)%Z then TOut else TWait i, p')
  | TWait i => if (0 <? sem p)%Z then Some (TAssign i, set_sem (sem p - 1) p) else None
  | TAssign i => '(w, p') ← assign_worker None p; Some (match w with Some w => TCheck i w | None => TOut end, p')
  | TCheck i w => '(a, p') ← worker_process_is_alive (Some w) p; Some (if (a : bool) then THold w else TRemove i w, p')
  | TRemove i w => '(_, p') ← remove_dead_worker (Some w) p; Some (TGet (i + 1), p')
  | THold w => '(b, p') ← release_worker (Some w) p; Some (if (b : bool) then TPost else TOut, p')
  | TPost => '(_, p') ← sem_post p; Some (TOut, p')
  end.
Definition smove (m : move) (s : system) : option system :=
  match m with
  | MThread i ok => t ← s_threads s !! i; '(t', p') ← tmove t ok (s_pool s);
                    Some (System p' (<[i := t']> (s_threads s)) (s_shutdown s))
  | MDie w => Some (System (set_alive (pp_alive (s_pool s) ∖ {[w]}) (s_pool s)) (s_threads s) (s_shutdown s))
  end.
Fixpoint smoves (ms : list move) (s : system) : option system :=
  match ms with [] => Some s | m :: ms => s' ← smove m s; smoves ms s' end.

Lemma tmove_tstep t ok p t' p' : tmove t ok p = Some (t', p') → tstep t p t' p'.
Proof.
  destruct t as [|i|i|i|i|i w|i w|w|]; simpl; intros E.
  - injection E as <- <-. constructor.
  - injection E as <- <-. destruct (Z.leb_spec (max_nr_processes p + 1) i); [by constructor|].
    destruct (Z.ltb_spec 0 (sem p)); by constructor.
  - destruct (process_pool_start_worker ok p) as [[nr p2]|] eqn:E2; simplify_eq/=. by econstructor.
  - destruct (Z.ltb_spec 0 (sem p)); simplify_eq/=. by constructor.
  - destruct (assign_worker None p) as [[w p2]|] eqn:E2; simplify_eq/=. by apply (t_assign i p None).
  - destruct (worker_process_is_alive (Some w) p) as [[a p2]|] eqn:E2; simplify_eq/=. by constructor.
  - destruct (remove_dead_worker (Some w) p) as [[[] p2]|] eqn:E2; simplify_eq/=. by constructor.
  - destruct (release_worker (Some w) p) as [[b p2]|] eqn:E2; simplify_eq/=. by constructor.
  - simplify_eq/=. by constructor.
Qed.

Lemma smoves_rtc ms s s' : smoves ms s = Some s' → rtc sstep s s'.
Proof.
  revert s. induction ms as [|m ms IH]; intros s; simpl; [by intros [= ->]|].
  destruct (smove m s) as [s1|] eqn:E; simpl; [|done]. intros Hr. eapply rtc_l; [|by apply IH].
  destruct s as [p ts sd], m as [i ok|w]; simpl in E; [|by injection E as <-; constructor].
  destruct (ts !! i) as [t|] eqn:Hi; simpl in E; [|done].
  destruct (tmove t ok p) as [[t' p']|] eqn:Ht; simplify_eq/=. econstructor; [done|by eapply tmove_tstep].
Qed.

(** C39: A thread can wait for ever: when the last worker dies while it is in
    use, nothing wakes up a thread that waits for the semaphore.  It stays there
    although no worker is running and it could start one. *)
Theorem process_pool_waiter_stuck :
  ∃ s, rtc sstep (start_system 1 2) s ∧
    s_threads s = [TOut; TWait 0] ∧ nr_processes_running (s_pool s) = 0%Z ∧ stop (s_pool s) = false ∧
    ∀ t' p', ¬ tstep (TWait 0) (s_pool s) t' p'.
Proof.
  destruct (smoves (repeat (MThread 0 true) 6 ++ repeat (MThread 1 true) 3 ++ [MDie 1; MThread 0 true])
    (start_system 1 2)) as [s|] eqn:E; [|by vm_compute in E].
  exists s. split; [by eapply smoves_rtc|]. vm_compute in E. injection E as <-.
  split_and!; [done|done|done|]. intros t' p' Hstep. inversion Hstep; subst. simpl in *. lia.
Qed.

(** ** Witnesses *)

Lemma process_pool_safe_witness :
  (0 ≤ 3)%Z ∧ ∀ i t, s_threads (start_system 3 2) !! i = Some t → defined t (s_pool (start_system 3 2)).
Proof. split; [lia|]. exact (proj1 (process_pool_safe 3 2 _ ltac:(lia) (rtc_refl _ _))). Defined.

Lemma process_pool_no_lost_worker_witness :
  (0 ≤ 3)%Z ∧ sem (s_pool (start_system 3 2)) = 0%Z.
Proof.
  split; [lia|].
  exact (proj2 (proj2 (process_pool_no_lost_worker 3 2 (start_system 3 2) ltac:(lia) (rtc_refl _ _) eq_refl)
    ltac:(repeat constructor))).
Defined.

(** One thread, one worker, which it is about to be given. *)
Definition about_to_assign : option system := smoves (repeat (MThread 0 true) 4) (start_system 1 1).

Lemma process_pool_assigns_best_witness :
  ∃ s p', about_to_assign = Some s ∧ s_threads s !! 0 = Some (TAssign 0) ∧
    assign_worker (Some (λ _, 5%Z)) (s_pool s) = Some (Some 1%positive, p') ∧
    ∃ j, chosen (Some (λ _, 5%Z)) (s_pool s) j 1%positive ∧ p' = assigned (s_pool s) (slot (s_pool s) j).
Proof.
  destruct about_to_assign as [s|] eqn:E; [|by vm_compute in E].
  pose proof (smoves_rtc _ _ _ E) as Hr. destruct (assign_worker (Some (λ _, 5%Z)) (s_pool s)) as [[w p']|] eqn:Ha.
  - assert (s_threads s !! 0 = Some (TAssign 0)) as Ht by (vm_compute in E; injection E as <-; reflexivity).
    assert (w = Some 1%positive) as -> by (vm_compute in E; injection E as <-; vm_compute in Ha; congruence).
    exists s, p'. split; [done|]. split; [done|]. split; [done|].
    apply (process_pool_assigns_best 1 1 s 0 0 (Some (λ _, 5%Z)) 1%positive p'); [lia|exact Hr|exact Ht| |exact Ha].
    intros f [= <-] w. lia.
  - vm_compute in E. injection E as <-. by vm_compute in Ha.
Defined.

Lemma process_pool_shuts_down_witness :
  (0 ≤ 3)%Z ∧ is_Some (stop_pool (process_pool_new 3)).
Proof. split; [lia|]. exact (process_pool_shuts_down 3 2 (start_system 3 2) ltac:(lia) (rtc_refl _ _)). Defined.
