(* ===== verification/Bytes.v ===== *)
(** * Bytes, machine integers in memory and C strings

    What the components that serialize data share: bytes, the little-endian
    representation of integers that two processes on one machine exchange, the
    literals and the decimal output of the C library. *)
From Stdlib Require Import Strings.Byte Strings.String.
From stdpp Require Import base tactics numbers list countable.
From S2P Require Import Prelude.

Abbreviation byte := Init.Byte.byte (only parsing).

Definition Z_of_byte (b : byte) : Z := Z.of_N (Byte.to_N b).
Definition byte_of_Z (z : Z) : byte :=
  match Byte.of_N (Z.to_N (z `mod` 256)) with Some b => b | None => x00 end.

#[global] Instance byte_eq_dec : EqDecision byte := Byte.byte_eq_dec.
#[global] Program Instance byte_countable : Countable byte := inj_countable Byte.to_N Byte.of_N _.
Next Obligation. intros b. apply Byte.of_to_N. Qed.

(** A string literal, and a C string held in a buffer. *)
Definition lit (s : string) : list byte := list_byte_of_string s.
(** The bytes before the first null byte. *)
Fixpoint until_null (bs : list byte) : list byte :=
  match bs with
  | [] => []
  | b :: bs => if Byte.eqb b x00 then [] else b :: until_null bs
  end.
Definition len {A} (l : list A) : Z := Z.of_nat (length l).

(** ** Integers in memory *)

Fixpoint le_bytes (n : nat) (z : Z) : list byte :=
  match n with 0 => [] | S n => byte_of_Z z :: le_bytes n (z `div` 256)%Z end.
Fixpoint le_value (l : list byte) : Z :=
  match l with [] => 0%Z | b :: l => (Z_of_byte b + 256 * le_value l)%Z end.

(** Network order. *)
Definition be_bytes (n : nat) (z : Z) : list byte := reverse (le_bytes n z).
Definition be_value (l : list byte) : Z := le_value (reverse l).

(** Conversion to [int] (32 bits, two's complement). *)
Definition s32 (z : Z) : Z := ((z + 2 ^ 31) `mod` 2 ^ 32 - 2 ^ 31)%Z.
Definition is_s32 (z : Z) : Prop := (-2 ^ 31 ≤ z < 2 ^ 31)%Z.

Definition sizeof_int : Z := 4.
Definition sizeof_size_t : Z := 8.

(** The representation of an [int] and of a [size_t]. *)
Definition int_bytes (z : Z) : list byte := le_bytes 4 z.
Definition int_value (bs : list byte) : Z := s32 (le_value bs).
Definition size_bytes (z : Z) : list byte := le_bytes 8 z.
Definition size_value (bs : list byte) : Z := le_value bs.

(** ** [snprintf] with [%d] and [%c] *)

Definition digit (z : Z) : byte := byte_of_Z (48 + z).
Fixpoint dec_go (fuel : nat) (z : Z) (acc : list byte) : list byte :=
  match fuel with
  | 0 => acc
  | S n => if (z <? 10)%Z then digit z :: acc
           else dec_go n (z `div` 10)%Z (digit (z `mod` 10) :: acc)
  end.
(** An [int] has at most 10 digits. *)
Definition fmt_d (z : Z) : list byte :=
  if (z <? 0)%Z then x2d :: dec_go 10 (- z) [] else dec_go 10 z [].

(** [snprintf(buf, size, ...)] stores at most [size-1] characters and a
    terminator; what the buffer then holds as a string. *)
Definition snprintf (size : Z) (text : list byte) : list byte := take (Z.to_nat (size - 1)) text.

(** ** [strcmp]

    Only the sign of the result matters. *)
Fixpoint strcmp (x y : list byte) : Z :=
  match x, y with
  | [], [] => 0
  | [], _ :: _ => -1
  | _ :: _, [] => 1
  | a :: x, b :: y => if (Z_of_byte a =? Z_of_byte b)%Z then strcmp x y else Z_of_byte a - Z_of_byte b
  end.

(** ** Lemmas *)

Lemma len_nonneg {A} (l : list A) : (0 ≤ len l)%Z.
Proof. apply Nat2Z.is_nonneg. Qed.
Lemma to_nat_len {A} (l : list A) : Z.to_nat (len l) = length l.
Proof. apply Nat2Z.id. Qed.
Lemma len_app {A} (l1 l2 : list A) : len (l1 ++ l2) = (len l1 + len l2)%Z.
Proof. unfold len. rewrite length_app. lia. Qed.

Lemma Z_of_byte_range b : (0 ≤ Z_of_byte b < 256)%Z.
Proof. unfold Z_of_byte. pose proof (Byte.to_N_bounded b). lia. Qed.

Lemma Z_of_byte_of_Z z : Z_of_byte (byte_of_Z z) = (z `mod` 256)%Z.
Proof.
  unfold Z_of_byte, byte_of_Z. pose proof (Z.mod_pos_bound z 256 ltac:(lia)) as H.
  destruct (Byte.of_N _) as [b|] eqn:E.
  - apply Byte.to_of_N in E. rewrite E. lia.
  - apply Byte.of_N_None_iff in E. lia.
Qed.

Lemma byte_of_Z_of_byte b : byte_of_Z (Z_of_byte b) = b.
Proof.
  unfold byte_of_Z. rewrite Z.mod_small by apply Z_of_byte_range.
  unfold Z_of_byte. by rewrite N2Z.id, Byte.of_to_N.
Qed.

Lemma byte_of_Z_inj z1 z2 :
  (0 ≤ z1 < 256)%Z → (0 ≤ z2 < 256)%Z → byte_of_Z z1 = byte_of_Z z2 → z1 = z2.
Proof.
  intros ? ? E%(f_equal Z_of_byte). by rewrite !Z_of_byte_of_Z, !Z.mod_small in E by lia.
Qed.

Lemma length_le_bytes n z : length (le_bytes n z) = n.
Proof. revert z. induction n; intros; simpl; auto. Qed.
Lemma length_be_bytes n z : length (be_bytes n z) = n.
Proof. unfold be_bytes. by rewrite length_reverse, length_le_bytes. Qed.

Lemma le_value_bytes n z : le_value (le_bytes n z) = (z `mod` 256 ^ Z.of_nat n)%Z.
Proof.
  revert z. induction n as [|n IH]; intros z; simpl; [by rewrite Z.mod_1_r|].
  rewrite IH, Z_of_byte_of_Z, Nat2Z.inj_succ, Z.pow_succ_r by lia.
  rewrite (Z.rem_mul_r z 256 (256 ^ Z.of_nat n)) by lia. done.
Qed.

Lemma be_value_bytes n z : be_value (be_bytes n z) = (z `mod` 256 ^ Z.of_nat n)%Z.
Proof. unfold be_value, be_bytes. by rewrite reverse_involutive, le_value_bytes. Qed.

Lemma le_value_range l : (0 ≤ le_value l < 256 ^ len l)%Z.
Proof.
  unfold len. induction l as [|b l IH]; simpl length; [simpl; lia|].
  rewrite Nat2Z.inj_succ, Z.pow_succ_r by lia. simpl. pose proof (Z_of_byte_range b). lia.
Qed.

Lemma s32_small z : is_s32 z → s32 z = z.
Proof. unfold s32, is_s32. intros. rewrite Z.mod_small by lia. lia. Qed.
Lemma s32_mod z : s32 (z `mod` 2 ^ 32) = s32 z.
Proof. unfold s32. by rewrite Zplus_mod_idemp_l. Qed.

Lemma int_value_bytes z : is_s32 z → int_value (int_bytes z) = z.
Proof.
  intros. unfold int_value, int_bytes. rewrite le_value_bytes.
  change (256 ^ Z.of_nat 4)%Z with (2 ^ 32)%Z. by rewrite s32_mod, s32_small.
Qed.

Lemma size_value_bytes z : is_u64 z → size_value (size_bytes z) = z.
Proof.
  intros. unfold size_value, size_bytes. rewrite le_value_bytes.
  change (256 ^ Z.of_nat 8)%Z with (2 ^ 64)%Z. by apply Z.mod_small.
Qed.

(** [k] digits are enough below [10^k]. *)
Lemma length_dec_go k fuel z acc :
  (0 ≤ z < 10 ^ Z.of_nat (S k))%Z → length (dec_go fuel z acc) ≤ S k + length acc.
Proof.
  revert k z acc. induction fuel as [|n IH]; intros k z acc Hz; simpl; [lia|].
  destruct (z <? 10)%Z eqn:E; simpl; [lia|].
  destruct k as [|k]; [simpl in Hz; lia|].
  etrans; [apply (IH k)|simpl; lia].
  rewrite (Nat2Z.inj_succ (S k)), Z.pow_succ_r in Hz by lia.
  split; [apply Z.div_pos; lia|]. apply Z.div_lt_upper_bound; lia.
Qed.

(** What a decimal parser reads. *)
Definition dec_value (l : list byte) (v : Z) : Z :=
  foldl (λ v b, v * 10 + (Z_of_byte b - 48))%Z v l.

Lemma dec_go_value fuel z acc v :
  (0 ≤ z < 10 ^ Z.of_nat fuel)%Z → 0 < fuel →
  dec_value (dec_go fuel z acc) v =
    dec_value acc (v * 10 ^ len (dec_go fuel z []) + z)%Z.
Proof.
  revert z acc v. induction fuel as [|n IH]; intros z acc v Hz H0; [lia|].
  assert (Hd : ∀ d, (0 ≤ d < 10)%Z → (Z_of_byte (digit d) - 48 = d)%Z).
  { intros d Hd. unfold digit. rewrite Z_of_byte_of_Z, Z.mod_small by lia. lia. }
  simpl. destruct (z <? 10)%Z eqn:E.
  - unfold dec_value. simpl. by rewrite Hd by lia.
  - rewrite Nat2Z.inj_succ, Z.pow_succ_r in Hz by lia.
    pose proof (Z.mod_pos_bound z 10 ltac:(lia)). pose proof (Z.div_mod z 10 ltac:(lia)).
    assert (0 < z `div` 10)%Z by (apply Z.div_str_pos; lia).
    assert (0 ≤ z `div` 10 < 10 ^ Z.of_nat n)%Z
      by (split; [lia|apply Z.div_lt_upper_bound; lia]).
    assert (0 < n) by (destruct n; simpl in *; lia).
    rewrite IH by done. unfold dec_value at 1. simpl. rewrite Hd by lia.
    assert (Hl : len (dec_go n (z `div` 10) [digit (z `mod` 10)]) =
                 (len (dec_go n (z `div` 10) []) + 1)%Z).
    { unfold len. clear. generalize (z `div` 10)%Z. intros y. cut (∀ acc,
        length (dec_go n y acc) = length (dec_go n y []) + length acc).
      { intros ->. simpl. lia. }
      revert y. induction n as [|n IH]; intros y acc; simpl; [lia|].
      destruct (y <? 10)%Z; simpl; [lia|]. rewrite IH, (IH _ [_]). simpl. lia. }
    rewrite Hl, Z.pow_add_r, Z.pow_1_r by (unfold len; lia).
    unfold dec_value. f_equal. lia.
Qed.

(** Different non-negative [int]s print differently. *)
Lemma fmt_d_inj z1 z2 :
  (0 ≤ z1 < 2 ^ 31)%Z → (0 ≤ z2 < 2 ^ 31)%Z → fmt_d z1 = fmt_d z2 → z1 = z2.
Proof.
  intros H1 H2. unfold fmt_d. replace (z1 <? 0)%Z with false by lia.
  replace (z2 <? 0)%Z with false by lia. intros E%(f_equal (λ l, dec_value l 0)).
  assert (10 ^ Z.of_nat 10 = 10000000000)%Z as Hp by done.
  rewrite !dec_go_value in E by (rewrite ?Hp; lia). cbn [dec_value foldl] in E. lia.
Qed.

(** Below [10^8] nothing is cut off by a buffer of 10 characters. *)
Lemma snprintf_fits size text : (len text < size)%Z → snprintf size text = text.
Proof. unfold snprintf, len. intros. apply take_ge. lia. Qed.

Lemma length_fmt_d k z : (0 ≤ z < 10 ^ Z.of_nat (S k))%Z → (len (fmt_d z) ≤ Z.of_nat (S k))%Z.
Proof.
  intros Hz. unfold fmt_d, len. replace (z <? 0)%Z with false by lia.
  pose proof (length_dec_go k 10 z [] Hz). simpl in *. lia.
Qed.

Lemma until_null_app s n : x00 ∉ s → until_null (s ++ x00 :: n) = s.
Proof.
  intros Hs. induction s as [|b s IH]; simpl; [done|]. apply not_elem_of_cons in Hs as [Hb Hs].
  destruct (Byte.eqb b x00) eqn:E; [by apply Byte.byte_dec_bl in E|]. by rewrite IH.
Qed.

Lemma Z_of_byte_inj a b : Z_of_byte a = Z_of_byte b → a = b.
Proof. intros E. by rewrite <- (byte_of_Z_of_byte a), E, byte_of_Z_of_byte. Qed.
Lemma strcmp_eq x y : strcmp x y = 0%Z ↔ x = y.
Proof.
  revert y. induction x as [|a x IH]; intros [|b y]; simpl; [done..|].
  destruct (Z.eqb_spec (Z_of_byte a) (Z_of_byte b)) as [E|E].
  - apply Z_of_byte_inj in E as ->. rewrite IH. split; [by intros ->|by intros [= ->]].
  - split; [lia|]. intros [= -> _]. done.
Qed.
Lemma strcmp_opp x y : (strcmp x y < 0 ↔ 0 < strcmp y x)%Z.
Proof.
  revert y. induction x as [|a x IH]; intros [|b y]; simpl; [done..|].
  destruct (Z.eqb_spec (Z_of_byte a) (Z_of_byte b)) as [->|E]; [by rewrite Z.eqb_refl|].
  destruct (Z.eqb_spec (Z_of_byte b) (Z_of_byte a)); lia.
Qed.
Lemma strcmp_trans x y z : (strcmp x y < 0 → strcmp y z < 0 → strcmp x z < 0)%Z.
Proof.
  revert y z. induction x as [|a x IH]; intros [|b y] [|c z]; simpl; try lia.
  destruct (Z.eqb_spec (Z_of_byte a) (Z_of_byte b)); destruct (Z.eqb_spec (Z_of_byte b) (Z_of_byte c));
    destruct (Z.eqb_spec (Z_of_byte a) (Z_of_byte c)); try lia. apply IH.
Qed.

(** Decimal output is a string. *)
Lemma digit_not_null z : (0 ≤ z < 10)%Z → digit z ≠ x00.
Proof.
  intros Hz E. apply (f_equal Z_of_byte) in E. unfold digit in E. rewrite Z_of_byte_of_Z, Z.mod_small in E by lia.
  change (Z_of_byte x00) with 0%Z in E. lia.
Qed.
Lemma dec_go_not_null fuel z acc : (0 ≤ z)%Z → x00 ∉ acc → x00 ∉ dec_go fuel z acc.
Proof.
  revert z acc. induction fuel as [|n IH]; intros z acc Hz Ha; simpl; [done|].
  destruct (z <? 10)%Z eqn:E.
  - apply not_elem_of_cons. split; [|done]. intros ?. apply (digit_not_null z); [lia|done].
  - apply IH; [apply Z.div_pos; lia|]. apply not_elem_of_cons. split; [|done]. intros ?.
    apply (digit_not_null (z `mod` 10)); [apply Z.mod_pos_bound; lia|done].
Qed.
Lemma fmt_d_not_null z : x00 ∉ fmt_d z.
Proof.
  unfold fmt_d. destruct (z <? 0)%Z eqn:E.
  - apply not_elem_of_cons. split; [done|]. apply dec_go_not_null; [lia|apply not_elem_of_nil].
  - apply dec_go_not_null; [lia|apply not_elem_of_nil].
Qed.
