(* ===== verification/Msgpack.v ===== *)
(** * MessagePack

    The msgpack library serializes headers; the code writes the bodies of
    strings and binary objects itself.  The library's format is the class
    [Msgpack], what the code relies on is [MsgpackLaws]: a header can be read
    back from whatever follows it.  On top of it, objects, their encoding and a
    decoder, which the theorems about the packing functions use as their
    specification. *)
From stdpp Require Import base tactics numbers list.
From S2P Require Import Prelude Bytes.

(** ** The interface to the library *)

Inductive header :=
  | HNil
  | HBool (b : bool)
  | HInt (z : Z)
  | HStr (n : Z)
  | HBin (n : Z)
  | HArray (n : Z)
  | HMap (n : Z).

Definition is_u32 (n : Z) : Prop := (0 ≤ n < 2 ^ 32)%Z.
Definition header_ok (h : header) : Prop :=
  match h with
  | HNil | HBool _ => True
  | HInt z => (-2 ^ 63 ≤ z < 2 ^ 64)%Z
  | HStr n | HBin n | HArray n | HMap n => is_u32 n
  end.

Class Msgpack := {
  header_bytes : header → list byte;
  next_header : list byte → option (header * list byte);
}.
Class MsgpackLaws `{Msgpack} : Prop := {
  header_nonempty h : header_bytes h ≠ [];
  next_header_law h rest : header_ok h → next_header (header_bytes h ++ rest) = Some (h, rest);
}.

(** The packer: the state behind [pk.data] and the write callback, which is
    called with the bytes of a header or of a body and returns 0 on success. *)
Class Packer := {
  packer : Type;
  pk_callback : list byte → packer → Z * packer;
}.
(** [pk_written] is what the callback accepted.  After a failure every write of
    at least one byte fails. *)
Class PackerLaws `{Packer} := {
  pk_written : packer → list byte;
  pk_failed : packer → bool;
  pk_callback_law bs p : let '(r, p') := pk_callback bs p in
    if pk_failed p then pk_failed p' = true ∧ (bs ≠ [] → r ≠ 0%Z)
    else (r = 0%Z ∧ pk_failed p' = false ∧ pk_written p' = pk_written p ++ bs) ∨
         (r ≠ 0%Z ∧ pk_failed p' = true);
}.

(** ** Objects *)

(** The maps the program writes have strings as keys. *)
Inductive obj :=
  | ONil
  | OBool (b : bool)
  | OInt (z : Z)
  | OStr (s : list byte)
  | OBin (s : list byte)
  | OArray (l : list obj)
  | OMap (l : list (list byte * obj)).

Definition obj_induction (P : obj → Prop)
    (Hnil : P ONil) (Hbool : ∀ b, P (OBool b)) (Hint : ∀ z, P (OInt z))
    (Hstr : ∀ s, P (OStr s)) (Hbin : ∀ s, P (OBin s))
    (Harray : ∀ l, Forall P l → P (OArray l))
    (Hmap : ∀ l, Forall (λ kv, P kv.2) l → P (OMap l)) : ∀ o, P o :=
  fix go o :=
    match o with
    | ONil => Hnil | OBool b => Hbool b | OInt z => Hint z
    | OStr s => Hstr s | OBin s => Hbin s
    | OArray l => Harray l ((fix gol l : Forall P l :=
        match l with [] => Forall_nil_2 _ | o :: l => Forall_cons_2 _ _ _ (go o) (gol l) end) l)
    | OMap l => Hmap l ((fix gol l : Forall (λ kv, P kv.2) l :=
        match l with [] => Forall_nil_2 _ | kv :: l => Forall_cons_2 _ _ _ (go kv.2) (gol l) end) l)
    end.

Section msgpack.
Context `{Msgpack}.

Definition encode_str (s : list byte) : list byte := header_bytes (HStr (len s)) ++ s.

Fixpoint encode (o : obj) : list byte :=
  match o with
  | ONil => header_bytes HNil
  | OBool b => header_bytes (HBool b)
  | OInt z => header_bytes (HInt z)
  | OStr s => encode_str s
  | OBin s => header_bytes (HBin (len s)) ++ s
  | OArray l => header_bytes (HArray (len l)) ++ concat (map encode l)
  | OMap l => header_bytes (HMap (len l)) ++
                concat (map (λ kv, encode_str kv.1 ++ encode kv.2) l)
  end.

(** What fits the format: 32-bit lengths, 64-bit integers. *)
Fixpoint obj_ok (o : obj) : Prop :=
  match o with
  | ONil | OBool _ => True
  | OInt z => (-2 ^ 63 ≤ z < 2 ^ 64)%Z
  | OStr s | OBin s => is_u32 (len s)
  | OArray l => is_u32 (len l) ∧ foldr (λ o, and (obj_ok o)) True l
  | OMap l => is_u32 (len l) ∧ foldr (λ kv, and (is_u32 (len kv.1) ∧ obj_ok kv.2)) True l
  end.

(** ** A decoder *)

Definition take_bytes (n : Z) (bs : list byte) : option (list byte * list byte) :=
  if decide (0 ≤ n ≤ len bs)%Z then Some (take (Z.to_nat n) bs, drop (Z.to_nat n) bs) else None.

Fixpoint unpack_n {A} (item : list byte → option (A * list byte)) (n : nat) (bs : list byte)
    : option (list A * list byte) :=
  match n with
  | 0 => Some ([], bs)
  | S n => '(a, bs) ← item bs; '(l, bs) ← unpack_n item n bs; Some (a :: l, bs)
  end.

Definition unpack_str (bs : list byte) : option (list byte * list byte) :=
  '(h, bs) ← next_header bs;
  match h with HStr n => take_bytes n bs | _ => None end.

Fixpoint unpack (depth : nat) (bs : list byte) : option (obj * list byte) :=
  match depth with
  | 0 => None
  | S depth =>
    '(h, bs) ← next_header bs;
    match h with
    | HNil => Some (ONil, bs)
    | HBool b => Some (OBool b, bs)
    | HInt z => Some (OInt z, bs)
    | HStr n => '(s, bs) ← take_bytes n bs; Some (OStr s, bs)
    | HBin n => '(s, bs) ← take_bytes n bs; Some (OBin s, bs)
    | HArray n => '(l, bs) ← unpack_n (unpack depth) (Z.to_nat n) bs; Some (OArray l, bs)
    | HMap n =>
        '(l, bs) ← unpack_n (λ bs, '(k, bs) ← unpack_str bs; '(v, bs) ← unpack depth bs;
                                   Some ((k, v), bs)) (Z.to_nat n) bs;
        Some (OMap l, bs)
    end
  end.

Fixpoint obj_depth (o : obj) : nat :=
  match o with
  | OArray l => S (foldr (λ o, Nat.max (obj_depth o)) 0 l)
  | OMap l => S (foldr (λ kv, Nat.max (obj_depth kv.2)) 0 l)
  | _ => 1
  end.

(** ** Decoding inverts encoding *)
Context `{!MsgpackLaws}.

Lemma take_bytes_app s rest : take_bytes (len s) (s ++ rest) = Some (s, rest).
Proof.
  unfold take_bytes, len. rewrite decide_True by (rewrite length_app; lia).
  by rewrite Nat2Z.id, take_app_length, drop_app_length.
Qed.

Lemma unpack_str_encode s rest :
  is_u32 (len s) → unpack_str (encode_str s ++ rest) = Some (s, rest).
Proof.
  intros. unfold unpack_str, encode_str. rewrite <- app_assoc, next_header_law by done.
  simpl. apply take_bytes_app.
Qed.

Lemma unpack_n_concat {A} (enc : A → list byte) item l rest :
  Forall (λ a, ∀ rest, item (enc a ++ rest) = Some (a, rest)) l →
  unpack_n item (length l) (concat (map enc l) ++ rest) = Some (l, rest).
Proof.
  induction 1 as [|a l Ha Hl IH]; simpl; [done|].
  rewrite <- app_assoc, Ha. simpl. by rewrite IH.
Qed.

Lemma foldr_and_Forall {A} (P : A → Prop) l : foldr (λ a, and (P a)) True l ↔ Forall P l.
Proof. induction l; simpl; [by split|]. rewrite Forall_cons. tauto. Qed.

Lemma conj_Forall {A} (P Q : A → Prop) l :
  Forall P l → Forall Q l → Forall (λ a, P a ∧ Q a) l.
Proof. intros. by apply Forall_and. Qed.

Lemma foldr_max_Forall {A} (f : A → nat) n l :
  foldr (λ a, Nat.max (f a)) 0 l ≤ n → Forall (λ a, f a ≤ n) l.
Proof. induction l; simpl; [constructor|]. intros. constructor; [lia|]. apply IHl. lia. Qed.

Lemma unpack_encode_depth o : ∀ d rest,
  obj_ok o → obj_depth o ≤ d → unpack d (encode o ++ rest) = Some (o, rest).
Proof.
  induction o as [|b|z|s|s|l IH|l IH] using obj_induction; intros [|d] rest Hok Hd;
    try (simpl in Hd; lia); simpl encode.
  1-3: by simpl; rewrite next_header_law.
  - unfold encode_str. cbn [unpack]. rewrite <- app_assoc, next_header_law by done. simpl.
    by rewrite take_bytes_app.
  - cbn [unpack]. rewrite <- app_assoc, next_header_law by done. simpl. by rewrite take_bytes_app.
  - simpl in Hok. destruct Hok as [Hn Hl%foldr_and_Forall].
    simpl in Hd. apply le_S_n, foldr_max_Forall in Hd.
    cbn [unpack]. rewrite <- app_assoc, next_header_law by done. simpl.
    unfold len. rewrite Nat2Z.id, unpack_n_concat; [done|].
    eapply Forall_impl; [exact (conj_Forall _ _ _ IH (conj_Forall _ _ _ Hl Hd))|].
    simpl. intros o (IHo & ? & ?) r. by apply IHo.
  - simpl in Hok. destruct Hok as [Hn Hl%foldr_and_Forall].
    simpl in Hd. apply le_S_n, foldr_max_Forall in Hd.
    cbn [unpack]. rewrite <- app_assoc, next_header_law by done. simpl.
    unfold len. rewrite Nat2Z.id. erewrite (unpack_n_concat (λ kv, encode_str kv.1 ++ encode kv.2)); [done|].
    eapply Forall_impl; [exact (conj_Forall _ _ _ IH (conj_Forall _ _ _ Hl Hd))|].
    simpl. intros [k v] (IHo & [Hk Hv] & Hdv) r. simpl in *.
    rewrite <- app_assoc, unpack_str_encode by done. simpl. by rewrite IHo.
Qed.
End msgpack.
