(* ===== verification/MsgpackFormat.v ===== *)
(** * The MessagePack format

    The header format of the MessagePack specification, in its shortest form as
    the library writes it: an instance of [Msgpack] at which the theorems about
    the packing functions are evaluated, with a packer that collects the bytes
    and fails from a given number of bytes on. *)
From stdpp Require Import base tactics numbers list.
From S2P Require Import Prelude Bytes Msgpack.

Definition tagged (tag : Z) (k : nat) (z : Z) : list byte := byte_of_Z tag :: be_bytes k z.

(** A length, in the shortest of the forms 8 bits (if there is one), 16, 32. *)
Definition sized (tag8 : option Z) (tag16 tag32 n : Z) : list byte :=
  match tag8 with
  | Some t => if (n <? 2 ^ 8)%Z then tagged t 1 n else
              if (n <? 2 ^ 16)%Z then tagged tag16 2 n else tagged tag32 4 n
  | None => if (n <? 2 ^ 16)%Z then tagged tag16 2 n else tagged tag32 4 n
  end.

Definition spec_header_bytes (h : header) : list byte :=
  match h with
  | HNil => tagged 0xc0 0 0
  | HBool b => tagged (if b then 0xc3 else 0xc2) 0 0
  | HInt z =>
      if (0 <=? z)%Z then
        if (z <? 2 ^ 7)%Z then tagged z 0 0 else
        if (z <? 2 ^ 8)%Z then tagged 0xcc 1 z else
        if (z <? 2 ^ 16)%Z then tagged 0xcd 2 z else
        if (z <? 2 ^ 32)%Z then tagged 0xce 4 z else tagged 0xcf 8 z
      else
        if (-2 ^ 5 <=? z)%Z then tagged (256 + z) 0 0 else
        if (-2 ^ 7 <=? z)%Z then tagged 0xd0 1 z else
        if (-2 ^ 15 <=? z)%Z then tagged 0xd1 2 z else
        if (-2 ^ 31 <=? z)%Z then tagged 0xd2 4 z else tagged 0xd3 8 z
  | HStr n => if (n <? 2 ^ 5)%Z then tagged (0xa0 + n) 0 0 else sized (Some 0xd9%Z) 0xda 0xdb n
  | HBin n => sized (Some 0xc4%Z) 0xc5 0xc6 n
  | HArray n => if (n <? 2 ^ 4)%Z then tagged (0x90 + n) 0 0 else sized None 0xdc 0xdd n
  | HMap n => if (n <? 2 ^ 4)%Z then tagged (0x80 + n) 0 0 else sized None 0xde 0xdf n
  end.

Definition read_be (k : nat) (f : Z → header) (bs : list byte) : option (header * list byte) :=
  if decide (k ≤ length bs) then Some (f (be_value (take k bs)), drop k bs) else None.

Definition signed (k : nat) (z : Z) : Z :=
  if (z <? 256 ^ Z.of_nat k / 2)%Z then z else (z - 256 ^ Z.of_nat k)%Z.

Definition spec_next_header (bs : list byte) : option (header * list byte) :=
  match bs with
  | [] => None
  | b :: bs =>
    let t := Z_of_byte b in
    if (t <? 0x80)%Z then Some (HInt t, bs) else
    if (t <? 0x90)%Z then Some (HMap (t - 0x80), bs) else
    if (t <? 0xa0)%Z then Some (HArray (t - 0x90), bs) else
    if (t <? 0xc0)%Z then Some (HStr (t - 0xa0), bs) else
    if (t =? 0xc0)%Z then Some (HNil, bs) else
    if (t =? 0xc2)%Z then Some (HBool false, bs) else
    if (t =? 0xc3)%Z then Some (HBool true, bs) else
    if (t =? 0xc4)%Z then read_be 1 HBin bs else
    if (t =? 0xc5)%Z then read_be 2 HBin bs else
    if (t =? 0xc6)%Z then read_be 4 HBin bs else
    if (t =? 0xcc)%Z then read_be 1 HInt bs else
    if (t =? 0xcd)%Z then read_be 2 HInt bs else
    if (t =? 0xce)%Z then read_be 4 HInt bs else
    if (t =? 0xcf)%Z then read_be 8 HInt bs else
    if (t =? 0xd0)%Z then read_be 1 (λ z, HInt (signed 1 z)) bs else
    if (t =? 0xd1)%Z then read_be 2 (λ z, HInt (signed 2 z)) bs else
    if (t =? 0xd2)%Z then read_be 4 (λ z, HInt (signed 4 z)) bs else
    if (t =? 0xd3)%Z then read_be 8 (λ z, HInt (signed 8 z)) bs else
    if (t =? 0xd9)%Z then read_be 1 HStr bs else
    if (t =? 0xda)%Z then read_be 2 HStr bs else
    if (t =? 0xdb)%Z then read_be 4 HStr bs else
    if (t =? 0xdc)%Z then read_be 2 HArray bs else
    if (t =? 0xdd)%Z then read_be 4 HArray bs else
    if (t =? 0xde)%Z then read_be 2 HMap bs else
    if (t =? 0xdf)%Z then read_be 4 HMap bs else
    if (0xe0 <=? t)%Z then Some (HInt (t - 256), bs) else None
  end.

#[export] Instance msgpack_spec : Msgpack := {|
  header_bytes := spec_header_bytes;
  next_header := spec_next_header;
|}.

Lemma read_be_bytes k f z rest :
  read_be k f (be_bytes k z ++ rest) = Some (f (z `mod` 256 ^ Z.of_nat k)%Z, rest).
Proof.
  unfold read_be. rewrite decide_True by (rewrite length_app, length_be_bytes; lia).
  rewrite take_app_length' by (by rewrite length_be_bytes).
  rewrite drop_app_length' by (by rewrite length_be_bytes).
  by rewrite be_value_bytes.
Qed.

Lemma signed_mod k z :
  (0 < k) → (- (256 ^ Z.of_nat k / 2) ≤ z < 256 ^ Z.of_nat k / 2)%Z →
  signed k (z `mod` 256 ^ Z.of_nat k) = z.
Proof.
  intros Hk Hz. unfold signed. set (P := (256 ^ Z.of_nat k)%Z) in *.
  assert (P = 2 * (P / 2))%Z as HP.
  { unfold P. destruct k; [lia|]. rewrite Nat2Z.inj_succ, Z.pow_succ_r by lia.
    replace (256 * 256 ^ Z.of_nat k)%Z with (128 * 256 ^ Z.of_nat k * 2)%Z by lia.
    rewrite Z.div_mul by lia. lia. }
  assert (0 < P)%Z by (unfold P; lia).
  destruct (decide (0 ≤ z)%Z).
  - rewrite Z.mod_small by lia. by replace (z <? P / 2)%Z with true by lia.
  - replace (z `mod` P)%Z with (z + P)%Z.
    + replace (z + P <? P / 2)%Z with false by lia. lia.
    + rewrite <- (Z.mod_add z 1 P) by lia. rewrite Z.mul_1_l, Z.mod_small by lia. done.
Qed.

(** The tag of a header decides the branch; the length that follows is read back. *)
Ltac tag_branch :=
  unfold tagged; cbn [be_bytes app spec_next_header];
  rewrite Z_of_byte_of_Z, Z.mod_small by lia;
  repeat match goal with
  | |- context [(?a <? ?b)%Z] => first
      [ replace (a <? b)%Z with true by lia | replace (a <? b)%Z with false by lia ]
  | |- context [(?a <=? ?b)%Z] => first
      [ replace (a <=? b)%Z with true by lia | replace (a <=? b)%Z with false by lia ]
  | |- context [(?a =? ?b)%Z] => first
      [ replace (a =? b)%Z with true by lia | replace (a =? b)%Z with false by lia ]
  end; rewrite ?read_be_bytes.
Ltac tag_cases := tag_branch; simpl app; unfold be_bytes; simpl;
  rewrite ?Z.mod_small by lia; first [reflexivity | repeat f_equal; lia].

#[export] Instance msgpack_spec_laws : MsgpackLaws.
Proof.
  split.
  - intros h. destruct h; simpl; unfold sized, tagged; repeat case_match; done.
  - intros h rest Hok. simpl. destruct h as [|[]|z|n|n|n|n]; simpl in *;
      unfold sized, is_u32 in *; try done.
    + repeat case_match; try tag_cases.
      all: tag_branch; rewrite signed_mod; [done|lia|];
        match goal with |- context [(256 ^ Z.of_nat ?k / 2)%Z] =>
          let v := eval vm_compute in (256 ^ Z.of_nat k / 2)%Z in
          change (256 ^ Z.of_nat k / 2)%Z with v end; lia.
    + repeat case_match; tag_cases.
    + repeat case_match; tag_cases.
    + repeat case_match; tag_cases.
    + repeat case_match; tag_cases.
Qed.

(** A packer that accepts a number of bytes. *)
Record collector := Collector { col_bytes : list byte; col_room : Z; col_broken : bool }.

#[export] Instance collector_packer : Packer := {|
  packer := collector;
  pk_callback bs p :=
    if col_broken p then ((if decide (bs = []) then 0 else -1)%Z, p)
    else if (len bs <=? col_room p)%Z
    then (0%Z, Collector (col_bytes p ++ bs) (col_room p - len bs) false)
    else ((-1)%Z, Collector (col_bytes p) 0 true);
|}.
#[export] Program Instance collector_packer_laws : PackerLaws := {|
  pk_written := col_bytes;
  pk_failed := col_broken;
|}.
Next Obligation.
  intros bs p. simpl. destruct (col_broken p) eqn:E.
  - split; [done|]. by case_decide.
  - destruct (len bs <=? col_room p)%Z; simpl; auto.
Qed.
