(* ===== verification/H5.v ===== *)
(** * The HDF5 library

    The functions of the HDF5 library that the packing code calls, as the class
    [H5Lib] (dataspace selections are in Select.v).  [H5LibLaws] is what the
    code relies on: the library keeps a table of open identifiers, each call
    that returns an identifier may fail and otherwise adds an entry, a close
    removes it, and the calls that inspect an object report its contents.  The
    file does not change while it is read. *)
From Stdlib Require Import Strings.Byte Strings.String.
From stdpp Require Import base tactics numbers list gmap propset sorting.
From S2P Require Import Prelude Bytes Select.

(** ** Datatypes, objects and their contents *)

Inductive H5T_class :=
  | H5T_NO_CLASS | H5T_INTEGER | H5T_FLOAT | H5T_TIME | H5T_STRING | H5T_BITFIELD
  | H5T_OPAQUE | H5T_COMPOUND | H5T_REFERENCE | H5T_ENUM | H5T_VLEN | H5T_ARRAY.
#[global] Instance H5T_class_eq_dec : EqDecision H5T_class.
Proof. solve_decision. Defined.
Inductive H5T_sign := H5T_SGN_ERROR | H5T_SGN_NONE | H5T_SGN_2.
Inductive H5T_order := H5T_ORDER_ERROR | H5T_ORDER_LE | H5T_ORDER_BE | H5T_ORDER_VAX | H5T_ORDER_MIXED | H5T_ORDER_NONE.
Inductive H5T_str := H5T_STR_NULLTERM | H5T_STR_NULLPAD | H5T_STR_SPACEPAD.
Inductive H5I_type := H5I_GROUP | H5I_DATASET | H5I_OTHER.
Inductive H5L_type := H5L_TYPE_HARD | H5L_TYPE_SOFT | H5L_TYPE_EXTERNAL | H5L_TYPE_ERROR | H5L_TYPE_OTHER.
(** [H5L_info2_t]: the type and, for a soft link, [u.val_size]. *)
Record link_info := LinkInfo { li_type : H5L_type; li_val_size : Z }.

(** A datatype as the library describes it; [DAtomic] is an integer, an
    enumeration, a float, or of a class the code does not support. *)
Inductive dtype :=
  | DAtomic (c : H5T_class) (sign : H5T_sign) (order : H5T_order) (size : Z)
  | DString (variable : bool) (size : Z) (pad : H5T_str)
  | DArray (elt : dtype) (dims : list Z)
  | DCompound (fields : list (list byte * dtype)) (size : Z)
  | DVlen (elt : dtype).

(** An element in memory: the bytes of a value of fixed size, a [char *] to a C
    string, which is NULL for a string that was never written, or an [hvl_t]
    with the elements it points to. *)
Inductive elem :=
  | EBytes (bs : list byte)
  | EStr (s : list byte)
  | ENull
  | EVlen (l : list elem).

Definition prod_list (l : list Z) : Z := foldr Z.mul 1%Z l.

(** The order in which the points of a selection are read. *)
Fixpoint lex_lt (p q : list Z) : Prop :=
  match p, q with
  | x :: p, y :: q => (x < y)%Z ∨ x = y ∧ lex_lt p q
  | _, _ => False
  end.
Definition enumerates (pts : list (list Z)) (P : propset (list Z)) : Prop :=
  StronglySorted lex_lt pts ∧ ∀ p, p ∈ pts ↔ p ∈ P.

Fixpoint dtype_size (t : dtype) : Z :=
  match t with
  | DAtomic _ _ _ size | DCompound _ size => size
  | DString variable size _ => if variable then 8 else size
  | DArray e dims => prod_list dims * dtype_size e
  | DVlen _ => 16
  end.

Definition class_of (t : dtype) : H5T_class :=
  match t with
  | DAtomic c _ _ _ =>
      match c with H5T_STRING | H5T_COMPOUND | H5T_VLEN | H5T_ARRAY => H5T_NO_CLASS | _ => c end
  | DString _ _ _ => H5T_STRING
  | DArray _ _ => H5T_ARRAY
  | DCompound _ _ => H5T_COMPOUND
  | DVlen _ => H5T_VLEN
  end.
Definition super (t : dtype) : option dtype :=
  match t with DArray e _ | DVlen e => Some e | _ => None end.
Definition members (t : dtype) : list (list byte * dtype) :=
  match t with DCompound fields _ => fields | _ => [] end.

Fixpoint has_vlen (t : dtype) : bool :=
  match t with
  | DAtomic _ _ _ _ => false
  | DString variable _ _ => variable
  | DArray e _ => has_vlen e
  | DCompound fields _ => existsb (λ f, has_vlen f.2) fields
  | DVlen _ => true
  end.

Fixpoint type_depth (t : dtype) : nat :=
  match t with
  | DAtomic _ _ _ _ | DString _ _ _ => 0
  | DArray e _ | DVlen e => S (type_depth e)
  | DCompound fields _ => S (foldr (λ f, Nat.max (type_depth f.2)) 0 fields)
  end.

(** The limits of the library on ranks, sizes, and the names of fields. *)
Fixpoint type_ok (t : dtype) : Prop :=
  match t with
  | DAtomic _ _ _ n | DString _ n _ => (0 ≤ n < 2 ^ 63)%Z
  | DArray e dims => (len dims ≤ 32)%Z ∧ Forall (λ d, 0 ≤ d < 2 ^ 63)%Z dims ∧ type_ok e
  | DCompound fields n =>
      (len fields < 2 ^ 31)%Z ∧ (0 ≤ n < 2 ^ 63)%Z ∧ foldr (λ f, and ((len f.1 < 2 ^ 31)%Z ∧ type_ok f.2)) True fields
  | DVlen e => type_ok e
  end.

Lemma dtype_size_nonneg t : type_ok t → (0 ≤ dtype_size t)%Z.
Proof.
  induction t as [c sg o n|v n pad|e IH dims|fs n|e IH]; simpl; try lia; try (destruct v; lia).
  intros (_ & Hd & He). apply Z.mul_nonneg_nonneg; [|auto].
  induction Hd; simpl; lia.
Qed.

Definition dtype_induction (P : dtype → Prop)
    (Hatomic : ∀ c sg o n, P (DAtomic c sg o n)) (Hstring : ∀ v n pad, P (DString v n pad))
    (Harray : ∀ e dims, P e → P (DArray e dims))
    (Hcompound : ∀ fs n, Forall (λ f, P f.2) fs → P (DCompound fs n))
    (Hvlen : ∀ e, P e → P (DVlen e)) : ∀ t, P t :=
  fix go t :=
    match t with
    | DAtomic c sg o n => Hatomic c sg o n
    | DString v n pad => Hstring v n pad
    | DArray e dims => Harray e dims (go e)
    | DCompound fs n => Hcompound fs n ((fix gol l : Forall (λ f, P f.2) l :=
        match l with [] => Forall_nil_2 _ | f :: l => Forall_cons_2 _ _ _ (go f.2) (gol l) end) fs)
    | DVlen e => Hvlen e (go e)
    end.

(** Elements of a type, with the limits of the file format and of memory on
    variable-length data; inside arrays and structs variable-length data is
    represented by pointers that the code does not follow. *)
Fixpoint elem_ok (t : dtype) (e : elem) : Prop :=
  match t with
  | DVlen t' => match e with
                | EVlen l => Forall (elem_ok t') l ∧ (len l < 2 ^ 32)%Z ∧ (len l * dtype_size t' < 2 ^ 62)%Z
                | _ => False
                end
  | DString true _ _ => match e with EStr s => x00 ∉ s ∧ (len s < 2 ^ 32)%Z | _ => False end
  | _ => match e with EBytes bs => len bs = dtype_size t | _ => False end
  end.

(** What the library may deliver for a type: a string can be a null pointer. *)
Fixpoint elem_read (t : dtype) (e : elem) : Prop :=
  match t with
  | DVlen t' => match e with
                | EVlen l => Forall (elem_read t') l ∧ (len l < 2 ^ 32)%Z ∧ (len l * dtype_size t' < 2 ^ 62)%Z
                | _ => False
                end
  | DString true _ _ => match e with EStr s => x00 ∉ s ∧ (len s < 2 ^ 32)%Z | ENull => True | _ => False end
  | _ => match e with EBytes bs => len bs = dtype_size t | _ => False end
  end.

(** No string of an element is a null pointer. *)
Fixpoint written (e : elem) : Prop :=
  match e with
  | ENull => False
  | EVlen l => foldr (λ e, and (written e)) True l
  | _ => True
  end.

Lemma elem_read_ok t e : elem_read t e → written e → elem_ok t e.
Proof.
  revert e. induction t as [c sg o n|v n pad|t IH dims|fs n IH|t IH] using dtype_induction; intros e; try done.
  - destruct v, e; done.
  - destruct e as [| | |l]; simpl; try done. intros (Hl & Hb) Hw. split; [|exact Hb]. clear Hb.
    induction Hl as [|e l He Hl IHl]; [constructor|]. destruct Hw. constructor; auto.
Qed.

Record attribute := Attribute {
  at_name : list byte;
  at_dims : list Z;
  at_type : dtype;
  at_data : dtype → list elem; (* converted to a memory type *)
}.

Inductive link :=
  | LObject (external : bool)
  | LSoft (target : list byte)
  | LOther (broken : bool).
Definition info_of (l : link) (i : link_info) : Prop :=
  match l with
  | LObject e => li_type i = if e then H5L_TYPE_EXTERNAL else H5L_TYPE_HARD
  | LSoft target => li_type i = H5L_TYPE_SOFT ∧ li_val_size i = (len target + 1)%Z ∧ x00 ∉ target
  | LOther b => li_type i = if b then H5L_TYPE_ERROR else H5L_TYPE_OTHER
  end.

(** ** The functions *)

Class H5Lib `{H5Space} := {
  (* datatypes *)
  H5Tget_class : Z → h5 → H5T_class;
  H5Tget_sign : Z → h5 → H5T_sign;
  H5Tget_order : Z → h5 → H5T_order;
  H5Tget_size : Z → h5 → Z;
  H5Tis_variable_str : Z → h5 → Z;
  H5Tget_array_ndims : Z → h5 → Z;
  H5Tget_array_dims : Z → h5 → list Z;
  H5Tget_nmembers : Z → h5 → Z;
  H5Tget_member_name : Z → Z → h5 → option (list byte);
  H5Tget_member_type : Z → Z → h5 → Z * h5;
  H5Tget_super : Z → h5 → Z * h5;
  H5Tget_native_type : Z → h5 → Z * h5;
  H5Tset_strpad : Z → H5T_str → h5 → Z * h5;
  H5Tcopy : Z → h5 → Z * h5;
  H5Tpack : Z → h5 → Z * h5;
  H5Tarray_create : Z → list Z → h5 → Z * h5;
  H5Tvlen_create : Z → h5 → Z * h5;
  H5Tclose : Z → h5 → Z * h5;
  (* dataspaces: the return code and the dimensions that are written *)
  H5Sget_simple_extent_dims : Z → h5 → Z * list Z;
  H5Screate_simple : list Z → h5 → Z * h5;
  H5Screate_scalar : h5 → Z * h5;
  (* datasets: [H5Dread(dataset, mem_type, mem_space, file_space)] *)
  H5Dget_type : Z → h5 → Z * h5;
  H5Dget_space : Z → h5 → Z * h5;
  H5Dread : Z → Z → Z → Z → h5 → Z * list elem * h5;
  H5Treclaim : Z → Z → h5 → Z * h5;
  (* attributes *)
  H5Oget_num_attrs : Z → h5 → Z * Z;
  H5Aopen_by_idx : Z → Z → h5 → Z * h5;
  H5Aget_name : Z → h5 → Z * list byte;
  H5Aget_space : Z → h5 → Z * h5;
  H5Aget_type : Z → h5 → Z * h5;
  H5Aread : Z → Z → h5 → Z * list elem * h5;
  H5Aclose : Z → h5 → Z * h5;
  (* objects and links: [H5Lvisit] is the links [H5Literate2] visits, in its
     order, and its result when every callback returned 0 *)
  H5Oopen : Z → list byte → h5 → Z * h5;
  H5Oclose : Z → h5 → Z * h5;
  H5Iget_type : Z → h5 → H5I_type;
  H5Gget_info : Z → h5 → Z * Z;
  H5Lvisit : Z → h5 → Z * list (list byte * link_info);
  H5Lget_val : Z → list byte → Z → h5 → Z * list byte;
}.

(** ** What the code relies on *)

(** The open identifiers other than dataspaces, and the number of buffers with
    variable-length data that were read and not reclaimed. *)
Record h5_tables (hobj : Type) := Tables {
  t_types : gmap Z dtype;
  t_objs : gmap Z hobj;
  t_attrs : gmap Z attribute;
  t_vlens : Z;
}.
Arguments Tables {hobj} _ _ _ _.
Arguments t_types {hobj} _.
Arguments t_objs {hobj} _.
Arguments t_attrs {hobj} _.
Arguments t_vlens {hobj} _.
Definition set_types {O} (m : gmap Z dtype) (t : h5_tables O) := Tables m (t_objs t) (t_attrs t) (t_vlens t).
Definition set_objs {O} (m : gmap Z O) (t : h5_tables O) := Tables (t_types t) m (t_attrs t) (t_vlens t).
Definition set_attrs {O} (m : gmap Z attribute) (t : h5_tables O) := Tables (t_types t) (t_objs t) m (t_vlens t).
Definition add_vlens {O} (n : Z) (t : h5_tables O) := Tables (t_types t) (t_objs t) (t_attrs t) (t_vlens t + n).

(** A call that returns an identifier for [o]; [None]: it must fail. *)
Definition creates {A} (r : Z) (o : option A) (m m' : gmap Z A) : Prop :=
  ((r < 0)%Z ∧ m' = m) ∨
  (∃ a, o = Some a ∧ (0 ≤ r)%Z ∧ m !! r = None ∧ m' = <[r := a]> m).

Section frames.
Context {L O SP : Type} (tables : L → h5_tables O) (spaces : L → gmap Z SP).
Definition new_type (r : Z) (o : option dtype) (s s' : L) : Prop :=
  spaces s' = spaces s ∧
  ∃ m, tables s' = set_types m (tables s) ∧ creates r o (t_types (tables s)) m.
Definition new_attr (r : Z) (o : option attribute) (s s' : L) : Prop :=
  spaces s' = spaces s ∧
  ∃ m, tables s' = set_attrs m (tables s) ∧ creates r o (t_attrs (tables s)) m.
Definition new_obj (r : Z) (o : option O) (s s' : L) : Prop :=
  spaces s' = spaces s ∧
  ∃ m, tables s' = set_objs m (tables s) ∧ creates r o (t_objs (tables s)) m.
Definition new_space (r : Z) (P : SP → Prop) (s s' : L) : Prop :=
  tables s' = tables s ∧ ∃ sp, P sp ∧ creates r (Some sp) (spaces s) (spaces s').
End frames.

Class H5LibLaws `{H5SpaceLaws, !H5Lib} := {
  hobj : Type;
  tables : h5 → h5_tables hobj;
  (* the file *)
  obj_type : hobj → H5I_type;
  obj_attrs : hobj → list attribute;
  obj_links : hobj → list (list byte * link);
  follow : hobj → list byte → option hobj;
  ds_type : hobj → dtype;
  ds_dims : hobj → list Z;
  ds_elem : hobj → dtype → list Z → elem;
  (* the native form of an atomic type and the packed form of a struct *)
  native : dtype → dtype;
  packed : dtype → dtype;
  native_law t : class_of (native t) = class_of t ∧ has_vlen (native t) = has_vlen t;
  native_string_law v n pad : ∃ pad', native (DString v n pad) = DString v n pad';
  packed_law fs n : (0 ≤ n)%Z → ∃ fs' n', packed (DCompound fs n) = DCompound fs' n' ∧
    fs'.*1 = fs.*1 ∧ (0 ≤ n' ≤ n)%Z;
  native_depth t : type_depth (native t) = type_depth t;
  packed_depth t : type_depth (packed t) = type_depth t;
  native_ok t : type_ok t → type_ok (native t);
  packed_ok t : type_ok t → type_ok (packed t);
  file_types_ok o : type_ok (ds_type o) ∧ Forall (λ a, type_ok (at_type a)) (obj_attrs o);
  types_ok id s t : t_types (tables s) !! id = Some t → type_ok t;
  ds_elem_law o t p : type_ok t → elem_read t (ds_elem o t p);
  (* nothing is read from an attribute with a null dataspace, whose rank is 0 *)
  at_data_law o a t : a ∈ obj_attrs o → type_ok t →
    Forall (elem_read t) (at_data a t) ∧
    (len (at_data a t) = prod_list (at_dims a) ∨ at_dims a = [] ∧ at_data a t = []);
  ids_valid id s : (id < 0)%Z → spaces s !! id = None ∧ t_types (tables s) !! id = None ∧
    t_objs (tables s) !! id = None ∧ t_attrs (tables s) !! id = None;
  (* datatypes *)
  get_class_law id s : H5Tget_class id s =
    match t_types (tables s) !! id with Some t => class_of t | None => H5T_NO_CLASS end;
  get_sign_law id s c sg o n : t_types (tables s) !! id = Some (DAtomic c sg o n) → H5Tget_sign id s = sg;
  get_order_law id s c sg o n : t_types (tables s) !! id = Some (DAtomic c sg o n) → H5Tget_order id s = o;
  get_size_law id s t : t_types (tables s) !! id = Some t → H5Tget_size id s = dtype_size t;
  get_size_invalid id s : t_types (tables s) !! id = None → H5Tget_size id s = 0%Z;
  is_variable_str_law id s v n pad : t_types (tables s) !! id = Some (DString v n pad) →
    H5Tis_variable_str id s = if v then 1%Z else 0%Z;
  array_ndims_law id s e dims : t_types (tables s) !! id = Some (DArray e dims) →
    H5Tget_array_ndims id s = len dims ∧ H5Tget_array_dims id s = dims;
  nmembers_law id s fs n : t_types (tables s) !! id = Some (DCompound fs n) →
    H5Tget_nmembers id s = len fs;
  member_name_law id i s t : t_types (tables s) !! id = Some t → (0 ≤ i)%Z →
    H5Tget_member_name id i s = fst <$> members t !! Z.to_nat i;
  member_type_law id i s : (0 ≤ i)%Z → let '(r, s') := H5Tget_member_type id i s in
    new_type tables spaces r (t ← t_types (tables s) !! id; snd <$> members t !! Z.to_nat i) s s';
  get_super_law id s : let '(r, s') := H5Tget_super id s in
    new_type tables spaces r (t_types (tables s) !! id ≫= super) s s';
  native_type_law id s : let '(r, s') := H5Tget_native_type id s in
    new_type tables spaces r (native <$> t_types (tables s) !! id) s s';
  strpad_law id pad s : let '(r, s') := H5Tset_strpad id pad s in
    spaces s' = spaces s ∧
    tables s' = match t_types (tables s) !! id with
                | Some (DString v n _) =>
                    set_types (<[id := DString v n pad]> (t_types (tables s))) (tables s)
                | _ => tables s
                end;
  copy_law id s : let '(r, s') := H5Tcopy id s in
    new_type tables spaces r (t_types (tables s) !! id) s s';
  pack_law id s : let '(r, s') := H5Tpack id s in
    spaces s' = spaces s ∧
    ((r < 0)%Z ∧ tables s' = tables s ∨
     (0 ≤ r)%Z ∧ ∃ t, t_types (tables s) !! id = Some t ∧
       tables s' = set_types (<[id := packed t]> (t_types (tables s))) (tables s));
  array_create_law id dims s : let '(r, s') := H5Tarray_create id dims s in
    new_type tables spaces r ((λ t, DArray t dims) <$> t_types (tables s) !! id) s s';
  vlen_create_law id s : let '(r, s') := H5Tvlen_create id s in
    new_type tables spaces r (DVlen <$> t_types (tables s) !! id) s s';
  tclose_law id s : let '(_, s') := H5Tclose id s in
    spaces s' = spaces s ∧ tables s' = set_types (delete id (t_types (tables s))) (tables s);
  (* dataspaces *)
  extent_dims_law id s : let '(r, dims) := H5Sget_simple_extent_dims id s in
    (r < 0)%Z ∨ ∃ sp, spaces s !! id = Some sp ∧ dims = extent sp ∧ r = len dims;
  screate_simple_law dims s : let '(r, s') := H5Screate_simple dims s in
    new_space tables spaces r (λ sp, extent sp = dims ∧
      points sp ≡ slab (replicate (length dims) 0%Z) dims) s s';
  screate_scalar_law s : let '(r, s') := H5Screate_scalar s in
    new_space tables spaces r (λ sp, extent sp = [] ∧ points sp ≡ slab [] []) s s';
  (* the dataspace functions of Select.v *)
  sclose_invalid id s : spaces s !! id = None → spaces (H5Sclose id s).2 = spaces s;
  scopy_tables id s : tables (H5Scopy id s).2 = tables s;
  sclose_tables id s : tables (H5Sclose id s).2 = tables s;
  select_none_tables id s : tables (H5Sselect_none id s).2 = tables s;
  select_all_tables id s : tables (H5Sselect_all id s).2 = tables s;
  hyperslab_tables id st ct s : tables (H5Sselect_hyperslab_or id st ct s).2 = tables s;
  combine_tables a b s : tables (H5Scombine_select_or a b s).2 = tables s;
  select_copy_tables a b s : tables (H5Sselect_copy a b s).2 = tables s;
  (* datasets *)
  dget_type_law id s : let '(r, s') := H5Dget_type id s in
    new_type tables spaces r (ds_type <$> t_objs (tables s) !! id) s s';
  dget_space_law id s o : t_objs (tables s) !! id = Some o →
    let '(r, s') := H5Dget_space id s in new_space tables spaces r (λ sp, extent sp = ds_dims o) s s';
  points_rank id s sp p : spaces s !! id = Some sp → p ∈ points sp → length p = length (extent sp);
  dread_law d mt ms fs s o t spm spf :
    t_objs (tables s) !! d = Some o → t_types (tables s) !! mt = Some t →
    spaces s !! ms = Some spm → spaces s !! fs = Some spf →
    points spm ≡ slab (replicate (length (extent spm)) 0%Z) (extent spm) →
    let '(r, data, s') := H5Dread d mt ms fs s in
    spaces s' = spaces s ∧
    ((r < 0)%Z ∧ tables s' = tables s ∨
     (0 ≤ r)%Z ∧ ∃ pts, enumerates pts (points spf) ∧ data = ds_elem o t <$> pts ∧
       len data = prod_list (extent spm) ∧
       tables s' = add_vlens (if has_vlen t then 1 else 0) (tables s));
  dread_invalid d mt ms fs s : spaces s !! ms = None →
    let '(r, _, s') := H5Dread d mt ms fs s in (r < 0)%Z ∧ spaces s' = spaces s ∧ tables s' = tables s;
  reclaim_law mt sp s : let '(_, s') := H5Treclaim mt sp s in
    spaces s' = spaces s ∧ tables s' = add_vlens (-1) (tables s);
  (* attributes *)
  num_attrs_law id s : let '(r, n) := H5Oget_num_attrs id s in
    (r < 0)%Z ∨ ∃ o, t_objs (tables s) !! id = Some o ∧ n = len (obj_attrs o);
  aopen_law id i s : (0 ≤ i)%Z → let '(r, s') := H5Aopen_by_idx id i s in
    new_attr tables spaces r (o ← t_objs (tables s) !! id; obj_attrs o !! Z.to_nat i) s s';
  aget_name_law id s : let '(n, name) := H5Aget_name id s in
    (n < 0)%Z ∨ ∃ a, t_attrs (tables s) !! id = Some a ∧ name = at_name a ∧ n = len name;
  aget_space_law id s a : t_attrs (tables s) !! id = Some a →
    let '(r, s') := H5Aget_space id s in new_space tables spaces r (λ sp, extent sp = at_dims a) s s';
  aget_type_law id s : let '(r, s') := H5Aget_type id s in
    new_type tables spaces r (at_type <$> t_attrs (tables s) !! id) s s';
  aread_law id mt s a t : t_attrs (tables s) !! id = Some a → t_types (tables s) !! mt = Some t →
    let '(r, data, s') := H5Aread id mt s in
    spaces s' = spaces s ∧
    ((r < 0)%Z ∧ tables s' = tables s ∨
     (0 ≤ r)%Z ∧ data = at_data a t ∧ tables s' = add_vlens (if has_vlen t then 1 else 0) (tables s));
  aclose_law id s : let '(_, s') := H5Aclose id s in
    spaces s' = spaces s ∧ tables s' = set_attrs (delete id (t_attrs (tables s))) (tables s);
  (* objects and links *)
  oopen_law id name s : let '(r, s') := H5Oopen id name s in
    new_obj tables spaces r (o ← t_objs (tables s) !! id; follow o name) s s';
  oclose_law id s : let '(_, s') := H5Oclose id s in
    spaces s' = spaces s ∧ tables s' = set_objs (delete id (t_objs (tables s))) (tables s);
  iget_type_law id s o : t_objs (tables s) !! id = Some o → H5Iget_type id s = obj_type o;
  gget_info_law id s : let '(r, n) := H5Gget_info id s in
    (r < 0)%Z ∨ ∃ o, t_objs (tables s) !! id = Some o ∧ n = len (obj_links o);
  (* the links that were visited; all of them, if it succeeded *)
  visit_law id s o : t_objs (tables s) !! id = Some o →
    let '(r, ls) := H5Lvisit id s in
    Forall2 (λ x y, x.1 = y.1 ∧ info_of y.2 x.2) ls (take (length ls) (obj_links o)) ∧
    (r = 0%Z → length ls = length (obj_links o));
  get_val_law id name target s o : t_objs (tables s) !! id = Some o →
    (name, LSoft target) ∈ obj_links o →
    let '(r, bs) := H5Lget_val id name (len target + 1) s in
    (r < 0)%Z ∨ bs = target ++ [x00];
}.
