(* ===== verification/PackStore.v ===== *)
(** * The store of the packing code

    The packing functions of src/src/hdf5 run on the state of the HDF5 library,
    the packer and the blocks they allocate.  Each library call has a rule here
    that describes its effect on the [view] of the store: the tables of open
    identifiers and the allocated blocks.  [emits] describes the output. *)
From stdpp Require Import base tactics numbers list gmap propset.
From S2P Require Import Prelude Bytes Msgpack Select H5.

Section store.
Context `{HS : H5Space, HL : !H5Lib, HM : Msgpack, HP : Packer}.

Record pstore := PStore {
  p_h5 : h5;
  p_pk : packer;
  p_mem : gmap positive Z; (* the blocks of malloc, with their sizes *)
}.
Definition mem : heap_of pstore Z := HeapOf p_mem (λ m s, PStore (p_h5 s) (p_pk s) m).

(** A call that may change the state of the HDF5 library; one that does not. *)
Definition lib_call {A} (f : h5 → A * h5) : M pstore A :=
  λ s, let '(a, l) := f (p_h5 s) in Some (a, PStore l (p_pk s) (p_mem s)).
Definition lib_get {A} (f : h5 → A) : M pstore A := gets (λ s, f (p_h5 s)).

(** An array of [n] entries that a library call fills in. *)
Definition array_of (n : Z) (l : list Z) : M pstore (list Z) :=
  if (len l <=? n)%Z then ret l else ub.

(** A read writes the elements to a buffer of [room] bytes: more is undefined. *)
Definition in_buffer (data : list elem) (element_size room : Z) : M pstore () :=
  if (len data * element_size <=? room)%Z then ret () else ub.

(** A call whose result is not used. *)
Definition ignore (m : M pstore Z) : M pstore () := let! _ := m in ret ().

(** A loop that stops at the first call that does not return 0; its result is
    the one of that call. *)
Fixpoint for_checked (n : nat) (i : Z) (body : Z → M pstore Z) : M pstore Z :=
  match n with
  | 0 => ret 0%Z
  | S n => let! res := body i in
           if (res =? 0)%Z then for_checked n (i + 1) body else ret res
  end.

(** ** The msgpack library *)

Definition pk_write (bs : list byte) : M pstore Z :=
  λ s, let '(r, p) := pk_callback bs (p_pk s) in Some (r, PStore (p_h5 s) p (p_mem s)).
Definition msgpack_pack (h : header) : M pstore Z := pk_write (header_bytes h).

(** The arguments are of type [size_t]. *)
Definition msgpack_pack_map (n : Z) : M pstore Z := msgpack_pack (HMap (u64 n)).
Definition msgpack_pack_array (n : Z) : M pstore Z := msgpack_pack (HArray (u64 n)).
Definition msgpack_pack_str (n : Z) : M pstore Z := msgpack_pack (HStr (u64 n)).
Definition msgpack_pack_str_body (bs : list byte) : M pstore Z := pk_write bs.
Definition msgpack_pack_bin (n : Z) : M pstore Z := msgpack_pack (HBin (u64 n)).
Definition msgpack_pack_true : M pstore Z := msgpack_pack (HBool true).
Definition msgpack_pack_nil : M pstore Z := msgpack_pack HNil.
Definition msgpack_pack_unsigned_long_long (z : Z) : M pstore Z := msgpack_pack (HInt (u64 z)).
Definition msgpack_pack_long_long (z : Z) : M pstore Z := msgpack_pack (HInt (s64 z)).

(** [check(msgpack_pack_str(&pk, n)); check(msgpack_pack_str_body(&pk, bs, n));] *)
Definition pack_string (bs : list byte) : M pstore Z :=
  let! r := msgpack_pack_str (len bs) in
  if (r =? 0)%Z then msgpack_pack_str_body bs else ret r.

(** Closing identifiers "if the id is valid", and freeing a pointer that may be NULL. *)
Definition close_if (close : Z → h5 → Z * h5) (id : Z) : M pstore () :=
  when (0 <=? id)%Z (let! _ := lib_call (close id) in ret ()).
Definition free_if (p : ptr) : M pstore () :=
  match p with None => ret () | Some _ => free mem p end.

(** * Rules *)
Section rules.
Context `{HSL : !H5SpaceLaws, HLL : !H5LibLaws, HML : !MsgpackLaws, HPL : !PackerLaws}.

Record hview := View {
  v_types : gmap Z dtype;
  v_objs : gmap Z hobj;
  v_attrs : gmap Z attribute;
  v_vlens : Z;
  v_spaces : gmap Z space;
  v_mem : gmap positive Z;
}.
Definition view (s : pstore) : hview :=
  let t := tables (p_h5 s) in
  View (t_types t) (t_objs t) (t_attrs t) (t_vlens t) (spaces (p_h5 s)) (p_mem s).

Definition with_types m V := View m (v_objs V) (v_attrs V) (v_vlens V) (v_spaces V) (v_mem V).
Definition with_objs m V := View (v_types V) m (v_attrs V) (v_vlens V) (v_spaces V) (v_mem V).
Definition with_attrs m V := View (v_types V) (v_objs V) m (v_vlens V) (v_spaces V) (v_mem V).
Definition with_vlens n V := View (v_types V) (v_objs V) (v_attrs V) n (v_spaces V) (v_mem V).
Definition with_spaces m V := View (v_types V) (v_objs V) (v_attrs V) (v_vlens V) m (v_mem V).
Definition with_mem m V := View (v_types V) (v_objs V) (v_attrs V) (v_vlens V) (v_spaces V) m.

Lemma view_eq V W :
  v_types V = v_types W → v_objs V = v_objs W → v_attrs V = v_attrs W → v_vlens V = v_vlens W →
  v_spaces V = v_spaces W → v_mem V = v_mem W → V = W.
Proof. destruct V, W; simpl; congruence. Qed.

(** ** Output *)

Definition pk_ok (s : pstore) : Prop := pk_failed (p_pk s) = false.
(** Unless a write failed, the bytes that were added. *)
Definition emits (bs : list byte) (s s' : pstore) : Prop :=
  pk_ok s' → pk_ok s ∧ pk_written (p_pk s') = pk_written (p_pk s) ++ bs.

Lemma emits_nil s s' : p_pk s' = p_pk s → emits [] s s'.
Proof. unfold emits, pk_ok. intros ->. by rewrite app_nil_r. Qed.
Lemma emits_refl s : emits [] s s.
Proof. by apply emits_nil. Qed.
Lemma emits_trans b1 b2 s1 s2 s3 : emits b1 s1 s2 → emits b2 s2 s3 → emits (b1 ++ b2) s1 s3.
Proof.
  intros H1 H2 Hok. destruct (H2 Hok) as [Hok2 E2]. destruct (H1 Hok2) as [Hok1 E1].
  split; [done|]. by rewrite E2, E1, app_assoc.
Qed.
Lemma emits_pk b s1 s2 s3 : emits b s1 s2 → p_pk s3 = p_pk s2 → emits b s1 s3.
Proof. unfold emits, pk_ok. by intros ? ->. Qed.
Lemma emits_pk_l b s1 s2 s3 : p_pk s2 = p_pk s1 → emits b s2 s3 → emits b s1 s3.
Proof. unfold emits, pk_ok. by intros ->. Qed.
Lemma emits_cast b b' s s' : emits b s s' → b = b' → emits b' s s'.
Proof. by intros ? <-. Qed.
Lemma pk_ok_eq s s' : p_pk s' = p_pk s → pk_ok s → pk_ok s'.
Proof. unfold pk_ok. by intros ->. Qed.

Lemma wp_pk_write bs (Q : Z → pstore → Prop) s :
  (∀ r s', view s' = view s → emits bs s s' → (r = 0%Z → bs ≠ [] ∨ pk_ok s → pk_ok s') → Q r s') →
  wp (pk_write bs) Q s.
Proof.
  intros HQ. unfold pk_write, wp. pose proof (pk_callback_law bs (p_pk s)) as Hl.
  destruct (pk_callback bs (p_pk s)) as [r p]. eexists _, _. split; [done|].
  apply HQ; [done|..]; unfold emits, pk_ok; simpl; destruct (pk_failed (p_pk s)).
  - destruct Hl as [-> _]. done.
  - destruct Hl as [(? & _ & ?)|[_ ->]]; done.
  - destruct Hl as [_ Hl]. intros -> [Hb|]; [by destruct (Hl Hb)|done].
  - destruct Hl as [(? & ? & ?)|[? ?]]; done.
Qed.

Lemma wp_msgpack_pack h (Q : Z → pstore → Prop) s :
  (∀ r s', view s' = view s → emits (header_bytes h) s s' → (r = 0%Z → pk_ok s') → Q r s') →
  wp (msgpack_pack h) Q s.
Proof.
  intros HQ. apply wp_pk_write. intros r s' ? ? Hr. apply HQ; [done..|].
  intros. apply Hr; [done|]. left. apply header_nonempty.
Qed.

Lemma wp_pack_string bs (Q : Z → pstore → Prop) s :
  is_u64 (len bs) →
  (∀ r s', view s' = view s → (r = 0%Z → emits (encode_str bs) s s' ∧ pk_ok s') → Q r s') →
  wp (pack_string bs) Q s.
Proof.
  intros Hl HQ. unfold pack_string, msgpack_pack_str. rewrite u64_small by done.
  apply wp_bind, wp_msgpack_pack. intros r s1 Hv He Hok. case_match eqn:E.
  - apply wp_pk_write. intros r2 s2 Hv2 He2 Hok2. apply HQ; [congruence|]. intros ->.
    split; [by eapply emits_trans|]. apply Hok2; [done|]. right. apply Hok. lia.
  - apply wp_ret, HQ; [done|]. lia.
Qed.

(** The next call of a sequence of checked calls. *)
Lemma wp_checked {A} (P : pstore → Prop) (m : M pstore Z) (k c : M pstore A) (Q : A → pstore → Prop) s :
  wp m (λ r s', view s' = view s ∧ (r = 0%Z → P s')) s →
  (∀ s', view s' = view s → P s' → wp k Q s') → (∀ s', view s' = view s → wp c Q s') →
  wp (check! m else c in k) Q s.
Proof.
  intros Hm Hk Hc. apply wp_bind. eapply wp_mono; [exact Hm|]. simpl. intros r s' [Hv HP'].
  destruct (Z.eqb_spec r 0) as [->|]; auto.
Qed.
Lemma wp_check_string {A} bs (k c : M pstore A) (Q : A → pstore → Prop) s :
  is_u64 (len bs) →
  (∀ s', view s' = view s → emits (encode_str bs) s s' → pk_ok s' → wp k Q s') →
  (∀ s', view s' = view s → wp c Q s') →
  wp (check! pack_string bs else c in k) Q s.
Proof.
  intros Hl Hk Hc. eapply (wp_checked (λ s', emits (encode_str bs) s s' ∧ pk_ok s'));
    [apply wp_pack_string; auto|intros s' Hv [? ?]; by apply Hk|done].
Qed.
Lemma wp_check_header {A} h (k c : M pstore A) (Q : A → pstore → Prop) s :
  (∀ s', view s' = view s → emits (header_bytes h) s s' → pk_ok s' → wp k Q s') →
  (∀ s', view s' = view s → wp c Q s') →
  wp (check! msgpack_pack h else c in k) Q s.
Proof.
  intros Hk Hc. eapply (wp_checked (λ s', emits (header_bytes h) s s' ∧ pk_ok s'));
    [apply wp_msgpack_pack; auto|intros s' Hv [? ?]; by apply Hk|done].
Qed.

(** ** The library *)

Lemma wp_lib_get {A} (f : h5 → A) (Q : A → pstore → Prop) s : Q (f (p_h5 s)) s → wp (lib_get f) Q s.
Proof. intros. by apply (wp_gets (λ s, f (p_h5 s))). Qed.

Lemma wp_lib {A} (f : h5 → A * h5) (Q : A → pstore → Prop) s :
  (∀ r l, f (p_h5 s) = (r, l) → Q r (PStore l (p_pk s) (p_mem s))) → wp (lib_call f) Q s.
Proof. intros HQ. unfold wp, lib_call. destruct (f (p_h5 s)) as [r l]. eauto. Qed.

(** A call that returns a new datatype, attribute, object, dataspace. *)
Lemma wp_new_type f o (Q : Z → pstore → Prop) s :
  (let '(r, l) := f (p_h5 s) in new_type tables spaces r o (p_h5 s) l) →
  (∀ r s' m, creates r o (v_types (view s)) m → view s' = with_types m (view s) →
     p_pk s' = p_pk s → Q r s') →
  wp (lib_call f) Q s.
Proof.
  intros Hf HQ. apply wp_lib. intros r l E. rewrite E in Hf.
  destruct Hf as (Hs & m & Ht & Hc). apply (HQ _ _ m); [done| |done].
  unfold view, with_types. simpl. by rewrite Ht, Hs.
Qed.
Lemma wp_new_attr f o (Q : Z → pstore → Prop) s :
  (let '(r, l) := f (p_h5 s) in new_attr tables spaces r o (p_h5 s) l) →
  (∀ r s' m, creates r o (v_attrs (view s)) m → view s' = with_attrs m (view s) →
     p_pk s' = p_pk s → Q r s') →
  wp (lib_call f) Q s.
Proof.
  intros Hf HQ. apply wp_lib. intros r l E. rewrite E in Hf.
  destruct Hf as (Hs & m & Ht & Hc). apply (HQ _ _ m); [done| |done].
  unfold view, with_attrs. simpl. by rewrite Ht, Hs.
Qed.
Lemma wp_new_obj f o (Q : Z → pstore → Prop) s :
  (let '(r, l) := f (p_h5 s) in new_obj tables spaces r o (p_h5 s) l) →
  (∀ r s' m, creates r o (v_objs (view s)) m → view s' = with_objs m (view s) →
     p_pk s' = p_pk s → Q r s') →
  wp (lib_call f) Q s.
Proof.
  intros Hf HQ. apply wp_lib. intros r l E. rewrite E in Hf.
  destruct Hf as (Hs & m & Ht & Hc). apply (HQ _ _ m); [done| |done].
  unfold view, with_objs. simpl. by rewrite Ht, Hs.
Qed.
Lemma wp_new_space f P (Q : Z → pstore → Prop) s :
  (let '(r, l) := f (p_h5 s) in new_space tables spaces r P (p_h5 s) l) →
  (∀ r s' m sp, P sp → creates r (Some sp) (v_spaces (view s)) m →
     view s' = with_spaces m (view s) → p_pk s' = p_pk s → Q r s') →
  wp (lib_call f) Q s.
Proof.
  intros Hf HQ. apply wp_lib. intros r l E. rewrite E in Hf.
  destruct Hf as (Ht & sp & HP' & Hc). apply (HQ _ _ (spaces l) sp); [done|done| |done].
  unfold view, with_spaces. simpl. by rewrite Ht.
Qed.

Lemma wp_H5Tclose id (Q : Z → pstore → Prop) s :
  (∀ r s', view s' = with_types (delete id (v_types (view s))) (view s) → p_pk s' = p_pk s → Q r s') →
  wp (lib_call (H5Tclose id)) Q s.
Proof.
  intros HQ. apply wp_lib. intros r l E. pose proof (tclose_law id (p_h5 s)) as Hl.
  rewrite E in Hl. destruct Hl as [Hs Ht]. apply HQ; [|done]. unfold view, with_types. simpl. by rewrite Ht, Hs.
Qed.
Lemma wp_H5Aclose id (Q : Z → pstore → Prop) s :
  (∀ r s', view s' = with_attrs (delete id (v_attrs (view s))) (view s) → p_pk s' = p_pk s → Q r s') →
  wp (lib_call (H5Aclose id)) Q s.
Proof.
  intros HQ. apply wp_lib. intros r l E. pose proof (aclose_law id (p_h5 s)) as Hl.
  rewrite E in Hl. destruct Hl as [Hs Ht]. apply HQ; [|done]. unfold view, with_attrs. simpl. by rewrite Ht, Hs.
Qed.
Lemma wp_H5Oclose id (Q : Z → pstore → Prop) s :
  (∀ r s', view s' = with_objs (delete id (v_objs (view s))) (view s) → p_pk s' = p_pk s → Q r s') →
  wp (lib_call (H5Oclose id)) Q s.
Proof.
  intros HQ. apply wp_lib. intros r l E. pose proof (oclose_law id (p_h5 s)) as Hl.
  rewrite E in Hl. destruct Hl as [Hs Ht]. apply HQ; [|done]. unfold view, with_objs. simpl. by rewrite Ht, Hs.
Qed.
Lemma wp_H5Sclose id (Q : Z → pstore → Prop) s :
  (∀ r s', view s' = with_spaces (delete id (v_spaces (view s))) (view s) → p_pk s' = p_pk s → Q r s') →
  wp (lib_call (H5Sclose id)) Q s.
Proof.
  intros HQ. apply wp_lib. intros r l E. pose proof (sclose_tables id (p_h5 s)) as Ht.
  rewrite E in Ht. simpl in Ht. apply HQ; [|done]. unfold view, with_spaces. simpl. rewrite Ht. f_equal.
  destruct (spaces (p_h5 s) !! id) eqn:Hid.
  - pose proof (H5Sclose_law _ _ _ Hid) as Hl. by rewrite E in Hl.
  - rewrite delete_id by done. pose proof (sclose_invalid _ _ Hid) as Hl. by rewrite E in Hl.
Qed.
Lemma wp_H5Treclaim mt sp (Q : Z → pstore → Prop) s :
  (∀ r s', view s' = with_vlens (v_vlens (view s) - 1) (view s) → p_pk s' = p_pk s → Q r s') →
  wp (lib_call (H5Treclaim mt sp)) Q s.
Proof.
  intros HQ. apply wp_lib. intros r l E. pose proof (reclaim_law mt sp (p_h5 s)) as Hl.
  rewrite E in Hl. destruct Hl as [Hs Ht]. apply HQ; [|done]. unfold view, with_vlens. simpl. by rewrite Ht, Hs.
Qed.

Lemma wp_ignore (m : M pstore Z) (Q : () → pstore → Prop) s :
  wp m (λ _ s', Q () s') s → wp (ignore m) Q s.
Proof. intros H. unfold ignore. apply wp_bind. eapply wp_mono; [exact H|]. intros. by apply wp_ret. Qed.

(** A loop of checked calls, with an invariant [I] and [R] for the
    result at which it stops early. *)
Lemma wp_for_checked (I : Z → pstore → Prop) (R : Z → pstore → Prop) n k body (Q : Z → pstore → Prop) s :
  (∀ j s, (k ≤ j < k + Z.of_nat n)%Z → I j s →
     wp (body j) (λ r s', if (r =? 0)%Z then I (j + 1)%Z s' else R r s') s) →
  I k s → (∀ s', I (k + Z.of_nat n)%Z s' → Q 0%Z s') → (∀ r s', r ≠ 0%Z → R r s' → Q r s') →
  wp (for_checked n k body) Q s.
Proof.
  revert k s. induction n as [|n IH]; intros k s Hb HI HQ HR; simpl.
  { apply wp_ret, HQ. by rewrite Z.add_0_r. }
  apply wp_bind. eapply wp_mono; [apply Hb; [lia|done]|]. intros r s1 H1. simpl in H1.
  destruct (Z.eqb_spec r 0) as [->|].
  - apply IH; [|done| |done].
    + intros j s' ?. apply Hb. lia.
    + intros s' Hs'. apply HQ. by replace (k + Z.of_nat (S n))%Z with (k + 1 + Z.of_nat n)%Z by lia.
  - apply wp_ret. auto.
Qed.

(** Memory. *)
Lemma wp_pmalloc n (Q : loc → pstore → Prop) s :
  (∀ a s', v_mem (view s) !! a = None → view s' = with_mem (<[a := n]> (v_mem (view s))) (view s) →
     p_pk s' = p_pk s → p_h5 s' = p_h5 s → Q a s') → wp (malloc mem n) Q s.
Proof. intros HQ. apply wp_malloc. intros a Ha. by eapply HQ. Qed.
Lemma wp_pfree a n (Q : () → pstore → Prop) s :
  v_mem (view s) !! a = Some n →
  (∀ s', view s' = with_mem (delete a (v_mem (view s))) (view s) → p_pk s' = p_pk s → Q () s') →
  wp (free mem (Some a)) Q s.
Proof. intros Ha HQ. eapply wp_free; [done|]. by eapply HQ. Qed.

(** Closing "if the id is valid" is closing: no negative identifier is open. *)
Lemma wp_close_if_type id (Q : () → pstore → Prop) s :
  (∀ s', view s' = with_types (delete id (v_types (view s))) (view s) → p_pk s' = p_pk s → Q () s') →
  wp (close_if H5Tclose id) Q s.
Proof.
  intros HQ. unfold close_if. apply wp_when; intros Hid.
  - wp_step. apply wp_H5Tclose. intros r s' ? ?. wp_step. auto.
  - apply HQ; [|done]. rewrite delete_id; [by destruct (view s)|]. apply ids_valid. lia.
Qed.
Lemma wp_close_if_attr id (Q : () → pstore → Prop) s :
  (∀ s', view s' = with_attrs (delete id (v_attrs (view s))) (view s) → p_pk s' = p_pk s → Q () s') →
  wp (close_if H5Aclose id) Q s.
Proof.
  intros HQ. unfold close_if. apply wp_when; intros Hid.
  - wp_step. apply wp_H5Aclose. intros r s' ? ?. wp_step. auto.
  - apply HQ; [|done]. rewrite delete_id; [by destruct (view s)|]. apply ids_valid. lia.
Qed.
Lemma wp_close_if_obj id (Q : () → pstore → Prop) s :
  (∀ s', view s' = with_objs (delete id (v_objs (view s))) (view s) → p_pk s' = p_pk s → Q () s') →
  wp (close_if H5Oclose id) Q s.
Proof.
  intros HQ. unfold close_if. apply wp_when; intros Hid.
  - wp_step. apply wp_H5Oclose. intros r s' ? ?. wp_step. auto.
  - apply HQ; [|done]. rewrite delete_id; [by destruct (view s)|]. apply ids_valid. lia.
Qed.
Lemma wp_close_if_space id (Q : () → pstore → Prop) s :
  (∀ s', view s' = with_spaces (delete id (v_spaces (view s))) (view s) → p_pk s' = p_pk s → Q () s') →
  wp (close_if H5Sclose id) Q s.
Proof.
  intros HQ. unfold close_if. apply wp_when; intros Hid.
  - wp_step. apply wp_H5Sclose. intros r s' ? ?. wp_step. auto.
  - apply HQ; [|done]. rewrite delete_id; [by destruct (view s)|]. apply ids_valid. lia.
Qed.

(** A block that may have been allocated since the memory was [m]. *)
Definition allocs (p : ptr) (m m' : gmap positive Z) : Prop :=
  match p with None => m' = m | Some a => m !! a = None ∧ ∃ n, m' = <[a := n]> m end.
Definition drop_block (p : ptr) (m : gmap positive Z) : gmap positive Z :=
  match p with None => m | Some a => delete a m end.

Lemma wp_free_if p m1 m2 p2 (Q : () → pstore → Prop) s :
  allocs p m1 m2 → allocs p2 m2 (v_mem (view s)) →
  (∀ s', view s' = with_mem (drop_block p (v_mem (view s))) (view s) →
     allocs p2 m1 (drop_block p (v_mem (view s))) → p_pk s' = p_pk s → Q () s') →
  wp (free_if p) Q s.
Proof.
  intros H1 H2 HQ. destruct p as [a|]; cbn [free_if allocs drop_block] in *.
  - destruct H1 as [Ha [n ->]].
    assert (v_mem (view s) !! a = Some n) as Hs.
    { destruct p2 as [b|]; cbn [allocs] in H2; [|rewrite H2; apply lookup_insert_eq].
      destruct H2 as [Hb [k ->]]. rewrite lookup_insert_ne; [apply lookup_insert_eq|].
      intros ->. by rewrite lookup_insert_eq in Hb. }
    eapply wp_pfree; [exact Hs|]. intros s' Hv Hp. apply HQ; [done| |done].
    destruct p2 as [b|]; cbn [allocs drop_block] in *; [|by rewrite H2, delete_insert_id].
    destruct H2 as [Hb [k E]]. apply lookup_insert_None in Hb as [Hb Hne]. split; [done|].
    exists k. rewrite E, delete_insert_ne by done. by rewrite delete_insert_id.
  - apply wp_ret, HQ; [by destruct (view s)|congruence|done].
Qed.

Lemma view_types s : v_types (view s) = t_types (tables (p_h5 s)).
Proof. done. Qed.
Lemma with_types_id V : with_types (v_types V) V = V.
Proof. by destruct V. Qed.
Lemma with_types_twice m m' V : with_types m (with_types m' V) = with_types m V.
Proof. done. Qed.
Lemma with_types_types m V : v_types (with_types m V) = m.
Proof. done. Qed.
Lemma creates_closed {A} r (o : option A) m m' : creates r o m m' → (∀ id, (id < 0)%Z → m !! id = None) → delete r m' = m.
Proof.
  intros [[Hr ->]|(a & _ & _ & Hn & ->)] Hneg; [by rewrite delete_id by auto|].
  by rewrite delete_insert_id.
Qed.
Lemma types_neg s id : (id < 0)%Z → v_types (view s) !! id = None.
Proof. intros Hid. by apply ids_valid. Qed.
Lemma spaces_neg s id : (id < 0)%Z → v_spaces (view s) !! id = None.
Proof. intros Hid. by apply ids_valid. Qed.
Lemma objs_neg s id : (id < 0)%Z → v_objs (view s) !! id = None.
Proof. intros Hid. by apply ids_valid. Qed.
Lemma attrs_neg s id : (id < 0)%Z → v_attrs (view s) !! id = None.
Proof. intros Hid. by apply ids_valid. Qed.

(** The space of a dataset or attribute with the given dimensions. *)
Lemma wp_open_space {A} get dims (k : Z → M pstore A) (Q : A → pstore → Prop) s :
  (let '(r, l) := get (p_h5 s) in new_space tables spaces r (λ sp, extent sp = dims) (p_h5 s) l) →
  (∀ fs s' m, view s' = with_spaces m (view s) → p_pk s' = p_pk s →
     (∃ o, creates fs o (v_spaces (view s)) m) →
     ((0 ≤ fs)%Z → ∃ sp, extent sp = dims ∧ v_spaces (view s) !! fs = None ∧ m = <[fs := sp]> (v_spaces (view s))) →
     wp (k fs) Q s') →
  wp (let! fs := lib_call get in k fs) Q s.
Proof.
  intros Hget HQ. wp_step. eapply wp_new_space; [exact Hget|]. intros fs s1 m sp Hext Hcs Hv1 Hp1.
  apply (HQ fs s1 m); [exact Hv1|exact Hp1|by eexists|]. intros Hfs.
  destruct Hcs as [[? _]|(? & [= <-] & _ & Hn & Hm)]; [lia|]. by exists sp.
Qed.

(** Its extent. *)
Lemma wp_space_dims {A} fs sp (k : Z * list Z → M pstore A) (Q : A → pstore → Prop) s :
  v_spaces (view s) !! fs = Some sp →
  (∀ r, (r.1 < 0)%Z ∨ (0 ≤ r.1)%Z ∧ r.2 = extent sp → wp (k r) Q s) →
  wp (let! written := lib_get (H5Sget_simple_extent_dims fs) in k written) Q s.
Proof.
  intros Hsp HQ. wp_step. apply wp_lib_get. pose proof (extent_dims_law fs (p_h5 s)) as Hexl.
  destruct (H5Sget_simple_extent_dims fs (p_h5 s)) as [er written]. apply HQ. simpl.
  destruct (Z.lt_ge_cases er 0); [by left|]. right. split; [done|].
  destruct Hexl as [?|(sp' & Hsp' & -> & _)]; [lia|].
  change (spaces (p_h5 s)) with (v_spaces (view s)) in Hsp'. congruence.
Qed.
End rules.
End store.

(** Brings the view of the store after a step into the form [View ...]. *)
Ltac view_step H H0 :=
  rewrite H0 in H;
  unfold with_types, with_objs, with_attrs, with_vlens, with_spaces, with_mem in H;
  cbn [v_types v_objs v_attrs v_vlens v_spaces v_mem] in H.

(** Composes the outputs of a sequence of calls. *)
Ltac emits_chain :=
  lazymatch goal with
  | |- emits _ ?s ?s => apply emits_refl
  | H : emits _ ?s0 ?s1 |- emits _ ?s0 ?s1 => exact H
  | H : emits _ _ ?s1 |- emits _ _ ?s1 => eapply emits_trans; [|exact H]; emits_chain
  | H : p_pk ?s1 = p_pk _ |- emits _ _ ?s1 => eapply emits_pk; [|exact H]; emits_chain
  end.
Ltac emits_done :=
  eapply emits_cast; [emits_chain|]; simpl;
  rewrite <- ?app_assoc, ?app_nil_r; simpl; rewrite <- ?app_assoc, ?app_nil_r; reflexivity.

(** A step of a packing function; library calls are left to their rules. *)
Ltac pstep := first [wp_step | apply wp_lib_get].
