(* ===== verification/NumpyType.v ===== *)
(** * Datatypes: packed memory types and numpy descriptors

    src/src/hdf5/native_type.c, type_mapping.c and pack_numpy_type.c.  The
    functions recurse over the structure of a datatype through identifiers;
    [fuel] bounds the nesting. *)
From Stdlib Require Import Strings.Byte Strings.String.
From stdpp Require Import base tactics numbers list gmap propset.
From S2P Require Import Prelude Bytes Msgpack Select H5 PackStore Multislice.

Section numpy.
Context `{HS : H5Space, HL : !H5Lib, HM : Msgpack, HP : Packer}.

Definition H5I_INVALID_HID : Z := -1.

(** ** native_type.c *)

Definition native_type (file_type_id : Z) : M pstore Z :=
  let! mem_type_id := lib_call (H5Tget_native_type file_type_id) in
  let! class := lib_get (H5Tget_class mem_type_id) in
  do! match class with
      | H5T_STRING => ignore (lib_call (H5Tset_strpad mem_type_id H5T_STR_NULLPAD))
      | _ => ret ()
      end in
  ret mem_type_id.

Fixpoint make_packed_native_type (fuel : nat) (input_type_id : Z) : M pstore Z :=
  match fuel with
  | 0 => ub
  | S fuel =>
    if (input_type_id =? H5I_INVALID_HID)%Z then ret H5I_INVALID_HID else
    let! class := lib_get (H5Tget_class input_type_id) in
    match class with
    | H5T_INTEGER | H5T_ENUM | H5T_FLOAT | H5T_STRING => native_type input_type_id
    | H5T_ARRAY =>
        let! rank := lib_get (H5Tget_array_ndims input_type_id) in
        let! written := lib_get (H5Tget_array_dims input_type_id) in
        let! dims := array_of HDFSTREAM_MAX_DIMS written in
        let! element_type_id := lib_call (H5Tget_super input_type_id) in
        let! packed_element_type_id := make_packed_native_type fuel element_type_id in
        do! ignore (lib_call (H5Tclose element_type_id)) in
        let! output_type_id :=
          lib_call (H5Tarray_create packed_element_type_id (take (Z.to_nat rank) dims)) in
        do! ignore (lib_call (H5Tclose packed_element_type_id)) in
        ret output_type_id
    | H5T_COMPOUND =>
        let! output_type_id := lib_call (H5Tcopy input_type_id) in
        do! ignore (lib_call (H5Tpack output_type_id)) in
        ret output_type_id
    | H5T_VLEN =>
        let! element_type_id := lib_call (H5Tget_super input_type_id) in
        let! packed_element_type_id := make_packed_native_type fuel element_type_id in
        do! ignore (lib_call (H5Tclose element_type_id)) in
        let! output_type_id := lib_call (H5Tvlen_create packed_element_type_id) in
        do! ignore (lib_call (H5Tclose packed_element_type_id)) in
        ret output_type_id
    | _ => ret H5I_INVALID_HID
    end
  end.

(** ** type_mapping.c *)

(** The return code and the string left in [descr], a buffer of [len] characters. *)
Definition numpy_type_info (dtype_id len : Z) : M pstore (Z * list byte) :=
  let error := ret ((-1)%Z, []) in
  let! class := lib_get (H5Tget_class dtype_id) in
  let! kind := match class with
    | H5T_INTEGER | H5T_ENUM =>
        let! sign := lib_get (H5Tget_sign dtype_id) in
        ret match sign with
            | H5T_SGN_NONE => Some "u"%byte
            | H5T_SGN_2 => Some "i"%byte
            | _ => None
            end
    | H5T_FLOAT => ret (Some "f"%byte)
    | H5T_STRING =>
        let! is_vlen := lib_get (H5Tis_variable_str dtype_id) in
        ret (if (0 <? is_vlen)%Z then None else Some "S"%byte)
    | _ => ret None
    end in
  match kind with
  | None => error
  | Some kind =>
    match class with
    | H5T_INTEGER | H5T_FLOAT | H5T_ENUM =>
        let! order := lib_get (H5Tget_order dtype_id) in
        match order with
        | H5T_ORDER_LE | H5T_ORDER_BE =>
            let endian := match order with H5T_ORDER_LE => "<"%byte | _ => ">"%byte end in
            let! size := lib_get (H5Tget_size dtype_id) in
            ret (0%Z, snprintf len (endian :: kind :: fmt_d (s32 size)))
        | _ => error
        end
    | H5T_STRING =>
        let! str_size := lib_get (H5Tget_size dtype_id) in
        ret (0%Z, snprintf len ("S"%byte :: fmt_d (s32 str_size)))
    | _ => error
    end
  end.

(** ** pack_numpy_type.c *)

(** [msgpack_pack_str(pk, strlen(s)); msgpack_pack_str_body(pk, s, strlen(s));]
    without a check of the results. *)
Definition put_string (s : list byte) : M pstore () :=
  do! ignore (msgpack_pack_str (len s)) in ignore (msgpack_pack_str_body s).

Definition descr_len : Z := 10.

Fixpoint pack_numpy_type (fuel : nat) (dtype_id : Z) (field_name : option (list byte))
    : M pstore Z :=
  match fuel with
  | 0 => ub
  | S fuel =>
    let! class := lib_get (H5Tget_class dtype_id) in
    match class with
    | H5T_INTEGER | H5T_ENUM | H5T_FLOAT | H5T_STRING =>
        let! variable := lib_get (H5Tis_variable_str dtype_id) in
        if bool_decide (class = H5T_STRING) && (0 <? variable)%Z then
          do! put_string (lit "str") in ret 0%Z
        else
          let! res := numpy_type_info dtype_id descr_len in
          if (res.1 =? 0)%Z then
            match field_name with
            | Some name =>
                do! ignore (msgpack_pack_array 2) in
                do! put_string name in
                do! put_string res.2 in
                ret 0%Z
            | None => do! put_string res.2 in ret 0%Z
            end
          else ret (-1)%Z
    | H5T_ARRAY =>
        do! match field_name with
            | Some name => do! ignore (msgpack_pack_array 3) in put_string name
            | None => ignore (msgpack_pack_array 2)
            end in
        let! element_type := lib_call (H5Tget_super dtype_id) in
        let! res := pack_numpy_type fuel element_type field_name in
        do! ignore (lib_call (H5Tclose element_type)) in
        if (res <? 0)%Z then ret (-1)%Z else
        let! rank := lib_get (H5Tget_array_ndims dtype_id) in
        let! written := lib_get (H5Tget_array_dims dtype_id) in
        let! dims := array_of HDFSTREAM_MAX_DIMS written in
        do! ignore (msgpack_pack_array rank) in
        do! forM (Z.to_nat rank) 0 (λ i,
              let! d := lift (arr_get dims i) in ignore (msgpack_pack_long_long d)) in
        ret 0%Z
    | H5T_COMPOUND =>
        let! nr_fields := lib_get (H5Tget_nmembers dtype_id) in
        if (nr_fields <? 0)%Z then ret (-1)%Z else
        do! ignore (msgpack_pack_array nr_fields) in
        let! res := for_checked (Z.to_nat nr_fields) 0 (λ field_nr,
          let! field_type_id := lib_call (H5Tget_member_type dtype_id field_nr) in
          let! sub_field_name := lib_get (H5Tget_member_name dtype_id field_nr) in
          let! res := pack_numpy_type fuel field_type_id sub_field_name in
          do! ignore (lib_call (H5Tclose field_type_id)) in
          ret res) in
        ret (if (res =? 0)%Z then 0 else -1)%Z
    | H5T_VLEN =>
        let! vl_type_id := lib_call (H5Tget_super dtype_id) in
        let! result := pack_numpy_type fuel vl_type_id None in
        do! ignore (lib_call (H5Tclose vl_type_id)) in
        ret result
    | _ => ret (-1)%Z
    end
  end.

Definition pack_numpy_kind (dtype_id : Z) : M pstore Z :=
  let! class := lib_get (H5Tget_class dtype_id) in
  match class with
  | H5T_INTEGER | H5T_ENUM | H5T_FLOAT | H5T_STRING => do! put_string [] in ret 0%Z
  | H5T_ARRAY | H5T_COMPOUND | H5T_VLEN => do! put_string (lit "V") in ret 0%Z
  | _ => ret (-1)%Z
  end.

Fixpoint detect_vlen_types (fuel : nat) (dtype_id : Z) : M pstore Z :=
  match fuel with
  | 0 => ub
  | S fuel =>
    let! class := lib_get (H5Tget_class dtype_id) in
    match class with
    | H5T_STRING =>
        let! variable := lib_get (H5Tis_variable_str dtype_id) in
        ret (if (0 <? variable)%Z then 1 else 0)%Z
    | H5T_VLEN => ret 1%Z
    | H5T_ARRAY =>
        let! element_type := lib_call (H5Tget_super dtype_id) in
        let! is_vlen := detect_vlen_types fuel element_type in
        do! ignore (lib_call (H5Tclose element_type)) in
        ret is_vlen
    | H5T_COMPOUND =>
        let! nr_fields := lib_get (H5Tget_nmembers dtype_id) in
        if (nr_fields <? 0)%Z then ret (-1)%Z else
        for_checked (Z.to_nat nr_fields) 0 (λ field_nr,
          let! field_type_id := lib_call (H5Tget_member_type dtype_id field_nr) in
          let! is_vlen := detect_vlen_types fuel field_type_id in
          do! ignore (lib_call (H5Tclose field_type_id)) in
          ret is_vlen)
    | H5T_INTEGER | H5T_ENUM | H5T_FLOAT => ret 0%Z
    | _ => ret (-1)%Z
    end
  end.
End numpy.
