(* ===== verification/NumpyTypeProof.v ===== *)
(** * Datatypes: what the conversions compute

    The memory type of a file type, the object that describes a type to numpy,
    and the correctness of the functions of NumpyType.v: they return, close
    every identifier they open on every path, and their results and output are
    the ones of these definitions. *)
From Stdlib Require Import Strings.Byte Strings.String.
From stdpp Require Import base tactics numbers list gmap propset.
From S2P Require Import Prelude Bytes Msgpack Select H5 PackStore Multislice NumpyType.

(** ** The descriptor of a type *)

(** The text that is printed for a scalar type. *)
Definition descr_text (t : dtype) : option (list byte) :=
  match t with
  | DAtomic c sg o n =>
      kind ← match c with
             | H5T_INTEGER | H5T_ENUM =>
                 match sg with H5T_SGN_NONE => Some "u"%byte | H5T_SGN_2 => Some "i"%byte | _ => None end
             | H5T_FLOAT => Some "f"%byte
             | _ => None
             end;
      endian ← match o with H5T_ORDER_LE => Some "<"%byte | H5T_ORDER_BE => Some ">"%byte | _ => None end;
      Some (endian :: kind :: fmt_d (s32 n))
  | DString false n _ => Some ("S"%byte :: fmt_d (s32 n))
  | _ => None
  end.

Fixpoint sequence {A} (l : list (option A)) : option (list A) :=
  match l with [] => Some [] | o :: l => a ← o; l ← sequence l; Some (a :: l) end.

(** The object that describes a type, for a field with the given name. *)
Fixpoint numpy_obj (t : dtype) (name : option (list byte)) : option obj :=
  match t with
  | DString true _ _ => Some (OStr (lit "str"))
  | DAtomic _ _ _ _ | DString false _ _ =>
      text ← descr_text t;
      let d := OStr (snprintf descr_len text) in
      Some match name with Some f => OArray [OStr f; d] | None => d end
  | DArray e dims =>
      o ← numpy_obj e name;
      let shape := OArray (OInt <$> dims) in
      Some match name with Some f => OArray [OStr f; o; shape] | None => OArray [o; shape] end
  | DCompound fs _ => OArray <$> sequence (map (λ f, numpy_obj f.2 (Some f.1)) fs)
  | DVlen e => numpy_obj e None
  end.

Definition numpy_kind (t : dtype) : option (list byte) :=
  match class_of t with
  | H5T_INTEGER | H5T_ENUM | H5T_FLOAT | H5T_STRING => Some []
  | H5T_ARRAY | H5T_COMPOUND | H5T_VLEN => Some (lit "V")
  | _ => None
  end.

(** 1: variable-length data inside, 0: none, -1: a class that is not supported
    comes first. *)
Fixpoint vlen_kind (t : dtype) : Z :=
  match t with
  | DAtomic c _ _ _ => match c with H5T_INTEGER | H5T_ENUM | H5T_FLOAT => 0 | _ => -1 end
  | DString v _ _ => if v then 1 else 0
  | DArray e _ => vlen_kind e
  | DCompound fs _ => foldr (λ f r, if (vlen_kind f.2 =? 0)%Z then r else vlen_kind f.2) 0%Z fs
  | DVlen _ => 1
  end.

Lemma vlen_kind_spec t : (0 ≤ vlen_kind t)%Z → vlen_kind t = if has_vlen t then 1%Z else 0%Z.
Proof.
  induction t as [c sg o n|v n p|e d IH|fs n IH|e IH] using dtype_induction; simpl; auto.
  - destruct c; simpl; lia.
  - induction IH as [|f fs Hf Hfs IH]; simpl; [done|].
    destruct (Z.eqb_spec (vlen_kind f.2) 0) as [E|E]; intros H.
    + rewrite IH by done. rewrite E in Hf. destruct (has_vlen f.2); [|done].
      specialize (Hf ltac:(lia)). lia.
    + rewrite Hf in E |- * by done. by destruct (has_vlen f.2).
Qed.

Section proof.
Context `{HS : H5Space, HL : !H5Lib, HM : Msgpack, HP : Packer}.
Context `{HSL : !H5SpaceLaws, HLL : !H5LibLaws, HML : !MsgpackLaws, HPL : !PackerLaws}.
Implicit Types s : pstore.

(** The type in memory: the native form of atomic types, structs packed (or
    not, if the library fails to pack them). *)
Inductive mem_type_of : dtype → dtype → Prop :=
  | mt_atomic c sg o n : c = H5T_INTEGER ∨ c = H5T_ENUM ∨ c = H5T_FLOAT →
      mem_type_of (DAtomic c sg o n) (native (DAtomic c sg o n))
  | mt_string v n pad : mem_type_of (DString v n pad) (DString v n H5T_STR_NULLPAD)
  | mt_array e e' dims : mem_type_of e e' → mem_type_of (DArray e dims) (DArray e' dims)
  | mt_packed fs n : mem_type_of (DCompound fs n) (packed (DCompound fs n))
  | mt_unpacked fs n : mem_type_of (DCompound fs n) (DCompound fs n)
  | mt_vlen e e' : mem_type_of e e' → mem_type_of (DVlen e) (DVlen e').

Lemma mem_type_depth t t' : mem_type_of t t' → type_depth t' = type_depth t.
Proof. induction 1; simpl; auto using native_depth, packed_depth. Qed.

Definition depth_below (o : option dtype) (fuel : nat) : Prop :=
  match o with Some t => type_depth t < fuel | None => 0 < fuel end.

Lemma wp_close_type id (Q : () → pstore → Prop) s :
  (∀ s', view s' = with_types (delete id (v_types (view s))) (view s) → p_pk s' = p_pk s → Q () s') →
  wp (ignore (lib_call (H5Tclose id))) Q s.
Proof. intros HQ. apply wp_ignore, wp_H5Tclose. auto. Qed.

(** ** Calls that return a datatype, then close what they opened *)

(** The identifier returned by a call denotes the value it was created for. *)
Lemma creates_get {A} r (o : option A) m m' :
  creates r o m m' → (∀ id, (id < 0)%Z → m !! id = None) →
  m' !! r = None ∧ (r < 0)%Z ∨ m' !! r = o ∧ o ≠ None ∧ (0 ≤ r)%Z.
Proof.
  intros [[? ->]|(a & -> & ? & ? & ->)] Hneg; [left; auto|right].
  by rewrite lookup_insert_eq.
Qed.

Lemma creates_mono {A} r (o : option A) m m' i a : creates r o m m' → m !! i = Some a → m' !! i = Some a.
Proof.
  intros [[? ->]|(? & _ & _ & Hr & ->)] Hi; [done|]. rewrite lookup_insert_ne; [done|]. congruence.
Qed.

(** Created with [r1], used to create [r2] with [r1] closed: only [r2] is left. *)
Lemma creates_swap {A} r1 r2 (o1 o2 : option A) m m1 m2 :
  creates r1 o1 m m1 → creates r2 o2 m1 m2 → (∀ id, (id < 0)%Z → m !! id = None) →
  creates r2 o2 m (delete r1 m2).
Proof.
  intros H1 [[? ->]|(a2 & -> & ? & Hf2 & ->)] Hneg.
  - left. split; [done|]. by eapply creates_closed.
  - right. exists a2. split; [done|]. split; [done|].
    destruct H1 as [[? ->]|(a1 & -> & ? & Hf1 & ->)].
    + split; [done|]. rewrite delete_insert_ne by lia. by rewrite delete_id by auto.
    + apply lookup_insert_None in Hf2 as [Hf2 Hne]. split; [done|].
      rewrite delete_insert_ne by done. by rewrite delete_insert_id.
Qed.

Lemma lookup_creates_ne {A} r (o : option A) m m' i :
  creates r o m m' → i ≠ r ∨ (r < 0)%Z → m' !! i = m !! i.
Proof.
  intros [[? ->]|(? & _ & ? & Hr & ->)] Hi; [done|]. apply lookup_insert_ne. destruct Hi; [done|lia].
Qed.

Lemma wp_native_type id t (Q : Z → pstore → Prop) s :
  v_types (view s) !! id = Some t →
  class_of t = H5T_INTEGER ∨ class_of t = H5T_ENUM ∨ class_of t = H5T_FLOAT ∨ class_of t = H5T_STRING →
  (∀ r s' m t', mem_type_of t t' → creates r (Some t') (v_types (view s)) m →
     view s' = with_types m (view s) → p_pk s' = p_pk s → Q r s') →
  wp (native_type id) Q s.
Proof.
  intros Hid Hc HQ. unfold native_type. wp_step.
  eapply wp_new_type; [apply native_type_law|]. rewrite <- view_types, Hid. simpl.
  intros r s1 m Hm Hv Hp. wp_step. apply wp_lib_get. wp_step.
  destruct (creates_get _ _ _ _ Hm (types_neg s)) as [[Hr Hneg]|(Hr & _ & Hpos)].
  - rewrite get_class_law, <- view_types, Hv. cbn [with_types v_types]. rewrite Hr. wp_steps.
    assert (m = v_types (view s)) as -> by (destruct Hm as [[_ ->]|(? & _ & ? & _)]; [done|lia]).
    destruct t as [c sg o n|v n p|e d|fs n|e]; simpl in Hc; try naive_solver.
    + eapply HQ; [apply mt_atomic; destruct c; naive_solver|by left|done|done].
    + eapply HQ; [apply mt_string|by left|done|done].
  - rewrite get_class_law, <- view_types, Hv. cbn [with_types v_types]. rewrite Hr.
    rewrite (proj1 (native_law t)).
    destruct t as [c sg o n|v n p|e d|fs n|e]; simpl in Hc; try naive_solver.
    + replace (class_of (DAtomic c sg o n)) with c by (simpl; destruct c; naive_solver).
      assert (c = H5T_INTEGER ∨ c = H5T_ENUM ∨ c = H5T_FLOAT) as Hc' by (destruct c; naive_solver).
      destruct Hc' as [Hc'|[Hc'|Hc']]; rewrite Hc'; wp_steps; (eapply HQ; [apply mt_atomic; tauto|done..]).
    + simpl. destruct (native_string_law v n p) as [pad' Hn]. rewrite Hn in *.
      apply wp_ignore, wp_lib. intros r' l Hl. pose proof (strpad_law r H5T_STR_NULLPAD (p_h5 s1)) as Hlaw.
      rewrite Hl in Hlaw. destruct Hlaw as [Hs Ht].
      assert (t_types (tables (p_h5 s1)) = m) as Hm1 by (rewrite <- view_types, Hv; done).
      rewrite Hm1, Hr in Ht. wp_steps.
      destruct Hm as [[? _]|(a & Ha & _ & Hf & ->)]; [lia|]. injection Ha as <-.
      eapply HQ; [apply mt_string|right; eexists; split; [done|]; split; [done|]; split; [done|reflexivity]| |done].
      unfold view in *. simpl. rewrite Ht, Hs. unfold with_types in *. simpl in *.
      injection Hv as Hv1 Hv2 Hv3 Hv4 Hv5 Hv6. rewrite insert_insert_eq. f_equal; congruence.
Qed.

(** What a call promises that returns a datatype made from the type [o]. *)
Definition type_result (o : option dtype) (R : dtype → dtype → Prop) (s : pstore) (r : Z) (s' : pstore) : Prop :=
  ∃ m o', creates r o' (v_types (view s)) m ∧
    (∀ t', o' = Some t' → ∃ t, o = Some t ∧ R t t') ∧
    view s' = with_types m (view s) ∧ p_pk s' = p_pk s.

(** The branches for arrays and variable-length types: the element type is
    converted and the type rebuilt around it. *)
Lemma wp_rebuild id (convert : Z → M pstore Z) (mk : Z → h5 → Z * h5) (F : dtype → dtype) R
    (Q : Z → pstore → Prop) s :
  (∀ p l, let '(r, l') := mk p l in
     new_type tables spaces r (F <$> t_types (tables l) !! p) l l') →
  (∀ e s1 (Q' : Z → pstore → Prop),
     (v_types (view s1) !! e = v_types (view s) !! id ≫= super ∨ v_types (view s1) !! e = None) →
     (∀ r s2, type_result (v_types (view s1) !! e) R s1 r s2 → Q' r s2) → wp (convert e) Q' s1) →
  (∀ r s', type_result (v_types (view s) !! id ≫= super) (λ t t', ∃ t1, t' = F t1 ∧ R t t1) s r s' → Q r s') →
  wp (let! e := lib_call (H5Tget_super id) in
      let! p := convert e in
      do! ignore (lib_call (H5Tclose e)) in
      let! out := lib_call (mk p) in
      do! ignore (lib_call (H5Tclose p)) in
      ret out) Q s.
Proof.
  intros Hmk Hconv HQ. wp_step. eapply wp_new_type; [apply get_super_law|]. rewrite <- view_types.
  intros e s1 m1 Hc1 Hv1 Hp1. wp_step.
  assert (v_types (view s1) = m1) as Ht1 by (by rewrite Hv1).
  pose proof (creates_get _ _ _ _ Hc1 (types_neg s)) as He.
  apply Hconv; [rewrite Ht1; naive_solver|].
  intros p s2 (m2 & o' & Hc2 & Ho' & Hv2 & Hp2). rewrite Ht1 in Hc2, Ho'.
  wp_step. apply wp_close_type. intros s3 Hv3 Hp3.
  assert (v_types (view s3) = delete e m2) as Ht3 by (by rewrite Hv3, Hv2).
  pose proof (creates_swap _ _ _ _ _ _ _ Hc1 Hc2 (types_neg s)) as Hc3.
  pose proof (creates_get _ _ _ _ Hc3 (types_neg s)) as Hp.
  wp_step. eapply wp_new_type; [apply Hmk|]. rewrite <- view_types, Ht3.
  intros out s4 m4 Hc4 Hv4 Hp4. wp_step. apply wp_close_type. intros s5 Hv5 Hp5. wp_step.
  apply HQ. eexists _, _.
  split; [exact (creates_swap _ _ _ _ _ _ _ Hc3 Hc4 (types_neg s))|].
  split; [|split; [by rewrite Hv5, Hv4, Hv3, Hv2, Hv1|congruence]].
  intros t' Ht'. destruct Hp as [[Hn _]|[Hn _]]; rewrite Hn in Ht'; [done|].
  apply fmap_Some in Ht' as (t1 & -> & ->). destruct (Ho' t1 eq_refl) as (t & Hte & HR).
  exists t. split; [|eauto]. destruct He as [[? _]|[? _]]; congruence.
Qed.

Lemma super_below o fuel : depth_below o (S fuel) → (∃ t e, o = Some t ∧ super t = Some e) →
  depth_below (o ≫= super) fuel.
Proof. intros Hd (t & e & -> & He). destruct t; simplify_eq/=; lia. Qed.

Lemma wp_make_packed fuel id (Q : Z → pstore → Prop) s :
  depth_below (v_types (view s) !! id) fuel →
  (∀ r s', type_result (v_types (view s) !! id) mem_type_of s r s' → Q r s') →
  wp (make_packed_native_type fuel id) Q s.
Proof.
  revert id Q s. induction fuel as [|fuel IH]; intros id Q s Hd HQ; [destruct (_ !! _); simpl in Hd; lia|].
  assert (HQfail : (∀ t t', v_types (view s) !! id = Some t → ¬ mem_type_of t t') → Q (-1)%Z s).
  { intros _. apply HQ. exists (v_types (view s)), None. split; [by left|]. rewrite with_types_id. naive_solver. }
  cbn [make_packed_native_type]. case_match eqn:Eid.
  { wp_step. apply HQfail. intros t t' Ht. rewrite types_neg in Ht by (unfold H5I_INVALID_HID in *; lia). done. }
  wp_step. apply wp_lib_get. rewrite get_class_law, <- view_types.
  destruct (v_types (view s) !! id) as [t|] eqn:Hid; last first.
  { wp_step. apply HQfail. naive_solver. }
  pose proof (types_ok _ _ _ Hid) as Htok.
  destruct t as [c sg o n|v n p|e d|fs n|e].
  - destruct c; simpl; try (wp_step; apply HQfail; intros t t' [= <-]; inversion 1; naive_solver).
    all: eapply wp_native_type; [done|simpl; tauto|]; intros; apply HQ; eexists _, _; split; [done|]; naive_solver.
  - simpl. eapply wp_native_type; [done|simpl; tauto|]; intros; apply HQ; eexists _, _; split; [done|]; naive_solver.
  - simpl. destruct Htok as (Hlen & _ & _). rewrite view_types in Hid.
    pose proof (array_ndims_law _ _ _ _ Hid) as (Hr & Hdims). rewrite <- view_types in Hid.
    do 2 (wp_step; apply wp_lib_get). wp_step. unfold array_of. rewrite Hdims, Hr.
    unfold HDFSTREAM_MAX_DIMS. replace (len d <=? 32)%Z with true by lia. wp_step.
    eapply (wp_rebuild id _ (λ p, H5Tarray_create p _) (λ t, DArray t d)).
    + intros p l. unfold len. rewrite Nat2Z.id, firstn_all. apply array_create_law.
    + intros e' s1 Q' He HQ'. apply IH; [|exact HQ'].
      rewrite Hid in He. simpl in *. destruct He as [-> | ->]; simpl in *; lia.
    + intros r s' (m & o' & Hc & Ho' & ? & ?). apply HQ. exists m, o'. split; [done|]. split; [|done].
      intros t' Ht'. destruct (Ho' t' Ht') as (t & Ht & t1 & -> & HR). rewrite Hid in Ht. simplify_eq/=.
      eexists. split; [done|]. by constructor.
  - simpl. wp_step. eapply wp_new_type; [apply copy_law|]. rewrite <- view_types, Hid.
    intros r s1 m Hc Hv Hp. wp_step. apply wp_ignore, wp_lib. intros r' l Hl.
    pose proof (pack_law r (p_h5 s1)) as Hlaw. rewrite Hl in Hlaw. destruct Hlaw as [Hs Ht].
    assert (t_types (tables (p_h5 s1)) = m) as Ht1 by (by rewrite <- view_types, Hv).
    wp_steps. rewrite Ht1 in Ht. destruct Ht as [[_ Ht]|(_ & t & Hrt & Ht)]; apply HQ.
    + exists m, (Some (DCompound fs n)). split; [done|]. split; [|split; [|done]].
      { intros t' [= <-]. eexists. split; [done|]. constructor. }
      rewrite <- Hv. unfold view. simpl. by rewrite Ht, Hs.
    + destruct Hc as [[? ->]|(a & Ha & ? & Hf & ->)];
        [by rewrite types_neg in Hrt|]. injection Ha as <-. rewrite lookup_insert_eq in Hrt. injection Hrt as <-.
      eexists (<[r := packed (DCompound fs n)]> (v_types (view s))), (Some _). split; [right; naive_solver|].
      split; [intros t' [= <-]; eexists; split; [done|]; constructor|]. split; [|done].
      unfold view in *. simpl. rewrite Ht, Hs. unfold with_types in *. simpl in *.
      injection Hv as Hv1 Hv2 Hv3 Hv4 Hv5 Hv6. rewrite insert_insert_eq. f_equal; congruence.
  - simpl. eapply (wp_rebuild id _ H5Tvlen_create DVlen).
    + intros p l. apply vlen_create_law.
    + intros e' s1 Q' He HQ'. apply IH; [|exact HQ'].
      rewrite Hid in He. simpl in *. destruct He as [-> | ->]; simpl in *; lia.
    + intros r s' (m & o' & Hc & Ho' & ? & ?). apply HQ. exists m, o'. split; [done|]. split; [|done].
      intros t' Ht'. destruct (Ho' t' Ht') as (t & Ht & t1 & -> & HR). rewrite Hid in Ht. simplify_eq/=.
      eexists. split; [done|]. by constructor.
Qed.

(** ** Opening a type for a part of a function *)

Lemma opened_lookup r (o : option dtype) s m :
  creates r o (v_types (view s)) m → m !! r = o ∨ m !! r = None.
Proof. intros Hc. destruct (creates_get _ _ _ _ Hc (types_neg s)) as [[? _]|[? _]]; auto. Qed.

Lemma wp_close_opened e o m s s2 (Q : () → pstore → Prop) :
  creates e o (v_types (view s)) m → view s2 = with_types m (view s) →
  (∀ s3, view s3 = view s → p_pk s3 = p_pk s2 → Q () s3) →
  wp (ignore (lib_call (H5Tclose e))) Q s2.
Proof.
  intros Hc Hv HQ. apply wp_close_type. intros s3 Hv3 Hp. apply HQ; [|done].
  rewrite Hv3, Hv, with_types_twice, with_types_types, (creates_closed _ _ _ _ Hc (types_neg s)).
  apply with_types_id.
Qed.

Lemma field_below fs n fuel k f :
  depth_below (Some (DCompound fs n)) (S fuel) → fs !! k = Some f → type_depth f.2 < fuel.
Proof.
  simpl. intros Hd Hf.
  assert (foldr (λ f, Nat.max (type_depth f.2)) 0 fs ≤ pred fuel) as Hd' by lia.
  apply foldr_max_Forall in Hd'. rewrite Forall_lookup in Hd'. specialize (Hd' _ _ Hf). simpl in Hd'.
  destruct fuel; simpl in *; [|lia].
  destruct fs as [|g fs]; [done|]. simpl in Hd. lia.
Qed.

Lemma wp_close_opened_if e o m s s2 (Q : () → pstore → Prop) :
  creates e o (v_types (view s)) m → view s2 = with_types m (view s) →
  (∀ s3, view s3 = view s → p_pk s3 = p_pk s2 → Q () s3) →
  wp (close_if H5Tclose e) Q s2.
Proof.
  intros Hc Hv HQ. unfold close_if. apply wp_when; intros He.
  - wp_step. apply wp_H5Tclose. intros r s3 Hv3 Hp3. wp_step. apply HQ; [|done].
    rewrite Hv3, Hv, with_types_twice, with_types_types, (creates_closed _ _ _ _ Hc (types_neg s)).
    apply with_types_id.
  - apply HQ; [|done]. destruct Hc as [[_ ->]|(? & _ & ? & _)]; [by rewrite Hv, with_types_id|lia].
Qed.

Lemma wp_detect fuel id (Q : Z → pstore → Prop) s :
  depth_below (v_types (view s) !! id) fuel →
  (∀ r s', view s' = view s → p_pk s' = p_pk s →
     (r = -1)%Z ∨ (∃ t, v_types (view s) !! id = Some t ∧ r = vlen_kind t) → Q r s') →
  wp (detect_vlen_types fuel id) Q s.
Proof.
  revert id Q s. induction fuel as [|fuel IH]; intros id Q s Hd HQ; [destruct (_ !! _); simpl in Hd; lia|].
  cbn [detect_vlen_types]. wp_step. apply wp_lib_get. rewrite get_class_law, <- view_types.
  destruct (v_types (view s) !! id) as [t|] eqn:Hid; last first.
  { wp_step. apply HQ; auto. }
  destruct t as [c sg o n|v n p|e d|fs n|e].
  - destruct c; simpl; wp_step; apply HQ; eauto.
  - simpl. wp_step. apply wp_lib_get. rewrite view_types in Hid.
    rewrite (is_variable_str_law _ _ _ _ _ Hid). wp_step. apply HQ; [done..|]. right. eexists. split; [done|].
    by destruct v.
  - simpl. wp_step. eapply wp_new_type; [apply get_super_law|]. rewrite <- view_types, Hid. simpl.
    intros e' s1 m Hc Hv Hp. wp_step. pose proof (opened_lookup _ _ _ _ Hc) as He.
    apply IH.
    { rewrite Hv. cbn [with_types v_types]. destruct He as [-> | ->]; simpl in *; lia. }
    intros r s2 Hv2 Hp2 Hr. wp_step. rewrite Hv in Hr, Hv2. cbn [with_types v_types] in Hr.
    eapply wp_close_opened; [exact Hc|done|]. intros s3 Hv3 Hp3. wp_step. apply HQ; [done|congruence|].
    destruct Hr as [->|(t & Ht & ->)]; [auto|right]. destruct He as [He|He]; rewrite He in Ht; simplify_eq/=. eauto.
  - simpl. wp_step. apply wp_lib_get. rewrite view_types in Hid.
    rewrite (nmembers_law _ _ _ _ Hid). rewrite <- view_types in Hid.
    pose proof (len_nonneg fs). replace (len fs <? 0)%Z with false by lia. rewrite to_nat_len.
    eapply (wp_for_checked
      (λ j s', view s' = view s ∧ p_pk s' = p_pk s ∧
         vlen_kind (DCompound fs n) = vlen_kind (DCompound (drop (Z.to_nat j) fs) n))
      (λ r s', view s' = view s ∧ p_pk s' = p_pk s ∧ (r = -1 ∨ r = vlen_kind (DCompound fs n))%Z)).
    + intros j s1 Hj (Hv1 & Hp1 & Hk).
      destruct (lookup_lt_is_Some_2 fs (Z.to_nat j)) as [f Hf]; [lia|].
      pose proof (field_below _ _ _ _ _ Hd Hf) as Hdf. rewrite (drop_S _ _ _ Hf) in Hk. simpl in Hk.
      wp_step. eapply wp_new_type; [apply member_type_law; lia|].
      rewrite <- view_types, Hv1, Hid. simpl. rewrite Hf. simpl. intros e' s2 m Hc Hv2 Hp2. wp_step.
      pose proof (opened_lookup _ _ _ _ Hc) as He. apply IH.
      { rewrite Hv2, with_types_types. destruct He as [-> | ->]; simpl in *; lia. }
      intros r s3 Hv3 Hp3 Hr. wp_step. rewrite Hv2 in Hr, Hv3. rewrite with_types_types in Hr.
      eapply wp_close_opened; [exact Hc|done|]. intros s4 Hv4 Hp4. wp_step.
      assert (r = (-1)%Z ∨ r = vlen_kind f.2) as Hr'.
      { destruct Hr as [->|(t & Ht & ->)]; [auto|right]. destruct He as [He|He]; rewrite He in Ht; by simplify_eq/=. }
      replace (Z.to_nat (j + 1)) with (S (Z.to_nat j)) by lia.
      destruct (Z.eqb_spec r 0) as [->|Hr0]; (split; [congruence|]); (split; [congruence|]).
      * destruct Hr' as [?|Hr']; [done|]. by rewrite Hk, <- Hr'.
      * destruct Hr' as [->|Hr']; [auto|right]. rewrite Hk, <- Hr'. by destruct (Z.eqb_spec r 0).
    + by rewrite drop_0.
    + intros s' (? & ? & Hk). rewrite drop_ge in Hk by lia. apply HQ; [done..|]. right. by eexists.
    + intros r s' _ (? & ? & [->|Hr]); apply HQ; eauto.
  - simpl. wp_step. apply HQ; eauto.
Qed.

(** A known type: 1 for variable-length data inside, 0 for none, or a failure. *)
Lemma wp_detect_known fuel id t (Q : Z → pstore → Prop) s :
  v_types (view s) !! id = Some t → type_depth t < fuel →
  (∀ r s', view s' = view s → p_pk s' = p_pk s → (r < 0)%Z ∨ r = (if has_vlen t then 1 else 0)%Z → Q r s') →
  wp (detect_vlen_types fuel id) Q s.
Proof.
  intros Ht Hd HQ. apply wp_detect; [by rewrite Ht|]. intros r s' Hv Hp Hr. apply HQ; [done|done|].
  destruct (Z.lt_ge_cases r 0); [by left|right]. destruct Hr as [->|(t' & Ht' & ->)]; [lia|].
  assert (t' = t) as -> by congruence. by apply vlen_kind_spec.
Qed.

(** [get] returns the type of an object or attribute in the file; its type in
    memory is made from it. *)
Lemma wp_file_and_mem_type {A} fuel get o (k : Z → Z → M pstore A) (Q : A → pstore → Prop) s :
  (let '(r, l) := get (p_h5 s) in new_type tables spaces r o (p_h5 s) l) → depth_below o fuel →
  (∀ ft mt s' T, view s' = with_types T (view s) → p_pk s' = p_pk s →
     (∃ o1 o2 m, creates ft o1 (v_types (view s)) m ∧ creates mt o2 m T) →
     ((0 ≤ mt)%Z → ∃ t0 t, o = Some t0 ∧ mem_type_of t0 t ∧ T !! mt = Some t ∧ type_depth t < fuel ∧ type_ok t) →
     wp (k ft mt) Q s') →
  wp (let! ft := lib_call get in let! mt := make_packed_native_type fuel ft in k ft mt) Q s.
Proof.
  intros Hget Hdep HQ. wp_step. eapply wp_new_type; [exact Hget|]. intros ft s1 m1 Hc1 Hv1 Hp1.
  pose proof (creates_get _ _ _ _ Hc1 (types_neg s)) as Hft.
  wp_step. apply wp_make_packed.
  { rewrite Hv1. simpl. destruct Hft as [[-> _]|[-> _]]; [|done]. destruct o; simpl in *; lia. }
  intros mt s2 (T & o' & Hc2 & Ho' & Hv2 & Hp2). rewrite Hv1 in Hc2, Ho'. simpl in Hc2, Ho'.
  apply (HQ ft mt s2 T); [by rewrite Hv2, Hv1|congruence|by eauto 8|]. intros Hmt.
  destruct Hc2 as [[? _]|(t & -> & _ & _ & HT)]; [lia|]. destruct (Ho' t eq_refl) as (t0 & Ht0 & Hmt0).
  assert (o = Some t0) as -> by (destruct Hft as [[Hft _]|[Hft _]]; rewrite Hft in Ht0; congruence).
  assert (T !! mt = Some t) as HTt by (rewrite HT; apply lookup_insert_eq).
  exists t0, t. split; [done|]. split; [done|]. split; [done|]. split; [by rewrite (mem_type_depth _ _ Hmt0)|].
  apply (types_ok mt (p_h5 s2)). rewrite <- view_types, Hv2. done.
Qed.

(** ** The descriptor *)

Lemma wp_numpy_type_info id t size (Q : Z * list byte → pstore → Prop) s :
  v_types (view s) !! id = Some t →
  match descr_text t with
  | Some text => Q (0%Z, snprintf size text) s
  | None => Q ((-1)%Z, []) s
  end →
  class_of t = H5T_INTEGER ∨ class_of t = H5T_ENUM ∨ class_of t = H5T_FLOAT ∨ class_of t = H5T_STRING →
  has_vlen t = false →
  wp (numpy_type_info id size) Q s.
Proof.
  intros Hid HQ Hc Hv. unfold numpy_type_info. wp_step. apply wp_lib_get. wp_step.
  rewrite get_class_law, <- view_types, Hid.
  rewrite view_types in Hid.
  destruct t as [c sg o n|v n p|e d|fs n|e]; simpl in Hc; try naive_solver.
  - destruct c; try naive_solver; clear Hc; destruct sg, o; simpl in HQ |- *;
      repeat first [ wp_step | apply wp_lib_get | rewrite (get_sign_law _ _ _ _ _ _ Hid)
                   | rewrite (get_order_law _ _ _ _ _ _ Hid) | rewrite (get_size_law _ _ _ Hid) ];
      exact HQ.
  - simpl in Hv. subst v. simpl.
    repeat first [ wp_step | apply wp_lib_get | rewrite (is_variable_str_law _ _ _ _ _ Hid)
                 | rewrite (get_size_law _ _ _ Hid) | progress simpl ].
    exact HQ.
Qed.

Lemma wp_put_string bs (Q : () → pstore → Prop) s :
  is_u64 (len bs) →
  (∀ s', view s' = view s → emits (encode_str bs) s s' → Q () s') → wp (put_string bs) Q s.
Proof.
  intros Hl HQ. unfold put_string, msgpack_pack_str. rewrite u64_small by done.
  wp_step. apply wp_ignore, wp_msgpack_pack. intros r s1 Hv1 He1 _.
  apply wp_ignore, wp_pk_write. intros r2 s2 Hv2 He2 _.
  apply HQ; [congruence|]. by eapply emits_trans.
Qed.

Lemma wp_put_header h (Q : () → pstore → Prop) s :
  (∀ s', view s' = view s → emits (header_bytes h) s s' → Q () s') → wp (ignore (msgpack_pack h)) Q s.
Proof. intros HQ. apply wp_ignore, wp_msgpack_pack. intros. by apply HQ. Qed.

(** The dimensions of an array type. *)
Lemma wp_put_dims dims (Q : () → pstore → Prop) s :
  Forall (λ d, 0 ≤ d < 2 ^ 63)%Z dims →
  (∀ s', view s' = view s → emits (concat (map encode (OInt <$> dims))) s s' → Q () s') →
  wp (forM (length dims) 0 (λ i,
        let! d := lift (arr_get dims i) in ignore (msgpack_pack_long_long d))) Q s.
Proof.
  intros Hd HQ.
  eapply (wp_forM (λ i s', view s' = view s ∧
    emits (concat (map encode (OInt <$> take (Z.to_nat i) dims))) s s')).
  - intros i s1 Hi [Hv He].
    destruct (lookup_lt_is_Some_2 dims (Z.to_nat i)) as [d Hdi]; [lia|].
    rewrite Forall_lookup in Hd. specialize (Hd _ _ Hdi). simpl in Hd.
    wp_step. eapply wp_lift; [rewrite arr_get_nth by lia; exact Hdi|].
    apply wp_put_header. intros s2 Hv2 He2. split; [congruence|].
    replace (Z.to_nat (i + 1)) with (S (Z.to_nat i)) by lia.
    rewrite (take_S_r _ _ _ Hdi), fmap_app. rewrite map_app, concat_app.
    eapply emits_cast; [emits_chain|]. f_equal. simpl. rewrite app_nil_r.
    unfold s64. by rewrite Z.mod_small, Z.add_simpl_r by lia.
  - split; [done|]. apply emits_refl.
  - intros s' [Hv He]. apply HQ; [done|]. by rewrite Z.add_0_l, Nat2Z.id, firstn_all in He.
Qed.

Definition name_ok (name : option (list byte)) : Prop :=
  match name with Some f => (len f < 2 ^ 31)%Z | None => True end.

Lemma len_u64 {A} (l : list A) : (len l < 2 ^ 31)%Z → is_u64 (len l).
Proof. pose proof (len_nonneg l). unfold is_u64. lia. Qed.

Lemma len_snprintf n text : (0 < n)%Z → (len (snprintf n text) < n)%Z.
Proof. intros. unfold len, snprintf. rewrite length_take. lia. Qed.

Lemma sequence_snoc {A} (l : list (option A)) r o :
  sequence l = Some r → sequence (l ++ [Some o]) = Some (r ++ [o]).
Proof.
  revert r. induction l as [|x l IH]; intros r Hr; simpl in *; simplify_eq; [done|].
  destruct x as [a|]; [|done]. simpl in *. destruct (sequence l) as [r'|]; [|done]. simplify_eq/=.
  by rewrite (IH r').
Qed.

Lemma sequence_length {A} (l : list (option A)) r : sequence l = Some r → length r = length l.
Proof.
  revert r. induction l as [|x l IH]; intros r Hr; simpl in *; simplify_eq; [done|].
  destruct x as [a|]; [|done]. simpl in *. destruct (sequence l) as [r'|]; [|done]. simplify_eq/=. f_equal. auto.
Qed.

(** What [pack_numpy_type] promises; the results of the writes are not checked. *)
Definition numpy_result (o : option dtype) (name : option (list byte)) (s : pstore) (r : Z) (s' : pstore) : Prop :=
  view s' = view s ∧ (r = 0 ∨ r = -1)%Z ∧
  (r = 0%Z → ∃ t ob, o = Some t ∧ numpy_obj t name = Some ob ∧ emits (encode ob) s s').

Lemma numpy_fails' o name s s' : view s' = view s → numpy_result o name s (-1) s'.
Proof. split; [done|]. split; [by right|done]. Qed.
Lemma numpy_fails o name s : numpy_result o name s (-1) s.
Proof. by apply numpy_fails'. Qed.

(** Scalars. *)
Lemma wp_pack_scalar id t name (Q : Z → pstore → Prop) s :
  v_types (view s) !! id = Some t → name_ok name →
  class_of t = H5T_INTEGER ∨ class_of t = H5T_ENUM ∨ class_of t = H5T_FLOAT ∨ class_of t = H5T_STRING →
  has_vlen t = false →
  (∀ r s', numpy_result (Some t) name s r s' → Q r s') →
  wp (let! res := numpy_type_info id descr_len in
      if (res.1 =? 0)%Z then
        match name with
        | Some name =>
            do! ignore (msgpack_pack_array 2) in
            do! put_string name in
            do! put_string res.2 in
            ret 0%Z
        | None => do! put_string res.2 in ret 0%Z
        end
      else ret (-1)%Z) Q s.
Proof.
  intros Hid Hn Hc Hv HQ. wp_step. eapply wp_numpy_type_info; [done| |done|done].
  destruct (descr_text t) as [text|] eqn:Et; simpl; [|wp_step; apply HQ, numpy_fails].
  assert (Hlen : is_u64 (len (snprintf descr_len text))).
  { apply len_u64. pose proof (len_snprintf descr_len text). unfold descr_len in *. lia. }
  assert (Hob : numpy_obj t name = Some match name with
      | Some f => OArray [OStr f; OStr (snprintf descr_len text)] | None => OStr (snprintf descr_len text) end).
  { destruct t as [c sg o n|[] n p|e d|fs n|e]; simpl in Hc, Hv; try naive_solver; simpl in Et |- *; by rewrite Et. }
  destruct name as [f|].
  - wp_step. apply wp_put_header. intros s1 Hv1 He1.
    wp_step. apply wp_put_string; [by apply len_u64|]. intros s2 Hv2 He2.
    wp_step. apply wp_put_string; [done|]. intros s3 Hv3 He3. wp_step.
    apply HQ. split; [congruence|]. split; [by left|]. intros _. eexists _, _. split; [done|]. split; [exact Hob|].
    emits_done.
  - wp_step. apply wp_put_string; [done|]. intros s1 Hv1 He1. wp_step.
    apply HQ. split; [congruence|]. split; [by left|]. intros _. eexists _, _. split; [done|]. by split; [exact Hob|].
Qed.

(** ** The parts of a type

    [pack] stands for the recursive call. *)
Section parts.
Context (fuel : nat) (pack : Z → option (list byte) → M pstore Z).
Context (pack_ok : ∀ id name (Q : Z → pstore → Prop) s,
  depth_below (v_types (view s) !! id) fuel → name_ok name →
  (∀ r s', numpy_result (v_types (view s) !! id) name s r s' → Q r s') → wp (pack id name) Q s).

(** A type that was opened since [s0] is described and closed again. *)
Lemma wp_pack_part {A} e' e name m s0 (k : Z → M pstore A) (Q : A → pstore → Prop) s :
  creates e' (Some e) (v_types (view s0)) m → view s = with_types m (view s0) →
  type_depth e < fuel → name_ok name →
  (∀ r s', view s' = view s0 → (r = 0 ∨ r = -1)%Z →
     (r = 0%Z → ∃ ob, numpy_obj e name = Some ob ∧ emits (encode ob) s s') → wp (k r) Q s') →
  wp (let! res := pack e' name in do! ignore (lib_call (H5Tclose e')) in k res) Q s.
Proof.
  intros Hc Hv Hd Hn HQ. pose proof (opened_lookup _ _ _ _ Hc) as He. wp_step.
  apply pack_ok; [rewrite Hv, with_types_types; destruct He as [-> | ->]; simpl; lia|done|].
  intros r s3 (Hv3 & Hr & Ho). wp_step. rewrite Hv, with_types_types in Ho. rewrite Hv in Hv3.
  eapply wp_close_opened; [exact Hc|done|]. intros s4 Hv4 Hp4. apply HQ; [done|done|]. intros H0.
  destruct (Ho H0) as (t & ob & Ht & Hob & He3).
  assert (t = e) as -> by (destruct He as [He|He]; rewrite He in Ht; by simplify_eq/=).
  exists ob. split; [done|]. by eapply emits_pk.
Qed.

Lemma wp_array_start (name : option (list byte)) (Q : () → pstore → Prop) s :
  name_ok name →
  (∀ s1, view s1 = view s →
     emits (header_bytes (HArray (if name then 3 else 2)) ++ from_option encode_str [] name) s s1 → Q () s1) →
  wp match name with
     | Some name => do! ignore (msgpack_pack_array 3) in put_string name
     | None => ignore (msgpack_pack_array 2) end Q s.
Proof.
  intros Hn HQ. destruct name as [f|].
  - wp_step. apply wp_put_header. intros s1 Hv1 He1. apply wp_put_string; [by apply len_u64|].
    intros s2 Hv2 He2. apply HQ; [congruence|]. emits_done.
  - apply wp_put_header. intros s1 Hv1 He1. apply HQ; [done|]. emits_done.
Qed.

(** The shape of an array type. *)
Lemma wp_array_shape id e d (Q : Z → pstore → Prop) s :
  v_types (view s) !! id = Some (DArray e d) → (len d ≤ HDFSTREAM_MAX_DIMS)%Z →
  Forall (λ d, 0 ≤ d < 2 ^ 63)%Z d →
  (∀ s', view s' = view s → emits (encode (OArray (OInt <$> d))) s s' → Q 0%Z s') →
  wp (let! rank := lib_get (H5Tget_array_ndims id) in
      let! written := lib_get (H5Tget_array_dims id) in
      let! dims := array_of HDFSTREAM_MAX_DIMS written in
      do! ignore (msgpack_pack_array rank) in
      do! forM (Z.to_nat rank) 0 (λ i,
            let! d := lift (arr_get dims i) in ignore (msgpack_pack_long_long d)) in
      ret 0%Z) Q s.
Proof.
  intros Hid Hlen Hdims HQ. rewrite view_types in Hid. pose proof (array_ndims_law _ _ _ _ Hid) as (Hrk & Hdm).
  do 2 (wp_step; apply wp_lib_get). wp_step. unfold array_of. rewrite Hdm, Hrk.
  unfold HDFSTREAM_MAX_DIMS in *. replace (len d <=? 32)%Z with true by lia. wp_step.
  wp_step. apply wp_put_header. intros s5 Hv5 He5. wp_step. rewrite to_nat_len.
  apply wp_put_dims; [done|]. intros s6 Hv6 He6. wp_step. apply HQ; [congruence|].
  rewrite u64_small in He5 by (pose proof (len_nonneg d); unfold is_u64; lia).
  assert (Hl : len (OInt <$> d) = len d) by (unfold len; by rewrite length_fmap).
  simpl. rewrite Hl. emits_done.
Qed.

(** One field of a compound type. *)
Lemma wp_pack_field id fs n j f (Q : Z → pstore → Prop) s :
  v_types (view s) !! id = Some (DCompound fs n) → fs !! Z.to_nat j = Some f → (0 ≤ j)%Z →
  type_depth f.2 < fuel → (len f.1 < 2 ^ 31)%Z →
  (∀ r s', view s' = view s → (r = 0 ∨ r = -1)%Z →
     (r = 0%Z → ∃ ob, numpy_obj f.2 (Some f.1) = Some ob ∧ emits (encode ob) s s') → Q r s') →
  wp (let! field_type_id := lib_call (H5Tget_member_type id j) in
      let! sub_field_name := lib_get (H5Tget_member_name id j) in
      let! res := pack field_type_id sub_field_name in
      do! ignore (lib_call (H5Tclose field_type_id)) in
      ret res) Q s.
Proof.
  intros Hid Hf Hj Hd Hn HQ. wp_step. eapply wp_new_type; [apply member_type_law; lia|].
  rewrite <- view_types, Hid. simpl. rewrite Hf. simpl. intros e' s3 m Hc Hv3 Hp3. wp_step. apply wp_lib_get.
  assert (H5Tget_member_name id j (p_h5 s3) = Some f.1) as ->.
  { rewrite (member_name_law id j (p_h5 s3) (DCompound fs n)); [simpl; by rewrite Hf| |lia].
    rewrite <- view_types, Hv3, with_types_types. eapply creates_mono; [exact Hc|exact Hid]. }
  eapply wp_pack_part; [exact Hc|exact Hv3|done|done|]. intros r s' Hv Hr Ho. wp_step. apply HQ; [done|done|].
  intros H0. destruct (Ho H0) as (ob & ? & ?). exists ob. split; [done|]. by eapply emits_pk_l.
Qed.

(** All fields. *)
Lemma wp_pack_fields id fs n name (Q : Z → pstore → Prop) s :
  v_types (view s) !! id = Some (DCompound fs n) → type_depth (DCompound fs n) < S fuel → type_ok (DCompound fs n) →
  (∀ r s', numpy_result (Some (DCompound fs n)) name s r s' → Q r s') →
  wp (let! nr_fields := lib_get (H5Tget_nmembers id) in
      if (nr_fields <? 0)%Z then ret (-1)%Z else
      do! ignore (msgpack_pack_array nr_fields) in
      let! res := for_checked (Z.to_nat nr_fields) 0 (λ field_nr,
        let! field_type_id := lib_call (H5Tget_member_type id field_nr) in
        let! sub_field_name := lib_get (H5Tget_member_name id field_nr) in
        let! res := pack field_type_id sub_field_name in
        do! ignore (lib_call (H5Tclose field_type_id)) in
        ret res) in
      ret (if (res =? 0)%Z then 0 else -1)%Z) Q s.
Proof.
  intros Hid Hd (Hlen & _ & Hfs) HQ. apply foldr_and_Forall in Hfs. rewrite Forall_lookup in Hfs.
  wp_step. apply wp_lib_get. rewrite view_types in Hid. rewrite (nmembers_law _ _ _ _ Hid). rewrite <- view_types in Hid.
  pose proof (len_nonneg fs). replace (len fs <? 0)%Z with false by lia. rewrite to_nat_len.
  wp_step. apply wp_put_header. intros s1 Hv1 He1. wp_step. rewrite u64_small in He1 by (unfold is_u64; lia).
  eapply (wp_for_checked
    (λ j s', view s' = view s ∧ ∃ l, sequence (map (λ f, numpy_obj f.2 (Some f.1)) (take (Z.to_nat j) fs)) = Some l ∧
       emits (header_bytes (HArray (len fs)) ++ concat (map encode l)) s s')
    (λ r s', view s' = view s)).
  - intros j s2 Hj (Hv2 & l & Hl & He2).
    destruct (lookup_lt_is_Some_2 fs (Z.to_nat j)) as [f Hf]; [lia|].
    eapply wp_pack_field; [by rewrite Hv2|exact Hf|lia|by eapply field_below|apply (Hfs _ _ Hf)|].
    intros r s5 Hv5 Hr Ho. replace (Z.to_nat (j + 1)) with (S (Z.to_nat j)) by lia.
    destruct Hr as [->| ->]; simpl; [|congruence]. split; [congruence|].
    destruct (Ho eq_refl) as (ob & Hob & He4). exists (l ++ [ob]). split.
    { rewrite (take_S_r _ _ _ Hf), map_app. simpl. rewrite Hob. by apply sequence_snoc. }
    eapply emits_cast; [emits_chain|]. rewrite map_app, concat_app. simpl. by rewrite !app_nil_r, app_assoc.
  - split; [done|]. exists []. split; [done|]. emits_done.
  - intros s' (Hv' & l & Hl & He'). wp_step. apply HQ. split; [done|]. split; [by left|]. intros _.
    rewrite take_ge in Hl by lia. eexists _, _. split; [done|]. simpl. rewrite Hl. split; [done|].
    apply sequence_length in Hl. rewrite length_map in Hl. simpl. unfold len in *. by rewrite Hl.
  - intros r s' Hr Hv'. wp_step. replace (r =? 0)%Z with false by lia. apply HQ. by apply numpy_fails'.
Qed.
End parts.

Lemma wp_pack_numpy_type fuel id name (Q : Z → pstore → Prop) s :
  depth_below (v_types (view s) !! id) fuel → name_ok name →
  (∀ r s', numpy_result (v_types (view s) !! id) name s r s' → Q r s') →
  wp (pack_numpy_type fuel id name) Q s.
Proof.
  revert id name Q s. induction fuel as [|fuel IH]; intros id name Q s Hd Hn HQ;
    [destruct (_ !! _); simpl in Hd; lia|].
  cbn [pack_numpy_type]. wp_step. apply wp_lib_get. rewrite get_class_law, <- view_types.
  destruct (v_types (view s) !! id) as [t|] eqn:Hid; [|wp_step; apply HQ, numpy_fails].
  pose proof (types_ok _ _ _ Hid) as Htok. simpl in Hd.
  destruct t as [c sg o n|v n p|e d|fs n|e]; cbn [class_of].
  - destruct c; simpl; try (wp_step; apply HQ, numpy_fails).
    all: wp_step; apply wp_lib_get; eapply wp_pack_scalar; simpl; eauto.
  - wp_step. apply wp_lib_get. rewrite view_types in Hid.
    rewrite (is_variable_str_law _ _ _ _ _ Hid). rewrite <- view_types in Hid. destruct v; simpl.
    + wp_step. apply wp_put_string; [by vm_compute|]. intros s1 Hv1 He1. wp_step.
      apply HQ. split; [done|]. split; [by left|]. intros _. by eexists _, _.
    + eapply wp_pack_scalar; simpl; eauto.
  - destruct Htok as (Hlen & Hdims & _). wp_step. apply wp_array_start; [done|]. intros s1 Hv1 He1.
    wp_step. eapply wp_new_type; [apply get_super_law|]. rewrite <- view_types, Hv1, Hid. simpl.
    intros e' s2 m Hc Hv2 Hp2. eapply (wp_pack_part fuel _ IH); [exact Hc|exact Hv2|simpl in Hd; lia|done|].
    intros r s3 Hv3 [->| ->] Ho; simpl; [|wp_step; by apply HQ, numpy_fails'].
    destruct (Ho eq_refl) as (ob & Hob & He3). eapply wp_array_shape; [by rewrite Hv3|done|done|].
    intros s4 Hv4 He4. apply HQ. split; [congruence|]. split; [by left|]. intros _. eexists _, _. split; [done|].
    simpl. rewrite Hob. simpl. split; [done|]. destruct name; emits_done.
  - by eapply (wp_pack_fields fuel _ IH).
  - wp_step. eapply wp_new_type; [apply get_super_law|]. rewrite <- view_types, Hid. simpl.
    intros e' s2 m Hc Hv2 Hp2. eapply (wp_pack_part fuel _ IH); [exact Hc|exact Hv2|simpl in Hd; lia|done|].
    intros r s3 Hv3 Hr Ho. wp_step. apply HQ. split; [done|]. split; [done|]. intros Hr0.
    destruct (Ho Hr0) as (ob & Hob & He3). eexists _, _. split; [done|]. split; [exact Hob|].
    eapply emits_cast; [emits_chain|done].
Qed.

Lemma wp_pack_numpy_kind id (Q : Z → pstore → Prop) s :
  (∀ r s', view s' = view s →
     (r = 0%Z → ∃ t k, v_types (view s) !! id = Some t ∧ numpy_kind t = Some k ∧ emits (encode (OStr k)) s s') →
     Q r s') →
  wp (pack_numpy_kind id) Q s.
Proof.
  intros HQ. unfold pack_numpy_kind, numpy_kind in *. wp_step. apply wp_lib_get.
  rewrite get_class_law, <- view_types. destruct (v_types (view s) !! id) as [t|] eqn:Hid; [|by wp_step; apply HQ].
  destruct (class_of t) eqn:Ec; try (by wp_step; apply HQ).
  all: wp_step; apply wp_put_string; [by vm_compute|]; intros s1 Hv1 He1; wp_step; apply HQ; [done|]; intros _;
    eexists _, _; split; [done|]; by rewrite Ec.
Qed.

(** The functions that describe a type, for a known type. *)
Lemma wp_describe_type fuel mt t (Q : Z → pstore → Prop) s :
  v_types (view s) !! mt = Some t → type_depth t < fuel →
  (∀ r s', view s' = view s ∧ (r = 0%Z → ∃ ty, numpy_obj t None = Some ty ∧ emits (encode ty) s s') → Q r s') →
  wp (pack_numpy_type fuel mt None) Q s.
Proof.
  intros Ht Hd HQ. apply wp_pack_numpy_type; [by rewrite Ht|done|].
  intros r s' (Hv & _ & Ho). apply HQ. split; [done|]. intros Hr. destruct (Ho Hr) as (t' & ob & Ht' & ? & ?).
  assert (t' = t) as -> by congruence. eauto.
Qed.
Lemma wp_describe_kind mt t (Q : Z → pstore → Prop) s :
  v_types (view s) !! mt = Some t →
  (∀ r s', view s' = view s ∧ (r = 0%Z → ∃ k, numpy_kind t = Some k ∧ emits (encode (OStr k)) s s') → Q r s') →
  wp (pack_numpy_kind mt) Q s.
Proof.
  intros Ht HQ. apply wp_pack_numpy_kind. intros r s' Hv Ho. apply HQ. split; [done|]. intros Hr.
  destruct (Ho Hr) as (t' & k & Ht' & ? & ?). assert (t' = t) as -> by congruence. eauto.
Qed.

(** Rank and dimensions, in an array of HDFSTREAM_MAX_DIMS entries. *)
Lemma wp_space_extent {A} fs sp (fail : M pstore A) (k : Z → list Z → M pstore A) (Q : A → pstore → Prop) s :
  v_spaces (view s) !! fs = Some sp → (len (extent sp) ≤ HDFSTREAM_MAX_DIMS)%Z →
  wp fail Q s → wp (k (len (extent sp)) (extent sp)) Q s →
  wp (let! rank := lib_get (H5Sget_simple_extent_ndims fs) in
      if (HDFSTREAM_MAX_DIMS <? rank)%Z then fail else
      let! written := lib_get (H5Sget_simple_extent_dims fs) in
      if (written.1 <? 0)%Z then fail else
      let! dims := array_of HDFSTREAM_MAX_DIMS written.2 in k rank dims) Q s.
Proof.
  intros Hsp Hlen Hfail HQ. wp_step. apply wp_lib_get.
  rewrite (H5Sget_simple_extent_ndims_law _ _ _ Hsp). fold (len (extent sp)).
  replace (HDFSTREAM_MAX_DIMS <? len (extent sp))%Z with false by lia.
  eapply wp_space_dims; [exact Hsp|]. intros [er written] Her. simpl in Her |- *.
  destruct (er <? 0)%Z eqn:Eer; [done|]. destruct Her as [?|[_ ->]]; [lia|].
  wp_step. unfold array_of. replace (len (extent sp) <=? HDFSTREAM_MAX_DIMS)%Z with true by lia. by wp_step.
Qed.
End proof.
