(* ===== verification/PackContents.v ===== *)
(** * The contents of a dataset or attribute (src/src/hdf5/pack_contents.c)

    A header announces the data; the body follows in one or more calls.  Data
    of fixed size is one byte array, split into msgpack bins of at most
    [max_size] bytes independently of the calls; variable-length data is an
    array with an object for each element. *)
From Stdlib Require Import Strings.Byte Strings.String.
From stdpp Require Import base tactics numbers list gmap propset.
From S2P Require Import Prelude Bytes Msgpack Select H5 PackStore NumpyType.

(** The largest object of the msgpack format, [(1LL << 32)-1LL]. *)
Definition MSGPACK_MAX_SIZE : Z := 2 ^ 32 - 1.

(** [struct pack_contents_info]; the fields that no function uses are left out. *)
Record pack_contents_info := Pci {
  max_size : Z;
  pci_has_vlen : Z;
  nr_bins : Z;
  total_bytes_left : Z;
  bytes_left_in_bin : Z;
}.

Definition nr_bins_needed (max_size nr_bytes : Z) : option Z :=
  guard (0 < max_size)%Z;;
  let nr_bins := (u64 (nr_bytes + max_size - 1) / max_size)%Z in
  guard (nr_bytes ≤ u64 (nr_bins * max_size))%Z;;
  Some nr_bins.

(** A buffer seen as a [char *]. *)
Fixpoint raw_bytes (buffer : list elem) : option (list byte) :=
  match buffer with
  | [] => Some []
  | EBytes bs :: l => rest ← raw_bytes l; Some (bs ++ rest)
  | _ => None
  end.
(** [n] bytes from offset [off]. *)
Definition slice (off n : Z) (bs : list byte) : option (list byte) :=
  guard (0 ≤ off ∧ 0 ≤ n ∧ off + n ≤ len bs)%Z;;
  Some (take (Z.to_nat n) (drop (Z.to_nat off) bs)).

Section contents.
Context `{HS : H5Space, HL : !H5Lib, HM : Msgpack, HP : Packer}.
Context (type_fuel : nat).

(** The entry "shape": an array with one element per dimension. *)
Definition pack_shape (rank : Z) (dims : list Z) : M pstore Z :=
  check! pack_string (lit "shape") else ret (-1)%Z in
  check! msgpack_pack_array rank else ret (-1)%Z in
  for_checked (Z.to_nat rank) 0 (λ i,
    let! d := lift (arr_get dims i) in msgpack_pack_unsigned_long_long d).

(** What the header writes for data of variable length, up to the elements. *)
Definition vlen_header (rank : Z) (dims : list Z) (nr_elements : Z) : M pstore Z :=
  let cleanup := ret (-1)%Z in
  check! msgpack_pack_map 3 else cleanup in
  check! pack_string (lit "vlen") else cleanup in
  check! msgpack_pack_true else cleanup in
  check! pack_shape rank dims else cleanup in
  check! pack_string (lit "data") else cleanup in
  check! msgpack_pack_array nr_elements else cleanup in
  ret 0%Z.

(** What it writes for data of fixed size, up to the binary objects. *)
Definition nd_header (dtype_id rank : Z) (dims : list Z) (nr_bytes nr_bins : Z) : M pstore Z :=
  let cleanup := ret (-1)%Z in
  check! msgpack_pack_map 6 else cleanup in
  check! pack_string (lit "nd") else cleanup in
  check! msgpack_pack_true else cleanup in
  check! pack_string (lit "type") else cleanup in
  check! pack_numpy_type type_fuel dtype_id None else cleanup in
  check! pack_string (lit "kind") else cleanup in
  check! pack_numpy_kind dtype_id else cleanup in
  check! pack_shape rank dims else cleanup in
  check! pack_string (lit "nbytes") else cleanup in
  check! msgpack_pack_long_long nr_bytes else cleanup in
  check! pack_string (lit "data") else cleanup in
  check! msgpack_pack_array nr_bins else cleanup in
  ret 0%Z.

Definition pack_contents_header (pci0 : pack_contents_info) (max_size dtype_id rank : Z)
    (dims : list Z) (nr_bytes : Z) : M pstore (Z * pack_contents_info) :=
  let! has_vlen := detect_vlen_types type_fuel dtype_id in
  let pci := Pci max_size has_vlen (nr_bins pci0) (total_bytes_left pci0) (bytes_left_in_bin pci0) in
  let cleanup := ret ((-1)%Z, pci) in
  if (0 <? has_vlen)%Z then
    let! nr_elements := lift (for_range (Z.to_nat rank) 0
      (λ i n, d ← arr_get dims i; Some (u64 (n * d))) 1%Z) in
    if (max_size <? nr_elements)%Z then cleanup else
    check! vlen_header rank dims nr_elements else cleanup in
    ret (0%Z, pci)
  else if (has_vlen =? 0)%Z then
    let! nr_bins := lift (nr_bins_needed max_size nr_bytes) in
    let pci := Pci max_size has_vlen nr_bins (total_bytes_left pci0) (bytes_left_in_bin pci0) in
    check! nd_header dtype_id rank dims nr_bytes nr_bins else ret ((-1)%Z, pci) in
    ret (0%Z, Pci max_size has_vlen nr_bins nr_bytes 0)
  else ret ((-1)%Z, pci).

(** "Write a new msgpack_bin header if necessary". *)
Definition open_bin (pci : pack_contents_info) : M pstore (Z * pack_contents_info) :=
  if (bytes_left_in_bin pci =? 0)%Z then
    do! assertM (0 <? nr_bins pci)%Z in
    let bin_size := if (total_bytes_left pci <? max_size pci)%Z
                    then total_bytes_left pci else max_size pci in
    let pci := Pci (max_size pci) (pci_has_vlen pci) (nr_bins pci)
                 (total_bytes_left pci - bin_size) bin_size in
    let! r := msgpack_pack_bin bin_size in
    ret (r, pci)
  else ret (0%Z, pci).

(** The loop over the bytes of a buffer of [buffer_len] bytes; every iteration
    writes at least one byte. *)
Fixpoint pack_bytes (fuel : nat) (bytes : list byte) (buffer_len buffer_len_left buffer_offset : Z)
    (pci : pack_contents_info) : M pstore (Z * pack_contents_info) :=
  match fuel with
  | 0 => ub
  | S fuel =>
    if (0 <? buffer_len_left)%Z then
      let! opened := open_bin pci in
      let '(r, pci) := opened in
      if (r =? 0)%Z then
        let bytes_to_write := if (buffer_len_left <? bytes_left_in_bin pci)%Z
                              then buffer_len_left else bytes_left_in_bin pci in
        do! assertM (u64 (buffer_offset + bytes_to_write) <=? buffer_len)%Z in
        let! data := lift (slice buffer_offset bytes_to_write bytes) in
        check! pk_write data else ret ((-1)%Z, pci) in
        do! assertM (bytes_to_write <=? buffer_len_left)%Z in
        do! assertM (bytes_to_write <=? bytes_left_in_bin pci)%Z in
        pack_bytes fuel bytes buffer_len (buffer_len_left - bytes_to_write)
          (u64 (buffer_offset + bytes_to_write))
          (Pci (max_size pci) (pci_has_vlen pci) (nr_bins pci) (total_bytes_left pci)
             (bytes_left_in_bin pci - bytes_to_write))
      else ret ((-1)%Z, pci)
    else ret (0%Z, pci)
  end.

(** [element_pci] starts uninitialized: its value here does not matter. *)
Definition uninit_pci : pack_contents_info := Pci 0 0 0 0 0.

Fixpoint pack_contents_body (fuel : nat) (pci : pack_contents_info) (dtype_id count : Z)
    (buffer : list elem) (buffer_len : Z) : M pstore (Z * pack_contents_info) :=
  match fuel with
  | 0 => ub
  | S fuel =>
    if (0 <? pci_has_vlen pci)%Z then
      let! class := lib_get (H5Tget_class dtype_id) in
      match class with
      | H5T_INTEGER | H5T_ENUM | H5T_FLOAT =>
          do! assertM (pci_has_vlen pci =? 0)%Z in ret ((-1)%Z, pci)
      | H5T_ARRAY | H5T_COMPOUND => ret ((-1)%Z, pci)
      | H5T_VLEN =>
          let! vl_type_id := lib_call (H5Tget_super dtype_id) in
          let! vl_size := lib_get (H5Tget_size vl_type_id) in
          let! res := for_checked (Z.to_nat count) 0 (λ i,
            let! e := lift (arr_get buffer i) in
            let! hvl := match e with EVlen l => ret l | _ => ub end in
            let vl_count := len hvl in
            let! header := pack_contents_header uninit_pci (max_size pci) vl_type_id 1 [vl_count]
                             (u64 (vl_count * vl_size)) in
            if (header.1 =? 0)%Z then
              let! body := pack_contents_body fuel header.2 vl_type_id vl_count hvl
                             (u64 (vl_count * vl_size)) in
              ret body.1
            else ret header.1) in
          if (res =? 0)%Z then
            do! ignore (lib_call (H5Tclose vl_type_id)) in ret (0%Z, pci)
          else
            do! close_if H5Tclose vl_type_id in ret ((-1)%Z, pci)
      | H5T_STRING =>
          let! variable := lib_get (H5Tis_variable_str dtype_id) in
          do! assertM (0 <? variable)%Z in
          let! res := for_checked (Z.to_nat count) 0 (λ i,
            let! e := lift (arr_get buffer i) in
            let! str := match e with EStr s => ret s | _ => ub end in
            pack_string str) in
          ret (if (res =? 0)%Z then 0%Z else (-1)%Z, pci)
      | _ => ret ((-1)%Z, pci)
      end
    else if (pci_has_vlen pci =? 0)%Z then
      let! bytes := lift (raw_bytes buffer) in
      pack_bytes (S (Z.to_nat buffer_len)) bytes buffer_len buffer_len 0 pci
    else ret ((-1)%Z, pci)
  end.
End contents.
