(* ===== verification/PackContentsProof.v ===== *)
(** * The contents of a dataset or attribute: correctness

    The object that represents the contents, and how the output of the header
    and of any sequence of calls for the body make up its encoding. *)
From Stdlib Require Import Strings.Byte Strings.String.
From stdpp Require Import base tactics numbers list gmap propset.
From S2P Require Import Prelude Bytes Msgpack Select H5 PackStore NumpyType NumpyTypeProof PackContents.

(** ** Splitting bytes into bins *)

Fixpoint bins_go (fuel : nat) (n : nat) (d : list byte) : list (list byte) :=
  match fuel, d with
  | S fuel, _ :: _ => take n d :: bins_go fuel n (drop n d)
  | _, _ => []
  end.
(** Pieces of [max] bytes; the last one may be shorter. *)
Definition bins (max : Z) (d : list byte) : list (list byte) := bins_go (length d) (Z.to_nat max) d.

Lemma bins_go_fuel n d f1 f2 :
  0 < n → length d ≤ f1 → length d ≤ f2 → bins_go f1 n d = bins_go f2 n d.
Proof.
  intros Hn. revert f2 d. induction f1 as [|f1 IH]; intros [|f2] [|b d] H1 H2; simpl in *; try lia; try done.
  f_equal. apply IH; rewrite length_drop; simpl; lia.
Qed.

Lemma bins_cons max d :
  (0 < max)%Z → d ≠ [] → bins max d = take (Z.to_nat max) d :: bins max (drop (Z.to_nat max) d).
Proof.
  intros Hm Hd. unfold bins. destruct d as [|b d]; [done|]. simpl. f_equal.
  apply bins_go_fuel; [lia|rewrite length_drop; simpl; lia|lia].
Qed.

Lemma bins_ind max (P : list byte → Prop) :
  (0 < max)%Z → P [] → (∀ d, d ≠ [] → P (drop (Z.to_nat max) d) → P d) → ∀ d, P d.
Proof.
  intros Hm H0 HS d. induction d as [d IH] using (induction_ltof1 _ length). destruct d as [|b d]; [done|].
  apply HS; [done|]. apply IH. unfold ltof. rewrite length_drop. simpl. lia.
Qed.

Lemma concat_bins max d : (0 < max)%Z → concat (bins max d) = d.
Proof.
  intros Hm. revert d. apply (bins_ind max); [done..|]. intros d Hd IH.
  rewrite bins_cons by done. simpl. rewrite IH. apply take_drop.
Qed.

Lemma bins_bounded max d : (0 < max)%Z → Forall (λ b, 0 < len b ≤ max)%Z (bins max d).
Proof.
  intros Hm. revert d. apply (bins_ind max); [done|constructor|]. intros d Hd IH.
  rewrite bins_cons by done. constructor; [|done]. unfold len. rewrite length_take.
  destruct d; [done|]. simpl. lia.
Qed.

Lemma len_bins max d : (0 < max)%Z → len (bins max d) = ((len d + max - 1) / max)%Z.
Proof.
  intros Hm. revert d. apply (bins_ind max); [done| |].
  - unfold len. simpl. symmetry. apply Z.div_small. lia.
  - intros d Hd IH. rewrite bins_cons by done.
    transitivity (1 + len (bins max (drop (Z.to_nat max) d)))%Z; [unfold len; simpl; lia|]. rewrite IH.
    assert (0 < len d)%Z by (destruct d; [done|unfold len; simpl; lia]).
    destruct (decide (len d ≤ max)%Z).
    + rewrite drop_ge by (unfold len in *; lia). rewrite (Z.div_small (len [] + _ - _)) by (unfold len; simpl; lia).
      apply (Z.div_unique _ _ _ (len d - 1)); lia.
    + replace (len (drop (Z.to_nat max) d)) with (len d - max)%Z by (unfold len in *; rewrite length_drop; lia).
      rewrite <- Z.div_add_l by lia. f_equal. lia.
Qed.

(** ** The object *)

(** The entry "data" is given. *)
Definition contents_map (t : dtype) (dims : list Z) (nr_bytes : Z) (data : list obj) : option obj :=
  let shape := (lit "shape", OArray (OInt <$> dims)) in
  if has_vlen t then
    Some (OMap [(lit "vlen", OBool true); shape; (lit "data", OArray data)])
  else
    ty ← numpy_obj t None; k ← numpy_kind t;
    Some (OMap [(lit "nd", OBool true); (lit "type", ty); (lit "kind", OStr k); shape;
                (lit "nbytes", OInt nr_bytes); (lit "data", OArray data)]).
(** The objects of the entry "data". *)
Fixpoint data_objs (t : dtype) (max : Z) (data : list elem) : option (list obj) :=
  match t with
  | DString true _ _ =>
      sequence (map (λ e, match e with EStr s => Some (OStr s) | _ => None end) data)
  | DVlen t' =>
      sequence (map (λ e, match e with
        | EVlen l => objs ← data_objs t' max l; contents_map t' [len l] (len l * dtype_size t') objs
        | _ => None
        end) data)
  | _ => if has_vlen t then match data with [] => Some [] | _ => None end
         else bs ← raw_bytes data; Some (OBin <$> bins max bs)
  end.

(** An array with more than [max] objects of variable length is refused. *)
Definition contents_obj (t : dtype) (max : Z) (dims : list Z) (data : list elem) : option obj :=
  if has_vlen t && (max <? len data)%Z then None else
  objs ← data_objs t max data; contents_map t dims (len data * dtype_size t) objs.

Section proof.
Context `{HS : H5Space, HL : !H5Lib, HM : Msgpack, HP : Packer}.
Context `{HSL : !H5SpaceLaws, HLL : !H5LibLaws, HML : !MsgpackLaws, HPL : !PackerLaws}.
Implicit Types s : pstore.

(** What the header writes when [n] objects are announced. *)
Definition open_map (t : dtype) (dims : list Z) (nr_bytes n : Z) : option (list byte) :=
  let shape := encode_str (lit "shape") ++ encode (OArray (OInt <$> dims)) in
  let data := encode_str (lit "data") ++ header_bytes (HArray n) in
  if has_vlen t then
    Some (header_bytes (HMap 3) ++ encode_str (lit "vlen") ++ encode (OBool true) ++ shape ++ data)
  else
    ty ← numpy_obj t None; k ← numpy_kind t;
    Some (header_bytes (HMap 6) ++ encode_str (lit "nd") ++ encode (OBool true) ++
          encode_str (lit "type") ++ encode ty ++ encode_str (lit "kind") ++ encode (OStr k) ++
          shape ++ encode_str (lit "nbytes") ++ encode (OInt nr_bytes) ++ data).

Lemma encode_contents_map t dims nr_bytes data o :
  contents_map t dims nr_bytes data = Some o →
  ∃ bs, open_map t dims nr_bytes (len data) = Some bs ∧ encode o = bs ++ concat (map encode data).
Proof.
  unfold contents_map, open_map. destruct (has_vlen t).
  - intros [= <-]. eexists. split; [done|]. simpl. rewrite <- !app_assoc, app_nil_r. done.
  - destruct (numpy_obj t None) as [ty|]; [|done]. destruct (numpy_kind t) as [k|]; [|done].
    intros [= <-]. eexists. split; [done|]. simpl. rewrite <- !app_assoc, app_nil_r. done.
Qed.

Lemma open_contents_map t dims nr_bytes data bs :
  open_map t dims nr_bytes (len data) = Some bs →
  ∃ o, contents_map t dims nr_bytes data = Some o ∧ encode o = bs ++ concat (map encode data).
Proof.
  intros H. destruct (contents_map t dims nr_bytes data) as [o|] eqn:E.
  - exists o. split; [done|]. destruct (encode_contents_map _ _ _ _ _ E) as (bs' & H' & ?). congruence.
  - exfalso. unfold contents_map, open_map in *. destruct (has_vlen t); [done|].
    destruct (numpy_obj t None); [|done]. by destruct (numpy_kind t).
Qed.

(** ** The header *)

Lemma wp_pack_shape rank dims (Q : Z → pstore → Prop) s :
  (0 ≤ rank ≤ len dims)%Z → (rank < 2 ^ 31)%Z → Forall is_u64 (take (Z.to_nat rank) dims) →
  (∀ r s', view s' = view s →
     (r = 0%Z → emits (encode_str (lit "shape") ++ encode (OArray (OInt <$> take (Z.to_nat rank) dims))) s s' ∧
        pk_ok s') → Q r s') →
  wp (pack_shape rank dims) Q s.
Proof.
  intros Hr Hr' Hd HQ. unfold pack_shape.
  assert (Hfail : ∀ s', view s' = view s → wp (ret (-1)%Z) Q s') by (intros; apply wp_ret, HQ; done).
  apply wp_check_string; [by vm_compute| |done]. intros s1 Hv1 He1 _.
  apply wp_check_header; [|intros; apply Hfail; congruence]. intros s2 Hv2 He2 Hok2.
  rewrite u64_small in He2 by (unfold is_u64; lia).
  eapply (wp_for_checked (λ j s', view s' = view s ∧ pk_ok s' ∧
      emits (encode_str (lit "shape") ++ header_bytes (HArray rank) ++
             concat (map encode (OInt <$> take (Z.to_nat j) dims))) s s')
    (λ r s', view s' = view s)).
  - intros j s3 Hj (Hv3 & Hok3 & He3). destruct (lookup_lt_is_Some_2 dims (Z.to_nat j)) as [d Hdj];
      [unfold len in *; lia|].
    wp_step. eapply wp_lift; [rewrite arr_get_nth by lia; exact Hdj|].
    apply wp_msgpack_pack. intros r s4 Hv4 He4 Hok4. destruct (Z.eqb_spec r 0) as [->|]; [|congruence].
    split; [congruence|]. split; [auto|]. replace (Z.to_nat (j + 1)) with (S (Z.to_nat j)) by lia.
    assert (is_u64 d) as Hdu.
    { rewrite Forall_lookup in Hd. apply (Hd (Z.to_nat j)). rewrite lookup_take_lt by lia. done. }
    rewrite u64_small in He4 by done.
    rewrite (take_S_r _ _ _ Hdj), fmap_app, map_app, concat_app. simpl. rewrite app_nil_r. emits_done.
  - split; [congruence|]. split; [done|]. simpl. emits_done.
  - intros s3 (Hv3 & Hok3 & He3). apply HQ; [done|]. intros _. split; [|done].
    rewrite Z.add_0_l, Z2Nat.id in He3 by lia. simpl. unfold len. rewrite length_fmap, length_take.
    replace (Z.of_nat (Z.to_nat rank `min` length dims)) with rank by (unfold len in *; lia). done.
  - intros r s3 ? Hv3. apply HQ; [done|lia].
Qed.

Lemma product_from_spec (rank : Z) dims n0 :
  (0 ≤ rank ≤ len dims)%Z → is_u64 n0 →
  for_range (Z.to_nat rank) 0 (λ i n, d ← arr_get dims i; Some (u64 (n * d))) n0 =
    Some (u64 (n0 * prod_list (take (Z.to_nat rank) dims))).
Proof.
  intros Hr Hn0.
  destruct (for_range_inv (λ i n, n = u64 (n0 * prod_list (take (Z.to_nat i) dims)))
    (λ i n, d ← arr_get dims i; Some (u64 (n * d))) (Z.to_nat rank) 0 n0) as (n & -> & ->).
  - simpl. by rewrite Z.mul_1_r, u64_small.
  - intros i n Hi ->. destruct (lookup_lt_is_Some_2 dims (Z.to_nat i)) as [d Hd]; [unfold len in *; lia|].
    rewrite arr_get_nth, Hd by lia. simpl. eexists. split; [done|].
    replace (Z.to_nat (i + 1)) with (S (Z.to_nat i)) by lia. rewrite (take_S_r _ _ _ Hd).
    unfold u64. rewrite Z.mul_mod_idemp_l by lia. rewrite <- Z.mul_assoc. do 2 f_equal.
    generalize (take (Z.to_nat i) dims) as l. intros l. induction l as [|x l IH]; simpl; [lia|].
    rewrite <- IH. lia.
  - do 5 f_equal. lia.
Qed.

Lemma product_spec (rank : Z) dims :
  (0 ≤ rank ≤ len dims)%Z →
  for_range (Z.to_nat rank) 0 (λ i n, d ← arr_get dims i; Some (u64 (n * d))) 1%Z =
    Some (u64 (prod_list (take (Z.to_nat rank) dims))).
Proof.
  intros Hr. rewrite product_from_spec; [|done|unfold is_u64; lia]. by rewrite Z.mul_1_l.
Qed.

Lemma nr_bins_needed_spec max n : (0 < max)%Z → (0 ≤ n)%Z → (n + max - 1 < 2 ^ 64)%Z →
  nr_bins_needed max n = Some ((n + max - 1) / max)%Z.
Proof.
  intros Hm Hn Hw. unfold nr_bins_needed. rewrite option_guard_True by done. simpl.
  rewrite (u64_small (n + max - 1)) by (unfold is_u64; lia).
  pose proof (Z.div_mod (n + max - 1) max ltac:(lia)) as Hdiv.
  pose proof (Z.mod_pos_bound (n + max - 1) max ltac:(lia)).
  rewrite u64_small by (unfold is_u64; nia). rewrite option_guard_True by lia. done.
Qed.

(** The state of the packing after a successful header. *)
Definition pci_opened (t : dtype) (max nr_bytes : Z) (p : pack_contents_info) : Prop :=
  max_size p = max ∧ pci_has_vlen p = (if has_vlen t then 1 else 0)%Z ∧
  (has_vlen t = false → nr_bins p = ((nr_bytes + max - 1) / max)%Z ∧
     total_bytes_left p = nr_bytes ∧ bytes_left_in_bin p = 0%Z).

Definition announced (t : dtype) (max : Z) (dims : list Z) (nr_bytes : Z) : Z :=
  if has_vlen t then u64 (prod_list dims) else ((nr_bytes + max - 1) / max)%Z.

Definition header_result (o : option dtype) (max : Z) (dims : list Z) (nr_bytes : Z) (s : pstore)
    (res : Z * pack_contents_info) (s' : pstore) : Prop :=
  view s' = view s ∧
  (res.1 = 0%Z → pk_ok s' ∧ ∃ t bs, o = Some t ∧ pci_opened t max nr_bytes res.2 ∧
     open_map t dims nr_bytes (announced t max dims nr_bytes) = Some bs ∧ emits bs s s' ∧
     (has_vlen t = true → announced t max dims nr_bytes ≤ max)%Z).

Lemma wp_pack_shape_ok rank dims (Q : Z → pstore → Prop) s :
  (0 ≤ rank ≤ len dims)%Z → (rank < 2 ^ 31)%Z → Forall is_u64 (take (Z.to_nat rank) dims) →
  (∀ r s', view s' = view s ∧ (r = 0%Z →
     emits (encode_str (lit "shape") ++ encode (OArray (OInt <$> take (Z.to_nat rank) dims))) s s' ∧ pk_ok s') → Q r s') →
  wp (pack_shape rank dims) Q s.
Proof. intros Hr Hr' Hd HQ. apply wp_pack_shape; [done..|]. intros r s' Hv Hs. apply HQ. by split. Qed.

Lemma wp_vlen_header t rank dims nr_bytes n (Q : Z → pstore → Prop) s :
  (0 ≤ rank ≤ len dims)%Z → (rank < 2 ^ 31)%Z → Forall is_u64 (take (Z.to_nat rank) dims) → is_u64 n →
  has_vlen t = true →
  (∀ r s', view s' = view s ∧ (r = 0%Z → pk_ok s' ∧
     ∃ bs, open_map t (take (Z.to_nat rank) dims) nr_bytes n = Some bs ∧ emits bs s s') → Q r s') →
  wp (vlen_header rank dims n) Q s.
Proof.
  intros Hr Hr' Hd Hn Hhv HQ. unfold vlen_header.
  assert (Hfail : ∀ s', view s' = view s → wp (ret (-1)%Z) Q s') by (intros s' Hv; by apply wp_ret, HQ).
  apply wp_check_header; [|intros; by apply Hfail]. intros s2 Hv2 He2 _.
  apply wp_check_string; [by vm_compute| |intros; apply Hfail; congruence]. intros s3 Hv3 He3 _.
  apply wp_check_header; [|intros; apply Hfail; congruence]. intros s4 Hv4 He4 _.
  eapply wp_checked; [apply wp_pack_shape_ok; [done..|]; intros r s5 H5; exact H5| |
    intros; apply Hfail; congruence]. intros s5 Hv5 [He5 _].
  apply wp_check_string; [by vm_compute| |intros; apply Hfail; congruence]. intros s6 Hv6 He6 _.
  apply wp_check_header; [|intros; apply Hfail; congruence]. intros s7 Hv7 He7 Hok7.
  rewrite (u64_small n) in He7 by done. wp_step. apply HQ. split; [congruence|]. intros _. split; [done|].
  unfold open_map. rewrite Hhv. eexists. split; [done|]. emits_done.
Qed.

Lemma wp_nd_header tf t id rank dims nr_bytes n (Q : Z → pstore → Prop) s :
  v_types (view s) !! id = Some t → type_depth t < tf →
  (0 ≤ rank ≤ len dims)%Z → (rank < 2 ^ 31)%Z → Forall is_u64 (take (Z.to_nat rank) dims) →
  (0 ≤ nr_bytes < 2 ^ 63)%Z → is_u64 n → has_vlen t = false →
  (∀ r s', view s' = view s ∧ (r = 0%Z → pk_ok s' ∧
     ∃ bs, open_map t (take (Z.to_nat rank) dims) nr_bytes n = Some bs ∧ emits bs s s') → Q r s') →
  wp (nd_header tf id rank dims nr_bytes n) Q s.
Proof.
  intros Ht Hdep Hr Hr' Hd Hb Hn Hhv HQ. unfold nd_header.
  assert (Hfail : ∀ s', view s' = view s → wp (ret (-1)%Z) Q s') by (intros s' Hv; by apply wp_ret, HQ).
  apply wp_check_header; [|intros; by apply Hfail]. intros s2 Hv2 He2 _.
  apply wp_check_string; [by vm_compute| |intros; apply Hfail; congruence]. intros s3 Hv3 He3 _.
  apply wp_check_header; [|intros; apply Hfail; congruence]. intros s4 Hv4 He4 _.
  apply wp_check_string; [by vm_compute| |intros; apply Hfail; congruence]. intros s5 Hv5 He5 _.
  eapply wp_checked; [apply (wp_describe_type tf _ t); [congruence|done|intros r s6 H6; exact H6]| |
    intros; apply Hfail; congruence]. intros s6 Hv6 (ty & Hty & He6).
  apply wp_check_string; [by vm_compute| |intros; apply Hfail; congruence]. intros s7 Hv7 He7 _.
  eapply wp_checked; [apply (wp_describe_kind _ t); [congruence|intros r s8 H8; exact H8]| |
    intros; apply Hfail; congruence]. intros s8 Hv8 (k & Hk & He8).
  eapply wp_checked; [apply wp_pack_shape_ok; [done..|]; intros r s9 H9; exact H9| |
    intros; apply Hfail; congruence]. intros s9 Hv9 [He9 _].
  apply wp_check_string; [by vm_compute| |intros; apply Hfail; congruence]. intros s10 Hv10 He10 _.
  apply wp_check_header; [|intros; apply Hfail; congruence]. intros s11 Hv11 He11 _.
  apply wp_check_string; [by vm_compute| |intros; apply Hfail; congruence]. intros s12 Hv12 He12 _.
  apply wp_check_header; [|intros; apply Hfail; congruence]. intros s13 Hv13 He13 Hok13.
  assert (s64 nr_bytes = nr_bytes) as Hs64 by (unfold s64; rewrite Z.mod_small; lia).
  rewrite Hs64 in He11. rewrite (u64_small n) in He13 by done.
  wp_step. apply HQ. split; [congruence|]. intros _. split; [done|]. unfold open_map. rewrite Hhv, Hty, Hk.
  eexists. split; [done|]. emits_done.
Qed.

Lemma wp_contents_header tf p0 max id rank dims nr_bytes (Q : Z * pack_contents_info → pstore → Prop) s :
  depth_below (v_types (view s) !! id) tf →
  (0 < max)%Z → (0 ≤ nr_bytes)%Z → (nr_bytes + max - 1 < 2 ^ 63)%Z →
  (0 ≤ rank ≤ len dims)%Z → (rank < 2 ^ 31)%Z → Forall is_u64 (take (Z.to_nat rank) dims) →
  (∀ r s', header_result (v_types (view s) !! id) max (take (Z.to_nat rank) dims) nr_bytes s r s' → Q r s') →
  wp (pack_contents_header tf p0 max id rank dims nr_bytes) Q s.
Proof.
  intros Hdep Hmax Hn Hw Hr Hr' Hd HQ. unfold pack_contents_header.
  wp_step. apply wp_detect; [done|]. intros v s1 Hv1 Hp1 Hvk.
  assert (Hfail : ∀ p s', view s' = view s → wp (ret ((-1)%Z, p)) Q s').
  { intros p s' Hv. apply wp_ret, HQ. by split. }
  destruct Hvk as [->|(t & Ht & ->)]; [simpl; by apply Hfail|].
  destruct (Z.ltb_spec 0 (vlen_kind t)) as [Hpos|Hpos].
  - assert (has_vlen t = true) as Hhv by (rewrite (vlen_kind_spec t) in Hpos by lia; by destruct (has_vlen t)).
    assert (vlen_kind t = 1%Z) as -> by (rewrite vlen_kind_spec by lia; by rewrite Hhv).
    wp_step. eapply wp_lift; [by apply product_spec|].
    destruct (max <? _)%Z eqn:Emax; [by apply Hfail|].
    eapply wp_checked; [apply (wp_vlen_header t _ _ nr_bytes); [done..|apply u64_range|done|intros r s2 H2; exact H2]| |
      intros; apply Hfail; congruence]. intros s2 Hv2 (Hok & bs & Hbs & He).
    wp_step. apply HQ. split; [congruence|]. intros _. split; [done|].
    exists t, bs. unfold pci_opened, announced. rewrite Hhv. split; [done|]. split; [by split_and!|]. split; [done|].
    split; [by eapply emits_pk_l|intros _; lia].
  - destruct (Z.eqb_spec (vlen_kind t) 0) as [H0|H0]; [|by apply Hfail].
    assert (has_vlen t = false) as Hhv by (rewrite (vlen_kind_spec t) in H0 by lia; by destruct (has_vlen t)).
    rewrite H0. wp_step. eapply wp_lift; [apply nr_bins_needed_spec; lia|]. cbn zeta.
    eapply wp_checked; [apply (wp_nd_header tf t); [by rewrite Hv1|by rewrite Ht in Hdep|done..|lia| |done|
      intros r s2 H2; exact H2]| |intros; apply Hfail; congruence].
    { split; [apply Z.div_pos; lia|apply Z.div_lt_upper_bound; nia]. }
    intros s2 Hv2 (Hok & bs & Hbs & He).
    wp_step. apply HQ. split; [congruence|]. intros _. split; [done|].
    exists t, bs. unfold pci_opened, announced. rewrite Hhv. split; [done|]. split; [by split_and!|]. split; [done|].
    split; [by eapply emits_pk_l|done].
Qed.

(** ** The bytes of the body *)

(** The output for some bytes, one at a time: a bin is opened whenever no bin
    has room.  [total] bytes are left for bins that are not open yet, [room]
    bytes in the open one. *)
Fixpoint bins_out (max : Z) (d : list byte) (total room : Z) : list byte * Z * Z :=
  match d with
  | [] => ([], total, room)
  | b :: d =>
      let '(h, total, room) :=
        if (room =? 0)%Z then
          let n := if (total <? max)%Z then total else max in (header_bytes (HBin n), total - n, n)%Z
        else ([], total, room) in
      let '(out, total, room) := bins_out max d total (room - 1) in
      (h ++ b :: out, total, room)
  end.

Lemma bins_out_app max d1 d2 total room :
  bins_out max (d1 ++ d2) total room =
    let '(o1, t1, r1) := bins_out max d1 total room in
    let '(o2, t2, r2) := bins_out max d2 t1 r1 in (o1 ++ o2, t2, r2).
Proof.
  revert total room. induction d1 as [|b d1 IH]; intros total room; simpl.
  { by destruct (bins_out max d2 total room) as [[? ?] ?]. }
  destruct (room =? 0)%Z; rewrite IH; destruct (bins_out max d1 _ _) as [[o1 t1] r1];
    destruct (bins_out max d2 t1 r1) as [[o2 t2] r2]; by rewrite <- ?app_assoc.
Qed.

(** Bytes that fit the open bin are copied. *)
Lemma bins_out_fits max d total room :
  (len d ≤ room)%Z → bins_out max d total room = (d, total, (room - len d)%Z).
Proof.
  revert room. induction d as [|b d IH]; intros room Hl; simpl.
  { do 2 f_equal. unfold len. simpl. lia. }
  assert (len (b :: d) = len d + 1)%Z as Hc by (unfold len; simpl; lia).
  pose proof (len_nonneg d). replace (room =? 0)%Z with false by lia.
  rewrite IH by lia. simpl. f_equal. lia.
Qed.

Lemma bins_out_open max d total :
  d ≠ [] → (0 < Z.min total max)%Z →
  bins_out max d total 0 =
    let n := Z.min total max in
    let '(o, t, r) := bins_out max d (total - n) n in (header_bytes (HBin n) ++ o, t, r).
Proof.
  intros Hd Hn. destruct d as [|b d]; [done|]. simpl.
  replace (if (total <? max)%Z then total else max) with (Z.min total max)
    by (destruct (Z.ltb_spec total max); lia).
  replace (Z.min total max =? 0)%Z with false by lia.
  by destruct (bins_out max d _ _) as [[? ?] ?].
Qed.

(** All announced bytes together make up the bins. *)
Lemma bins_out_all max d :
  (0 < max)%Z → bins_out max d (len d) 0 = (concat (map (λ b, encode (OBin b)) (bins max d)), 0, 0)%Z.
Proof.
  intros Hm. revert d. apply (bins_ind max); [done|done|]. intros d Hd IH.
  rewrite bins_cons by done.
  assert (0 < len d)%Z by (destruct d; [done|unfold len; simpl; lia]).
  rewrite bins_out_open by (try done; lia). cbn zeta.
  set (n := Z.min (len d) max) in *.
  assert (len (take (Z.to_nat max) d) = n) as Hln by (unfold len, n; rewrite length_take; unfold len; lia).
  assert (len (drop (Z.to_nat max) d) = len d - n)%Z as Hlr by (unfold len, n; rewrite length_drop; unfold len; lia).
  pose proof (bins_out_app max (take (Z.to_nat max) d) (drop (Z.to_nat max) d) (len d - n) n) as E.
  rewrite take_drop, (bins_out_fits max (take _ _)), Hln, Z.sub_diag in E by lia. rewrite E, <- Hlr, IH.
  simpl. by rewrite Hln, <- app_assoc.
Qed.

Lemma wp_open_bin p s (Q : Z * pack_contents_info → pstore → Prop) d :
  d ≠ [] → (0 < max_size p < 2 ^ 32)%Z → (len d ≤ total_bytes_left p + bytes_left_in_bin p)%Z →
  (0 ≤ total_bytes_left p)%Z → (0 ≤ bytes_left_in_bin p)%Z → (0 < nr_bins p)%Z →
  (∀ r s' p' h, view s' = view s → emits h s s' → (r = 0%Z → pk_ok s → pk_ok s') →
     max_size p' = max_size p → pci_has_vlen p' = pci_has_vlen p → nr_bins p' = nr_bins p →
     (0 < bytes_left_in_bin p')%Z → (0 ≤ total_bytes_left p')%Z →
     (total_bytes_left p' + bytes_left_in_bin p' = total_bytes_left p + bytes_left_in_bin p)%Z →
     (∀ o t r, bins_out (max_size p) d (total_bytes_left p') (bytes_left_in_bin p') = (o, t, r) →
        bins_out (max_size p) d (total_bytes_left p) (bytes_left_in_bin p) = (h ++ o, t, r)) →
     Q (r, p') s') →
  wp (open_bin p) Q s.
Proof.
  intros Hd Hm Hl Ht Hb Hn HQ. unfold open_bin.
  assert (0 < len d)%Z by (destruct d; [done|unfold len; simpl; lia]).
  destruct (Z.eqb_spec (bytes_left_in_bin p) 0) as [E|E].
  - wp_step. apply wp_assert; [lia|]. cbn zeta.
    replace (if (total_bytes_left p <? max_size p)%Z then total_bytes_left p else max_size p)
      with (Z.min (total_bytes_left p) (max_size p)) by (destruct (Z.ltb_spec (total_bytes_left p) (max_size p)); lia).
    wp_step. apply wp_msgpack_pack. intros r s1 Hv1 He1 Hok1. wp_step.
    rewrite u64_small in He1 by (unfold is_u64; lia).
    eapply (HQ r s1 _ _ Hv1 He1); simpl; try done; try lia; [auto|].
    intros o t r' Ho. rewrite E, bins_out_open by (done || lia). cbn zeta. by rewrite Ho.
  - wp_step. eapply (HQ 0%Z s p []); try done; try lia; apply emits_refl.
Qed.

(** The loop of the body writes the bytes of the buffer from its offset. *)
Lemma wp_pack_bytes fuel bytes buffer_len off p (Q : Z * pack_contents_info → pstore → Prop) s :
  let d := drop (Z.to_nat off) bytes in
  len bytes = buffer_len → (0 ≤ off ≤ buffer_len)%Z → (buffer_len < 2 ^ 64)%Z →
  length d < fuel → (0 < max_size p < 2 ^ 32)%Z → (d ≠ [] → 0 < nr_bins p)%Z →
  (len d ≤ total_bytes_left p + bytes_left_in_bin p)%Z →
  (0 ≤ total_bytes_left p)%Z → (0 ≤ bytes_left_in_bin p)%Z →
  (∀ r s' p', view s' = view s →
     (r = 0%Z → ∃ o t room, bins_out (max_size p) d (total_bytes_left p) (bytes_left_in_bin p) = (o, t, room) ∧
        emits o s s' ∧ (pk_ok s → pk_ok s') ∧ (0 ≤ t)%Z ∧ (0 ≤ room)%Z ∧
        (t + room = total_bytes_left p + bytes_left_in_bin p - len d)%Z ∧
        p' = Pci (max_size p) (pci_has_vlen p) (nr_bins p) t room) →
     Q (r, p') s') →
  wp (pack_bytes fuel bytes buffer_len (buffer_len - off) off p) Q s.
Proof.
  cbn zeta. revert off p s Q. induction fuel as [|fuel IH]; intros off p s Q Hlen Hoff Hbl Hf Hm Hn Hd Ht Hb HQ; [lia|].
  set (d := drop (Z.to_nat off) bytes) in *.
  assert (len d = buffer_len - off)%Z as Hld.
  { unfold d, len in *. rewrite length_drop. lia. }
  simpl. destruct (Z.ltb_spec 0 (buffer_len - off)) as [Hleft|Hleft].
  2:{ assert (d = []) as Hd0 by (apply length_zero_iff_nil; unfold len in *; lia).
      wp_step. apply HQ; [done|]. intros _. rewrite Hd0. simpl. eexists _, _, _. split; [done|].
      split; [apply emits_refl|]. split; [done|]. split; [done|]. split; [done|].
      split; [unfold len; simpl; lia|]. by destruct p. }
  assert (d ≠ []) as Hd0 by (intros ->; unfold len in *; simpl in *; lia).
  wp_step. apply (wp_open_bin p s _ d); [done|done|done|done|done|auto|].
  intros r s1 p1 h Hv1 He1 Hok1 Hms Hhv Hnb Hroom Htot Hsum Hout.
  destruct (Z.eqb_spec r 0) as [->|Hr]; [|wp_step; apply HQ; [done|lia]].
  set (w := if (buffer_len - off <? bytes_left_in_bin p1)%Z then (buffer_len - off)%Z else bytes_left_in_bin p1).
  assert (w = Z.min (len d) (bytes_left_in_bin p1)) as Hw
    by (unfold w; destruct (Z.ltb_spec (buffer_len - off) (bytes_left_in_bin p1)); lia).
  rewrite u64_small by (unfold is_u64; lia).
  wp_step. apply wp_assert; [lia|].
  set (c := take (Z.to_nat w) d).
  assert (len c = w) as Hlc by (unfold c, len in *; rewrite length_take; lia).
  wp_step. eapply wp_lift.
  { unfold slice. rewrite option_guard_True by lia. simpl. reflexivity. }
  fold d c. eapply (wp_checked (λ s', emits c s1 s' ∧ pk_ok s')); [| |intros s2 Hv2; wp_step; apply HQ; [congruence|lia]].
  { apply wp_pk_write. intros r2 s2 Hv2 He2 Hok2. split; [done|]. intros ->. split; [done|]. apply Hok2; [done|].
    left. intros Hc. rewrite Hc in Hlc. unfold len in Hlc. simpl in Hlc. lia. }
  intros s2 Hv2 [He2 Hok2]. wp_step. apply wp_assert; [lia|]. wp_step. apply wp_assert; [lia|].
  replace (buffer_len - off - w)%Z with (buffer_len - (off + w))%Z by lia.
  assert (drop (Z.to_nat (off + w)) bytes = drop (Z.to_nat w) d) as Hdd
    by (unfold d; rewrite drop_drop; f_equal; lia).
  assert (length (drop (Z.to_nat w) d) = length d - Z.to_nat w) as Hldd by apply length_drop.
  apply IH; rewrite ?Hdd; simpl; try (unfold len in *; lia).
  { intros _. rewrite Hnb. auto. }
  intros r3 s3 p3 Hv3 H3. apply HQ; [congruence|]. intros Hr3.
  destruct (H3 Hr3) as (o & t & room & Ho & He3 & Hok3 & Ht3 & Hroom3 & Hsum3 & ->).
  rewrite Hms in Ho. eexists (h ++ c ++ o), t, room. split.
  { apply Hout. rewrite <- (take_drop (Z.to_nat w) d). fold c.
    rewrite bins_out_app, bins_out_fits by lia. by rewrite Hlc, Ho. }
  split; [emits_done|]. split; [auto|]. split; [done|]. split; [done|].
  split; [unfold len in *; lia|]. by rewrite Hms, Hhv, Hnb.
Qed.

(** ** The body *)

Lemma raw_bytes_typed t data :
  has_vlen t = false → Forall (elem_ok t) data →
  ∃ bs, raw_bytes data = Some bs ∧ len bs = (len data * dtype_size t)%Z.
Proof.
  intros Ht. induction 1 as [|e data He Hd IH]; [by exists []|].
  destruct IH as (bs & Hbs & Hl).
  assert (∃ b, e = EBytes b ∧ len b = dtype_size t) as (b & -> & Hb).
  { destruct t as [|[] ? ?|? ?|? ?|?]; simpl in *; try done; destruct e; try done; eauto. }
  simpl. rewrite Hbs. simpl. eexists. split; [done|]. rewrite len_app, Hl, Hb.
  replace (len (EBytes b :: data)) with (1 + len data)%Z by (unfold len; simpl; lia). lia.
Qed.

Lemma data_objs_fixed t max data :
  has_vlen t = false → data_objs t max data = (bs ← raw_bytes data; Some (OBin <$> bins max bs)).
Proof. destruct t as [|[] ? ?|? ?|? ?|?]; simpl; intros; simplify_eq; try done; by rewrite H. Qed.

Lemma data_objs_length t max data objs :
  has_vlen t = true → data_objs t max data = Some objs → length objs = length data.
Proof.
  destruct t as [|[] ? ?|? ?|? ?|?]; simpl; intros Hv Ho; try done.
  1,4: apply sequence_length in Ho; by rewrite length_map in Ho.
  all: rewrite Hv in Ho; destruct data; simplify_eq/=; done.
Qed.

(** The result of a call for [data], a part of the elements. *)
Definition body_out (t : dtype) (p : pack_contents_info) (data : list elem) (s : pstore)
    (res : Z * pack_contents_info) (s' : pstore) : Prop :=
  res.1 = 0%Z → (pk_ok s → pk_ok s') ∧
     if has_vlen t then
       res.2 = p ∧ ∃ objs, data_objs t (max_size p) data = Some objs ∧ emits (concat (map encode objs)) s s'
     else ∃ bs o total room, raw_bytes data = Some bs ∧
       bins_out (max_size p) bs (total_bytes_left p) (bytes_left_in_bin p) = (o, total, room) ∧
       emits o s s' ∧ (0 ≤ total)%Z ∧ (0 ≤ room)%Z ∧
       (total + room = total_bytes_left p + bytes_left_in_bin p - len bs)%Z ∧
       res.2 = Pci (max_size p) (pci_has_vlen p) (nr_bins p) total room.
Definition body_result (t : dtype) (p : pack_contents_info) (data : list elem) (s : pstore)
    (res : Z * pack_contents_info) (s' : pstore) : Prop :=
  view s' = view s ∧ body_out t p data s res s'.

(** The state in which a body can be packed. *)
Record body_pre (t : dtype) (p : pack_contents_info) (data : list elem) : Prop := {
  bp_max : (0 < max_size p < 2 ^ 32)%Z;
  bp_vlen : pci_has_vlen p = (if has_vlen t then 1 else 0)%Z;
  bp_typed : Forall (elem_ok t) data;
  bp_left : has_vlen t = false →
    (0 ≤ total_bytes_left p ∧ 0 ≤ bytes_left_in_bin p)%Z ∧
    (len data * dtype_size t ≤ total_bytes_left p + bytes_left_in_bin p)%Z ∧
    (0 < len data * dtype_size t → 0 < nr_bins p)%Z;
  bp_size : (0 ≤ len data * dtype_size t < 2 ^ 63)%Z;
}.

(** The data of a sequence of calls is the data of one call. *)
Lemma raw_bytes_app d1 d2 b1 b2 :
  raw_bytes d1 = Some b1 → raw_bytes d2 = Some b2 → raw_bytes (d1 ++ d2) = Some (b1 ++ b2).
Proof.
  revert b1. induction d1 as [|e d1 IH]; intros b1; simpl; [by intros [= <-]|].
  destruct e as [bs| | |]; try done. destruct (raw_bytes d1) as [r|]; [|done]. intros [= <-] H2. simpl.
  rewrite (IH r) by done. simpl. by rewrite app_assoc.
Qed.
Lemma sequence_app {A} (l1 l2 : list (option A)) r1 r2 :
  sequence l1 = Some r1 → sequence l2 = Some r2 → sequence (l1 ++ l2) = Some (r1 ++ r2).
Proof.
  revert r1. induction l1 as [|x l1 IH]; intros r1; simpl; [by intros [= <-]|].
  destruct x as [x|]; [|done]. simpl. destruct (sequence l1) as [r|]; [|done]. intros [= <-] H2.
  by rewrite (IH r).
Qed.
Lemma data_objs_app t max d1 d2 o1 o2 :
  has_vlen t = true → data_objs t max d1 = Some o1 → data_objs t max d2 = Some o2 →
  data_objs t max (d1 ++ d2) = Some (o1 ++ o2).
Proof.
  destruct t as [|[] ? ?|? ?|? ?|?]; simpl; intros Hv; try done.
  1,4: rewrite map_app; apply sequence_app.
  all: rewrite Hv; destruct d1, d2; simpl; intros; simplify_eq/=; done.
Qed.

Lemma body_out_nil t p s : pci_has_vlen p = (if has_vlen t then 1 else 0)%Z →
  (has_vlen t = false → 0 ≤ total_bytes_left p ∧ 0 ≤ bytes_left_in_bin p)%Z →
  body_out t p [] s (0%Z, p) s.
Proof.
  intros _ Hp _. split; [done|]. destruct (has_vlen t) eqn:Hv.
  - split; [done|]. exists []. split; [|apply emits_refl].
    destruct t as [|[] ? ?|? ?|? ?|?]; simpl in *; try done; by rewrite Hv.
  - destruct (Hp eq_refl). eexists [], _, _, _. split; [done|]. split; [done|]. split; [apply emits_refl|].
    split; [done|]. split; [done|]. split; [unfold len; simpl; lia|]. by destruct p.
Qed.

Lemma body_out_app t p d1 d2 s1 p1 s2 p2 s3 :
  body_out t p d1 s1 (0%Z, p1) s2 → body_out t p1 d2 s2 (0%Z, p2) s3 →
  body_out t p (d1 ++ d2) s1 (0%Z, p2) s3.
Proof.
  intros H1 H2 _. destruct (H1 eq_refl) as [Hok1 H1']. destruct (H2 eq_refl) as [Hok2 H2']. clear H1 H2.
  split; [auto|]. destruct (has_vlen t) eqn:Hv; simpl in *.
  - destruct H1' as (-> & o1 & Ho1 & He1). destruct H2' as (-> & o2 & Ho2 & He2). split; [done|].
    exists (o1 ++ o2). split; [by apply data_objs_app|]. rewrite map_app, concat_app. by eapply emits_trans.
  - destruct H1' as (b1 & o1 & t1 & r1 & Hb1 & Ho1 & He1 & ? & ? & Hs1 & ->).
    destruct H2' as (b2 & o2 & t2 & r2 & Hb2 & Ho2 & He2 & ? & ? & Hs2 & ->). simpl in *.
    exists (b1 ++ b2), (o1 ++ o2), t2, r2. split; [by apply raw_bytes_app|].
    split; [by rewrite bins_out_app, Ho1, Ho2|]. split; [by eapply emits_trans|].
    split; [done|]. split; [done|]. split; [|done]. rewrite len_app. lia.
Qed.

Lemma body_out_pk t p d s1 r s2 s1' s2' :
  p_pk s1' = p_pk s1 → p_pk s2' = p_pk s2 → body_out t p d s1 r s2 → body_out t p d s1' r s2'.
Proof.
  intros E1 E2 H Hr. destruct (H Hr) as [Hok H']. split; [unfold pk_ok in *; by rewrite E1, E2|].
  destruct (has_vlen t).
  - destruct H' as (? & o & ? & He). split; [done|]. exists o. split; [done|]. unfold emits, pk_ok in *. by rewrite E1, E2.
  - destruct H' as (b & o & t1 & r1 & ? & ? & He & H'). exists b, o, t1, r1. split; [done|]. split; [done|].
    split; [unfold emits, pk_ok in *; by rewrite E1, E2|done].
Qed.

(** A call for a part of the data leaves a state for the rest. *)
Lemma body_pre_app t p d1 d2 s1 p1 s2 :
  type_ok t → body_pre t p (d1 ++ d2) →
  body_pre t p d1 ∧ (body_out t p d1 s1 (0%Z, p1) s2 → body_pre t p1 d2).
Proof.
  intros Htok [Hmax Hpv [Ht1 Ht2]%Forall_app Hleft Hsize].
  pose proof (dtype_size_nonneg _ Htok). pose proof (len_nonneg d1). pose proof (len_nonneg d2).
  rewrite len_app in *.
  assert (0 ≤ len d1 * dtype_size t ∧ 0 ≤ len d2 * dtype_size t ∧
    (len d1 + len d2) * dtype_size t = len d1 * dtype_size t + len d2 * dtype_size t)%Z as (? & ? & Hadd) by nia.
  rewrite Hadd in *. split.
  - split; try done; [|lia]. intros Hv. destruct (Hleft Hv) as (? & ? & Hn). split; [done|]. split; [lia|].
    intros. apply Hn. lia.
  - intros Ho. destruct (Ho eq_refl) as [_ H']. simpl in H'. destruct (has_vlen t) eqn:Hv.
    + destruct H' as [-> _]. by split; rewrite ?Hv; try done; lia.
    + destruct H' as (b & o & tt & r & Hb & _ & _ & ? & ? & Hsum & ->). destruct (Hleft eq_refl) as (? & ? & Hn).
      destruct (raw_bytes_typed _ _ Hv Ht1) as (b' & Hb' & Hl). assert (b' = b) as -> by congruence.
      split; simpl; rewrite ?Hv; try done; [|lia]. intros _. split; [done|]. split; [lia|]. intros. apply Hn. lia.
Qed.

(** A header for all the data and a body with all of it. *)
Lemma contents_complete o t max dims data s1 r1 p s2 r2 p2 s3 :
  (0 < max)%Z → o = Some t →
  (has_vlen t = true → u64 (prod_list dims) = len data) → Forall (elem_ok t) data →
  header_result o max dims (len data * dtype_size t) s1 (r1, p) s2 →
  body_out t p data s2 (r2, p2) s3 → r1 = 0%Z → r2 = 0%Z →
  pk_ok s3 ∧ ∃ ob, contents_obj t max dims data = Some ob ∧ emits (encode ob) s1 s3.
Proof.
  intros Hmax -> Hdims Hty [Hv1 H1] H2 -> ->. unfold body_out in H2. simpl in *.
  destruct (H1 eq_refl) as (Hok1 & t' & hd & [= <-] & (Hm & Hpv & Hp) & Hopen & He1 & Hann).
  destruct (H2 eq_refl) as (Hok2 & Hb). split; [auto|].
  unfold contents_obj, announced in *. destruct (has_vlen t) eqn:Hvl.
  - destruct Hb as (_ & objs & Hobjs & He2). rewrite Hm in Hobjs.
    pose proof (data_objs_length _ _ _ _ Hvl Hobjs) as Hlen.
    rewrite Hdims in Hopen, Hann by done. specialize (Hann eq_refl).
    replace (max <? len data)%Z with false by lia. rewrite Hobjs. simpl.
    replace (len data) with (len objs) in Hopen at 2 by (unfold len; by rewrite Hlen).
    destruct (open_contents_map _ _ _ _ _ Hopen) as (ob & -> & Henc).
    exists ob. split; [done|]. rewrite Henc. emits_done.
  - destruct Hb as (bs & o & total & room & Hraw & Ho & He2 & _ & _ & _ & _).
    destruct (Hp eq_refl) as (_ & Htot & Hroom). rewrite Hm, Htot, Hroom in Ho.
    destruct (raw_bytes_typed _ _ Hvl Hty) as (bs' & Hraw' & Hlbs). assert (bs' = bs) as -> by congruence.
    rewrite <- Hlbs, bins_out_all in Ho by done. injection Ho as <- <- <-.
    rewrite data_objs_fixed by done. rewrite Hraw. simpl. rewrite <- Hlbs in *.
    assert (len (OBin <$> bins max bs) = (len bs + max - 1) / max)%Z as Hn.
    { unfold len at 1. rewrite length_fmap. by rewrite <- len_bins. }
    rewrite <- Hn in Hopen. destruct (open_contents_map _ _ _ _ _ Hopen) as (ob & -> & Henc).
    exists ob. split; [done|]. rewrite Henc.
    replace (map encode (OBin <$> bins max bs)) with (map (λ b, encode (OBin b)) (bins max bs))
      by (symmetry; apply map_map). emits_done.
Qed.

(** The strings of a dataset of variable-length strings. *)
Lemma wp_body_strings data (Q : Z → pstore → Prop) s n pad max :
  Forall (elem_ok (DString true n pad)) data →
  (∀ r s', view s' = view s →
     (r = 0%Z → (pk_ok s → pk_ok s') ∧ ∃ objs, data_objs (DString true n pad) max data = Some objs ∧
        emits (concat (map encode objs)) s s') → Q r s') →
  wp (for_checked (length data) 0 (λ i,
        let! e := lift (arr_get data i) in
        let! str := match e with EStr s => ret s | _ => ub end in
        pack_string str)) Q s.
Proof.
  intros Hty HQ. rewrite Forall_lookup in Hty.
  eapply (wp_for_checked (λ j s', view s' = view s ∧ (pk_ok s → pk_ok s') ∧
      ∃ objs, data_objs (DString true n pad) max (take (Z.to_nat j) data) = Some objs ∧
        emits (concat (map encode objs)) s s') (λ r s', view s' = view s)).
  - intros j s1 Hj (Hv1 & Hok1 & objs & Hobjs & He1).
    destruct (lookup_lt_is_Some_2 data (Z.to_nat j)) as [e He]; [lia|].
    specialize (Hty _ _ He). simpl in Hty. destruct e as [|str| |]; try done.
    wp_step. eapply wp_lift; [rewrite arr_get_nth by lia; exact He|]. wp_step. wp_step.
    apply wp_pack_string; [unfold is_u64; pose proof (len_nonneg str); lia|].
    intros r s2 Hv2 H2. destruct (Z.eqb_spec r 0) as [->|]; [|congruence].
    destruct (H2 eq_refl) as [He2 Hok2]. split; [congruence|]. split; [done|].
    replace (Z.to_nat (j + 1)) with (S (Z.to_nat j)) by lia. exists (objs ++ [OStr str]). split.
    + simpl in *. rewrite (take_S_r _ _ _ He), map_app. by apply sequence_snoc.
    + rewrite map_app, concat_app. simpl. rewrite app_nil_r. emits_done.
  - split; [done|]. split; [done|]. exists []. split; [done|]. apply emits_refl.
  - intros s1 (Hv1 & Hok1 & H1). apply HQ; [done|]. intros _. split; [done|].
    by rewrite Z.add_0_l, Nat2Z.id, firstn_all in H1.
  - intros r s1 Hr Hv1. apply HQ; [done|lia].
Qed.

(** The arrays of a dataset of variable-length type, given what the recursive
    call promises. *)
Lemma wp_body_vlen tf fuel id t' data max (Q : Z → pstore → Prop) s :
  (t_types (tables (p_h5 s)) !! id = Some t' ∨ t_types (tables (p_h5 s)) !! id = None) →
  type_depth t' < tf → 0 < tf → type_ok t' → (0 < max < 2 ^ 32)%Z →
  Forall (elem_ok (DVlen t')) data →
  (∀ p l s1 (Q' : Z * pack_contents_info → pstore → Prop), view s1 = view s → body_pre t' p l →
     v_types (view s1) !! id = Some t' →
     (∀ r s2, body_result t' p l s1 r s2 → Q' r s2) →
     wp (pack_contents_body tf fuel p id (len l) l (len l * dtype_size t')) Q' s1) →
  (∀ r s', view s' = view s →
     (r = 0%Z → (pk_ok s → pk_ok s') ∧ ∃ objs, data_objs (DVlen t') max data = Some objs ∧
        emits (concat (map encode objs)) s s') → Q r s') →
  wp (for_checked (length data) 0 (λ i,
        let! e := lift (arr_get data i) in
        let! hvl := match e with EVlen l => ret l | _ => ub end in
        let vl_count := len hvl in
        let! header := pack_contents_header tf uninit_pci max id 1 [vl_count]
                         (u64 (vl_count * H5Tget_size id (p_h5 s))) in
        if (header.1 =? 0)%Z then
          let! body := pack_contents_body tf fuel header.2 id vl_count hvl
                         (u64 (vl_count * H5Tget_size id (p_h5 s))) in
          ret body.1
        else ret header.1)) Q s.
Proof.
  intros Hid Hdep Htf Htok Hmax Hty Hbody HQ. rewrite Forall_lookup in Hty.
  pose proof (dtype_size_nonneg _ Htok) as Hsz.
  eapply (wp_for_checked (λ j s', view s' = view s ∧ (pk_ok s → pk_ok s') ∧
      ∃ objs, data_objs (DVlen t') max (take (Z.to_nat j) data) = Some objs ∧
        emits (concat (map encode objs)) s s') (λ r s', view s' = view s)).
  - intros j s1 Hj (Hv1 & Hok1 & objs & Hobjs & He1).
    destruct (lookup_lt_is_Some_2 data (Z.to_nat j)) as [e He]; [lia|].
    specialize (Hty _ _ He). simpl in Hty. destruct e as [| | |l]; try done.
    destruct Hty as (Hty & Hl & Hls). pose proof (len_nonneg l).
    wp_step. eapply wp_lift; [rewrite arr_get_nth by lia; exact He|]. wp_step. wp_step. cbn zeta.
    set (nb := u64 (len l * H5Tget_size id (p_h5 s))).
    assert (0 ≤ nb ∧ nb < 2 ^ 62 ∧ (t_types (tables (p_h5 s)) !! id = Some t' → nb = len l * dtype_size t'))%Z
      as (Hnb0 & Hnb & Hnbt).
    { unfold nb. destruct Hid as [Hid|Hid].
      - rewrite (get_size_law _ _ _ Hid), u64_small by (unfold is_u64; nia). nia.
      - rewrite get_size_invalid, Z.mul_0_r by done. split_and!; try done. congruence. }
    clearbody nb. cbn zeta. wp_step. apply wp_contents_header; try lia.
    { rewrite Hv1, view_types. destruct Hid as [-> | ->]; simpl; lia. }
    { unfold len. simpl. lia. }
    { simpl. constructor; [unfold is_u64; lia|constructor]. }
    intros [r1 p1] s2 Hh. rewrite Hv1, view_types in Hh. simpl in Hh.
    pose proof Hh as [Hv2 Hh']. simpl. destruct (Z.eqb_spec r1 0) as [->|Hr1]; last first.
    { wp_step. replace (r1 =? 0)%Z with false by lia. congruence. }
    destruct (Hh' eq_refl) as (_ & t & hd & Ht & (Hm1 & Hpv & Hpf) & _). simpl in *.
    assert (t = t') as -> by (destruct Hid as [Hid|Hid]; rewrite Hid in Ht; congruence).
    rewrite (Hnbt Ht) in *.
    wp_step. apply Hbody; [congruence| |by rewrite <- view_types, Hv2, Hv1|].
    { split; [by rewrite Hm1|done|done| |lia]. intros Hvl. destruct (Hpf Hvl) as (-> & -> & ->).
      split; [lia|]. split; [lia|]. intros. apply Z.div_str_pos. lia. }
    intros [r2 p2] s3 Hb. pose proof Hb as [Hv3 _]. simpl in *. wp_step.
    destruct (Z.eqb_spec r2 0) as [->|Hr2]; [|congruence].
    split; [congruence|].
    destruct (contents_complete (t_types (tables (p_h5 s)) !! id) t' max [len l] l s1 0 p1 s2 0 p2 s3) as (Hok3 & ob & Hob & He3); try done; try apply Hb.
    { lia. }
    { intros _. simpl. rewrite Z.mul_1_r, u64_small by (unfold is_u64; lia). done. }
    split; [done|]. replace (Z.to_nat (j + 1)) with (S (Z.to_nat j)) by lia.
    exists (objs ++ [ob]). split.
    + simpl in *. rewrite (take_S_r _ _ _ He), map_app. unfold contents_obj in Hob.
      case_match; [done|]. simpl. rewrite Hob.
      by apply sequence_snoc.
    + rewrite map_app, concat_app. simpl. rewrite app_nil_r. emits_done.
  - split; [done|]. split; [done|]. exists []. split; [done|]. apply emits_refl.
  - intros s1 (Hv1 & Hok1 & H1). apply HQ; [done|]. intros _. split; [done|].
    by rewrite Z.add_0_l, Nat2Z.id, firstn_all in H1.
  - intros r s1 Hr Hv1. apply HQ; [done|lia].
Qed.

Lemma wp_contents_body tf fuel p id t data (Q : Z * pack_contents_info → pstore → Prop) s :
  v_types (view s) !! id = Some t → type_depth t < fuel → type_depth t < tf → body_pre t p data →
  (∀ r s', body_result t p data s r s' → Q r s') →
  wp (pack_contents_body tf fuel p id (len data) data (len data * dtype_size t)) Q s.
Proof.
  revert p id t data Q s. induction fuel as [|fuel IH]; intros p id t data Q s Hid Hdep Htf Hpre HQ; [lia|].
  assert (Hfail : ∀ p' s', view s' = view s → Q ((-1)%Z, p') s') by (intros; by apply HQ).
  pose proof (types_ok _ _ _ Hid) as Htok. destruct Hpre as [Hmax Hpv Hty Hleft Hsize].
  cbn [pack_contents_body]. rewrite Hpv, to_nat_len. destruct (has_vlen t) eqn:Hvl; simpl.
  - wp_step. apply wp_lib_get. rewrite get_class_law, <- view_types, Hid.
    destruct t as [c sg o n|v n pad|e d|fs n|e]; simpl in Hvl; try done; simpl.
    + subst v. wp_step. apply wp_lib_get. rewrite view_types in Hid.
      rewrite (is_variable_str_law _ _ _ _ _ Hid). wp_step. apply wp_assert; [done|].
      wp_step. eapply (wp_body_strings data _ s n pad (max_size p)); [exact Hty|]. intros r s1 Hv1 H1. wp_step.
      apply HQ. split; [done|]. simpl. destruct (Z.eqb_spec r 0) as [->|]; [|done]. intros _.
      destruct (H1 eq_refl) as (? & objs & ? & ?). split; [done|]. split; [done|]. exists objs. by split.
    + wp_step. by apply Hfail.
    + wp_step. by apply Hfail.
    + wp_step. eapply wp_new_type; [apply get_super_law|]. rewrite <- view_types, Hid. simpl.
      intros e' s1 m Hc Hv1 Hp1. wp_step. pose proof (opened_lookup _ _ _ _ Hc) as He. apply wp_lib_get.
      assert (v_types (view s1) = m) as Hm by (by rewrite Hv1).
      wp_step. eapply (wp_body_vlen tf fuel e' e data (max_size p)); try done; simpl in *; try lia.
      { rewrite <- Hm in He. exact He. }
      { intros p' l s2 Q' Hv2 Hpre' Hid' HQ'. eapply IH; [done|lia|lia|done|done]. }
      intros r s2 Hv2 H2. rewrite Hv1 in Hv2. destruct (Z.eqb_spec r 0) as [->|].
      * wp_step. eapply wp_close_opened; [exact Hc|done|]. intros s3 Hv3 Hp3. wp_step. apply HQ. split; [done|].
        intros _. destruct (H2 eq_refl) as (Hok & objs & Hobjs & He2).
        split; [intros Hs; eapply pk_ok_eq; [done|]; apply Hok; by eapply pk_ok_eq|]. simpl. split; [done|].
        exists objs. split; [done|]. eapply emits_pk_l; [done|]. by eapply emits_pk.
      * wp_step. eapply wp_close_opened_if; [exact Hc|done|]. intros s3 Hv3 Hp3. wp_step. by apply Hfail.
  - destruct (raw_bytes_typed _ _ Hvl Hty) as (bs & Hraw & Hlen). rewrite Hraw. wp_step. wp_step.
    destruct (Hleft eq_refl) as ((Ht0 & Hr0) & Hle & Hnb).
    rewrite <- Hlen in *. pose proof (len_nonneg bs).
    pose proof (wp_pack_bytes (S (Z.to_nat (len bs))) bs (len bs) 0 p Q s) as Hw.
    cbn zeta in Hw. rewrite Z.sub_0_r, drop_0 in Hw. apply Hw; try done; try lia; clear Hw.
    { rewrite to_nat_len. lia. }
    { intros Hne. apply Hnb. destruct bs; [done|unfold len; simpl; lia]. }
    intros r s1 p1 Hv1 H1. apply HQ. split; [done|]. simpl. intros Hres. rewrite Hvl.
    destruct (H1 Hres) as (o & tt & room & Ho & He & Hok & ? & ? & ? & ->).
    split; [done|]. exists bs, o, tt, room. done.
Qed.
End proof.
