(* ===== verification/PackAttributes.v ===== *)
(** * Attributes (src/src/hdf5/pack_attributes.c)

    [pack_attributes] writes a map from the names of the attributes of an object
    to their contents.  The rules at the end say what it writes and that it
    closes and frees everything on every path. *)
From Stdlib Require Import Strings.Byte Strings.String.
From stdpp Require Import base tactics numbers list gmap propset.
From S2P Require Import Prelude Bytes Msgpack Select H5 PackStore Multislice NumpyType NumpyTypeProof.
From S2P Require Import PackContents PackContentsProof.

Section attributes.
Context `{HS : H5Space, HL : !H5Lib, HM : Msgpack, HP : Packer}.
Context (type_fuel : nat).

(** The [cleanup:] label on a failure, with the values of the local variables. *)
Definition attr_cleanup (need_reclaim : bool) (name : ptr)
    (attr_id dspace_id file_type_id mem_type_id : Z) (buffer : ptr) : M pstore Z :=
  do! when need_reclaim (ignore (lib_call (H5Treclaim mem_type_id dspace_id))) in
  do! free_if name in
  do! close_if H5Aclose attr_id in
  do! close_if H5Sclose dspace_id in
  do! close_if H5Tclose file_type_id in
  do! close_if H5Tclose mem_type_id in
  do! free_if buffer in
  ret (-1)%Z.

(** "Tidy up before we process the next attribute". *)
Definition attr_tidy (need_reclaim : bool) (name : ptr)
    (attr_id dspace_id file_type_id mem_type_id : Z) (buffer : ptr) : M pstore Z :=
  do! when need_reclaim (ignore (lib_call (H5Treclaim mem_type_id dspace_id))) in
  do! free_if name in
  do! ignore (lib_call (H5Aclose attr_id)) in
  do! ignore (lib_call (H5Sclose dspace_id)) in
  do! ignore (lib_call (H5Tclose file_type_id)) in
  do! ignore (lib_call (H5Tclose mem_type_id)) in
  do! free_if buffer in
  ret 0%Z.

(** An iteration from "Get attribute data type information" on. *)
Definition pack_attribute_data (name : ptr) (attr_id dspace_id rank : Z) (dims : list Z) : M pstore Z :=
  let! file_type_id := lib_call (H5Aget_type attr_id) in
  let! mem_type_id := make_packed_native_type type_fuel file_type_id in
  if (mem_type_id <? 0)%Z then
    attr_cleanup false name attr_id dspace_id file_type_id mem_type_id None else
  let! have_vlen := detect_vlen_types type_fuel mem_type_id in
  if (have_vlen <? 0)%Z then
    attr_cleanup false name attr_id dspace_id file_type_id mem_type_id None else
  let! count := lift (for_range (Z.to_nat rank) 0
    (λ i n, d ← arr_get dims i; Some (u64 (n * d))) 1%Z) in
  let! element_size := lib_get (H5Tget_size mem_type_id) in
  let nr_bytes := u64 (count * element_size) in
  let! buffer := malloc mem nr_bytes in
  let! read := lib_call (H5Aread attr_id mem_type_id) in
  if (read.1 <? 0)%Z then
    attr_cleanup false name attr_id dspace_id file_type_id mem_type_id (Some buffer) else
  do! in_buffer read.2 element_size nr_bytes in
  let need_reclaim := (0 <? have_vlen)%Z in
  let cleanup := attr_cleanup need_reclaim name attr_id dspace_id file_type_id mem_type_id
                   (Some buffer) in
  let! header := pack_contents_header type_fuel uninit_pci MSGPACK_MAX_SIZE mem_type_id rank dims nr_bytes in
  if (header.1 =? 0)%Z then
    let! body := pack_contents_body type_fuel type_fuel header.2 mem_type_id count read.2 nr_bytes in
    if (body.1 =? 0)%Z then
      attr_tidy need_reclaim name attr_id dspace_id file_type_id mem_type_id (Some buffer)
    else cleanup
  else cleanup.

(** From "Get attribute dimensions" on. *)
Definition pack_attribute_extent (name : positive) (attr_id : Z) : M pstore Z :=
  let! dspace_id := lib_call (H5Aget_space attr_id) in
  if (dspace_id <? 0)%Z then attr_cleanup false (Some name) attr_id dspace_id (-1) (-1) None else
  let! rank := lib_get (H5Sget_simple_extent_ndims dspace_id) in
  if (HDFSTREAM_MAX_DIMS <? rank)%Z then
    attr_cleanup false (Some name) attr_id dspace_id (-1) (-1) None else
  let! written := lib_get (H5Sget_simple_extent_dims dspace_id) in
  if (written.1 <? 0)%Z then attr_cleanup false (Some name) attr_id dspace_id (-1) (-1) None else
  let! dims := array_of HDFSTREAM_MAX_DIMS written.2 in
  pack_attribute_data (Some name) attr_id dspace_id rank dims.

(** One iteration of the loop; the result is not 0 when it went to cleanup. *)
Definition pack_attribute (obj_id attr_nr : Z) : M pstore Z :=
  let! attr_id := lib_call (H5Aopen_by_idx obj_id attr_nr) in
  if (attr_id <? 0)%Z then attr_cleanup false None attr_id (-1) (-1) (-1) None else
  let! first := lib_get (H5Aget_name attr_id) in
  if (first.1 <? 0)%Z then attr_cleanup false None attr_id (-1) (-1) (-1) None else
  let! name := malloc mem (first.1 + 1)%Z in
  let! second := lib_get (H5Aget_name attr_id) in
  let! text := lift (slice 0 second.1 second.2) in
  check! pack_string text else attr_cleanup false (Some name) attr_id (-1) (-1) (-1) None in
  pack_attribute_extent name attr_id.

Definition pack_attributes (obj_id : Z) : M pstore Z :=
  let! info := lib_get (H5Oget_num_attrs obj_id) in
  if (info.1 <? 0)%Z then ret (-1)%Z else
  let nr_attrs := s32 info.2 in
  check! msgpack_pack_map nr_attrs else ret (-1)%Z in
  let! res := for_checked (Z.to_nat nr_attrs) 0 (pack_attribute obj_id) in
  ret (if (res =? 0)%Z then 0 else -1)%Z.

(** ** What is written *)
Section proof.
Context `{HSL : !H5SpaceLaws, HLL : !H5LibLaws, HML : !MsgpackLaws, HPL : !PackerLaws}.
Implicit Types s : pstore.

(** The entry of an attribute in the map. *)
Definition attr_entry (a : attribute) (kv : list byte * obj) : Prop :=
  kv.1 = at_name a ∧ ∃ t, mem_type_of (at_type a) t ∧
    contents_obj t MSGPACK_MAX_SIZE (at_dims a) (at_data a t) = Some kv.2.

(** An attribute with a short name, at most 32 dimensions and fewer than 2^62
    bytes, that has a value: its dataspace is not null and no string of it is a
    null pointer.  The code checks none of the last two (it packs the
    uninitialized buffer, or takes the length of the null pointer). *)
Definition attr_ok (a : attribute) : Prop :=
  (len (at_name a) < 2 ^ 31)%Z ∧ (len (at_dims a) ≤ HDFSTREAM_MAX_DIMS)%Z ∧
  Forall (λ d, 0 ≤ d < 2 ^ 62)%Z (at_dims a) ∧
  (0 ≤ prod_list (at_dims a) < 2 ^ 62)%Z ∧
  type_depth (at_type a) < type_fuel ∧
  ∀ t, mem_type_of (at_type a) t → (prod_list (at_dims a) * dtype_size t < 2 ^ 62)%Z ∧
    len (at_data a t) = prod_list (at_dims a) ∧ Forall written (at_data a t).

Lemma attr_data_ok o a t :
  attr_ok a → a ∈ obj_attrs o → mem_type_of (at_type a) t → type_ok t →
  (prod_list (at_dims a) * dtype_size t < 2 ^ 62)%Z ∧
  Forall (elem_ok t) (at_data a t) ∧ len (at_data a t) = prod_list (at_dims a).
Proof.
  intros (_ & _ & _ & _ & _ & Ht) Hin Hmt Hok. destruct (Ht t Hmt) as (? & ? & Hw). split; [done|]. split; [|done].
  destruct (at_data_law o a t Hin Hok) as [Hr _]. rewrite Forall_forall in *. intros e He. apply elem_read_ok; auto.
Qed.

(** The local variables: what was opened and allocated since the store had view [V]. *)
Record attr_open (V : hview) (s : pstore) (need_reclaim : bool) (name : ptr)
    (attr_id dspace_id file_type_id mem_type_id : Z) (buffer : ptr) : Prop := {
  ao_neg : ∀ id, (id < 0)%Z → v_types V !! id = None ∧ v_attrs V !! id = None ∧ v_spaces V !! id = None;
  ao_attr : ∃ o, creates attr_id o (v_attrs V) (v_attrs (view s));
  ao_space : ∃ o, creates dspace_id o (v_spaces V) (v_spaces (view s));
  ao_types : ∃ o1 o2 m, creates file_type_id o1 (v_types V) m ∧ creates mem_type_id o2 m (v_types (view s));
  ao_mem : ∃ m, allocs name (v_mem V) m ∧ allocs buffer m (v_mem (view s));
  ao_vlens : v_vlens (view s) = (v_vlens V + if need_reclaim then 1 else 0)%Z;
  ao_objs : v_objs (view s) = v_objs V;
}.

(** Both ends of an iteration close everything. *)
Lemma wp_attr_end V need_reclaim name aid did ft mt buffer (cA cS cT : Z → M pstore ()) r
    (Q : Z → pstore → Prop) s :
  (∀ id (Q : () → pstore → Prop) s,
     (∀ s', view s' = with_attrs (delete id (v_attrs (view s))) (view s) → p_pk s' = p_pk s → Q () s') →
     wp (cA id) Q s) →
  (∀ id (Q : () → pstore → Prop) s,
     (∀ s', view s' = with_spaces (delete id (v_spaces (view s))) (view s) → p_pk s' = p_pk s → Q () s') →
     wp (cS id) Q s) →
  (∀ id (Q : () → pstore → Prop) s,
     (∀ s', view s' = with_types (delete id (v_types (view s))) (view s) → p_pk s' = p_pk s → Q () s') →
     wp (cT id) Q s) →
  attr_open V s need_reclaim name aid did ft mt buffer →
  (∀ s', view s' = V → p_pk s' = p_pk s → Q r s') →
  wp (do! when need_reclaim (ignore (lib_call (H5Treclaim mt did))) in
      do! free_if name in do! cA aid in do! cS did in do! cT ft in do! cT mt in do! free_if buffer in
      ret r) Q s.
Proof.
  intros HA HSp HT [Hneg [oa Ha] [od Hd] (o1 & o2 & m & H1 & H2) (mm & Hm1 & Hm2) Hvl Ho] HQ.
  wp_step.
  assert (Hrec : ∀ (Q' : () → pstore → Prop),
    (∀ s1, view s1 = with_vlens (v_vlens V) (view s) → p_pk s1 = p_pk s → Q' () s1) →
    wp (when need_reclaim (ignore (lib_call (H5Treclaim mt did)))) Q' s).
  { intros Q' HQ'. destruct need_reclaim; simpl.
    - apply wp_ignore, wp_H5Treclaim. intros r' s1 Hv Hp. apply HQ'; [|done]. rewrite Hv, Hvl. f_equal. lia.
    - apply wp_ret, HQ'; [|done]. rewrite <- (Z.add_0_r (v_vlens V)), <- Hvl. by destruct (view s). }
  apply Hrec. clear Hrec. intros s1 Hv1 Hp1.
  wp_step. eapply wp_free_if; [exact Hm1|by rewrite Hv1|]. intros s2 Hv2 Hm3 Hp2. rewrite Hv1 in Hv2, Hm3.
  wp_step. apply HA. intros s3 Hv3 Hp3. rewrite Hv2 in Hv3.
  wp_step. apply HSp. intros s4 Hv4 Hp4. rewrite Hv3 in Hv4.
  wp_step. apply HT. intros s5 Hv5 Hp5. rewrite Hv4 in Hv5.
  wp_step. apply HT. intros s6 Hv6 Hp6. rewrite Hv5 in Hv6.
  wp_step. eapply (wp_free_if buffer _ (v_mem (view s6)) None); [|done|].
  { rewrite Hv6. exact Hm3. }
  intros s7 Hv7 Hm7 Hp7. wp_step. apply HQ; [|congruence].
  rewrite Hv6 in Hv7, Hm7. rewrite Hv7. cbn [allocs] in Hm7.
  apply view_eq; simpl; try done.
  - eapply creates_closed; [exact (creates_swap _ _ _ _ _ _ _ H1 H2 (λ id Hid, proj1 (Hneg id Hid)))|].
    intros; by apply Hneg.
  - eapply creates_closed; [exact Ha|]. intros; by apply Hneg.
  - eapply creates_closed; [exact Hd|]. intros; by apply Hneg.
Qed.

Lemma wp_attr_cleanup V need_reclaim name aid did ft mt buffer (Q : Z → pstore → Prop) s :
  attr_open V s need_reclaim name aid did ft mt buffer →
  (∀ s', view s' = V → Q (-1)%Z s') →
  wp (attr_cleanup need_reclaim name aid did ft mt buffer) Q s.
Proof.
  intros Ho HQ. eapply wp_attr_end; [apply wp_close_if_attr|apply wp_close_if_space|apply wp_close_if_type|..]; eauto.
Qed.

Lemma wp_attr_tidy V need_reclaim name aid did ft mt buffer (Q : Z → pstore → Prop) s :
  attr_open V s need_reclaim name aid did ft mt buffer →
  (∀ s', view s' = V → p_pk s' = p_pk s → Q 0%Z s') →
  wp (attr_tidy need_reclaim name aid did ft mt buffer) Q s.
Proof.
  intros Ho HQ. eapply (wp_attr_end V need_reclaim name aid did ft mt buffer
    (λ id, ignore (lib_call (H5Aclose id))) (λ id, ignore (lib_call (H5Sclose id)))
    (λ id, ignore (lib_call (H5Tclose id)))); eauto.
  - intros. apply wp_ignore, wp_H5Aclose. auto.
  - intros. apply wp_ignore, wp_H5Sclose. auto.
  - intros. apply wp_ignore, wp_H5Tclose. auto.
Qed.

Lemma creates_none {A} (m : gmap Z A) : creates (-1) None m m.
Proof. by left. Qed.

(** The product of valid dimensions, as the code computes it. *)
Lemma dims_product dims :
  (0 ≤ prod_list dims < 2 ^ 62)%Z →
  for_range (Z.to_nat (len dims)) 0 (λ i n, d ← arr_get dims i; Some (u64 (n * d))) 1%Z =
    Some (prod_list dims).
Proof.
  intros Hp. pose proof (len_nonneg dims). rewrite product_spec by lia.
  rewrite to_nat_len, firstn_all, u64_small by (unfold is_u64; lia). done.
Qed.

(** The contents of an open attribute. *)
Definition attr_contents (a : attribute) (s : pstore) (s' : pstore) : Prop :=
  pk_ok s' ∧ ∃ t ob, mem_type_of (at_type a) t ∧
    contents_obj t MSGPACK_MAX_SIZE (at_dims a) (at_data a t) = Some ob ∧ emits (encode ob) s s'.

Lemma wp_H5Aread aid mt a t (Q : Z * list elem → pstore → Prop) s :
  v_attrs (view s) !! aid = Some a → v_types (view s) !! mt = Some t →
  (∀ r d s', (r < 0)%Z → view s' = view s → p_pk s' = p_pk s → Q (r, d) s') →
  (∀ r s', (0 ≤ r)%Z → view s' = with_vlens (v_vlens (view s) + if has_vlen t then 1 else 0) (view s) →
     p_pk s' = p_pk s → Q (r, at_data a t) s') →
  wp (lib_call (H5Aread aid mt)) Q s.
Proof.
  intros Ha Ht HQ1 HQ2. apply wp_lib. intros [r d] l Hrd. pose proof (aread_law aid mt (p_h5 s) a t Ha Ht) as Hlaw.
  rewrite Hrd in Hlaw. destruct Hlaw as (Hs & [[? Hl]|(? & -> & Hl)]).
  - apply HQ1; [done| |done]. unfold view. simpl. by rewrite Hl, Hs.
  - apply HQ2; [done| |done]. unfold view, with_vlens. simpl. by rewrite Hl, Hs.
Qed.

(** Header and body, between the two ends of an iteration. *)
Lemma wp_write_attr mt t dims data (cleanup tidy : M pstore Z) (Q : Z → pstore → Prop) s :
  v_types (view s) !! mt = Some t → type_depth t < type_fuel → type_ok t →
  (len dims ≤ HDFSTREAM_MAX_DIMS)%Z → Forall (λ d, 0 ≤ d < 2 ^ 62)%Z dims →
  len data = prod_list dims → (len data < 2 ^ 62)%Z → (len data * dtype_size t < 2 ^ 62)%Z → Forall (elem_ok t) data →
  (∀ s', view s' = view s → wp cleanup Q s') →
  (∀ s' ob, view s' = view s → pk_ok s' → contents_obj t MSGPACK_MAX_SIZE dims data = Some ob →
     emits (encode ob) s s' → wp tidy Q s') →
  wp (let nb := (len data * dtype_size t)%Z in
      let! header := pack_contents_header type_fuel uninit_pci MSGPACK_MAX_SIZE mt (len dims) dims nb in
      if (header.1 =? 0)%Z then
        let! body := pack_contents_body type_fuel type_fuel header.2 mt (len data) data nb in
        if (body.1 =? 0)%Z then tidy else cleanup
      else cleanup) Q s.
Proof.
  intros Hmt Htd Htok Hrank Hdims Hlen Hmax Hsize Helem Hfail HQ. pose proof (dtype_size_nonneg _ Htok).
  unfold MSGPACK_MAX_SIZE, HDFSTREAM_MAX_DIMS in *. pose proof (len_nonneg dims). pose proof (len_nonneg data). cbv zeta.
  set (nb := (len data * dtype_size t)%Z) in *.
  wp_step. apply wp_contents_header; try nia; [by rewrite Hmt| |].
  { rewrite to_nat_len, firstn_all. eapply Forall_impl; [exact Hdims|]. unfold is_u64. lia. }
  intros [r6 p6] s6 H6. rewrite to_nat_len, firstn_all in H6. pose proof H6 as [Hv6 H6']. simpl in *.
  destruct (Z.eqb_spec r6 0) as [->|]; [|by apply Hfail].
  destruct (H6' eq_refl) as (_ & t' & hd & Ht' & (Hmx & Hpv & Hpf) & _).
  assert (t' = t) as -> by congruence.
  wp_step. apply wp_contents_body with (t := t); [by rewrite Hv6|lia|lia| |].
  { split; [lia|done|done| |lia]. intros Hf. destruct (Hpf Hf) as (-> & -> & ->).
    split; [lia|]. split; [lia|]. intros. apply Z.div_str_pos. lia. }
  intros [r7 p7] s7 H7. pose proof H7 as [Hv7 _]. simpl.
  destruct (Z.eqb_spec r7 0) as [->|]; [|apply Hfail; congruence].
  destruct (contents_complete (v_types (view s) !! mt) t (2 ^ 32 - 1) dims data
    s 0 p6 s6 0 p7 s7) as (Hok7 & ob & Hob7 & He7); try done; try apply H7.
  { intros _. rewrite <- Hlen. apply u64_small. unfold is_u64. lia. }
  apply (HQ s7 ob); [congruence|done|done|done].
Qed.

Lemma attr_open_more V s name aid did T M' ft mt buffer nr s' :
  attr_open V s false name aid did (-1) (-1) None →
  (∃ o1 o2 m, creates ft o1 (v_types (view s)) m ∧ creates mt o2 m T) →
  allocs buffer (v_mem (view s)) M' →
  view s' = View T (v_objs (view s)) (v_attrs (view s)) (v_vlens (view s) + if (nr : bool) then 1 else 0)%Z
    (v_spaces (view s)) M' →
  attr_open V s' nr name aid did ft mt buffer.
Proof.
  intros [Hneg Hoa Hod (o1 & o2 & m0 & H1 & H2) (mm & Hm1 & Hm2) Hvl Hob] Ht Hal Hv.
  assert (m0 = v_types V) as -> by (destruct H1 as [[_ ?]|(? & _ & ? & _)]; [done|lia]).
  assert (v_types (view s) = v_types V) as HT by (destruct H2 as [[_ ?]|(? & _ & ? & _)]; [done|lia]).
  rewrite HT in Ht. cbn [allocs] in Hm2. split; rewrite ?Hv; cbn [v_types v_objs v_attrs v_vlens v_spaces v_mem]; eauto 8; [|lia].
  exists mm. split; [done|]. by rewrite <- Hm2.
Qed.

Lemma wp_attr_data V name aid did o a (Q : Z → pstore → Prop) s :
  attr_open V s false name aid did (-1) (-1) None → attr_ok a → a ∈ obj_attrs o →
  v_attrs (view s) !! aid = Some a →
  (∀ r s', view s' = V → (r = 0%Z → attr_contents a s s') → Q r s') →
  wp (pack_attribute_data name aid did (len (at_dims a)) (at_dims a)) Q s.
Proof.
  intros Ho Hok Hin Haid HQ. pose proof Hok as (Hname & Hrank & Hdims & Hprod & Hdep & _). unfold pack_attribute_data.
  assert (Hfail : ∀ s' nr ft mt bf, attr_open V s' nr name aid did ft mt bf →
    wp (attr_cleanup nr name aid did ft mt bf) Q s').
  { intros. eapply wp_attr_cleanup; [done|]. intros s2 Hv2. by apply HQ. }
  eapply wp_file_and_mem_type; [apply aget_type_law| |].
  { change (t_attrs (tables (p_h5 s))) with (v_attrs (view s)). by rewrite Haid. }
  intros ft mt s2 T Hv2 Hp2 Hpair Hmt.
  change (t_attrs (tables (p_h5 s))) with (v_attrs (view s)) in Hmt. rewrite Haid in Hmt. simpl in Hmt.
  assert (Hfail2 : ∀ s', view s' = view s2 → wp (attr_cleanup false name aid did ft mt None) Q s').
  { intros s' Hv'. apply Hfail. eapply attr_open_more; [exact Ho|exact Hpair|done|].
    rewrite Hv', Hv2. apply view_eq; simpl; done || lia. }
  case_match eqn:Emt; [by apply Hfail2|]. destruct Hmt as (t0 & t & [= <-] & Hmt & HT & Htd & Htok); [lia|].
  wp_step. apply (wp_detect_known _ _ t); [by rewrite Hv2|done|]. intros vk s3 Hv3 Hp3 Hvk.
  destruct (vk <? 0)%Z eqn:Evk; [by apply Hfail2|]. destruct Hvk as [?| ->]; [lia|].
  wp_step. eapply wp_lift; [by apply dims_product|].
  wp_step. apply wp_lib_get. erewrite (get_size_law _ _ t) by (rewrite <- view_types, Hv3, Hv2; exact HT).
  pose proof (dtype_size_nonneg _ Htok). destruct (attr_data_ok o a t Hok Hin Hmt Htok) as (Hsize & Hty & Hlen).
  rewrite u64_small by (unfold is_u64; nia). rewrite <- Hlen in *. cbn zeta.
  wp_step. apply wp_pmalloc. intros buffer s4 Hb4 Hv4 Hp4 _. rewrite Hv3, Hv2 in Hb4, Hv4. simpl in Hb4.
  set (M' := <[buffer := (len (at_data a t) * dtype_size t)%Z]> (v_mem (view s))).
  assert (Hal : allocs (Some buffer) (v_mem (view s)) M') by (simpl; eauto).
  wp_step. apply (wp_H5Aread _ _ a t); [by rewrite Hv4|by rewrite Hv4|..].
  { intros r d s5 Hr Hv5 Hp5. simpl. replace (r <? 0)%Z with true by lia.
    apply Hfail. eapply attr_open_more; [exact Ho|exact Hpair|exact Hal|].
    rewrite Hv5, Hv4. apply view_eq; simpl; done || lia. }
  intros r s5 Hr Hv5 Hp5. simpl. replace (r <? 0)%Z with false by lia.
  wp_step. unfold in_buffer. rewrite Z.leb_refl. wp_step.
  assert ((0 <? (if has_vlen t then 1 else 0))%Z = has_vlen t) as -> by (by destruct (has_vlen t)).
  assert (Hopen : ∀ s', view s' = view s5 → attr_open V s' (has_vlen t) name aid did ft mt (Some buffer)).
  { intros s' Hv'. eapply attr_open_more; [exact Ho|exact Hpair|exact Hal|]. by rewrite Hv', Hv5, Hv4. }
  eapply (wp_write_attr mt t); try done; [by rewrite Hv5, Hv4|lia|by auto|].
  intros s6 ob Hv6 Hok6 Hob He6. eapply wp_attr_tidy; [by apply Hopen|].
  intros s8 Hv8 Hp8. apply HQ; [done|]. intros _. split; [by eapply pk_ok_eq|].
  exists t, ob. split; [done|]. split; [done|]. eapply emits_pk; [|exact Hp8]. eapply emits_pk_l; [|exact He6]. congruence.
Qed.

(** One attribute. *)
Definition attr_result (a : option attribute) (s : pstore) (r : Z) (s' : pstore) : Prop :=
  view s' = view s ∧
  (r = 0%Z → pk_ok s' ∧ ∃ a' kv, a = Some a' ∧ attr_entry a' kv ∧
     emits (encode_str kv.1 ++ encode kv.2) s s').

Lemma wp_attr_extent V name aid o a (Q : Z → pstore → Prop) s :
  attr_open V s false (Some name) aid (-1) (-1) (-1) None → v_spaces (view s) = v_spaces V →
  attr_ok a → a ∈ obj_attrs o → v_attrs (view s) !! aid = Some a →
  (∀ r s', view s' = V → (r = 0%Z → attr_contents a s s') → Q r s') →
  wp (pack_attribute_extent name aid) Q s.
Proof.
  intros Ho Hsps Hok Hin Haid HQ. unfold pack_attribute_extent. pose proof Hok as (_ & Hrank & _).
  assert (Hfail : ∀ s' did, attr_open V s' false (Some name) aid did (-1) (-1) None →
    wp (attr_cleanup false (Some name) aid did (-1) (-1) None) Q s').
  { intros. eapply wp_attr_cleanup; [done|]. intros s2 Hv2. by apply HQ. }
  eapply wp_open_space; [by eapply (aget_space_law _ _ a)|]. rewrite Hsps. intros did s1 m Hv1 Hp1 Hsp Hdid.
  assert (Ho1 : attr_open V s1 false (Some name) aid did (-1) (-1) None).
  { destruct Ho. split; rewrite ?Hv1; done. }
  destruct (did <? 0)%Z eqn:Edid; [by apply Hfail|]. destruct Hdid as (sp & Hext & _ & ->); [lia|].
  eapply wp_space_extent; [rewrite Hv1; apply lookup_insert_eq|by rewrite Hext|by apply Hfail|]. rewrite Hext.
  eapply wp_attr_data; [exact Ho1|exact Hok|exact Hin|by rewrite Hv1|].
  intros r s5 Hv5 H5. apply HQ; [done|]. intros Hr. destruct (H5 Hr) as (? & t & ob & ? & ? & He).
  split; [done|]. exists t, ob. split; [done|]. split; [done|]. by eapply emits_pk_l.
Qed.

Lemma wp_pack_attribute oid o i (Q : Z → pstore → Prop) s :
  v_objs (view s) !! oid = Some o → Forall attr_ok (obj_attrs o) → (0 ≤ i)%Z → 0 < type_fuel →
  (∀ r s', attr_result (obj_attrs o !! Z.to_nat i) s r s' → Q r s') →
  wp (pack_attribute oid i) Q s.
Proof.
  intros Hoid Hok Hi Htf HQ. unfold pack_attribute.
  assert (Hfail : ∀ s' nr nm aid did ft mt bf, attr_open (view s) s' nr nm aid did ft mt bf →
    wp (attr_cleanup nr nm aid did ft mt bf) Q s').
  { intros. eapply wp_attr_cleanup; [done|]. intros s2 Hv2. apply HQ. by split. }
  assert (Hneg : ∀ id, (id < 0)%Z → v_types (view s) !! id = None ∧ v_attrs (view s) !! id = None ∧
    v_spaces (view s) !! id = None).
  { intros id Hid. split_and!; [by apply types_neg|by apply attrs_neg|by apply spaces_neg]. }
  remember (view s) as V eqn:HV. symmetry in HV.
  wp_step. eapply wp_new_attr; [by apply aopen_law|]. intros aid s1 ma Hca Hv1 Hp1.
  view_step Hv1 HV. rewrite HV in Hca.
  change (t_objs (tables (p_h5 s))) with (v_objs (view s)) in Hca. rewrite HV, Hoid in Hca. simpl in Hca.
  assert (Hopen : ∀ s' nm m, view s' = View (v_types V) (v_objs V) ma (v_vlens V) (v_spaces V) m →
    allocs nm (v_mem V) m → attr_open V s' false nm aid (-1) (-1) (-1) None).
  { intros s' nm m Hv' Hal. split; rewrite ?Hv'; simpl; eauto 6 using creates_none. lia. }
  destruct (aid <? 0)%Z eqn:Eaid; [by eapply Hfail, Hopen|].
  destruct Hca as [[? _]|(a & Ha & Hpos & Hna & Hma)]; [lia|]. rewrite Ha in HQ.
  rewrite Forall_lookup in Hok. pose proof (Hok _ _ Ha) as Haok.
  assert (Hat : ma !! aid = Some a) by (rewrite Hma; apply lookup_insert_eq).
  wp_step. apply wp_lib_get. pose proof (aget_name_law aid (p_h5 s1)) as Hnm.
  change (t_attrs (tables (p_h5 s1))) with (v_attrs (view s1)) in Hnm. rewrite Hv1 in Hnm. simpl in Hnm.
  destruct (H5Aget_name aid (p_h5 s1)) as [n text] eqn:Etext. simpl in *.
  destruct (n <? 0)%Z eqn:En; [by eapply Hfail, Hopen|].
  destruct Hnm as [?|(a' & Ha' & -> & ->)]; [lia|]. assert (a' = a) as -> by congruence.
  wp_step. apply wp_pmalloc. intros name s2 Hname2 Hv2 Hp2 Hh2. view_step Hv2 Hv1. rewrite Hv1 in Hname2.
  wp_step. apply wp_lib_get. rewrite Hh2, Etext. simpl. pose proof (len_nonneg (at_name a)).
  wp_step. eapply wp_lift.
  { unfold slice. rewrite option_guard_True by lia. simpl. by rewrite drop_0, to_nat_len, firstn_all. }
  assert (Hal : allocs (Some name) (v_mem V) (<[name := (len (at_name a) + 1)%Z]> (v_mem V))) by (simpl; eauto).
  apply wp_check_string; [by apply len_u64, Haok| |]; last first.
  { intros s3 Hv3. eapply Hfail, Hopen; [by rewrite Hv3, Hv2|exact Hal]. }
  intros s3 Hv3 He3 _. rewrite Hv2 in Hv3.
  eapply wp_attr_extent; [eapply Hopen; [exact Hv3|exact Hal]|by rewrite Hv3|exact Haok|
    eapply list_elem_of_lookup_2; exact Ha|by rewrite Hv3|].
  intros r s5 Hv5 H5. apply HQ. split; [congruence|]. intros ->.
  destruct (H5 eq_refl) as (Hok5 & t & ob & Hmt & Hob & He5). split; [done|].
  exists a, (at_name a, ob). split; [done|]. split; [split; [done|]; by exists t|]. simpl.
  eapply emits_pk_l; [|by eapply emits_trans]. congruence.
Qed.
(** All attributes: a map from their names to their contents. *)
Definition attrs_result (l : list attribute) (s : pstore) (r : Z) (s' : pstore) : Prop :=
  view s' = view s ∧
  (r = 0%Z → pk_ok s' ∧ ∃ kvs, Forall2 attr_entry l kvs ∧ emits (encode (OMap kvs)) s s').

Lemma wp_pack_attributes oid o (Q : Z → pstore → Prop) s :
  v_objs (view s) !! oid = Some o → Forall attr_ok (obj_attrs o) → (len (obj_attrs o) < 2 ^ 31)%Z →
  0 < type_fuel → (∀ r s', attrs_result (obj_attrs o) s r s' → Q r s') →
  wp (pack_attributes oid) Q s.
Proof.
  intros Hoid Hok Hlen Htf HQ. unfold pack_attributes. pose proof (len_nonneg (obj_attrs o)).
  assert (Hfail : ∀ s', view s' = view s → Q (-1)%Z s') by (intros; by apply HQ).
  wp_step. apply wp_lib_get. pose proof (num_attrs_law oid (p_h5 s)) as Hnum.
  destruct (H5Oget_num_attrs oid (p_h5 s)) as [r0 n]. simpl.
  case_match eqn:E0; [wp_step; by apply Hfail|].
  destruct Hnum as [?|(o' & Ho' & ->)]; [lia|].
  assert (o' = o) as ->.
  { change (t_objs (tables (p_h5 s))) with (v_objs (view s)) in Ho'. congruence. }
  assert (s32 (len (obj_attrs o)) = len (obj_attrs o)) as -> by (unfold s32; rewrite Z.mod_small; lia).
  apply wp_check_header; [|intros s1 Hv1; wp_step; by apply Hfail]. intros s1 Hv1 He1 Hok1.
  rewrite u64_small in He1 by (unfold is_u64; lia). rewrite to_nat_len.
  wp_step. eapply (wp_for_checked (λ j s', view s' = view s ∧ pk_ok s' ∧
      ∃ kvs, Forall2 attr_entry (take (Z.to_nat j) (obj_attrs o)) kvs ∧
        emits (concat (map (λ kv, encode_str kv.1 ++ encode kv.2) kvs)) s1 s') (λ r s', view s' = view s)).
  - intros j s2 Hj (Hv2 & Hok2 & kvs & Hkvs & He2).
    apply (wp_pack_attribute oid o); [by rewrite Hv2|done|lia|done|].
    intros r s3 [Hv3 H3]. destruct (Z.eqb_spec r 0) as [->|]; [|congruence].
    destruct (H3 eq_refl) as (Hok3 & a & kv & Ha & Hkv & He3). split; [congruence|]. split; [done|].
    replace (Z.to_nat (j + 1)) with (S (Z.to_nat j)) by lia. exists (kvs ++ [kv]).
    rewrite (take_S_r _ _ _ Ha). split; [by apply Forall2_app; [|constructor]|].
    rewrite map_app, concat_app. simpl. rewrite app_nil_r. by eapply emits_trans.
  - split; [done|]. split; [done|]. exists []. split; [constructor|apply emits_refl].
  - intros s2 (Hv2 & Hok2 & kvs & Hkvs & He2). wp_step. apply HQ. split; [done|]. intros _. split; [done|].
    rewrite Z.add_0_l, Nat2Z.id, firstn_all in Hkvs. exists kvs. split; [done|]. simpl.
    assert (len kvs = len (obj_attrs o)) as -> by (unfold len; by rewrite (Forall2_length _ _ _ Hkvs)).
    by eapply emits_trans.
  - intros r s2 Hr Hv2. wp_step. replace (r =? 0)%Z with false by lia. by apply Hfail.
Qed.
End proof.
End attributes.
