(* ===== verification/Points.v ===== *)
(** * The points of a request, in the order they are read

    A selection of rows is read row by row; within a row the points of the other
    dimensions follow in lexicographic order.  The functions here list the
    points of a selection in that order. *)
From stdpp Require Import base tactics numbers list propset sorting.
From S2P Require Import Prelude Bytes Select H5 Multislice.

(** The points with a first coordinate from [rs] and the others from [tl]. *)
Definition row_points (tl : list (list Z)) (rs : list Z) : list (list Z) := rs ≫= λ r, cons r <$> tl.
(** A product of intervals. *)
Definition box (l : list (Z * Z)) : list (list Z) := foldr (λ sc tl, row_points tl (rows sc)) [[]] l.

Lemma row_points_cons tl r rs : row_points tl (r :: rs) = (cons r <$> tl) ++ row_points tl rs.
Proof. done. Qed.
Lemma row_points_app tl r1 r2 : row_points tl (r1 ++ r2) = row_points tl r1 ++ row_points tl r2.
Proof. unfold row_points. apply bind_app. Qed.
Lemma row_points_nil rs : row_points [] rs = [].
Proof. induction rs; [done|]. by rewrite row_points_cons. Qed.

Lemma len_row_points tl rs : len (row_points tl rs) = (len rs * len tl)%Z.
Proof.
  induction rs as [|r rs IH]; [done|]. rewrite row_points_cons, len_app, IH.
  unfold len. rewrite length_fmap. simpl. lia.
Qed.

Lemma elem_of_row_points p tl rs : p ∈ row_points tl rs ↔ ∃ r q, p = r :: q ∧ r ∈ rs ∧ q ∈ tl.
Proof.
  unfold row_points. rewrite list_elem_of_bind. split.
  - intros (r & (q & -> & ?)%list_elem_of_fmap & ?). eauto.
  - intros (r & q & -> & ? & ?). exists r. split; [|done]. apply list_elem_of_fmap. eauto.
Qed.

Lemma row_points_sorted tl rs :
  StronglySorted lex_lt tl → StronglySorted Z.lt rs → StronglySorted lex_lt (row_points tl rs).
Proof.
  intros Ht. induction 1 as [|r rs Hrs IH Hr]; [constructor|]. rewrite row_points_cons.
  apply StronglySorted_app_2; [|done|].
  - clear -Ht. induction Ht as [|q tl Ht IH Hq]; simpl; constructor; [done|].
    apply Forall_fmap. eapply Forall_impl; [exact Hq|]. intros p ?. simpl. auto.
  - intros x y (q & -> & _)%list_elem_of_fmap (r' & q' & -> & Hr' & _)%elem_of_row_points.
    rewrite Forall_forall in Hr. left. auto.
Qed.

Lemma box_sorted l : StronglySorted lex_lt (box l).
Proof.
  induction l as [|sc l IH]; simpl; [repeat constructor|]. apply row_points_sorted; [done|apply seqZ_sorted].
Qed.

Lemma elem_of_box p l : p ∈ box l ↔ Forall2 (λ x sc, (sc.1 ≤ x < sc.1 + sc.2)%Z) p l.
Proof.
  revert p. induction l as [|sc l IH]; intros p; simpl.
  - rewrite list_elem_of_singleton. split; [by intros ->|by inversion 1].
  - rewrite elem_of_row_points. split.
    + intros (r & q & -> & Hr & Hq). constructor; [|by apply IH]. unfold rows in Hr. by apply elem_of_seqZ in Hr.
    + inversion 1 as [|r sc' q l' Hr Hq]; subst. exists r, q. split; [done|]. split; [|by apply IH].
      unfold rows. by apply elem_of_seqZ.
Qed.

Lemma len_box l : Forall (λ sc, 0 ≤ sc.2)%Z l → len (box l) = prod_list l.*2.
Proof.
  induction 1 as [|sc l Hsc Hl IH]; simpl; [done|].
  rewrite len_row_points, IH. f_equal. unfold rows, len. rewrite length_seqZ. lia.
Qed.

Lemma box_empty l i sc : l !! i = Some sc → (sc.2 ≤ 0)%Z → box l = [].
Proof.
  revert i. induction l as [|sc' l IH]; intros [|i] Hi Hsc; simplify_eq/=.
  - unfold rows. by rewrite seqZ_nil.
  - by erewrite IH, row_points_nil.
Qed.

(** The points of a dataset, or of the slices of a request. *)
Definition all_points (dims : list Z) : list (list Z) := box ((λ d, (0%Z, d)) <$> dims).

Definition request_tail (rank : Z) (starts counts : list Z) : list (Z * Z) :=
  zip (take (Z.to_nat (rank - 1)) (tail starts)) (take (Z.to_nat (rank - 1)) (tail counts)).
Definition request_points (rank n : Z) (starts counts : list Z) : list (list Z) :=
  if (rank =? 0)%Z then [[]] else
  row_points (box (request_tail rank starts counts)) (all_rows (slices_of rank n starts counts)).
Definition request_shape (rank n : Z) (starts counts : list Z) : list Z :=
  if (rank =? 0)%Z then [] else
  len (all_rows (slices_of rank n starts counts)) :: take (Z.to_nat (rank - 1)) (tail counts).

Lemma enumerates_slab l : enumerates (box l) (slab l.*1 l.*2).
Proof.
  split; [apply box_sorted|]. intros p. rewrite elem_of_box. unfold slab. by rewrite elem_of_PropSet, zip_fst_snd.
Qed.

Lemma enumerates_proper pts P P' : P ≡ P' → enumerates pts P → enumerates pts P'.
Proof. intros HP [Hs He]. split; [done|]. intros p. by rewrite He, HP. Qed.

(** The rows of a buffer are the points of its slabs. *)
Lemma enumerates_slabs n st ct l :
  0 < n → StronglySorted Z.lt (all_rows l) →
  enumerates (row_points (box (zip (take (n - 1) (tail st)) (take (n - 1) (tail ct)))) (all_rows l))
    (slabs n st ct l).
Proof.
  intros Hn Hs. split; [by apply row_points_sorted, Hs; apply box_sorted|]. intros p.
  rewrite elem_of_row_points. unfold slabs, slab. rewrite elem_of_PropSet.
  destruct n as [|n]; [lia|]. simpl. rewrite Nat.sub_0_r. split.
  - intros (r & q & -> & Hr & Hq). apply elem_of_all_rows in Hr as (s & c & Hsc & Hr).
    exists (s, c). split; [done|]. rewrite elem_of_PropSet. simpl. constructor; [done|]. by apply elem_of_box.
  - intros ((s & c) & Hsc & Hp). rewrite elem_of_PropSet in Hp. simpl in Hp.
    inversion Hp as [|r ? q ? Hr Hq]; subst. exists r, q. split; [done|].
    split; [apply elem_of_all_rows; eauto|]. by apply elem_of_box.
Qed.

(** ** The order of the points is determined *)

Lemma lex_lt_asym p q : lex_lt p q → ¬ lex_lt q p.
Proof.
  revert q. induction p as [|x p IH]; intros [|y q]; simpl; try done.
  intros [?|[-> ?]] [?|[? ?]]; try lia. by eapply IH.
Qed.

Lemma lex_sorted_NoDup l : StronglySorted lex_lt l → NoDup l.
Proof.
  induction 1 as [|p l Hl IH Hp]; constructor; [|done]. intros Hin.
  rewrite Forall_forall in Hp. specialize (Hp p Hin). by apply (lex_lt_asym p p).
Qed.

Lemma enumerates_unique l1 l2 P : enumerates l1 P → enumerates l2 P → l1 = l2.
Proof.
  intros [Hs1 H1] [Hs2 H2]. eapply (StronglySorted_unique_strong lex_lt); [|done|done|].
  - intros p q _ _ Hpq Hqp. exfalso. by eapply lex_lt_asym.
  - apply NoDup_Permutation; [by apply lex_sorted_NoDup..|]. intros p. by rewrite H1, H2.
Qed.

(** ** Sizes *)

Lemma sorted_length (l : list Z) lo hi :
  StronglySorted Z.lt l → Forall (λ x, lo ≤ x < hi)%Z l → (lo ≤ hi)%Z → (len l ≤ hi - lo)%Z.
Proof.
  intros Hs. revert lo. induction Hs as [|x l Hs IH Hx]; intros lo; [unfold len; simpl; lia|].
  intros [Hlo Hl]%Forall_cons Hle.
  assert (len l ≤ hi - (x + 1))%Z; [|unfold len in *; simpl; lia].
  apply IH; [|lia]. rewrite Forall_forall in Hx, Hl |- *. intros y Hy.
  specialize (Hx y Hy). specialize (Hl y Hy). lia.
Qed.

Lemma prod_list_le l1 l2 :
  Forall2 (λ a b, 0 ≤ a ≤ b)%Z l1 l2 → (0 ≤ prod_list l1 ≤ prod_list l2)%Z.
Proof. induction 1; simpl; nia. Qed.
Lemma prod_list_zero l i : l !! i = Some 0%Z → prod_list l = 0%Z.
Proof. revert i. induction l as [|x l IH]; intros [|i] Hi; simplify_eq/=; [done|]. erewrite IH by done. lia. Qed.
Lemma prod_list_nonneg l : Forall (λ x, 0 ≤ x)%Z l → (0 ≤ prod_list l)%Z.
Proof. induction 1; simpl; nia. Qed.
Lemma prod_list_pos l : Forall (λ x, 0 < x)%Z l → (0 < prod_list l)%Z.
Proof. induction 1; simpl; nia. Qed.

(** ** Valid requests *)
Section request.
Context (rank n : Z) (starts counts dims : list Z).
Context (Hrq : request_ok rank n starts counts dims) (Hv : slices_valid rank n starts counts dims).
Context (Hrank : (0 < rank)%Z) (Hn : (1 ≤ n)%Z).

Lemma request_sorted : StronglySorted Z.lt (all_rows (slices_of rank n starts counts)).
Proof.
  apply ascending_rows. intros i j s c s' c' Hij Hi Hj. by eapply valid_ascending.
Qed.

Lemma request_rows_inside :
  Forall (λ r, 0 ≤ r < dims !!! 0%nat)%Z (all_rows (slices_of rank n starts counts)).
Proof.
  apply Forall_forall. intros r (s & c & Hsc & Hr)%elem_of_all_rows.
  apply list_elem_of_lookup in Hsc as [i Hi]. apply slices_of_lookup in Hi as (-> & -> & Hi).
  destruct (Hv (Z.of_nat i) ltac:(lia)) as [H0 _]. specialize (H0 0%Z ltac:(lia)).
  change (Z.to_nat 0) with 0%nat in H0.
  pose proof (rq_u64 _ _ _ _ _ Hrq) as (Hs & _ & _).
  pose proof (entry_u64 rank starts (Z.of_nat i) 0 Hs). unfold is_u64 in *. lia.
Qed.

Lemma request_tail_lookup i :
  (Z.of_nat i < rank - 1)%Z →
  request_tail rank starts counts !! i = Some (starts !!! S i, counts !!! S i).
Proof.
  intros Hi. pose proof (rq_starts _ _ _ _ _ Hrq). pose proof (rq_counts _ _ _ _ _ Hrq).
  unfold request_tail. rewrite lookup_zip_with, !lookup_take_lt, !lookup_tail by lia.
  assert (rank ≤ rank * n)%Z by nia.
  rewrite !(list_lookup_lookup_total_lt _ (S i)) by lia. done.
Qed.
Lemma length_request_tail : length (request_tail rank starts counts) = Z.to_nat (rank - 1).
Proof.
  pose proof (rq_starts _ _ _ _ _ Hrq). pose proof (rq_counts _ _ _ _ _ Hrq).
  unfold request_tail. rewrite length_zip_with, !length_take, !List.length_tl.
  assert (rank ≤ rank * n)%Z by nia. lia.
Qed.
Lemma request_tail_counts : (request_tail rank starts counts).*2 = take (Z.to_nat (rank - 1)) (tail counts).
Proof.
  pose proof (rq_starts _ _ _ _ _ Hrq). pose proof (rq_counts _ _ _ _ _ Hrq).
  unfold request_tail. rewrite snd_zip; [done|]. rewrite !length_take, !List.length_tl.
  assert (rank ≤ rank * n)%Z by nia. lia.
Qed.
Lemma request_counts_nonneg : Forall (λ sc, 0 ≤ sc.2)%Z (request_tail rank starts counts).
Proof.
  apply Forall_lookup. intros i sc Hi. pose proof (lookup_lt_Some _ _ _ Hi) as Hl.
  rewrite length_request_tail in Hl. rewrite request_tail_lookup in Hi by lia. simplify_eq/=.
  pose proof (rq_u64 _ _ _ _ _ Hrq) as (_ & Hc & _). pose proof (rq_counts _ _ _ _ _ Hrq).
  eapply Forall_lookup_1 in Hc; [|apply (list_lookup_lookup_total_lt counts (S i)); nia].
  unfold is_u64 in Hc. lia.
Qed.

Lemma len_request_points :
  len (request_points rank n starts counts) = prod_list (request_shape rank n starts counts).
Proof.
  unfold request_points, request_shape. replace (rank =? 0)%Z with false by lia.
  rewrite len_row_points, len_box by apply request_counts_nonneg. by rewrite request_tail_counts.
Qed.

Lemma request_shape_u64 : Forall is_u64 (request_shape rank n starts counts).
Proof.
  unfold request_shape. replace (rank =? 0)%Z with false by lia.
  pose proof (rq_u64 _ _ _ _ _ Hrq) as (_ & Hc & Hd). constructor.
  - assert (is_u64 (dims !!! 0%nat)) as H0.
    { pose proof (rq_dims _ _ _ _ _ Hrq). eapply Forall_lookup_1; [exact Hd|].
      apply list_lookup_lookup_total_lt. lia. }
    unfold is_u64 in *. pose proof (sorted_length _ 0 (dims !!! 0%nat) request_sorted request_rows_inside).
    pose proof (len_nonneg (all_rows (slices_of rank n starts counts))). lia.
  - apply Forall_take. destruct counts as [|c cs]; simpl; [constructor|]. by apply Forall_cons in Hc as [_ ?].
Qed.

Lemma request_shape_bound :
  rank = len dims → (0 ≤ prod_list (request_shape rank n starts counts) ≤ prod_list dims)%Z.
Proof.
  intros Hd. unfold request_shape. replace (rank =? 0)%Z with false by lia.
  assert (∃ d0 ds, dims = d0 :: ds) as (d0 & ds & Ed).
  { destruct dims as [|d0 ds]; [unfold len in Hd; simpl in Hd; lia|eauto]. }
  apply prod_list_le. rewrite Ed.
  assert (d0 = dims !!! 0%nat) as Hd0 by (by rewrite Ed).
  constructor.
  - pose proof (rq_u64 _ _ _ _ _ Hrq) as (_ & _ & Hu). rewrite Ed in Hu. apply Forall_cons in Hu as [Hu _].
    unfold is_u64 in Hu. pose proof (sorted_length _ 0 (dims !!! 0%nat) request_sorted request_rows_inside).
    split; [apply len_nonneg|]. lia.
  - rewrite <- request_tail_counts. apply Forall2_same_length_lookup_2.
    { rewrite length_fmap, length_request_tail. unfold len in Hd. rewrite Ed in Hd. simpl in Hd. lia. }
    intros i c d Hc Hdi. rewrite list_lookup_fmap in Hc. apply fmap_Some in Hc as (sc & Hsc & ->).
    pose proof (Forall_lookup_1 _ _ _ _ request_counts_nonneg Hsc) as H0. simpl in H0. split; [done|].
    pose proof (lookup_lt_Some _ _ _ Hsc) as Hl. rewrite length_request_tail in Hl.
    rewrite request_tail_lookup in Hsc by lia. simplify_eq/=.
    destruct (Hv 0%Z ltac:(lia)) as [H1 _]. specialize (H1 (Z.of_nat (S i)) ltac:(lia)).
    rewrite !entry_first, Nat2Z.id in H1 by lia. rewrite (list_lookup_total_correct dims (S i) d) in H1 by (by rewrite Ed).
    pose proof (rq_u64 _ _ _ _ _ Hrq) as (Hs & _ & _).
    pose proof (entry_u64 (len dims) starts 0 (Z.of_nat (S i)) Hs) as Hu. rewrite entry_first, Nat2Z.id in Hu by lia.
    unfold is_u64 in Hu. lia.
Qed.
End request.
