(* ===== verification/PackDataset.v ===== *)
(** * Datasets (src/src/hdf5/pack_dataset.c and pack_dataset.h)

    [pack_dataset_multi_slice_with_max_size] reads the slices of a request
    through a buffer of limited size; [pack_dataset] describes a dataset and
    includes its contents if they are small. *)
From Stdlib Require Import Strings.Byte Strings.String.
From stdpp Require Import base tactics numbers list gmap propset.
From S2P Require Import Prelude Bytes Msgpack Select H5 PackStore Multislice NumpyType PackContents.
From S2P Require Import PackAttributes.

(** [struct multislice ms;]: every array has HDFSTREAM_MAX_DIMS entries.  The
    values are never read. *)
Definition uninit_ms : multislice :=
  Multislice 0 0 [] [] 0 0 0 0 (replicate 32 0%Z) (replicate 32 0%Z) (replicate 32 0%Z).

(** Division by zero is undefined. *)
Definition div_size (a b : Z) : option Z := guard (b ≠ 0)%Z;; Some (a / b)%Z.

(** [for(int i=0; i<rank; i+=1) dst[i] = src[i];], the entries that are set. *)
Definition first_dims (rank : Z) (src : list Z) : option (list Z) :=
  for_range (Z.to_nat rank) 0 (λ i dst, x ← arr_get src i; Some (dst ++ [x])) [].

Section dataset.
Context `{HS : H5Space, HL : !H5Lib, HM : Msgpack, HP : Packer}.
Context (type_fuel : nat) (debug : bool).

Definition select_next (ms : multislice) (file_space_id : Z) : M pstore (Z * option Z * multislice) :=
  λ s, match multislice_select_next_buffer_data debug ms file_space_id (p_h5 s) with
       | Some (err, nr, ms, l) => Some ((err, nr, ms), PStore l (p_pk s) (p_mem s))
       | None => None
       end.

(** The [cleanup:] label, with the values of the local variables. *)
Definition dataset_cleanup (result : Z) (need_reclaim : bool) (buffer : ptr)
    (file_space_id mem_space_id file_type_id mem_type_id : Z) : M pstore Z :=
  do! when need_reclaim (ignore (lib_call (H5Treclaim mem_type_id mem_space_id))) in
  do! free_if buffer in
  do! close_if H5Sclose file_space_id in
  do! close_if H5Sclose mem_space_id in
  do! close_if H5Tclose file_type_id in
  do! close_if H5Tclose mem_type_id in
  ret result.

(** The variables that the loop does not change. *)
Record read_env := ReadEnv {
  e_dataset_id : Z;
  e_rank : Z;
  e_mem_type_id : Z;
  e_file_space_id : Z;
  e_element_size : Z;
  e_nr_elements : Z;
  e_have_vlen : Z;
  e_buffer_size : Z;
  e_chunk_dims : list Z;
}.

(** One iteration, from "Set up the memory dataspace" on: the result, the
    values of [need_reclaim] and [mem_space_id], and [pci]. *)
Definition read_chunk (e : read_env) (nr_elements_to_read : Z) (pci : pack_contents_info)
    : M pstore (Z * bool * Z * pack_contents_info) :=
  let! mem_space_id :=
    (if (0 <? e_rank e)%Z then
       let! chunk_dims := lift (arr_set (e_chunk_dims e) 0 nr_elements_to_read) in
       lib_call (H5Screate_simple chunk_dims)
     else lib_call H5Screate_scalar) in
  let! read := lib_call (H5Dread (e_dataset_id e) (e_mem_type_id e) mem_space_id (e_file_space_id e)) in
  if (read.1 <? 0)%Z then ret ((-1)%Z, false, mem_space_id, pci) else
  do! in_buffer read.2 (e_element_size e) (e_buffer_size e) in
  let need_reclaim := (0 <? e_have_vlen e)%Z in
  let nr_bytes := u64 (nr_elements_to_read * e_nr_elements e * e_element_size e) in
  let! body := pack_contents_body type_fuel type_fuel pci (e_mem_type_id e)
                 (u64 (nr_elements_to_read * e_nr_elements e)) read.2 nr_bytes in
  if (body.1 =? 0)%Z then
    do! when need_reclaim (ignore (lib_call (H5Treclaim (e_mem_type_id e) mem_space_id))) in
    do! ignore (lib_call (H5Sclose mem_space_id)) in
    ret (0%Z, false, (-1)%Z, body.2)
  else ret ((-1)%Z, need_reclaim, mem_space_id, body.2).

(** "Read and encode array contents until done": the result and the values of
    [need_reclaim] and [mem_space_id] at the end.  Every iteration but the last
    reads at least one row. *)
Fixpoint read_chunks (fuel : nat) (e : read_env) (ms : multislice) (pci : pack_contents_info)
    : M pstore (Z * bool * Z) :=
  match fuel with
  | 0 => ub
  | S fuel =>
    let! next := select_next ms (e_file_space_id e) in
    let '(err, nr, ms) := next in
    if (err <? 0)%Z then ret ((-1)%Z, false, (-1)%Z) else
    if (0 <? err)%Z then ret (0%Z, false, (-1)%Z) else
    let! nr_elements_to_read := lift nr in
    let! chunk := read_chunk e nr_elements_to_read pci in
    let '(result, need_reclaim, mem_space_id, pci) := chunk in
    if (result =? 0)%Z then read_chunks fuel e ms pci
    else ret (result, need_reclaim, mem_space_id)
  end.

(** From "Allocate the read buffer" on. *)
Definition read_dataset (dataset_id rank file_type_id mem_type_id file_space_id element_size
    nr_elements have_vlen buffer_size max_size : Z) (ms : multislice) : M pstore Z :=
  let! buffer := malloc mem buffer_size in
  let! array_size := lift (if (rank =? 0)%Z then Some 1%Z else arr_get (ms_total_count ms) 0) in
  let data_size := u64 (array_size * nr_elements * element_size) in
  let! header := pack_contents_header type_fuel uninit_pci max_size mem_type_id rank
                   (ms_total_count ms) data_size in
  if (header.1 =? 0)%Z then
    let! chunk_dims := lift (first_dims rank (ms_total_count ms)) in
    let! res := read_chunks (S (Z.to_nat (ms_elements_left_total ms)))
      (ReadEnv dataset_id rank mem_type_id file_space_id element_size nr_elements have_vlen
         buffer_size chunk_dims) ms header.2 in
    let '(result, need_reclaim, mem_space_id) := res in
    dataset_cleanup result need_reclaim (Some buffer) file_space_id mem_space_id file_type_id mem_type_id
  else dataset_cleanup (-1) false (Some buffer) file_space_id (-1) file_type_id mem_type_id.

(** What is open and known when the number of rows that fit the buffer is
    computed: the local variables of the function at that point. *)
Record request_plan := RequestPlan {
  rp_file_type_id : Z;
  rp_mem_type_id : Z;
  rp_file_space_id : Z;
  rp_element_size : Z;
  rp_nr_elements : Z;
  rp_have_vlen : Z;
}.

(** Up to "Calculate how many elements we can fit in the read buffer"; on the
    left the result of a call that has gone to [cleanup]. *)
Definition plan_request (dataset_id rank nr_slices : Z) (counts : list Z) : M pstore (Z + request_plan) :=
  let cleanup file_space_id file_type_id mem_type_id :=
    let! result := dataset_cleanup (-1) false None file_space_id (-1) file_type_id mem_type_id in
    ret (inl result) in
  if (nr_slices <? 1)%Z then cleanup (-1)%Z (-1)%Z (-1)%Z else
  let! file_type_id := lib_call (H5Dget_type dataset_id) in
  let! mem_type_id := make_packed_native_type type_fuel file_type_id in
  if (mem_type_id <? 0)%Z then cleanup (-1)%Z file_type_id mem_type_id else
  let! file_space_id := lib_call (H5Dget_space dataset_id) in
  if (file_space_id <? 0)%Z then cleanup file_space_id file_type_id mem_type_id else
  let! element_size := lib_get (H5Tget_size mem_type_id) in
  let! nr_elements := lift (for_range (Z.to_nat (rank - 1)) 1
    (λ i n, c ← arr_get counts i; Some (u64 (n * c))) 1%Z) in
  let! have_vlen := detect_vlen_types type_fuel mem_type_id in
  if (have_vlen <? 0)%Z then cleanup file_space_id file_type_id mem_type_id else
  ret (inr (RequestPlan file_type_id mem_type_id file_space_id element_size nr_elements have_vlen)).

(** The size of a row, [nr_elements*element_size], and the number of rows that
    fit the buffer. *)
Definition row_size (p : request_plan) : Z := u64 (rp_nr_elements p * rp_element_size p).
Definition rows_per_buffer (buffer_size : Z) (p : request_plan) : option Z :=
  if (0 <? rp_nr_elements p)%Z then div_size buffer_size (row_size p) else Some 0%Z.

(** From "Calculate how many elements we can fit in the read buffer" on. *)
Definition read_request (dataset_id rank nr_slices : Z) (starts counts : list Z)
    (buffer_size max_size : Z) (p : request_plan) : M pstore Z :=
  let cleanup := dataset_cleanup (-1) false None (rp_file_space_id p) (-1) (rp_file_type_id p) (rp_mem_type_id p) in
  let! elements_per_buffer := lift (rows_per_buffer buffer_size p) in
  if (0 <? rp_nr_elements p)%Z && (elements_per_buffer <? 1)%Z then cleanup else
  let! written := lib_get (H5Sget_simple_extent_dims (rp_file_space_id p)) in
  if (written.1 <? 0)%Z then cleanup else
  let! file_dims := array_of HDFSTREAM_MAX_DIMS written.2 in
  let! init := lift (multislice_init uninit_ms rank nr_slices starts counts elements_per_buffer file_dims) in
  if (init.1 =? 0)%Z then
    read_dataset dataset_id rank (rp_file_type_id p) (rp_mem_type_id p) (rp_file_space_id p) (rp_element_size p)
      (rp_nr_elements p) (rp_have_vlen p) buffer_size max_size init.2
  else cleanup.

Definition pack_dataset_multi_slice_with_max_size (dataset_id rank nr_slices : Z)
    (starts counts : list Z) (buffer_size max_size : Z) : M pstore Z :=
  let! plan := plan_request dataset_id rank nr_slices counts in
  match plan with
  | inl result => ret result
  | inr p => read_request dataset_id rank nr_slices starts counts buffer_size max_size p
  end.

(** The macros of pack_dataset.h. *)
Definition pack_dataset_slice (dataset_id rank : Z) (start count : list Z) (buffer_size : Z) : M pstore Z :=
  pack_dataset_multi_slice_with_max_size dataset_id rank 1 start count buffer_size MSGPACK_MAX_SIZE.
Definition pack_dataset_multi_slice (dataset_id rank nr_slices : Z) (starts counts : list Z)
    (buffer_size : Z) : M pstore Z :=
  pack_dataset_multi_slice_with_max_size dataset_id rank nr_slices starts counts buffer_size MSGPACK_MAX_SIZE.

Definition pack_dataset_cleanup (result dspace_id file_type_id mem_type_id : Z) : M pstore Z :=
  do! close_if H5Sclose dspace_id in
  do! close_if H5Tclose file_type_id in
  do! close_if H5Tclose mem_type_id in
  ret result.

(** "Pack dataset contents": the entry "data". *)
Definition pack_dataset_data (dataset_id rank : Z) (dims : list Z) (buffer_size : Z) : M pstore Z :=
  let! count := lift (first_dims rank dims) in
  check! pack_string (lit "data") else ret (-1)%Z in
  pack_dataset_slice dataset_id rank (replicate (Z.to_nat rank) 0%Z) count buffer_size.

(** What is written once the type and the shape are known. *)
Definition write_description (dataset_id rank mem_type_id buffer_size : Z) (dims : list Z) (with_data : bool)
    : M pstore Z :=
  check! msgpack_pack_map (if with_data then 6 else 5) else ret (-1)%Z in
  check! pack_string (lit "hdf5_object") else ret (-1)%Z in
  check! pack_string (lit "dataset") else ret (-1)%Z in
  check! pack_string (lit "attributes") else ret (-1)%Z in
  check! pack_attributes type_fuel dataset_id else ret (-1)%Z in
  check! pack_string (lit "type") else ret (-1)%Z in
  check! pack_numpy_type type_fuel mem_type_id None else ret (-1)%Z in
  check! pack_string (lit "kind") else ret (-1)%Z in
  check! pack_numpy_kind mem_type_id else ret (-1)%Z in
  check! pack_shape rank dims else ret (-1)%Z in
  check! (if with_data then pack_dataset_data dataset_id rank dims buffer_size else ret 0%Z) else ret (-1)%Z in
  ret 0%Z.

Definition pack_dataset (dataset_id data_size_limit buffer_size : Z) : M pstore Z :=
  let! dspace_id := lib_call (H5Dget_space dataset_id) in
  if (dspace_id <? 0)%Z then pack_dataset_cleanup (-1) dspace_id (-1) (-1) else
  let! rank := lib_get (H5Sget_simple_extent_ndims dspace_id) in
  if (HDFSTREAM_MAX_DIMS <? rank)%Z then pack_dataset_cleanup (-1) dspace_id (-1) (-1) else
  let! written := lib_get (H5Sget_simple_extent_dims dspace_id) in
  if (written.1 <? 0)%Z then pack_dataset_cleanup (-1) dspace_id (-1) (-1) else
  let! dims := array_of HDFSTREAM_MAX_DIMS written.2 in
  let! file_type_id := lib_call (H5Dget_type dataset_id) in
  let! mem_type_id := make_packed_native_type type_fuel file_type_id in
  let cleanup := pack_dataset_cleanup (-1) dspace_id file_type_id mem_type_id in
  if (mem_type_id <? 0)%Z then cleanup else
  let! element_size := lib_get (H5Tget_size mem_type_id) in
  if (element_size =? 0)%Z then cleanup else
  let! data_size := lift (for_range (Z.to_nat rank) 0
    (λ i n, d ← arr_get dims i; Some (u64 (n * d))) element_size) in
  let! result := write_description dataset_id rank mem_type_id buffer_size dims (data_size <=? data_size_limit)%Z in
  pack_dataset_cleanup result dspace_id file_type_id mem_type_id.
End dataset.
