(* ===== verification/PackDatasetProof.v ===== *)
(** * Datasets: correctness

    The reading loop delivers the points of the request in order, whatever the
    size of the buffer; every path closes what it opened. *)
From Stdlib Require Import Strings.Byte Strings.String.
From stdpp Require Import base tactics numbers list gmap propset sorting.
From Equations Require Import Equations.
From S2P Require Import Prelude Bytes Msgpack Select H5 PackStore Multislice Points NumpyType.
From S2P Require Import NumpyTypeProof PackContents PackContentsProof PackAttributes PackDataset.

Section proof.
Context `{HS : H5Space, HL : !H5Lib, HM : Msgpack, HP : Packer}.
Context (type_fuel : nat) (debug : bool).
Context `{HSL : !H5SpaceLaws, HLL : !H5LibLaws, HML : !MsgpackLaws, HPL : !PackerLaws}.
(** ** Selecting does not change the tables of the library *)

Definition keeps {A} (m : M sel_store A) : Prop :=
  ∀ s a s', m s = Some (a, s') → tables (lib s') = tables (lib s).

Lemma keeps_ret {A} (a : A) : keeps (ret a).
Proof. by intros s b s' [= _ <-]. Qed.
Lemma keeps_gets {A} (f : sel_store → A) : keeps (gets f).
Proof. by intros s b s' [= _ <-]. Qed.
Lemma keeps_lift {A} (o : option A) : keeps (lift o).
Proof. intros s b s'. unfold lift. destruct o; [|done]. by intros [= _ <-]. Qed.
Lemma keeps_bind {A B} (m : M sel_store A) (k : A → M sel_store B) :
  keeps m → (∀ a, keeps (k a)) → keeps (bind m k).
Proof.
  intros Hm Hk s b s'. unfold bind. destruct (m s) as [[a s1]|] eqn:E; [|done].
  intros Hb. rewrite (Hk _ _ _ _ Hb). by eapply Hm.
Qed.
Lemma keeps_h5call {A} (f : h5 → A * h5) : (∀ l, tables (f l).2 = tables l) → keeps (h5call f).
Proof.
  intros Hf s a s'. unfold h5call. pose proof (Hf (lib s)) as E. destruct (f (lib s)) as [r l].
  by intros [= _ <-].
Qed.
Lemma keeps_set_first a b : keeps (set_first a b).
Proof. intros s u s'. unfold set_first. repeat case_match; try done. by intros [= _ <-]. Qed.
Lemma keeps_all_rangeM n k test : (∀ i, keeps (test i)) → keeps (all_rangeM n k test).
Proof.
  intros Ht. revert k. induction n as [|n IH]; intros k; simpl; [apply keeps_ret|].
  apply keeps_bind; [done|]. intros []; [done|apply keeps_ret].
Qed.
Lemma keeps_when b m : keeps m → keeps (when b m).
Proof. destruct b; [done|]. intros _. apply keeps_ret. Qed.

Ltac keeps := repeat first
  [ apply keeps_ret | apply keeps_gets | apply keeps_lift | apply keeps_set_first
  | apply keeps_h5call; auto using scopy_tables, sclose_tables, select_none_tables, select_all_tables,
      hyperslab_tables, combine_tables, select_copy_tables
  | apply keeps_bind; [|intros ?] | apply keeps_all_rangeM; intros ? | apply keeps_when
  | case_match ].

Lemma keeps_select_recursive id k n ss sc : keeps (select_slices_recursive id k n ss sc).
Proof.
  remember (Z.to_nat n) as m eqn:Hm. revert k n Hm.
  induction (lt_wf m) as [m _ IH]. intros k n ->. rewrite select_slices_recursive_equation_1.
  destruct (Z_le_dec n 8); simpl; [unfold add_slab, or_slab, cleanup, Select.close_if; keeps|].
  assert (n / 2 < n ∧ 0 < n / 2)%Z as [? ?] by (split; [apply Z.div_lt|apply Z.div_str_pos]; lia).
  apply keeps_bind; [eapply IH; [|done]; lia|]. intros a. case_match; [unfold cleanup, Select.close_if; keeps|].
  apply keeps_bind; [eapply IH; [|done]; lia|]. intros b. unfold cleanup, Select.close_if; keeps.
Qed.

Lemma keeps_select id n ss sc : keeps (select_slices debug id n ss sc).
Proof. unfold select_slices. apply keeps_bind; [apply keeps_select_recursive|]. intros a. keeps. Qed.

Lemma select_next_tables ms id l r nr ms' l' :
  multislice_select_next_buffer_data debug ms id l = Some (r, nr, ms', l') → tables l' = tables l.
Proof.
  unfold multislice_select_next_buffer_data. case_match; [by intros [= _ _ _ <-]|].
  case_match.
  - pose proof (select_all_tables id l) as Ht. destruct (H5Sselect_all id l) as [e l1]. simpl in *.
    destruct (guard _); [|done]. by intros [= _ _ _ <-].
  - pose proof (select_none_tables id l) as Ht. destruct (H5Sselect_none id l) as [e l1]. simpl in *.
    destruct (fill_buffer ms) as [f|]; [|done]. simpl.
    destruct (select_slices _ _ _ _ _ _) as [[err st]|] eqn:E; [|done]. simpl.
    intros [= _ _ _ <-]. rewrite (keeps_select _ _ _ _ _ _ _ E). done.
Qed.
Implicit Types s : pstore.

(** ** Closing *)

(** The local variables: what was opened and allocated since the store had view [V]. *)
Record ds_open (V : hview) (s : pstore) (need_reclaim : bool) (buffer : ptr)
    (fs ms ft mt : Z) : Prop := {
  do_neg : ∀ id, (id < 0)%Z → v_types V !! id = None ∧ v_spaces V !! id = None;
  do_types : ∃ o1 o2 m, creates ft o1 (v_types V) m ∧ creates mt o2 m (v_types (view s));
  do_spaces : ∃ o1 o2 m, creates fs o1 (v_spaces V) m ∧ creates ms o2 m (v_spaces (view s));
  do_mem : allocs buffer (v_mem V) (v_mem (view s));
  do_vlens : v_vlens (view s) = (v_vlens V + if need_reclaim then 1 else 0)%Z;
  do_objs : v_objs (view s) = v_objs V;
  do_attrs : v_attrs (view s) = v_attrs V;
}.

Lemma wp_when_reclaim b mt ms n (Q : () → pstore → Prop) s :
  v_vlens (view s) = (n + if (b : bool) then 1 else 0)%Z →
  (∀ s1, view s1 = with_vlens n (view s) → p_pk s1 = p_pk s → Q () s1) →
  wp (when b (ignore (lib_call (H5Treclaim mt ms)))) Q s.
Proof.
  intros Hv HQ. destruct b; simpl.
  - apply wp_ignore, wp_H5Treclaim. intros r s1 Hv1 Hp1. apply HQ; [|done]. rewrite Hv1, Hv. f_equal. lia.
  - apply wp_ret, HQ; [|done]. rewrite Z.add_0_r in Hv. rewrite <- Hv. by destruct (view s).
Qed.

Lemma wp_dataset_cleanup V result b buffer fs ms ft mt (Q : Z → pstore → Prop) s :
  ds_open V s b buffer fs ms ft mt →
  (∀ s', view s' = V → p_pk s' = p_pk s → Q result s') →
  wp (dataset_cleanup result b buffer fs ms ft mt) Q s.
Proof.
  intros [Hneg (ot1 & ot2 & mT & HT1 & HT2) (os1 & os2 & mS & HS1 & HS2) Hm Hvl Ho Ha] HQ.
  unfold dataset_cleanup. wp_step. eapply wp_when_reclaim; [exact Hvl|]. intros s1 Hv1 Hp1.
  wp_step. eapply (wp_free_if buffer _ (v_mem (view s1)) None); [|done|].
  { rewrite Hv1. exact Hm. }
  intros s2 Hv2 Hm2 Hp2. rewrite Hv1 in Hv2, Hm2.
  wp_step. apply wp_close_if_space. intros s3 Hv3 Hp3. rewrite Hv2 in Hv3.
  wp_step. apply wp_close_if_space. intros s4 Hv4 Hp4. rewrite Hv3 in Hv4.
  wp_step. apply wp_close_if_type. intros s5 Hv5 Hp5. rewrite Hv4 in Hv5.
  wp_step. apply wp_close_if_type. intros s6 Hv6 Hp6. rewrite Hv5 in Hv6.
  wp_step. apply HQ; [|congruence]. rewrite Hv6. cbn [allocs] in Hm2.
  apply view_eq; simpl; try done.
  - eapply creates_closed; [exact (creates_swap _ _ _ _ _ _ _ HT1 HT2 (λ id Hid, proj1 (Hneg id Hid)))|].
    intros; by apply Hneg.
  - eapply creates_closed; [exact (creates_swap _ _ _ _ _ _ _ HS1 HS2 (λ id Hid, proj2 (Hneg id Hid)))|].
    intros; by apply Hneg.
Qed.

(** ** One chunk *)
Section reading.
Context (V : hview) (o : hobj) (t : dtype) (e : read_env) (ft : Z) (buffer : loc)
  (T : gmap Z dtype) (Mm : gmap positive Z).
Let fs := e_file_space_id e.
Let mt := e_mem_type_id e.
Context (Hneg : ∀ id, (id < 0)%Z → v_types V !! id = None ∧ v_spaces V !! id = None)
  (Hobj : v_objs V !! e_dataset_id e = Some o) (Hmt : T !! mt = Some t)
  (Hft : ∃ o1 o2 m, creates ft o1 (v_types V) m ∧ creates mt o2 m T)
  (Hfs : (0 ≤ fs)%Z ∧ v_spaces V !! fs = None) (Hbuf : allocs (Some buffer) (v_mem V) Mm)
  (Htok : type_ok t) (Hdep : type_depth t < type_fuel)
  (Hrank : e_rank e = len (ds_dims o))
  (Hsize : e_element_size e = dtype_size t)
  (Hvlen : e_have_vlen e = (if has_vlen t then 1 else 0)%Z)
  (Hchunk : len (e_chunk_dims e) = e_rank e).

(** Only the file dataspace, the types and the buffer are open. *)
Definition at_head (s : pstore) (sp : space) : Prop :=
  view s = View T (v_objs V) (v_attrs V) (v_vlens V) (<[fs := sp]> (v_spaces V)) Mm ∧ extent sp = ds_dims o.
Definition failed_at (s : pstore) (b : bool) (ms : Z) : Prop := ds_open V s b (Some buffer) fs ms ft mt.

Lemma ds_open_intro s sp b ms o2 m :
  view s = View T (v_objs V) (v_attrs V) (v_vlens V + if (b : bool) then 1 else 0)%Z m Mm →
  creates ms o2 (<[fs := sp]> (v_spaces V)) m → failed_at s b ms.
Proof.
  intros Hv Hc. destruct Hfs. split; rewrite ?Hv; simpl; try done.
  exists (Some sp), o2, (<[fs := sp]> (v_spaces V)). split; [|done]. right. by exists sp.
Qed.
Lemma failed_head s sp : at_head s sp → failed_at s false (-1).
Proof.
  intros [Hv _]. eapply (ds_open_intro _ sp _ _ None); [|by left]. rewrite Hv. by rewrite Z.add_0_r.
Qed.

(** The data of some points. *)
Definition read_points (pts : list (list Z)) : list elem := ds_elem o t <$> pts.

(** The dataspace of a chunk in memory. *)
Lemma wp_chunk_space nr sp (Q : Z → pstore → Prop) s :
  at_head s sp →
  (∀ ms s1 m spm, points spm ≡ slab (replicate (length (extent spm)) 0%Z) (extent spm) →
     (e_rank e = 0%Z → extent spm = []) → creates ms (Some spm) (<[fs := sp]> (v_spaces V)) m →
     view s1 = View T (v_objs V) (v_attrs V) (v_vlens V) m Mm → p_pk s1 = p_pk s → Q ms s1) →
  wp (if (0 <? e_rank e)%Z then
        let! chunk_dims := lift (arr_set (e_chunk_dims e) 0 nr) in lib_call (H5Screate_simple chunk_dims)
      else lib_call H5Screate_scalar) Q s.
Proof.
  intros [Hv _] HQ. destruct (Z.ltb_spec 0 (e_rank e)).
  - wp_step. eapply wp_lift; [apply arr_set_total; unfold len in *; lia|].
    eapply wp_new_space; [apply screate_simple_law|]. intros ms s1 m spm [He Hp] Hc Hv1 Hp1.
    view_step Hv1 Hv. rewrite Hv in Hc. eapply HQ; [by rewrite He|lia|done..].
  - eapply wp_new_space; [apply screate_scalar_law|]. intros ms s1 m spm [He Hp] Hc Hv1 Hp1.
    view_step Hv1 Hv. rewrite Hv in Hc. eapply HQ; [by rewrite He|done..].
Qed.

(** Reading a chunk through this space, which may be invalid. *)
Lemma wp_chunk_read ms m spm sp pts (Q : Z * list elem → pstore → Prop) s :
  points spm ≡ slab (replicate (length (extent spm)) 0%Z) (extent spm) → (e_rank e = 0%Z → extent spm = []) →
  creates ms (Some spm) (<[fs := sp]> (v_spaces V)) m →
  view s = View T (v_objs V) (v_attrs V) (v_vlens V) m Mm →
  extent sp = ds_dims o →
  (∀ pts', enumerates pts' (points sp) → (e_rank e = 0%Z → len pts' = 1%Z) → pts' = pts) →
  (∀ r d s', (r < 0)%Z → view s' = view s → Q (r, d) s') →
  (∀ r s', (0 ≤ r)%Z → p_pk s' = p_pk s →
     view s' = View T (v_objs V) (v_attrs V) (v_vlens V + if has_vlen t then 1 else 0)%Z m Mm →
     Q (r, read_points pts) s') →
  wp (lib_call (H5Dread (e_dataset_id e) mt ms fs)) Q s.
Proof.
  intros Hspm Hscalar Hc Hv Hext Hpts Hfail HQ. apply wp_lib. intros [r data] l Hrd. destruct Hfs as [Hfs0 Hfs1].
  assert (spaces (p_h5 s) = m ∧ t_objs (tables (p_h5 s)) = v_objs V ∧ t_types (tables (p_h5 s)) = T ∧
    t_attrs (tables (p_h5 s)) = v_attrs V ∧ t_vlens (tables (p_h5 s)) = v_vlens V ∧ p_mem s = Mm)
    as (E1 & E2 & E3 & E4 & E5 & E6) by (unfold view in Hv; by injection Hv).
  assert (m !! fs = Some sp) as Hmfs by (eapply creates_mono; [exact Hc|apply lookup_insert_eq]).
  destruct (creates_get _ _ _ _ Hc) as [[Hnone Hms]|[Hsome [_ Hms]]].
  { intros id Hid. rewrite lookup_insert_ne by lia. by apply Hneg. }
  { pose proof (dread_invalid (e_dataset_id e) mt ms fs (p_h5 s)) as Hlaw. rewrite E1, Hrd in Hlaw.
    destruct (Hlaw Hnone) as (Hr & Hs & Ht). apply Hfail; [done|]. unfold view. simpl. by rewrite Ht, Hs, E1. }
  pose proof (dread_law (e_dataset_id e) mt ms fs (p_h5 s) o t spm sp) as Hlaw.
  rewrite E1, E2, E3, Hrd in Hlaw. destruct Hlaw as (Hs & Hlaw); [done..|]. destruct Hlaw as [[? Ht]|(? & pts' & Hen & -> & Hnum & Ht)].
  { apply Hfail; [done|]. unfold view. simpl. by rewrite Ht, Hs, E1. }
  assert (pts' = pts) as ->.
  { apply Hpts; [done|]. intros Hr0. rewrite (Hscalar Hr0) in Hnum. simpl in Hnum. rewrite <- Hnum.
    unfold len. by rewrite length_fmap. }
  apply HQ; [done|done|]. unfold view. simpl. rewrite Hs, Ht. simpl. by rewrite E2, E3, E4, E5, E6.
Qed.

Lemma wp_read_chunk nr p sp pts (Q : Z * bool * Z * pack_contents_info → pstore → Prop) s :
  at_head s sp →
  (∀ pts', enumerates pts' (points sp) → (e_rank e = 0%Z → len pts' = 1%Z) → pts' = pts) → len pts = (nr * e_nr_elements e)%Z →
  (nr * e_nr_elements e * dtype_size t ≤ e_buffer_size e)%Z → is_u64 (len pts) →
  body_pre t p (read_points pts) →
  (∀ b ms p' s', failed_at s' b ms → Q ((-1)%Z, b, ms, p') s') →
  (∀ p' s', at_head s' sp → body_out t p (read_points pts) s (0%Z, p') s' →
     Q (0%Z, false, (-1)%Z, p') s') →
  wp (read_chunk type_fuel e nr p) Q s.
Proof.
  intros [Hv Hext] Hpts Hlen Hroom Hu Hpre Hfail HQ. unfold read_chunk. fold fs mt.
  wp_step. eapply wp_chunk_space; [by split|]. intros ms s1 m spm Hspm Hscalar Hc Hv1 Hp1.
  assert (Hfail1 : ∀ s' b (p' : pack_contents_info), view s' =
     View T (v_objs V) (v_attrs V) (v_vlens V + if (b : bool) then 1 else 0)%Z m Mm →
     Q ((-1)%Z, b, ms, p') s') by (intros; eapply Hfail, ds_open_intro; done).
  wp_step. eapply wp_chunk_read; [done..| |].
  { intros r d s' Hr Hv'. simpl. replace (r <? 0)%Z with true by lia. wp_step. apply Hfail1.
    by rewrite Hv', Hv1, Z.add_0_r. }
  intros r s2 Hr Hp2 Hv2. simpl. replace (r <? 0)%Z with false by lia.
  assert (len (read_points pts) = len pts) as Hlp by (unfold len, read_points; by rewrite length_fmap).
  wp_step. unfold in_buffer. rewrite Hlp, Hlen, Hsize. replace (_ <=? _)%Z with true by lia. wp_step.
  pose proof (bp_size _ _ _ Hpre) as Hbs. rewrite Hlp, Hlen in Hbs.
  rewrite (u64_small (nr * e_nr_elements e)) by (by rewrite <- Hlen).
  rewrite u64_small by (unfold is_u64; lia). rewrite <- Hlen, <- Hlp, Hvlen.
  assert (Hnr : (0 <? (if has_vlen t then 1 else 0))%Z = has_vlen t) by (by destruct (has_vlen t)). rewrite Hnr.
  wp_step. apply wp_contents_body with (t := t); [by rewrite Hv2|done|done|done|].
  intros [r3 p3] s3 [Hv3 Hb]. simpl. rewrite Hv2 in Hv3.
  destruct (Z.eqb_spec r3 0) as [->|]; [|wp_step; by apply Hfail1].
  wp_step. eapply wp_when_reclaim; [by rewrite Hv3|]. intros s4 Hv4 Hp4. rewrite Hv3 in Hv4.
  wp_step. apply wp_ignore, wp_H5Sclose. intros r5 s5 Hv5 Hp5. rewrite Hv4 in Hv5. wp_step.
  apply HQ.
  - split; [|done]. rewrite Hv5. simpl. unfold with_spaces, with_vlens. simpl. f_equal.
    eapply creates_closed; [exact Hc|]. intros id Hid. rewrite lookup_insert_ne by lia. by apply Hneg.
  - eapply body_out_pk; [| |exact Hb]; congruence.
Qed.
(** ** The loop *)

Lemma wp_select_next ms (Q : Z * option Z * multislice → pstore → Prop) s r nr ms' l :
  multislice_select_next_buffer_data debug ms fs (p_h5 s) = Some (r, nr, ms', l) →
  Q (r, nr, ms') (PStore l (p_pk s) (p_mem s)) → wp (select_next debug ms fs) Q s.
Proof. intros E HQ. eapply wp_intro; [|exact HQ]. unfold select_next. by rewrite E. Qed.

Lemma select_head ms r nr ms' l s sp sp' :
  multislice_select_next_buffer_data debug ms fs (p_h5 s) = Some (r, nr, ms', l) →
  at_head s sp → spaces l = <[fs := sp']> (spaces (p_h5 s)) → extent sp' = extent sp →
  at_head (PStore l (p_pk s) (p_mem s)) sp'.
Proof.
  intros E [Hv He] Hl Hs. split; [|congruence]. unfold view in *. simpl.
  rewrite (select_next_tables _ _ _ _ _ _ _ E), Hl.
  injection Hv as E1 E2 E3 E4 E5 E6. rewrite E5, insert_insert_eq. congruence.
Qed.

(** The points that are left, for points [tl] in the dimensions after the first. *)
Definition rest_rows (ms : multislice) (l : list (Z * Z)) : list Z :=
  pending l (Z.to_nat (ms_slice_nr ms)) (ms_offset_in_slice ms).
Record reading_ok (tl : list (list Z)) (l : list (Z * Z)) (ms : multislice) : Prop := {
  ro_inv : ms_inv ms l;
  ro_arrays : ms_arrays ms;
  ro_rank : ms_rank ms = e_rank e;
  ro_tail : tl = box (zip (take (Z.to_nat (e_rank e - 1)) (tail (ms_start ms)))
                         (take (Z.to_nat (e_rank e - 1)) (tail (ms_count ms))));
  ro_sorted : StronglySorted Z.lt (rest_rows ms l);
  ro_left : ms_elements_left_total ms = 0%Z ∧ row_points tl (rest_rows ms l) = [] ∨
    ms_elements_left_total ms = len (rest_rows ms l) ∧ (0 < ms_elements_left_total ms)%Z ∧
    (0 < ms_elements_per_buffer ms)%Z ∧ e_nr_elements e = len tl ∧
    (ms_elements_per_buffer ms * e_nr_elements e * dtype_size t ≤ e_buffer_size e)%Z;
  ro_u64 : is_u64 (len (row_points tl (rest_rows ms l)));
}.

Lemma tail_length (l1 l2 : list Z) n : (1 < n)%Z → tail l1 = tail l2 → len l2 = n → len l1 = n.
Proof. destruct l1, l2; unfold len; simpl; intros; subst; simpl in *; lia. Qed.

(** Filling a buffer. *)
Lemma reading_step tl l ms s sp :
  reading_ok tl l ms → (0 < ms_elements_left_total ms)%Z → (0 < e_rank e ≤ HDFSTREAM_MAX_DIMS)%Z →
  at_head s sp →
  ∃ r nr ms' lb' sp' rs,
    multislice_select_next_buffer_data debug ms fs (p_h5 s) = Some (r, Some nr, ms', lb') ∧
    (r = 0 ∨ r = -1)%Z ∧ reading_ok tl l ms' ∧ (ms_elements_left_total ms' < ms_elements_left_total ms)%Z ∧
    at_head (PStore lb' (p_pk s) (p_mem s)) sp' ∧
    rest_rows ms l = rs ++ rest_rows ms' l ∧ len rs = nr ∧
    e_nr_elements e = len tl ∧ (nr * e_nr_elements e * dtype_size t ≤ e_buffer_size e)%Z ∧
    (r = 0%Z → enumerates (row_points tl rs) (points sp')).
Proof.
  intros [Hinv Harr Hrk Htl Hsort Hleft Hu] Hpos Hr Hhead.
  destruct Hleft as [[? _]|(Hleft & _ & Hepb & Hne & Hroom)]; [lia|].
  pose proof Hhead as [Hv Hext].
  assert (spaces (p_h5 s) !! fs = Some sp) as Hfsp.
  { change (spaces (p_h5 s)) with (v_spaces (view s)). rewrite Hv. apply lookup_insert_eq. }
  destruct (next_buffer_spec debug ms l fs sp (p_h5 s))
    as (r & f & ms' & lb' & sp' & Hf & Hrun & Hr' & Hms & Ht1 & Ht2 & Hsp & He & Hp); try done.
  { rewrite Hrk, Hrank, Hext. done. }
  { rewrite Hrk. lia. }
  destruct (fill_buffer_ok ms l Hinv Hepb Hpos) as (f' & Hf' & Hfo & Hn & _ & _).
  assert (f' = f) as -> by congruence.
  destruct (advance_inv ms l f (ms_start ms') (ms_count ms') Hinv Hfo) as (Hinv' & Hpe & Hlen & Hl').
  rewrite <- Hms in Hinv', Hl'.
  assert (rest_rows ms l = buffer_rows f ++ rest_rows ms' l) as Hrest by (rewrite Hms; exact Hpe).
  exists r, (f_nr_elements f), ms', lb', sp', (buffer_rows f). pose proof (dtype_size_nonneg _ Htok).
  pose proof (len_nonneg tl). fold (len (buffer_rows f)) in Hlen.
  split; [done|]. split; [done|]. split.
  { split; try done.
    - unfold ms_arrays in *. destruct Harr as (Ha1 & Ha2 & Ha3). split; [by rewrite Hms|].
      split; eapply tail_length; eauto; done.
    - rewrite Hms. exact Hrk.
    - by rewrite Ht1, Ht2.
    - rewrite Hrest in Hsort. eapply StronglySorted_app_1_r. exact Hsort.
    - rewrite Hl', Hleft, Hrest, len_app, <- Hlen in *.
      destruct (decide (len (rest_rows ms' l) = 0)%Z) as [Hz|Hz].
      + left. split; [lia|]. assert (rest_rows ms' l = []) as -> by (apply nil_length_inv; unfold len in Hz; lia). done.
      + right. pose proof (len_nonneg (rest_rows ms' l)). split; [lia|]. split; [lia|].
        rewrite Hms. done.
    - rewrite Hrest, len_row_points, len_app in Hu. rewrite len_row_points. unfold is_u64 in *.
      pose proof (len_nonneg (rest_rows ms' l)). pose proof (len_nonneg (buffer_rows f)). nia. }
  split; [lia|]. split; [by eapply select_head|]. split; [done|]. split; [done|]. split; [done|].
  split; [nia|]. intros Hr0. eapply enumerates_proper; [symmetry; by apply Hp|].
  rewrite Htl. replace (Z.to_nat (e_rank e - 1)) with (length (extent sp) - 1) by (rewrite Hrank, Hext; unfold len; lia).
  apply enumerates_slabs; [rewrite Hext; unfold len in Hrank; lia|].
  rewrite Hrest in Hsort. eapply StronglySorted_app_1_l. exact Hsort.
Qed.

Lemma wp_read_array tl l p0 s0 fuel ms p D sp (Q : Z * bool * Z → pstore → Prop) s :
  (0 < e_rank e ≤ HDFSTREAM_MAX_DIMS)%Z → reading_ok tl l ms → at_head s sp →
  (ms_elements_left_total ms < Z.of_nat fuel)%Z →
  body_out t p0 (read_points D) s0 (0%Z, p) s →
  body_pre t p (read_points (row_points tl (rest_rows ms l))) →
  (∀ b msid s', failed_at s' b msid → Q ((-1)%Z, b, msid) s') →
  (∀ p' s' sp', at_head s' sp' → body_out t p0 (read_points (D ++ row_points tl (rest_rows ms l))) s0 (0%Z, p') s' →
     Q (0%Z, false, (-1)%Z) s') →
  wp (read_chunks type_fuel debug fuel e ms p) Q s.
Proof.
  intros Hr. revert ms p D sp s. induction fuel as [|fuel IH]; intros ms p D sp s Hro Hhead Hfuel Hout Hpre Hfail HQ.
  { destruct Hro as [[_ _ Hm] _ _ _ _ _ _]. lia. }
  cbn [read_chunks]. wp_step. fold fs.
  destruct (decide (ms_elements_left_total ms = 0)%Z) as [Hz|Hz].
  { eapply (wp_select_next _ _ _ 1%Z None ms (p_h5 s)).
    { unfold multislice_select_next_buffer_data. by rewrite Hz. }
    simpl. wp_step. eapply HQ; [split; [|apply Hhead]; apply Hhead|].
    destruct (ro_left _ _ _ Hro) as [[_ ->]|(? & ? & _)]; [|lia]. rewrite app_nil_r.
    eapply body_out_pk; [done| |exact Hout]. done. }
  assert (0 < ms_elements_left_total ms)%Z as Hpos by (destruct (ro_inv _ _ _ Hro) as [_ _ Hm]; lia).
  destruct (reading_step tl l ms s sp) as (r & nr & ms' & lb' & sp' & rs & Hrun & Hr' & Hro' & Hlt & Hhead' &
    Hrest & Hnr & Hne & Hroom & Hen); try done.
  eapply wp_select_next; [exact Hrun|].
  assert (p_pk (PStore lb' (p_pk s) (p_mem s)) = p_pk s) as Hpk by done.
  set (s1 := PStore lb' (p_pk s) (p_mem s)) in *. clearbody s1. simpl.
  destruct Hr' as [->| ->]; simpl; last first.
  { wp_step. apply Hfail. by eapply failed_head. }
  rewrite Hrest, row_points_app in Hpre, HQ. unfold read_points in Hpre. rewrite fmap_app in Hpre.
  fold (read_points (row_points tl rs)) in Hpre. fold (read_points (row_points tl (rest_rows ms' l))) in Hpre.
  pose proof (ro_u64 _ _ _ Hro) as Hu. rewrite Hrest, row_points_app, len_app in Hu.
  pose proof (len_nonneg (row_points tl rs)). pose proof (len_nonneg (row_points tl (rest_rows ms' l))).
  wp_step. wp_step. wp_step. eapply (wp_read_chunk nr p sp' (row_points tl rs));
    [done|intros; eapply enumerates_unique; [done|by apply Hen]| |done| | | |].
  - by rewrite len_row_points, Hnr, Hne.
  - unfold is_u64 in *. lia.
  - by eapply (body_pre_app _ _ _ _ s1 p s1) in Hpre as [? _].
  - intros b msid p' s' Hf. simpl. wp_step. by apply Hfail.
  - intros p' s' Hh Hb. simpl. eapply (IH ms' p' (D ++ row_points tl rs)); [done|exact Hh|lia| | |done|].
    + unfold read_points. rewrite fmap_app. eapply body_out_app; [exact Hout|].
      eapply body_out_pk; [| |exact Hb]; [by symmetry|done].
    + by eapply (body_pre_app _ _ _ _ s1 p' s') in Hpre as [_ H']; [apply H'|].
    + intros p2 s2 sp2 Hh2 Hb2. eapply HQ; [exact Hh2|]. by rewrite app_assoc.
Qed.
(** A scalar dataset: one element, then nothing is left. *)
Lemma wp_read_scalar fuel ms p sp (Q : Z * bool * Z → pstore → Prop) s :
  e_rank e = 0%Z → e_nr_elements e = 1%Z → ms_rank ms = 0%Z → ms_nr_slices ms = 0%Z →
  ms_elements_left_total ms = 1%Z → at_head s sp → (dtype_size t ≤ e_buffer_size e)%Z →
  body_pre t p (read_points [[]]) →
  (∀ b msid s', failed_at s' b msid → Q ((-1)%Z, b, msid) s') →
  (∀ p' s' sp', at_head s' sp' → body_out t p (read_points [[]]) s (0%Z, p') s' → Q (0%Z, false, (-1)%Z) s') →
  wp (read_chunks type_fuel debug (S (S fuel)) e ms p) Q s.
Proof.
  intros Hr Hne Hms Hns Hleft Hhead Hroom Hpre Hfail HQ. pose proof Hhead as [Hv Hext].
  assert (spaces (p_h5 s) !! fs = Some sp) as Hfsp.
  { change (spaces (p_h5 s)) with (v_spaces (view s)). rewrite Hv. apply lookup_insert_eq. }
  remember (S fuel) as fuel' eqn:Hfuel. cbn [read_chunks]. wp_step. fold fs.
  destruct (H5Sselect_all fs (p_h5 s)) as [err l] eqn:E.
  pose proof (H5Sselect_all_law (p_h5 s) fs sp Hfsp) as Hlaw. rewrite E in Hlaw.
  destruct Hlaw as (sp' & Hl & He & _).
  assert (Hrun : ∃ ms', multislice_select_next_buffer_data debug ms fs (p_h5 s) = Some (0%Z, Some 1%Z, ms', l) ∧
    ms_elements_left_total ms' = 0%Z).
  { unfold multislice_select_next_buffer_data. rewrite Hleft, Hms, E, Hns. simpl. by eexists. }
  destruct Hrun as (ms' & Hrun & Hleft').
  eapply wp_select_next; [exact Hrun|]. pose proof (select_head _ _ _ _ _ _ _ _ Hrun Hhead Hl He) as Hhead'.
  assert (spaces (p_h5 (PStore l (p_pk s) (p_mem s))) !! fs = Some sp') as Hfsp'
    by (simpl; rewrite Hl; apply lookup_insert_eq).
  assert (p_pk (PStore l (p_pk s) (p_mem s)) = p_pk s) as Hpk by done.
  set (s1 := PStore l (p_pk s) (p_mem s)) in *. clearbody s1. simpl.
  wp_step. wp_step. wp_step.
  eapply (wp_read_chunk 1 p sp' [[]]); [done| |by rewrite Hne|by rewrite Hne, !Z.mul_1_l| |done| |].
  - intros pts' [_ Hen] Hn. specialize (Hn Hr).
    destruct pts' as [|q [|q' pts']]; [done| |unfold len in Hn; simpl in Hn; lia].
    assert (length q = length (extent sp')) as Hq by (eapply points_rank; [exact Hfsp'|]; apply Hen; left).
    rewrite He, Hext in Hq. assert (length (ds_dims o) = 0) as H0 by (unfold len in Hrank; lia).
    rewrite H0 in Hq. by apply nil_length_inv in Hq as ->.
  - unfold is_u64, len. simpl. lia.
  - intros b msid p' s' Hf. simpl. wp_step. by apply Hfail.
  - intros p' s' Hh Hb. simpl. rewrite Hfuel. cbn [read_chunks]. wp_step. fold fs.
    eapply (wp_select_next _ _ _ 1%Z None ms' (p_h5 s')).
    { unfold multislice_select_next_buffer_data. by rewrite Hleft'. }
    simpl. wp_step. eapply HQ; [split; apply Hh|]. eapply body_out_pk; [| |exact Hb]; done.
Qed.
End reading.

(** ** The dimensions of the result *)

Lemma first_dims_spec rank src :
  (0 ≤ rank ≤ len src)%Z → first_dims rank src = Some (take (Z.to_nat rank) src).
Proof.
  intros Hr. unfold first_dims.
  destruct (for_range_inv (λ i l, l = take (Z.to_nat i) src)
    (λ i dst, x ← arr_get src i; Some (dst ++ [x])) (Z.to_nat rank) 0 []) as (l & -> & ->); [done| |].
  - intros i l Hi ->. destruct (lookup_lt_is_Some_2 src (Z.to_nat i)) as [x Hx]; [unfold len in *; lia|].
    rewrite arr_get_nth, Hx by lia. simpl. eexists. split; [done|].
    replace (Z.to_nat (i + 1)) with (S (Z.to_nat i)) by lia. by rewrite (take_S_r _ _ _ Hx).
  - do 3 f_equal. lia.
Qed.

Lemma tail_product_spec rank counts :
  (0 < rank ≤ len counts)%Z →
  for_range (Z.to_nat (rank - 1)) 1 (λ i n, c ← arr_get counts i; Some (u64 (n * c))) 1%Z =
    Some (u64 (prod_list (take (Z.to_nat (rank - 1)) (tail counts)))).
Proof.
  intros Hr. rewrite (for_range_shift _ 0 1 _ (λ i n, c ← arr_get (tail counts) i; Some (u64 (n * c)))).
  - apply product_spec. unfold len in *. rewrite List.length_tl. lia.
  - intros i a Hi. rewrite !arr_get_nth, lookup_tail by lia.
    by replace (Z.to_nat (i + 1)) with (S (Z.to_nat i)) by lia.
Qed.

Lemma total_shape rank n starts counts dims epb ms :
  (0 < rank)%Z → (1 ≤ n)%Z → request_ok rank n starts counts dims →
  init_post rank n starts counts epb ms →
  take (Z.to_nat rank) (ms_total_count ms) = request_shape rank n starts counts.
Proof.
  intros Hr Hn Hrq Hp. pose proof (rq_counts _ _ _ _ _ Hrq) as Hlc.
  destruct (ip_arrays _ _ _ _ _ _ Hp) as (Ha & _ & _). pose proof (ip_total _ _ _ _ _ _ Hp) as Ht.
  unfold HDFSTREAM_MAX_DIMS in *. unfold request_shape. replace (rank =? 0)%Z with false by lia.
  destruct (ms_total_count ms) as [|x total] eqn:Etot; [simpl in Ha; lia|]. simpl in Ht.
  replace (Z.to_nat rank) with (S (Z.to_nat (rank - 1))) by lia. simpl. f_equal; [exact Ht|].
  apply list_eq. intros i. destruct (decide (Z.of_nat i < rank - 1)%Z).
  - rewrite !lookup_take_lt, lookup_tail by lia.
    pose proof (ip_totals _ _ _ _ _ _ Hp (Z.of_nat (S i)) ltac:(lia)) as Hti.
    rewrite Etot, Nat2Z.id, entry_first, Nat2Z.id in Hti by lia. simpl in Hti. rewrite Hti.
    symmetry. apply list_lookup_lookup_total_lt. assert (rank ≤ rank * n)%Z by nia. lia.
  - rewrite !lookup_take_ge by lia. done.
Qed.

(** The arrays [start] and [count] describe the other dimensions. *)
Lemma init_tail rank n (a b : list Z) :
  (1 ≤ n)%Z → (0 < rank ≤ 32)%Z → Z.of_nat (length a) = (rank * n)%Z → Z.of_nat (length b) = 32%Z →
  (∀ d, (1 ≤ d < rank)%Z → b !! Z.to_nat d = Some (entry rank a 0 d)) →
  take (Z.to_nat (rank - 1)) (tail b) = take (Z.to_nat (rank - 1)) (tail a).
Proof.
  intros Hn Hr Ha Hb He. assert (rank ≤ rank * n)%Z by nia. apply list_eq. intros i.
  destruct (decide (Z.of_nat i < rank - 1)%Z); [|by rewrite !lookup_take_ge by lia].
  rewrite !lookup_take_lt, !lookup_tail by lia. specialize (He (Z.of_nat (S i)) ltac:(lia)).
  rewrite entry_first, Nat2Z.id in He by lia. rewrite He. symmetry. apply list_lookup_lookup_total_lt. lia.
Qed.

Lemma u64_mul a b c : u64 (a * u64 b * c) = u64 (a * b * c).
Proof.
  unfold u64. replace (a * (b mod 2 ^ 64) * c)%Z with (a * c * (b mod 2 ^ 64))%Z by lia.
  rewrite Z.mul_mod_idemp_r by lia. f_equal. lia.
Qed.
Lemma u64_mul_l b c : u64 (u64 b * c) = u64 (b * c).
Proof. pose proof (u64_mul 1 b c) as H. by rewrite !Z.mul_1_l in H. Qed.

(** ** A request *)

Definition request_data (o : hobj) (t : dtype) (rank n : Z) (starts counts : list Z) : list elem :=
  ds_elem o t <$> request_points rank n starts counts.

(** The multislice object after a successful initialization. *)
Definition ms_ready (rank n : Z) (starts counts dims : list Z) (epb : Z) (ms : multislice) : Prop :=
  rank = 0%Z ∧ ms_rank ms = 0%Z ∧ ms_nr_slices ms = 0%Z ∧ ms_elements_left_total ms = 1%Z ∨
  (0 < rank)%Z ∧ (1 ≤ n)%Z ∧ request_ok rank n starts counts dims ∧
  slices_valid rank n starts counts dims ∧ init_post rank n starts counts epb ms.

Section request.
Context (rank n : Z) (starts counts dims : list Z) (epb : Z) (ms : multislice).
Context (Hready : ms_ready rank n starts counts dims epb ms) (Hdims : rank = len dims).
Let nr_elements := u64 (prod_list (take (Z.to_nat (rank - 1)) (tail counts))).

Lemma ready_shape : take (Z.to_nat rank) (ms_total_count ms) = request_shape rank n starts counts ∧
  (0 ≤ rank ≤ len (ms_total_count ms))%Z.
Proof.
  destruct Hready as [(-> & _)|(Hr & Hn & Hrq & Hv & Hp)]; [split; [done|split; [lia|apply len_nonneg]]|].
  split; [by eapply total_shape|]. destruct (ip_arrays _ _ _ _ _ _ Hp) as (Ha & _ & _).
  pose proof (ok_rank _ _ (mi_ok _ _ (ip_inv _ _ _ _ _ _ Hp))). unfold HDFSTREAM_MAX_DIMS in *.
  split; [lia|]. assert (length (take (Z.to_nat rank) (ms_total_count ms)) = Z.to_nat rank) as Hl.
  { erewrite total_shape by done. unfold request_shape. replace (rank =? 0)%Z with false by lia. simpl.
    pose proof (rq_counts _ _ _ _ _ Hrq). rewrite length_take, List.length_tl.
    assert (rank ≤ rank * n)%Z by nia. lia. }
  rewrite length_take in Hl. unfold len. lia.
Qed.
Lemma ready_shape_u64 : Forall is_u64 (request_shape rank n starts counts).
Proof.
  destruct Hready as [(-> & _)|(Hr & Hn & Hrq & Hv & Hp)]; [constructor|]. by eapply request_shape_u64.
Qed.
Lemma ready_length : len (request_points rank n starts counts) = prod_list (request_shape rank n starts counts).
Proof.
  destruct Hready as [(-> & _)|(Hr & Hn & Hrq & Hv & Hp)]; [done|]. by eapply len_request_points.
Qed.
Lemma ready_bound : (0 ≤ prod_list (request_shape rank n starts counts) ≤ prod_list dims)%Z.
Proof.
  destruct Hready as [(Hr & _)|(Hr & Hn & Hrq & Hv & Hp)].
  - rewrite Hr in *. destruct dims; [simpl; lia|]. unfold len in Hdims. simpl in Hdims. lia.
  - by eapply request_shape_bound.
Qed.
Lemma ready_size size :
  (0 < size)%Z → (prod_list dims * size < 2 ^ 62)%Z →
  ∃ array_size,
    (if (rank =? 0)%Z then Some 1%Z else arr_get (ms_total_count ms) 0) = Some array_size ∧
    u64 (array_size * nr_elements * size) = (len (request_points rank n starts counts) * size)%Z.
Proof.
  intros Hs Hb. pose proof ready_bound as Hbd. pose proof ready_shape as [Hsh Hrk]. rewrite ready_length.
  unfold nr_elements. destruct (Z.eqb_spec rank 0) as [->|Hr0].
  - exists 1%Z. split; [done|]. rewrite u64_mul. simpl in *. apply u64_small. unfold is_u64. nia.
  - destruct Hready as [(? & _)|(Hr & Hn & Hrq & Hv & Hp)]; [done|].
    pose proof (ip_total _ _ _ _ _ _ Hp) as Ht. exists (ms_total_count ms !!! 0%nat).
    split; [apply arr_get_total; unfold len in Hrk; lia|]. rewrite u64_mul, Ht.
    unfold request_shape in *. replace (rank =? 0)%Z with false in * by lia. simpl in *.
    apply u64_small. unfold is_u64, len. unfold len in Hbd. nia.
Qed.
End request.

(** The loop starts with all rows of the request. *)
Lemma ready_reading t e n starts counts dims epb ms :
  ms_ready (e_rank e) n starts counts dims epb ms → (0 < e_rank e ≤ 32)%Z → e_rank e = len dims →
  (0 < dtype_size t)%Z → (prod_list dims * dtype_size t < 2 ^ 62)%Z →
  e_nr_elements e = u64 (prod_list (take (Z.to_nat (e_rank e - 1)) (tail counts))) →
  ((0 < e_nr_elements e)%Z → (1 ≤ epb)%Z ∧ (epb * u64 (e_nr_elements e * dtype_size t) ≤ e_buffer_size e)%Z) →
  reading_ok t e (box (request_tail (e_rank e) starts counts)) (slices_of (e_rank e) n starts counts) ms ∧
  rest_rows ms (slices_of (e_rank e) n starts counts) = all_rows (slices_of (e_rank e) n starts counts).
Proof.
  intros Hready Hr Hdims Hsz Hbd Hne Hepb.
  pose proof (ready_bound _ _ _ _ _ _ _ Hready Hdims) as Hbound.
  pose proof (ready_length _ _ _ _ _ _ _ Hready Hdims) as Hlen.
  destruct Hready as [(? & _)|(_ & Hn & Hrq & Hv & Hp)]; [lia|].
  pose proof (ip_pending _ _ _ _ _ _ Hp) as Hpend. fold (rest_rows ms (slices_of (e_rank e) n starts counts)) in Hpend.
  pose proof Hp as [Hinv _ Hepb' Harr Hrk Hst Hct Ht Hts Hleft].
  pose proof Harr as (_ & Ha2 & Ha3). unfold HDFSTREAM_MAX_DIMS in *.
  pose proof (rq_starts _ _ _ _ _ Hrq) as Hls. pose proof (rq_counts _ _ _ _ _ Hrq) as Hlc.
  pose proof (request_tail_counts _ _ _ _ _ Hrq ltac:(lia) Hn) as Htc.
  pose proof (request_counts_nonneg _ _ _ _ _ Hrq ltac:(lia) Hn) as Hnn.
  pose proof (len_box _ Hnn) as Hbox. rewrite Htc in Hbox.
  assert (all_rows (slices_of (e_rank e) n starts counts) = [] →
    row_points (box (request_tail (e_rank e) starts counts)) (all_rows (slices_of (e_rank e) n starts counts)) = [])
    as Hnil by (by intros ->).
  split; [|done]. split; try done.
  - unfold request_tail. do 2 f_equal; symmetry; apply (init_tail _ n); (done || lia).
  - rewrite Hpend. apply (request_sorted _ _ _ _ dims); (done || lia).
  - rewrite Hpend. fold (len (all_rows (slices_of (e_rank e) n starts counts))) in Ht.
    destruct Hleft as [[Hl Hnz]|[Hl [H0|(d & Hd & H0)]]].
    + destruct (decide (ms_elements_left_total ms = 0)%Z) as [Hz|Hz].
      { left. split; [done|]. apply Hnil, nil_length_inv. unfold len in Ht. lia. }
      right. rewrite Hl, Ht in *. pose proof (len_nonneg (all_rows (slices_of (e_rank e) n starts counts))).
      unfold request_shape in Hbound. replace (e_rank e =? 0)%Z with false in Hbound by lia. simpl in Hbound.
      assert (0 < prod_list (take (Z.to_nat (e_rank e - 1)) (tail counts)))%Z as Hpos.
      { rewrite <- Htc. clear -Hnn Hnz Hrq Hr Hn. apply prod_list_pos. apply Forall_fmap, Forall_lookup.
        intros i sc Hi. pose proof (Forall_lookup_1 _ _ _ _ Hnn Hi) as H0. simpl in H0.
        pose proof (lookup_lt_Some _ _ _ Hi) as Hli. erewrite length_request_tail in Hli by (done || lia).
        erewrite request_tail_lookup in Hi by (done || lia). simplify_eq/=.
        specialize (Hnz (Z.of_nat (S i)) ltac:(lia)). rewrite entry_first, Nat2Z.id in Hnz by lia. lia. }
      rewrite (u64_small (prod_list _)) in Hne by (unfold is_u64; nia).
      split; [done|]. split; [lia|]. destruct Hepb as [Hepb1 Hepb2]; [lia|].
      rewrite Hne, u64_small in Hepb2 by (unfold is_u64; nia).
      split; [rewrite Hepb'; lia|]. split; [by rewrite Hbox|]. rewrite Hepb', Hne. lia.
    + left. split; [done|]. apply Hnil, nil_length_inv. unfold len in Ht. lia.
    + left. split; [done|].
      assert (request_tail (e_rank e) starts counts !! Z.to_nat (d - 1) =
        Some (starts !!! S (Z.to_nat (d - 1)), counts !!! S (Z.to_nat (d - 1)))) as Hlk
        by (eapply request_tail_lookup; [exact Hrq|lia..]).
      erewrite box_empty; [apply row_points_nil|exact Hlk|].
      * simpl. rewrite entry_first in H0 by lia. replace (S (Z.to_nat (d - 1))) with (Z.to_nat d) by lia. lia.
  - rewrite Hpend. unfold request_points in Hlen. replace (e_rank e =? 0)%Z with false in Hlen by lia.
    rewrite Hlen. unfold is_u64. nia.
Qed.

(** The output of a call that succeeded: the contents of the request. *)
Definition request_packed (o : hobj) (t : dtype) (max rank n : Z) (starts counts : list Z)
    (s s' : pstore) : Prop :=
  pk_ok s' ∧ ∃ ob, contents_obj t max (request_shape rank n starts counts)
    (request_data o t rank n starts counts) = Some ob ∧ emits (encode ob) s s'.

(** The whole loop. *)
Lemma wp_read_all V o t e ft buffer T Mm n starts counts epb ms p sp (Q : Z * bool * Z → pstore → Prop) s :
  (∀ id, (id < 0)%Z → v_types V !! id = None ∧ v_spaces V !! id = None) →
  v_objs V !! e_dataset_id e = Some o → T !! e_mem_type_id e = Some t →
  (∃ o1 o2 m, creates ft o1 (v_types V) m ∧ creates (e_mem_type_id e) o2 m T) →
  (0 ≤ e_file_space_id e)%Z ∧ v_spaces V !! e_file_space_id e = None →
  allocs (Some buffer) (v_mem V) Mm → type_ok t → type_depth t < type_fuel →
  e_rank e = len (ds_dims o) → e_element_size e = dtype_size t →
  e_have_vlen e = (if has_vlen t then 1 else 0)%Z → len (e_chunk_dims e) = e_rank e →
  (e_rank e ≤ HDFSTREAM_MAX_DIMS)%Z → (0 < dtype_size t)%Z →
  (prod_list (ds_dims o) * dtype_size t < 2 ^ 62)%Z →
  e_nr_elements e = u64 (prod_list (take (Z.to_nat (e_rank e - 1)) (tail counts))) →
  ((0 < e_nr_elements e)%Z → (1 ≤ epb)%Z ∧ (epb * u64 (e_nr_elements e * dtype_size t) ≤ e_buffer_size e)%Z) →
  ms_ready (e_rank e) n starts counts (ds_dims o) epb ms →
  at_head V o e T Mm s sp →
  body_pre t p (request_data o t (e_rank e) n starts counts) →
  (∀ b msid s', failed_at V e ft buffer s' b msid → Q ((-1)%Z, b, msid) s') →
  (∀ p' s' sp', at_head V o e T Mm s' sp' →
     body_out t p (request_data o t (e_rank e) n starts counts) s (0%Z, p') s' → Q (0%Z, false, (-1)%Z) s') →
  wp (read_chunks type_fuel debug (S (Z.to_nat (ms_elements_left_total ms))) e ms p) Q s.
Proof.
  intros Hneg Hobj HT Hft Hfs Hbuf Htok Hdep Hrank Hsize Hvlen Hchunk Hmax Hsz Hbd Hne Hepb Hready Hhead Hpre Hfail HQ.
  unfold HDFSTREAM_MAX_DIMS in *. pose proof (len_nonneg (ds_dims o)).
  destruct (decide (e_rank e = 0)%Z) as [Hr0|Hr0].
  - destruct Hready as [(_ & Hms & Hns & Hleft)|(? & _)]; [|lia]. rewrite Hleft.
    rewrite Hr0 in Hne, Hpre, HQ. simpl in Hne. change (u64 1) with 1%Z in Hne.
    assert (ds_dims o = []) as Hd by (apply nil_length_inv; unfold len in Hrank; lia).
    rewrite Hd in Hbd. simpl in Hbd.
    rewrite Hne, Z.mul_1_l, u64_small in Hepb by (unfold is_u64; lia). destruct Hepb as [? ?]; [lia|].
    unfold request_data, request_points in Hpre, HQ. simpl in Hpre, HQ. change (Z.to_nat 1) with 1%nat.
    eapply (wp_read_scalar V o t e ft buffer T Mm); eauto. nia.
  - destruct (ready_reading t e n starts counts (ds_dims o) epb ms) as [Hro Hrest]; try done; [lia|].
    unfold request_data, request_points in Hpre, HQ. replace (e_rank e =? 0)%Z with false in * by lia.
    rewrite <- Hrest in Hpre, HQ.
    pose proof (ro_inv _ _ _ _ _ Hro) as [_ _ Hleft].
    eapply (wp_read_array V o t e ft buffer T Mm Hneg Hobj HT Hft Hfs Hbuf Htok Hdep Hrank Hsize Hvlen Hchunk
      _ _ p s _ ms p []); [unfold HDFSTREAM_MAX_DIMS; lia|exact Hro|exact Hhead|lia| |exact Hpre|exact Hfail|exact HQ].
    unfold read_points. simpl. apply body_out_nil; [apply Hpre|].
    intros Hv. apply (bp_left _ _ _ Hpre Hv).
Qed.

(** A dataset with at most 32 dimensions and fewer than 2^62 bytes, in each of
    its rows and in all, whose strings of variable length have been written (the
    library delivers a null pointer for the others, and the code takes its
    length).  This is a condition on the file: the library has
    datasets with more bytes, such as one of which only a few chunks are
    written, and for those the products of the code can wrap around
    (claim C40). *)
Record dataset_ok (o : hobj) : Prop := {
  dk_rank : (len (ds_dims o) ≤ HDFSTREAM_MAX_DIMS)%Z;
  dk_dims : Forall is_u64 (ds_dims o);
  dk_depth : type_depth (ds_type o) < type_fuel;
  dk_size t : mem_type_of (ds_type o) t →
    (0 < dtype_size t < 2 ^ 62)%Z ∧ (prod_list (ds_dims o) * dtype_size t < 2 ^ 62)%Z ∧
    (prod_list (tail (ds_dims o)) * dtype_size t < 2 ^ 62)%Z;
  dk_written t p : mem_type_of (ds_type o) t → written (ds_elem o t p);
}.

Lemma dataset_elem_ok o t pts :
  dataset_ok o → mem_type_of (ds_type o) t → type_ok t → Forall (elem_ok t) (ds_elem o t <$> pts).
Proof.
  intros Hok Hmt Ht. apply Forall_fmap, Forall_true. intros p.
  apply elem_read_ok; [by apply ds_elem_law|by apply dk_written].
Qed.

Lemma wp_read_dataset V o t id ft mt fs sp T n starts counts epb max ms bufsize (Q : Z → pstore → Prop) s :
  let rank := len (ds_dims o) in
  let nrel := u64 (prod_list (take (Z.to_nat (rank - 1)) (tail counts))) in
  (∀ id, (id < 0)%Z → v_types V !! id = None ∧ v_spaces V !! id = None) →
  v_objs V !! id = Some o → T !! mt = Some t →
  (∃ o1 o2 m, creates ft o1 (v_types V) m ∧ creates mt o2 m T) →
  (0 ≤ fs)%Z ∧ v_spaces V !! fs = None → type_ok t → type_depth t < type_fuel →
  dataset_ok o → mem_type_of (ds_type o) t → (0 < max < 2 ^ 32)%Z →
  ((0 < nrel)%Z → (1 ≤ epb)%Z ∧ (epb * u64 (nrel * dtype_size t) ≤ bufsize)%Z) →
  ms_ready rank n starts counts (ds_dims o) epb ms →
  view s = View T (v_objs V) (v_attrs V) (v_vlens V) (<[fs := sp]> (v_spaces V)) (v_mem V) →
  extent sp = ds_dims o →
  (∀ r s', view s' = V → (r = 0%Z → request_packed o t max rank n starts counts s s') → Q r s') →
  wp (read_dataset type_fuel debug id rank ft mt fs (dtype_size t) nrel (if has_vlen t then 1 else 0)
        bufsize max ms) Q s.
Proof.
  intros rank nrel Hneg Hobj HT Hft Hfs Htok Hdep Hdk Hmt Hmax Hepb Hready Hv Hext HQ.
  pose proof (dk_rank _ Hdk) as Hrk. destruct (dk_size _ Hdk t Hmt) as ([Hsz _] & Hbd & _).
  unfold HDFSTREAM_MAX_DIMS in *. pose proof (len_nonneg (ds_dims o)).
  pose proof (ready_shape _ _ _ _ _ _ _ Hready eq_refl) as [Hsh Hrl].
  pose proof (ready_shape_u64 _ _ _ _ _ _ _ Hready eq_refl) as Hsu.
  pose proof (ready_length _ _ _ _ _ _ _ Hready eq_refl) as Hlen.
  pose proof (ready_bound _ _ _ _ _ _ _ Hready eq_refl) as Hbound.
  destruct (ready_size _ _ _ _ _ _ _ Hready eq_refl (dtype_size t)) as (asz & Hasz & Hds); [done..|].
  unfold read_dataset. wp_step. apply wp_pmalloc. intros buffer s1 Hb1 Hv1 Hp1 _. view_step Hv1 Hv.
  rewrite Hv in Hb1. simpl in Hb1. set (Mm := <[buffer := bufsize]> (v_mem V)) in *.
  assert (Hal : allocs (Some buffer) (v_mem V) Mm) by (simpl; eauto).
  wp_step. eapply wp_lift; [exact Hasz|]. cbn zeta. fold nrel in Hds. rewrite Hds.
  assert (Hdl : len (request_points rank n starts counts) = len (request_data o t rank n starts counts))
    by (unfold request_data, len; by rewrite length_fmap).
  assert (0 ≤ len (request_points rank n starts counts) * dtype_size t < 2 ^ 62)%Z as Hnb by (rewrite Hlen; nia).
  wp_step. apply wp_contents_header; try lia.
  { rewrite Hv1. simpl. by rewrite HT. }
  { by rewrite Hsh. }
  rewrite Hsh. intros [r2 p2] s2 H2. pose proof H2 as [Hv2 H2']. simpl in *.
  set (E := ReadEnv id rank mt fs (dtype_size t) nrel (if has_vlen t then 1 else 0) bufsize
    (request_shape rank n starts counts)).
  assert (Hhead : at_head V o E T Mm s2 sp) by (split; [by rewrite Hv2, Hv1|done]).
  destruct (Z.eqb_spec r2 0) as [->|]; last first.
  { eapply wp_dataset_cleanup; [|intros s3 Hv3 _; by apply HQ].
    by eapply (failed_head V o E ft buffer T Mm). }
  destruct (H2' eq_refl) as (_ & t' & hd & Ht' & (Hm2 & Hpv2 & Hpf2) & _).
  assert (t' = t) as -> by (rewrite <- view_types, Hv1 in Ht'; simpl in Ht'; congruence).
  wp_step. eapply wp_lift; [by apply first_dims_spec|]. rewrite Hsh.
  wp_step. eapply (wp_read_all V o t E ft buffer T Mm n starts counts epb); simpl; try done.
  { assert (len (request_shape rank n starts counts) = rank); [|done]. rewrite <- Hsh.
    unfold len in *. rewrite length_take. lia. }
  { rewrite Hdl in Hnb, H2, Hpf2. split; [lia|done| | |lia].
    - by apply dataset_elem_ok.
    - intros Hf. destruct (Hpf2 Hf) as (-> & -> & ->). split; [lia|]. split; [lia|].
      intros. apply Z.div_str_pos. lia. }
  - intros b msid s3 Hf. simpl. eapply wp_dataset_cleanup; [exact Hf|]. intros s4 Hv4 _. by apply HQ.
  - intros p' s3 sp' Hh Hb. simpl. eapply wp_dataset_cleanup; [by eapply (failed_head V o E ft buffer T Mm)|].
    intros s4 Hv4 Hp4. apply HQ; [done|]. intros _. rewrite Hdl in H2.
    destruct (contents_complete (v_types (view s1) !! mt) t max (request_shape rank n starts counts)
      (request_data o t rank n starts counts) s1 0 p2 s2 0 p' s3) as (Hok & ob & Hob & He); try done; try lia.
    { intros _. rewrite <- Hlen, Hdl, u64_small by (unfold is_u64; nia). done. }
    { by apply dataset_elem_ok. }
    split; [by eapply pk_ok_eq|]. exists ob. split; [done|]. eapply emits_pk; [|exact Hp4].
    by eapply emits_pk_l.
Qed.

(** ** [pack_dataset_multi_slice_with_max_size] *)

(** A request with the rank of the dataset, whose ends do not wrap around and
    whose rows do not have a size that is a multiple of 2^64 bytes. *)
Record request_fits (o : hobj) (rank n : Z) (starts counts : list Z) : Prop := {
  rf_rank : rank = len (ds_dims o);
  rf_arrays : (0 < rank)%Z → (1 ≤ n)%Z → request_ok rank n starts counts (ds_dims o);
  rf_wrap : no_wrap starts counts;
  rf_div t : mem_type_of (ds_type o) t →
    let m := u64 (prod_list (take (Z.to_nat (rank - 1)) (tail counts))) in
    m ≠ 0%Z → u64 (m * dtype_size t) ≠ 0%Z;
}.

Definition multi_slice_result (o : hobj) (max rank n : Z) (starts counts : list Z)
    (s : pstore) (r : Z) (s' : pstore) : Prop :=
  view s' = view s ∧
  (r = 0%Z → (1 ≤ n ≤ HDFSTREAM_MAX_SLICES)%Z ∧
     ((0 < rank)%Z → slices_valid rank n starts counts (ds_dims o)) ∧
     ∃ t, mem_type_of (ds_type o) t ∧ request_packed o t max rank n starts counts s s').

(** The number of elements of a row, as the code computes it. *)
Definition row_elements (rank : Z) (counts : list Z) : Z :=
  u64 (prod_list (take (Z.to_nat (rank - 1)) (tail counts))).

Lemma row_elements_spec rank counts :
  (rank ≤ len counts)%Z →
  for_range (Z.to_nat (rank - 1)) 1 (λ i n, c ← arr_get counts i; Some (u64 (n * c))) 1%Z =
    Some (row_elements rank counts).
Proof.
  intros Hr. destruct (decide (0 < rank)%Z) as [H0|H0]; [by apply tail_product_spec|].
  unfold row_elements. by replace (Z.to_nat (rank - 1)) with 0 by lia.
Qed.

Lemma request_counts o rank n starts counts :
  request_fits o rank n starts counts → (1 ≤ n)%Z → (rank ≤ len counts)%Z.
Proof.
  intros [_ Ha _ _] Hn. destruct (decide (0 < rank)%Z) as [H0|H0]; [|pose proof (len_nonneg counts); lia].
  pose proof (rq_counts _ _ _ _ _ (Ha H0 Hn)). unfold len. nia.
Qed.

Lemma request_packed_pk o t max rank n starts counts s0 s s' :
  p_pk s = p_pk s0 → request_packed o t max rank n starts counts s s' →
  request_packed o t max rank n starts counts s0 s'.
Proof. intros Hp (Hok & ob & Hob & He). split; [done|]. exists ob. split; [done|]. by eapply emits_pk_l. Qed.

Lemma uninit_ms_arrays : ms_arrays uninit_ms.
Proof. done. Qed.

(** The file type and the memory type of a dataset. *)
Lemma wp_dataset_types {A} id o (k : Z → Z → M pstore A) V sp (Q : A → pstore → Prop) s :
  view s = View (v_types V) (v_objs V) (v_attrs V) (v_vlens V) sp (v_mem V) →
  v_objs V !! id = Some o → type_depth (ds_type o) < type_fuel →
  (∀ ft mt s' T, view s' = View T (v_objs V) (v_attrs V) (v_vlens V) sp (v_mem V) → p_pk s' = p_pk s →
     (∃ o1 o2 m, creates ft o1 (v_types V) m ∧ creates mt o2 m T) →
     ((0 ≤ mt)%Z → ∃ t, mem_type_of (ds_type o) t ∧ T !! mt = Some t ∧ type_depth t < type_fuel ∧ type_ok t) →
     wp (k ft mt) Q s') →
  wp (let! ft := lib_call (H5Dget_type id) in let! mt := make_packed_native_type type_fuel ft in k ft mt) Q s.
Proof.
  intros HV Hid Hdep HQ.
  assert (t_objs (tables (p_h5 s)) !! id = Some o) as Ho.
  { change (t_objs (tables (p_h5 s))) with (v_objs (view s)). by rewrite HV. }
  eapply wp_file_and_mem_type; [apply dget_type_law|by rewrite Ho|]. rewrite Ho, HV. simpl.
  intros ft mt s' T Hv Hp Hpair Ht. apply (HQ ft mt s' T); [exact Hv|exact Hp|exact Hpair|].
  intros Hmt. destruct (Ht Hmt) as (t0 & t & [= <-] & ?). by exists t.
Qed.

(** The dataspace of a dataset. *)
Lemma wp_dataset_space {A} id o (k : Z → M pstore A) V T (Q : A → pstore → Prop) s :
  view s = View T (v_objs V) (v_attrs V) (v_vlens V) (v_spaces V) (v_mem V) → v_objs V !! id = Some o →
  (∀ fs s' S, view s' = View T (v_objs V) (v_attrs V) (v_vlens V) S (v_mem V) → p_pk s' = p_pk s →
     (∃ o1, creates fs o1 (v_spaces V) S) →
     ((0 ≤ fs)%Z → ∃ sp, extent sp = ds_dims o ∧ v_spaces V !! fs = None ∧ S = <[fs := sp]> (v_spaces V)) →
     wp (k fs) Q s') →
  wp (let! fs := lib_call (H5Dget_space id) in k fs) Q s.
Proof.
  intros HV Hid HQ. eapply wp_open_space; [eapply (dget_space_law _ _ o)|].
  { change (t_objs (tables (p_h5 s))) with (v_objs (view s)). by rewrite HV. }
  rewrite HV. exact HQ.
Qed.

Lemma ids_ds_open V s fs ft mt sp T :
  (∀ i, (i < 0)%Z → v_types V !! i = None ∧ v_spaces V !! i = None) →
  view s = View T (v_objs V) (v_attrs V) (v_vlens V) sp (v_mem V) →
  (∃ o1 o2 m, creates ft o1 (v_types V) m ∧ creates mt o2 m T) →
  (∃ o1, creates fs o1 (v_spaces V) sp) → ds_open V s false None fs (-1) ft mt.
Proof.
  intros Hneg Hv Ht [o1 Hs]. split; rewrite ?Hv; simpl; try done; [|lia].
  exists o1, None, sp. split; [done|]. apply creates_none.
Qed.

(** What is known about a plan: its types and its dataspace are open, nothing
    else has changed. *)
Record planned (V : hview) (o : hobj) (rank : Z) (counts : list Z) (t : dtype) (T : gmap Z dtype)
    (sp : space) (p : request_plan) (s : pstore) : Prop := {
  pl_type : mem_type_of (ds_type o) t;
  pl_mem : T !! rp_mem_type_id p = Some t;
  pl_depth : type_depth t < type_fuel;
  pl_ok : type_ok t;
  pl_pair : ∃ o1 o2 m, creates (rp_file_type_id p) o1 (v_types V) m ∧ creates (rp_mem_type_id p) o2 m T;
  pl_space : (0 ≤ rp_file_space_id p)%Z ∧ v_spaces V !! rp_file_space_id p = None;
  pl_extent : extent sp = ds_dims o;
  pl_view : view s = View T (v_objs V) (v_attrs V) (v_vlens V) (<[rp_file_space_id p := sp]> (v_spaces V)) (v_mem V);
  pl_size : rp_element_size p = dtype_size t;
  pl_elements : rp_nr_elements p = row_elements rank counts;
  pl_vlen : rp_have_vlen p = (if has_vlen t then 1 else 0)%Z;
}.

Lemma wp_plan_failed V s fs ft mt sp T (Q : Z + request_plan → pstore → Prop) :
  (∀ i, (i < 0)%Z → v_types V !! i = None ∧ v_spaces V !! i = None) →
  view s = View T (v_objs V) (v_attrs V) (v_vlens V) sp (v_mem V) →
  (∃ o1 o2 m, creates ft o1 (v_types V) m ∧ creates mt o2 m T) →
  (∃ o1, creates fs o1 (v_spaces V) sp) →
  (∀ s', view s' = V → p_pk s' = p_pk s → Q (inl (-1)%Z) s') →
  wp (let! result := dataset_cleanup (-1) false None fs (-1) ft mt in ret (inl result)) Q s.
Proof.
  intros Hneg Hv Ht Hs HQ. wp_step. eapply wp_dataset_cleanup; [by eapply ids_ds_open|].
  intros s' Hv' Hp'. wp_step. by apply HQ.
Qed.

(** Planning a request needs only a type that is not nested too deeply and as
    many counts as dimensions. *)
Lemma wp_plan_request id o rank n counts (Q : Z + request_plan → pstore → Prop) s :
  v_objs (view s) !! id = Some o → type_depth (ds_type o) < type_fuel →
  ((1 ≤ n)%Z → (rank ≤ len counts)%Z) →
  (∀ s', view s' = view s → p_pk s' = p_pk s → Q (inl (-1)%Z) s') →
  (∀ p s' t T sp, (1 ≤ n)%Z → planned (view s) o rank counts t T sp p s' → p_pk s' = p_pk s → Q (inr p) s') →
  wp (plan_request type_fuel id rank n counts) Q s.
Proof.
  intros Hid Hdep Hc Hfail HQ. unfold plan_request.
  assert (Hneg : ∀ i, (i < 0)%Z → v_types (view s) !! i = None ∧ v_spaces (view s) !! i = None)
    by (intros; split; [by apply types_neg|by apply spaces_neg]).
  remember (view s) as V eqn:HV. symmetry in HV.
  assert (view s = View (v_types V) (v_objs V) (v_attrs V) (v_vlens V) (v_spaces V) (v_mem V)) as HV' by (rewrite HV; by destruct V).
  assert (Hsp0 : ∃ o1, creates (-1) o1 (v_spaces V) (v_spaces V)) by (exists None; apply creates_none).
  destruct (n <? 1)%Z eqn:En.
  { eapply wp_plan_failed; [exact Hneg|exact HV'| |exact Hsp0|exact Hfail].
    exists None, None, (v_types V). split; apply creates_none. }
  specialize (Hc ltac:(lia)).
  eapply (wp_dataset_types id o); [exact HV'|exact Hid|exact Hdep|].
  intros ft mt s2 T Hv2 Hp2 Hpair Ht. destruct (mt <? 0)%Z eqn:Emt.
  { eapply wp_plan_failed; [exact Hneg|exact Hv2|exact Hpair|exact Hsp0|]. intros. apply Hfail; congruence. }
  destruct Ht as (t & Hmt & HT & Htd & Htok); [lia|].
  eapply (wp_dataset_space id o); [exact Hv2|exact Hid|]. intros fs s3 S Hv3 Hp3 Hsp HS0.
  destruct (fs <? 0)%Z eqn:Efs.
  { eapply wp_plan_failed; [exact Hneg|exact Hv3|exact Hpair|exact Hsp|]. intros. apply Hfail; congruence. }
  destruct HS0 as (sp & Hext & Hn & ->); [lia|].
  wp_step. apply wp_lib_get. erewrite (get_size_law _ _ t); last first.
  { change (t_types (tables (p_h5 s3))) with (v_types (view s3)). by rewrite Hv3. }
  wp_step. eapply wp_lift; [by apply row_elements_spec|].
  wp_step. apply (wp_detect_known _ _ t); [by rewrite Hv3|done|]. intros vk s4 Hv4 Hp4 Hvk. rewrite Hv3 in Hv4.
  destruct (vk <? 0)%Z eqn:Evk.
  { eapply wp_plan_failed; [exact Hneg|exact Hv4|exact Hpair|exact Hsp|]. intros. apply Hfail; congruence. }
  wp_step. eapply HQ; [lia| |congruence]. split; simpl; try done; [by split; [lia|]|].
  by destruct Hvk as [?|?]; [lia|].
Qed.

(** The number of rows that fit the buffer. *)
Lemma rows_fit bufsize p :
  (0 ≤ rp_nr_elements p)%Z → (rp_nr_elements p ≠ 0%Z → row_size p ≠ 0%Z) →
  ∃ epb, rows_per_buffer bufsize p = Some epb ∧
    ((0 < rp_nr_elements p)%Z → epb * row_size p ≤ bufsize)%Z.
Proof.
  intros Hn Hdiv. unfold rows_per_buffer. destruct (Z.ltb_spec 0 (rp_nr_elements p)); [|exists 0%Z; split; [done|lia]].
  unfold div_size. rewrite option_guard_True by (apply Hdiv; lia). simpl. eexists. split; [done|]. intros _.
  pose proof (u64_range (rp_nr_elements p * rp_element_size p)). specialize (Hdiv ltac:(lia)).
  unfold row_size, is_u64 in *. rewrite Z.mul_comm. apply Z.mul_div_le. lia.
Qed.

Lemma wp_read_request V o t id p sp T n starts counts bufsize max (Q : Z → pstore → Prop) s :
  let rank := len (ds_dims o) in
  (∀ id, (id < 0)%Z → v_types V !! id = None ∧ v_spaces V !! id = None) →
  v_objs V !! id = Some o → dataset_ok o → request_fits o rank n starts counts → (1 ≤ n)%Z → (0 < max < 2 ^ 32)%Z →
  planned V o rank counts t T sp p s →
  (∀ r s', view s' = V → (r = 0%Z → (n ≤ HDFSTREAM_MAX_SLICES)%Z ∧
     ((0 < rank)%Z → slices_valid rank n starts counts (ds_dims o)) ∧
     request_packed o t max rank n starts counts s s') → Q r s') →
  wp (read_request type_fuel debug id rank n starts counts bufsize max p) Q s.
Proof.
  cbv zeta. intros Hneg Hid Hok [_ Harr Hwrap Hdiv] Hn Hmax Hplan HQ. pose proof (dk_rank _ Hok) as Hrk.
  destruct p as [ft mt fs es nrel vk]. destruct Hplan as [Hmt HT Htd Htok Hpair Hfs Hext Hv Hes Hnr Hvk]. simpl in *.
  subst es vk. specialize (Hdiv t Hmt). simpl in Hdiv. pose proof (len_nonneg (ds_dims o)).
  assert (Hfail : wp (dataset_cleanup (-1) false None fs (-1) ft mt) Q s).
  { eapply wp_dataset_cleanup; [|intros s2 Hv2 _; by apply HQ].
    eapply ids_ds_open; [exact Hneg|exact Hv|done|]. exists (Some sp). right. exists sp. destruct Hfs. by split_and!. }
  fold (row_elements (len (ds_dims o)) counts) in Hdiv. rewrite <- Hnr in Hdiv.
  assert (0 ≤ nrel)%Z as Hnrel by (rewrite Hnr; apply u64_range).
  unfold read_request. cbn [rp_file_type_id rp_mem_type_id rp_file_space_id rp_element_size rp_nr_elements rp_have_vlen].
  destruct (rows_fit bufsize (RequestPlan ft mt fs (dtype_size t) nrel (if has_vlen t then 1 else 0)%Z)
    Hnrel Hdiv) as (epb & Hepb & Hepb').
  wp_step. eapply wp_lift; [exact Hepb|]. simpl in Hepb'. unfold row_size in Hepb'. simpl in Hepb'.
  destruct ((0 <? nrel)%Z && (epb <? 1)%Z) eqn:Eepb; [exact Hfail|].
  eapply wp_space_dims; [rewrite Hv; apply lookup_insert_eq|]. intros [er written] Her. simpl in Her |- *.
  destruct (er <? 0)%Z eqn:Eer; [exact Hfail|]. destruct Her as [?|[_ ->]]; [lia|]. rewrite Hext.
  wp_step. unfold array_of. replace (len (ds_dims o) <=? HDFSTREAM_MAX_DIMS)%Z with true by lia. wp_step.
  destruct (multislice_init_spec uninit_ms (len (ds_dims o)) n starts counts epb (ds_dims o) uninit_ms_arrays)
    as (ri & ms & Hinit & _ & Hacc & Hpost & Hpost0); [intros; apply Harr; [done|lia]|].
  wp_step. eapply wp_lift; [exact Hinit|]. simpl. destruct (Z.eqb_spec ri 0) as [->|]; [|exact Hfail].
  destruct (proj1 Hacc eq_refl) as [[Hra Hna] Hchk].
  assert ((0 < len (ds_dims o))%Z → slices_valid (len (ds_dims o)) n starts counts (ds_dims o)) as Hvalid.
  { intros H0. eapply slices_checked_valid; [apply Harr; [done|lia]|done|done|by apply Hchk]. }
  subst nrel. eapply (wp_read_dataset V o t id ft mt fs sp T n starts counts epb);
    [exact Hneg|exact Hid|exact HT|exact Hpair|exact Hfs|exact Htok|exact Htd|exact Hok|exact Hmt|exact Hmax|
     | |exact Hv|exact Hext|].
  - intros H0. unfold row_elements in *. split; [lia|by apply Hepb'].
  - destruct (decide (len (ds_dims o) = 0)%Z) as [H0|H0]; [left; split; [done|by apply Hpost0]|].
    right. split; [lia|]. split; [lia|]. split; [apply Harr; lia|]. split; [apply Hvalid; lia|]. apply Hpost; [done|lia|done].
  - intros r s' Hv' Hr. apply HQ; [done|]. intros ->. split; [lia|]. split; [done|]. by apply Hr.
Qed.

Lemma wp_multi_slice id o rank n starts counts bufsize max (Q : Z → pstore → Prop) s :
  v_objs (view s) !! id = Some o → dataset_ok o → request_fits o rank n starts counts →
  (0 < max < 2 ^ 32)%Z →
  (∀ r s', multi_slice_result o max rank n starts counts s r s' → Q r s') →
  wp (pack_dataset_multi_slice_with_max_size type_fuel debug id rank n starts counts bufsize max) Q s.
Proof.
  intros Hid Hok Hfits Hmax HQ. unfold pack_dataset_multi_slice_with_max_size.
  assert (Hneg : ∀ i, (i < 0)%Z → v_types (view s) !! i = None ∧ v_spaces (view s) !! i = None)
    by (intros; split; [by apply types_neg|by apply spaces_neg]).
  wp_step. apply (wp_plan_request id o); [exact Hid|apply Hok|by eapply request_counts| |].
  { intros s' Hv Hp. wp_step. apply HQ. by split. }
  intros p s1 t T sp Hn Hplan Hp1.
  pose proof (rf_rank _ _ _ _ _ Hfits) as Hrank. subst rank.
  eapply (wp_read_request (view s) o t id p sp T);
    [exact Hneg|exact Hid|exact Hok|exact Hfits|exact Hn|exact Hmax|exact Hplan|].
  intros r s' Hv' Hr. apply HQ. split; [exact Hv'|]. intros ->. destruct (Hr eq_refl) as (? & ? & Hpk).
  split; [lia|]. split; [done|]. exists t. split; [apply Hplan|]. by eapply request_packed_pk.
Qed.

(** A plan whose rows have elements but a size of 0 has no number of rows: the
    divisor is 0. *)
Lemma no_rows bufsize p : (0 < rp_nr_elements p)%Z → row_size p = 0%Z → rows_per_buffer bufsize p = None.
Proof.
  intros Hn Hz. unfold rows_per_buffer. replace (0 <? rp_nr_elements p)%Z with true by lia.
  unfold div_size. rewrite option_guard_False; [done|]. intros H. by apply H.
Qed.

(** ** [pack_dataset] *)

Lemma wp_pack_dataset_cleanup V result fs ft mt (Q : Z → pstore → Prop) s :
  ds_open V s false None fs (-1) ft mt →
  (∀ s', view s' = V → p_pk s' = p_pk s → Q result s') →
  wp (pack_dataset_cleanup result fs ft mt) Q s.
Proof.
  intros [Hneg (ot1 & ot2 & mT & HT1 & HT2) (os1 & os2 & mS & HS1 & HS2) Hm Hvl Ho Ha] HQ.
  unfold pack_dataset_cleanup.
  assert (mS = v_spaces (view s)) as -> by (destruct HS2 as [[_ ?]|(? & _ & ? & _)]; [done|lia]).
  wp_step. apply wp_close_if_space. intros s3 Hv3 Hp3.
  wp_step. apply wp_close_if_type. intros s5 Hv5 Hp5. rewrite Hv3 in Hv5.
  wp_step. apply wp_close_if_type. intros s6 Hv6 Hp6. rewrite Hv5 in Hv6.
  wp_step. apply HQ; [|congruence]. rewrite Hv6. cbn [allocs] in Hm. rewrite Z.add_0_r in Hvl.
  apply view_eq; simpl; try done.
  - eapply creates_closed; [exact (creates_swap _ _ _ _ _ _ _ HT1 HT2 (λ id Hid, proj1 (Hneg id Hid)))|].
    intros; by apply Hneg.
  - eapply creates_closed; [exact HS1|]. intros; by apply Hneg.
Qed.

(** A slice with all elements. *)
Lemma full_points dims :
  Forall is_u64 dims →
  request_points (len dims) 1 (replicate (length dims) 0%Z) dims = all_points dims ∧
  request_shape (len dims) 1 (replicate (length dims) 0%Z) dims = dims.
Proof.
  intros Hu. destruct dims as [|d ds]; [done|]. unfold request_points, request_shape.
  replace (len (d :: ds) =? 0)%Z with false by (unfold len; simpl; lia).
  assert (slices_of (len (d :: ds)) 1 (replicate (length (d :: ds)) 0%Z) (d :: ds) = [(0, d)]%Z) as Hs.
  { unfold slices_of. simpl. unfold entry. by replace (len (d :: ds) * 0 + 0)%Z with 0%Z by lia. }
  rewrite Hs, all_rows_one. replace (Z.to_nat (len (d :: ds) - 1)) with (length ds) by (unfold len; simpl; lia).
  apply Forall_cons in Hu as [Hd _]. unfold is_u64 in Hd. split.
  - unfold request_tail. replace (Z.to_nat (len (d :: ds) - 1)) with (length ds) by (unfold len; simpl; lia).
    simpl. rewrite firstn_all, take_ge by (by rewrite length_replicate). unfold all_points, rows. simpl. do 2 f_equal.
    clear. induction ds; simpl; congruence.
  - simpl. rewrite firstn_all. f_equal. unfold len. rewrite length_seqZ. lia.
Qed.

Lemma full_fits o :
  dataset_ok o →
  request_fits o (len (ds_dims o)) 1 (replicate (length (ds_dims o)) 0%Z) (ds_dims o).
Proof.
  intros [Hrk Hdims Hdep Hsize _]. split; [done| | |].
  - intros _ _. split; rewrite ?length_replicate; unfold len; try lia.
    split; [apply Forall_replicate; unfold is_u64; lia|done].
  - intros i st ct Hst Hct. apply lookup_replicate in Hst as [-> _].
    pose proof (Forall_lookup_1 _ _ _ _ Hdims Hct) as Hc. unfold is_u64 in Hc. lia.
  - intros t Hmt. destruct (Hsize t Hmt) as (Hsz & _ & Hb). simpl.
    assert (take (Z.to_nat (len (ds_dims o) - 1)) (tail (ds_dims o)) = tail (ds_dims o)) as ->.
    { apply take_ge. unfold len. rewrite List.length_tl. lia. }
    assert (0 ≤ prod_list (tail (ds_dims o)))%Z.
    { apply prod_list_nonneg. destruct (ds_dims o) as [|d ds]; simpl; [constructor|].
      apply Forall_cons in Hdims as [_ Hd]. eapply Forall_impl; [exact Hd|]. unfold is_u64. lia. }
    rewrite !u64_small by (unfold is_u64; nia). nia.
Qed.

Lemma wp_pack_dataset_data id o bufsize (Q : Z → pstore → Prop) s :
  v_objs (view s) !! id = Some o → dataset_ok o →
  (∀ r s', view s' = view s → (r = 0%Z → pk_ok s' ∧ ∃ t c, mem_type_of (ds_type o) t ∧
      contents_obj t MSGPACK_MAX_SIZE (ds_dims o) (ds_elem o t <$> all_points (ds_dims o)) = Some c ∧
      emits (encode_str (lit "data") ++ encode c) s s') → Q r s') →
  wp (pack_dataset_data type_fuel debug id (len (ds_dims o)) (ds_dims o) bufsize) Q s.
Proof.
  intros Hid Hok HQ. unfold pack_dataset_data. pose proof (len_nonneg (ds_dims o)).
  wp_step. eapply wp_lift; [apply first_dims_spec; lia|]. rewrite to_nat_len, firstn_all.
  apply wp_check_string; [by vm_compute| |intros s1 Hv1; wp_step; apply HQ; [done|lia]].
  intros s1 Hv1 He1 _. unfold pack_dataset_slice.
  eapply (wp_multi_slice id o); [by rewrite Hv1|done|by apply full_fits|unfold MSGPACK_MAX_SIZE; lia|].
  intros r s2 [Hv2 H2]. apply HQ; [congruence|]. intros Hr. destruct (H2 Hr) as (_ & _ & t & Hmt & Hok2 & c & Hc & He2).
  split; [done|]. destruct (full_points (ds_dims o) (dk_dims _ Hok)) as [Hp Hs].
  unfold request_data in Hc. rewrite Hp, Hs in Hc. exists t, c. split; [done|]. split; [done|]. emits_done.
Qed.
End proof.
