(* ===== verification/PackDatasetMain.v ===== *)
(** * Datasets: the description of a dataset

    [pack_dataset] writes one map with the type, shape and attributes of the
    dataset and, if they are small, its contents. *)
From Stdlib Require Import Strings.Byte Strings.String.
From stdpp Require Import base tactics numbers list gmap propset.
From S2P Require Import Prelude Bytes Msgpack Select H5 PackStore Multislice Points NumpyType.
From S2P Require Import NumpyTypeProof PackContents PackContentsProof PackAttributes PackDataset.
From S2P Require Import PackDatasetProof.

Definition data_entry (contents : option obj) : list (list byte * obj) :=
  match contents with Some c => [(lit "data", c)] | None => [] end.
Definition dataset_obj (t : dtype) (dims : list Z) (attrs : list (list byte * obj))
    (contents : option obj) : option obj :=
  ty ← numpy_obj t None; k ← numpy_kind t;
  Some (OMap ([(lit "hdf5_object", OStr (lit "dataset")); (lit "attributes", OMap attrs);
               (lit "type", ty); (lit "kind", OStr k); (lit "shape", OArray (OInt <$> dims))] ++
              data_entry contents)).

Section proof.
Context `{HS : H5Space, HL : !H5Lib, HM : Msgpack, HP : Packer}.
Context (type_fuel : nat) (debug : bool).
Context `{HSL : !H5SpaceLaws, HLL : !H5LibLaws, HML : !MsgpackLaws, HPL : !PackerLaws}.
Implicit Types s : pstore.

(** The contents of a dataset that are written with its description. *)
Definition contents_included (o : hobj) (with_data : bool) (contents : option obj) : Prop :=
  if with_data then
    ∃ t2 c, mem_type_of (ds_type o) t2 ∧ contents = Some c ∧
      contents_obj t2 MSGPACK_MAX_SIZE (ds_dims o) (ds_elem o t2 <$> all_points (ds_dims o)) = Some c
  else contents = None.
(** The object that describes a dataset, with its contents if they have at most
    [limit] bytes. *)
Definition dataset_described (o : hobj) (limit : Z) (ob : obj) : Prop :=
  ∃ t attrs contents, mem_type_of (ds_type o) t ∧
    Forall2 attr_entry (obj_attrs o) attrs ∧
    dataset_obj t (ds_dims o) attrs contents = Some ob ∧
    contents_included o (prod_list (ds_dims o) * dtype_size t <=? limit)%Z contents.

Definition dataset_result (o : hobj) (limit : Z) (s : pstore) (r : Z) (s' : pstore) : Prop :=
  view s' = view s ∧
  (r = 0%Z → pk_ok s' ∧ ∃ ob, dataset_described o limit ob ∧ emits (encode ob) s s').

(** A dataset whose attributes are within the limits. *)
Definition object_ok (o : hobj) : Prop :=
  Forall (attr_ok type_fuel) (obj_attrs o) ∧ (len (obj_attrs o) < 2 ^ 31)%Z.

Lemma wp_optional_data id o bufsize (with_data : bool) (Q : Z → pstore → Prop) s :
  v_objs (view s) !! id = Some o → dataset_ok type_fuel o → pk_ok s →
  (∀ r s', view s' = view s → (r = 0%Z → pk_ok s' ∧ ∃ contents, contents_included o with_data contents ∧
     emits (concat (map (λ kv, encode_str kv.1 ++ encode kv.2) (data_entry contents))) s s') → Q r s') →
  wp (if with_data then pack_dataset_data type_fuel debug id (len (ds_dims o)) (ds_dims o) bufsize else ret 0%Z) Q s.
Proof.
  intros Hid Hok Hpk HQ. destruct with_data.
  - apply (wp_pack_dataset_data type_fuel debug id o); [done|done|].
    intros r s' Hv H0. apply HQ; [done|]. intros Hr. destruct (H0 Hr) as (Hok' & t2 & c & Ht2 & Hc & He).
    split; [done|]. exists (Some c). split; [by exists t2, c|]. simpl. by rewrite app_nil_r.
  - wp_step. apply HQ; [done|]. intros _. split; [done|]. exists None. split; [done|apply emits_refl].
Qed.

(** The type, the shape, the attributes and the contents are written as they
    are described. *)
Lemma wp_write_description id o mt t bufsize (with_data : bool) (Q : Z → pstore → Prop) s :
  v_objs (view s) !! id = Some o → v_types (view s) !! mt = Some t → type_depth t < type_fuel →
  dataset_ok type_fuel o → object_ok o →
  (∀ r s', view s' = view s → (r = 0%Z → pk_ok s' ∧ ∃ attrs contents ob,
     Forall2 attr_entry (obj_attrs o) attrs ∧ dataset_obj t (ds_dims o) attrs contents = Some ob ∧
     contents_included o with_data contents ∧ emits (encode ob) s s') → Q r s') →
  wp (write_description type_fuel debug id (len (ds_dims o)) mt bufsize (ds_dims o) with_data) Q s.
Proof.
  intros Hid Hmt Htd Hok [Hattrs Hna] HQ. pose proof Hok as [Hrk Hdims Hdep Hsize]. pose proof (len_nonneg (ds_dims o)).
  assert (Hfail : ∀ s', view s' = view s → wp (ret (-1)%Z) Q s') by (intros; by apply wp_ret, HQ).
  unfold write_description.
  apply wp_check_header; [|intros; by apply Hfail]. intros s4 Hv4 He4 _.
  apply wp_check_string; [by vm_compute| |intros; apply Hfail; congruence]. intros s5 Hv5 He5 _.
  apply wp_check_string; [by vm_compute| |intros; apply Hfail; congruence]. intros s6 Hv6 He6 _.
  apply wp_check_string; [by vm_compute| |intros; apply Hfail; congruence]. intros s7 Hv7 He7 _.
  eapply (wp_checked (λ s', ∃ kvs, Forall2 attr_entry (obj_attrs o) kvs ∧ emits (encode (OMap kvs)) s7 s'));
    [| |intros; apply Hfail; congruence].
  { apply (wp_pack_attributes type_fuel id o); [congruence|done|done|lia|].
    intros r s8 [Hv8 H8]. split; [done|]. intros Hr. by apply H8. }
  intros s8 Hv8 (kvs & Hkvs & He8).
  apply wp_check_string; [by vm_compute| |intros; apply Hfail; congruence]. intros s9 Hv9 He9 _.
  eapply wp_checked; [apply (wp_describe_type type_fuel _ t); [congruence|done|intros r s10 H10; exact H10]| |intros; apply Hfail; congruence].
  intros s10 Hv10 (ty & Hty & He10).
  apply wp_check_string; [by vm_compute| |intros; apply Hfail; congruence]. intros s11 Hv11 He11 _.
  eapply wp_checked; [apply (wp_describe_kind _ t); [congruence|intros r s12 H12; exact H12]| |intros; apply Hfail; congruence].
  intros s12 Hv12 (k & Hk & He12).
  eapply wp_checked; [apply wp_pack_shape; [lia|unfold HDFSTREAM_MAX_DIMS in *; lia|
    rewrite to_nat_len, firstn_all; exact Hdims|]; intros r s13 Hv13 Hs13; split; [exact Hv13|exact Hs13]| |
    intros; apply Hfail; congruence].
  intros s13 Hv13 [He13 Hok13]. rewrite to_nat_len, firstn_all in He13.
  eapply wp_checked; [apply wp_optional_data; [congruence|done|done|]; intros r s14 Hv14 H14; split; [exact Hv14|exact H14]| |
    intros; apply Hfail; congruence].
  intros s14 Hv14 (Hok14 & contents & Hcont & He14). wp_step. apply HQ; [congruence|]. intros _. split; [done|].
  exists kvs, contents. unfold dataset_obj. rewrite Hty, Hk. simpl. eexists. split; [done|]. split; [done|].
  split; [done|]. eapply emits_cast; [emits_chain|].
  assert (∀ l, len l = 5%Z → u64 (if with_data then 6 else 5) = len (l ++ data_entry contents)) as Hn.
  { intros l Hl. rewrite len_app, Hl. destruct with_data; [destruct Hcont as (? & ? & _ & -> & _)|rewrite Hcont]; done. }
  rewrite (Hn [(lit "hdf5_object", OStr (lit "dataset")); (lit "attributes", OMap kvs); (lit "type", ty);
    (lit "kind", OStr k); (lit "shape", OArray (OInt <$> ds_dims o))]) by done.
  cbn [encode map concat fst snd app]. by rewrite <- ?app_assoc, ?app_nil_r.
Qed.
(** The identifiers that [pack_dataset] closes at the end. *)
Definition ids_open (V : hview) (s : pstore) (fs ft mt : Z) : Prop := ∃ sp T,
  view s = View T (v_objs V) (v_attrs V) (v_vlens V) sp (v_mem V) ∧
  (∀ i, (i < 0)%Z → v_types V !! i = None ∧ v_spaces V !! i = None) ∧
  (∃ o1 o2 m, creates ft o1 (v_types V) m ∧ creates mt o2 m T) ∧ ∃ o1, creates fs o1 (v_spaces V) sp.
Lemma wp_ids_cleanup V r fs ft mt (Q : Z → pstore → Prop) s :
  ids_open V s fs ft mt → (∀ s', view s' = V → p_pk s' = p_pk s → Q r s') →
  wp (pack_dataset_cleanup r fs ft mt) Q s.
Proof.
  intros (sp & T & Hv & Hneg & Ht & o1 & Hs) HQ. apply wp_pack_dataset_cleanup with (V := V); [|exact HQ].
  split; rewrite ?Hv; simpl; try done; [|lia]. exists o1, None, sp. split; [done|]. apply creates_none.
Qed.

Lemma wp_pack_dataset id o limit bufsize (Q : Z → pstore → Prop) s :
  v_objs (view s) !! id = Some o → dataset_ok type_fuel o → object_ok o →
  (∀ r s', dataset_result o limit s r s' → Q r s') →
  wp (pack_dataset type_fuel debug id limit bufsize) Q s.
Proof.
  intros Hid Hok Hobj HQ. pose proof Hok as [Hrk Hdims Hdep Hsize]. unfold pack_dataset.
  pose proof (len_nonneg (ds_dims o)).
  assert (Hneg : ∀ i, (i < 0)%Z → v_types (view s) !! i = None ∧ v_spaces (view s) !! i = None)
    by (intros; split; [by apply types_neg|by apply spaces_neg]).
  remember (view s) as V eqn:HV. symmetry in HV.
  assert (Hfail : ∀ s' fs ft mt, ids_open V s' fs ft mt → wp (pack_dataset_cleanup (-1) fs ft mt) Q s').
  { intros. eapply wp_ids_cleanup; [done|]. intros s2 Hv2 _. apply HQ. split; [congruence|done]. }
  eapply (wp_dataset_space id o _ V (v_types V)); [rewrite HV; by destruct V|exact Hid|].
  intros fs s1 sp Hv1 Hp1 Hsp Hfs.
  assert (Hfail1 : wp (pack_dataset_cleanup (-1) fs (-1) (-1)) Q s1).
  { apply Hfail. exists sp, (v_types V). split_and!; [exact Hv1|exact Hneg| |exact Hsp].
    exists None, None, (v_types V). split; apply creates_none. }
  destruct (fs <? 0)%Z eqn:Efs; [exact Hfail1|]. destruct Hfs as (spc & Hext & Hn & Hsps); [lia|].
  assert (Hspd : v_spaces (view s1) !! fs = Some spc) by (rewrite Hv1, Hsps; apply lookup_insert_eq).
  eapply wp_space_extent; [exact Hspd|by rewrite Hext|exact Hfail1|]. rewrite Hext. clear Hfail1.
  eapply (wp_dataset_types type_fuel id o); [exact Hv1|exact Hid|apply Hok|].
  intros ft mt s3 T Hv3 Hp3 Hpair Hmt.
  assert (Hids : ∀ s', view s' = view s3 → ids_open V s' fs ft mt).
  { intros s' Hv'. exists sp, T. split_and!; [by rewrite Hv', Hv3|exact Hneg|exact Hpair|exact Hsp]. }
  destruct (mt <? 0)%Z eqn:Emt; [by apply Hfail, Hids|]. destruct Hmt as (t & Ht & HT & Htd & _); [lia|].
  destruct (Hsize t Ht) as ([Hsz Hsz2] & Hbd & _).
  wp_step. apply wp_lib_get. erewrite (get_size_law _ _ t); last first.
  { change (t_types (tables (p_h5 s3))) with (v_types (view s3)). by rewrite Hv3. }
  replace (dtype_size t =? 0)%Z with false by lia.
  assert (0 ≤ prod_list (ds_dims o))%Z.
  { apply prod_list_nonneg. eapply Forall_impl; [exact Hdims|]. unfold is_u64. lia. }
  wp_step. eapply wp_lift; [apply product_from_spec; [lia|unfold is_u64; lia]|].
  rewrite to_nat_len, firstn_all, Z.mul_comm, u64_small by (unfold is_u64; nia).
  wp_step. eapply (wp_write_description id o mt t); [by rewrite Hv3|by rewrite Hv3|done|done|done|].
  intros r s4 Hv4 Hr. eapply wp_ids_cleanup; [by apply Hids|]. intros s5 Hv5 Hp5. apply HQ.
  split; [congruence|]. intros Hr0. destruct (Hr Hr0) as (Hok4 & attrs & contents & ob & Ha & Hob & Hc & He).
  split; [by eapply pk_ok_eq|]. exists ob. split; [by exists t, attrs, contents|].
  eapply emits_pk; [|exact Hp5]. eapply (emits_pk_l _ s s3); [congruence|]. exact He.
Qed.
End proof.
