(* ===== verification/PackObject.v ===== *)
(** * Objects, groups and links (src/src/hdf5/pack_object.c, pack_group.c,
    pack_soft_link.c and pack_unknown.c)

    An object is packed with its members down to a recursion limit.  The
    functions call each other: [pack_object_recursive] opens an object,
    [pack_group_recursive] iterates over the links of a group, [visit_link]
    packs one of them. *)
From Stdlib Require Import Strings.Byte Strings.String.
From stdpp Require Import base tactics numbers list gmap propset.
From S2P Require Import Prelude Bytes Msgpack Select H5 PackStore Multislice NumpyType PackContents.
From S2P Require Import PackAttributes PackDataset.

Definition MAX_LINKS_FOR_RECURSION : Z := 20.

(** [strnlen]: the bytes before the first null byte of the first [n]. *)
Definition strnlen (bs : list byte) (n : Z) : Z := len (until_null (take (Z.to_nat n) bs)).

Section object.
Context `{HS : H5Space, HL : !H5Lib, HM : Msgpack, HP : Packer}.
Context (type_fuel : nat) (debug : bool).

Definition pack_unknown : M pstore Z :=
  check! msgpack_pack_map 1 else ret (-1)%Z in
  check! pack_string (lit "hdf5_object") else ret (-1)%Z in
  check! pack_string (lit "unknown") else ret (-1)%Z in
  ret 0%Z.

Definition pack_soft_link (obj_id : Z) (name : list byte) (info : link_info) : M pstore Z :=
  do! assertM (match li_type info with H5L_TYPE_SOFT => true | _ => false end) in
  let! target := malloc mem (li_val_size info) in
  let cleanup := do! free_if (Some target) in ret (-1)%Z in
  let! val := lib_get (H5Lget_val obj_id name (li_val_size info)) in
  if (val.1 <? 0)%Z then cleanup else
  do! assertM (len val.2 <=? li_val_size info)%Z in
  let target_length := strnlen val.2 (li_val_size info) in
  let! path := lift (slice 0 target_length val.2) in
  check! msgpack_pack_map 2 else cleanup in
  check! pack_string (lit "hdf5_object") else cleanup in
  check! pack_string (lit "soft_link") else cleanup in
  check! pack_string (lit "target") else cleanup in
  check! pack_string path else cleanup in
  do! free_if (Some target) in ret 0%Z.

(** [H5Literate2]: visits links until a visit does not return 0. *)
Definition H5Literate2 (obj_id : Z) (visit : list byte → link_info → M pstore Z) : M pstore Z :=
  let! links := lib_get (H5Lvisit obj_id) in
  let! res := for_checked (length links.2) 0 (λ i,
    let! l := lift (arr_get links.2 i) in visit l.1 l.2) in
  ret (if (res =? 0)%Z then links.1 else res).

(** [pack_object_recursive] with the arguments that do not change left out. *)
Section recursive.
Context (pack_object_recursive : Z → list byte → Z → M pstore Z).

Definition visit_link (encode_members : bool) (depth : Z) (obj_id : Z) (name : list byte)
    (info : link_info) : M pstore Z :=
  check! pack_string name else ret (-1)%Z in
  if encode_members then
    match li_type info with
    | H5L_TYPE_HARD | H5L_TYPE_EXTERNAL =>
        check! pack_object_recursive obj_id name (depth + 1)%Z else ret (-1)%Z in ret 0%Z
    | H5L_TYPE_SOFT =>
        check! pack_soft_link obj_id name info else ret (-1)%Z in ret 0%Z
    | H5L_TYPE_ERROR => ret (-1)%Z
    | H5L_TYPE_OTHER =>
        check! pack_unknown else ret (-1)%Z in ret 0%Z
    end
  else
    check! msgpack_pack_nil else ret (-1)%Z in ret 0%Z.

(** "Recursion behavior": whether the members of a group are encoded. *)
Definition encodes_members (depth max_depth nr_links : Z) : bool :=
  negb ((0 <? depth)%Z && ((MAX_LINKS_FOR_RECURSION <? nr_links)%Z || (max_depth <=? depth)%Z)).

Definition pack_group_recursive (obj_id depth max_depth : Z) : M pstore Z :=
  let! info := lib_get (H5Gget_info obj_id) in
  if (info.1 <? 0)%Z then ret (-1)%Z else
  let nr_links := s32 info.2 in
  let encode_members := encodes_members depth max_depth nr_links in
  check! msgpack_pack_map 3 else ret (-1)%Z in
  check! pack_string (lit "hdf5_object") else ret (-1)%Z in
  check! pack_string (lit "group") else ret (-1)%Z in
  check! pack_string (lit "attributes") else ret (-1)%Z in
  check! pack_attributes type_fuel obj_id else ret (-1)%Z in
  check! pack_string (lit "members") else ret (-1)%Z in
  check! msgpack_pack_map nr_links else ret (-1)%Z in
  check! H5Literate2 obj_id (visit_link encode_members depth obj_id) else ret (-1)%Z in
  ret 0%Z.
End recursive.

(** The fuel bounds the nesting of the calls. *)
Fixpoint pack_object_recursive (fuel : nat) (max_depth data_size_limit buffer_size loc_id : Z)
    (name : list byte) (depth : Z) : M pstore Z :=
  match fuel with
  | 0 => ub
  | S fuel =>
    let! obj_id := lib_call (H5Oopen loc_id name) in
    if (obj_id <? 0)%Z then do! close_if H5Oclose obj_id in ret (-1)%Z else
    let! type := lib_get (H5Iget_type obj_id) in
    let! res :=
      match type with
      | H5I_GROUP =>
          if (max_depth <? depth)%Z then msgpack_pack_nil
          else pack_group_recursive (pack_object_recursive fuel max_depth data_size_limit buffer_size)
                 obj_id depth max_depth
      | H5I_DATASET => pack_dataset type_fuel debug obj_id data_size_limit buffer_size
      | H5I_OTHER => pack_unknown
      end in
    do! close_if H5Oclose obj_id in
    ret (if (res =? 0)%Z then 0 else -1)%Z
  end.

(** Every nested call has a greater depth, up to [max_depth + 1]. *)
Definition recursion_fuel (max_depth : Z) : nat := S (Z.to_nat (max_depth + 1)).

Definition pack_object (loc_id : Z) (name : list byte) (max_depth data_size_limit buffer_size : Z) : M pstore Z :=
  pack_object_recursive (recursion_fuel max_depth) max_depth data_size_limit buffer_size loc_id name 0.
Definition pack_group (obj_id max_depth data_size_limit buffer_size : Z) : M pstore Z :=
  pack_group_recursive (pack_object_recursive (recursion_fuel max_depth) max_depth data_size_limit buffer_size)
    obj_id 0 max_depth.
End object.
