(* ===== verification/PackObjectProof.v ===== *)
(** * Objects, groups and links: correctness

    The object that an HDF5 object is packed as, and that packing terminates,
    closes what it opens and writes that object. *)
From Stdlib Require Import Strings.Byte Strings.String.
From stdpp Require Import base tactics numbers list gmap propset.
From S2P Require Import Prelude Bytes Msgpack Select H5 PackStore Multislice Points NumpyType.
From S2P Require Import NumpyTypeProof PackContents PackContentsProof PackAttributes PackDataset.
From S2P Require Import PackDatasetProof PackDatasetMain PackObject.

Definition unknown_obj : obj := OMap [(lit "hdf5_object", OStr (lit "unknown"))].
Definition soft_link_obj (target : list byte) : obj :=
  OMap [(lit "hdf5_object", OStr (lit "soft_link")); (lit "target", OStr target)].
Definition group_obj (attrs members : list (list byte * obj)) : obj :=
  OMap [(lit "hdf5_object", OStr (lit "group")); (lit "attributes", OMap attrs);
        (lit "members", OMap members)].

Section proof.
Context `{HS : H5Space, HL : !H5Lib, HM : Msgpack, HP : Packer}.
Context (type_fuel : nat) (debug : bool).
Context `{HSL : !H5SpaceLaws, HLL : !H5LibLaws, HML : !MsgpackLaws, HPL : !PackerLaws}.
Implicit Types s : pstore.

(** ** Leaves *)

Definition writes (P : obj → Prop) (s : pstore) (r : Z) (s' : pstore) : Prop :=
  view s' = view s ∧ (r = 0%Z → pk_ok s' ∧ ∃ ob, P ob ∧ emits (encode ob) s s').

Lemma writes_fail P s s' : view s' = view s → writes P s (-1) s'.
Proof. intros Hv. by split. Qed.

Lemma wp_pack_unknown (Q : Z → pstore → Prop) s :
  (∀ r s', writes (λ ob, ob = unknown_obj) s r s' → Q r s') → wp pack_unknown Q s.
Proof.
  intros HQ. unfold pack_unknown.
  assert (Hfail : ∀ s', view s' = view s → wp (ret (-1)%Z) Q s') by (intros; by apply wp_ret, HQ, writes_fail).
  apply wp_check_header; [|by intros; apply Hfail]. intros s1 Hv1 He1 _.
  apply wp_check_string; [by vm_compute| |intros; apply Hfail; congruence]. intros s2 Hv2 He2 _.
  apply wp_check_string; [by vm_compute| |intros; apply Hfail; congruence]. intros s3 Hv3 He3 Hok3.
  wp_step. apply HQ. split; [congruence|]. intros _. split; [done|]. exists unknown_obj. split; [done|].
  emits_done.
Qed.

Lemma wp_pack_soft_link id o name target info (Q : Z → pstore → Prop) s :
  v_objs (view s) !! id = Some o → (name, LSoft target) ∈ obj_links o → info_of (LSoft target) info →
  (len target < 2 ^ 31)%Z → (∀ r s', writes (λ ob, ob = soft_link_obj target) s r s' → Q r s') →
  wp (pack_soft_link id name info) Q s.
Proof.
  intros Hid Hin (Hty & Hsz & Hnull) Hlen HQ. unfold pack_soft_link. rewrite Hty, Hsz.
  pose proof (len_nonneg target).
  wp_step. apply wp_assert; [done|]. wp_step. apply wp_pmalloc. intros buf s1 Hb1 Hv1 Hp1 _.
  set (Mm := <[buf := (len target + 1)%Z]> (v_mem (view s))) in *.
  assert (Hfree : ∀ r s', view s' = view s1 →
     (∀ s2, view s2 = view s → p_pk s2 = p_pk s' → writes (λ ob, ob = soft_link_obj target) s r s2) →
     wp (do! free_if (Some buf) in ret r) Q s').
  { intros r s' Hv' Hw. wp_step. simpl. eapply wp_pfree; [rewrite Hv', Hv1; simpl; apply lookup_insert_eq|].
    intros s2 Hv2 Hp2. wp_step. apply HQ, Hw; [|done].
    rewrite Hv2, Hv', Hv1. apply view_eq; try done. by apply delete_insert_id. }
  assert (Hfail : ∀ s', view s' = view s1 → wp (do! free_if (Some buf) in ret (-1)%Z) Q s').
  { intros s' Hv'. apply Hfree; [done|]. intros. by apply writes_fail. }
  wp_step. apply wp_lib_get. pose proof (get_val_law id name target (p_h5 s1) o) as Hlaw.
  destruct (H5Lget_val id name (len target + 1) (p_h5 s1)) as [r bs].
  cbn [fst snd]. destruct (r <? 0)%Z eqn:Er; [by apply Hfail|].
  destruct Hlaw as [?|Hbs]; [|done|lia|].
  { change (t_objs (tables (p_h5 s1))) with (v_objs (view s1)). by rewrite Hv1. }
  assert (len bs = len target + 1)%Z as Hlb by (rewrite Hbs, len_app; unfold len; simpl; lia).
  wp_step. apply wp_assert; [lia|].
  assert (strnlen bs (len target + 1) = len target) as Hn.
  { unfold strnlen. rewrite take_ge by (unfold len in *; lia). by rewrite Hbs, until_null_app. }
  assert (slice 0 (len target) bs = Some target) as Hsl.
  { unfold slice. rewrite option_guard_True by lia. simpl. rewrite drop_0, to_nat_len, Hbs. f_equal.
    apply take_app_length. }
  cbn zeta. rewrite Hn. wp_step. eapply wp_lift; [exact Hsl|].
  apply wp_check_header; [|by intros; apply Hfail]. intros s2 Hv2 He2 _.
  apply wp_check_string; [by vm_compute| |intros; apply Hfail; congruence]. intros s3 Hv3 He3 _.
  apply wp_check_string; [by vm_compute| |intros; apply Hfail; congruence]. intros s4 Hv4 He4 _.
  apply wp_check_string; [by vm_compute| |intros; apply Hfail; congruence]. intros s5 Hv5 He5 _.
  apply wp_check_string; [by apply len_u64| |intros; apply Hfail; congruence]. intros s6 Hv6 He6 Hok6.
  apply Hfree; [congruence|]. intros s7 Hv7 Hp7. split; [done|]. intros _.
  split; [by eapply pk_ok_eq|]. exists (soft_link_obj target). split; [done|].
  eapply emits_pk; [|exact Hp7]. eapply emits_pk_l; [exact Hp1|]. emits_done.
Qed.

(** ** What an object is packed as *)

(** The file is within the limits of the format. *)
Record file_ok : Prop := {
  fo_fuel : 0 < type_fuel;
  fo_attrs o : obj_type o ≠ H5I_OTHER → object_ok type_fuel o;
  fo_datasets o : obj_type o = H5I_DATASET → dataset_ok type_fuel o;
  fo_links o : obj_type o = H5I_GROUP → (len (obj_links o) < 2 ^ 31)%Z ∧
    Forall (λ l, (len l.1 < 2 ^ 31)%Z ∧ ∀ target, l.2 = LSoft target → (len target < 2 ^ 31)%Z) (obj_links o);
}.

(** The value of the entry of a link, for members that [described] describes. *)
Definition link_described (described : hobj → obj → Prop) (o : hobj) (l : list byte * link) (ob : obj) : Prop :=
  match l.2 with
  | LObject _ => ∃ o', follow o l.1 = Some o' ∧ described o' ob
  | LSoft target => ob = soft_link_obj target
  | LOther broken => broken = false ∧ ob = unknown_obj
  end.
Definition entry_described (described : hobj → obj → Prop) (encode_members : bool) (o : hobj)
    (l : list byte * link) (kv : list byte * obj) : Prop :=
  kv.1 = l.1 ∧ if encode_members then link_described described o l kv.2 else kv.2 = ONil.
Definition group_described (described : hobj → obj → Prop) (depth max_depth : Z) (o : hobj) (ob : obj) : Prop :=
  ∃ attrs members, ob = group_obj attrs members ∧ Forall2 attr_entry (obj_attrs o) attrs ∧
    Forall2 (entry_described described (encodes_members depth max_depth (len (obj_links o))) o)
      (obj_links o) members.

(** The object at some depth: a group beyond the recursion limit is nil. *)
Fixpoint object_described (fuel : nat) (max_depth limit depth : Z) (o : hobj) (ob : obj) : Prop :=
  match fuel with
  | 0 => False
  | S fuel =>
      match obj_type o with
      | H5I_GROUP =>
          if (max_depth <? depth)%Z then ob = ONil
          else group_described (object_described fuel max_depth limit (depth + 1)) depth max_depth o ob
      | H5I_DATASET => dataset_described o limit ob
      | H5I_OTHER => ob = unknown_obj
      end
  end.

(** ** Links *)

Section group.
Context (Hfile : file_ok) (rec : Z → list byte → Z → M pstore Z) (described : hobj → obj → Prop)
  (depth max_depth : Z) (o : hobj) (Ho : obj_type o = H5I_GROUP).
Let encode_members := encodes_members depth max_depth (len (obj_links o)).
Context (Hrec : ∀ id name (Q : Z → pstore → Prop) s, encode_members = true →
  v_objs (view s) !! id = Some o →
  (∀ r s', writes (λ ob, ∃ o', follow o name = Some o' ∧ described o' ob) s r s' → Q r s') →
  wp (rec id name (depth + 1)) Q s).

Lemma wp_visit_link id l info (Q : Z → pstore → Prop) s :
  v_objs (view s) !! id = Some o → l ∈ obj_links o → info_of l.2 info →
  (∀ r s', view s' = view s → (r = 0%Z → pk_ok s' ∧ ∃ kv, entry_described described encode_members o l kv ∧
     emits (encode_str kv.1 ++ encode kv.2) s s') → Q r s') →
  wp (visit_link rec encode_members depth id l.1 info) Q s.
Proof.
  intros Hid Hl Hinfo HQ. unfold visit_link. destruct (fo_links Hfile o Ho) as [_ Hlinks].
  rewrite Forall_forall in Hlinks. destruct (Hlinks _ Hl) as [Hname Htarget].
  assert (Hfail : ∀ s', view s' = view s → wp (ret (-1)%Z) Q s') by (intros; by apply wp_ret, HQ).
  apply wp_check_string; [by apply len_u64| |done]. intros s1 Hv1 He1 Hok1.
  assert (Hid1 : v_objs (view s1) !! id = Some o) by (by rewrite Hv1).
  assert (Hend : ∀ ob s2, view s2 = view s1 → pk_ok s2 → emits (encode ob) s1 s2 →
    (if encode_members then link_described described o l ob else ob = ONil) → wp (ret 0%Z) Q s2).
  { intros ob s2 Hv2 Hok2 He2 Hd. wp_step. apply HQ; [congruence|]. intros _. split; [done|].
    exists (l.1, ob). split; [by split|]. by eapply emits_trans. }
  assert (Hpack : ∀ (P : obj → Prop) (m : M pstore Z),
    (∀ Q' : Z → pstore → Prop, (∀ r s', writes P s1 r s' → Q' r s') → wp m Q' s1) →
    (∀ ob, P ob → if encode_members then link_described described o l ob else ob = ONil) →
    wp (check! m else ret (-1)%Z in ret 0%Z) Q s1).
  { intros P m Hm HP'. eapply (wp_checked (λ s', pk_ok s' ∧ ∃ ob, P ob ∧ emits (encode ob) s1 s')).
    - apply Hm. by intros r s' [Hv' Hw].
    - intros s2 Hv2 (Hok2 & ob & Hob & He2). eapply Hend; [done..|by apply HP'].
    - intros s2 Hv2. apply Hfail. congruence. }
  clearbody encode_members. destruct encode_members; last first.
  { apply (Hpack (λ ob, ob = ONil)); [|done]. intros Q' HQ'. apply wp_msgpack_pack.
    intros r s2 Hv2 He2 Hok2. apply HQ'. split; [done|]. intros Hr. split; [auto|]. by exists ONil. }
  unfold link_described in Hpack. destruct l as [name [external|target|broken]]; simpl in *.
  - assert (Hobj : wp (check! rec id name (depth + 1)%Z else ret (-1)%Z in ret 0%Z) Q s1).
    { apply (Hpack (λ ob, ∃ o', follow o name = Some o' ∧ described o' ob)); [|done].
      intros Q' HQ'. apply Hrec; [done|exact Hid1|done]. }
    rewrite Hinfo. by destruct external.
  - rewrite (proj1 Hinfo). apply (Hpack (λ ob, ob = soft_link_obj target)); [|done].
    intros Q' HQ'. apply (wp_pack_soft_link id o name target); [exact Hid1|done|done|by apply Htarget|done].
  - rewrite Hinfo. destruct broken; [by apply Hfail|].
    apply (Hpack (λ ob, ob = unknown_obj)); [|done]. intros Q' HQ'. by apply wp_pack_unknown.
Qed.

Lemma wp_literate id (Q : Z → pstore → Prop) s :
  v_objs (view s) !! id = Some o → pk_ok s →
  (∀ r s', view s' = view s → (r = 0%Z → pk_ok s' ∧ ∃ kvs,
     Forall2 (entry_described described encode_members o) (obj_links o) kvs ∧
     emits (concat (map (λ kv, encode_str kv.1 ++ encode kv.2) kvs)) s s') → Q r s') →
  wp (H5Literate2 id (visit_link rec encode_members depth id)) Q s.
Proof.
  intros Hid Hok HQ. unfold H5Literate2. wp_step. apply wp_lib_get.
  pose proof (visit_law id (p_h5 s) o Hid) as Hlaw. destruct (H5Lvisit id (p_h5 s)) as [r0 ls].
  destruct Hlaw as [Hls Hall]. cbn [fst snd].
  wp_step. eapply (wp_for_checked (λ j s', view s' = view s ∧ pk_ok s' ∧ ∃ kvs,
      Forall2 (entry_described described encode_members o) (take (Z.to_nat j) (obj_links o)) kvs ∧
      emits (concat (map (λ kv, encode_str kv.1 ++ encode kv.2) kvs)) s s') (λ r s', view s' = view s)).
  - intros j s1 Hj (Hv1 & Hok1 & kvs & Hkvs & He1).
    destruct (lookup_lt_is_Some_2 ls (Z.to_nat j)) as [[name info] Hx]; [lia|].
    destruct (Forall2_lookup_l _ _ _ _ _ Hls Hx) as (l & Hl & Hn & Hinfo). simpl in Hn, Hinfo.
    rewrite lookup_take_lt in Hl by lia.
    wp_step. eapply wp_lift; [rewrite arr_get_nth by lia; exact Hx|]. cbn [fst snd]. rewrite Hn.
    apply wp_visit_link; [by rewrite Hv1|by eapply list_elem_of_lookup_2|done|].
    intros r s2 Hv2 H2. destruct (Z.eqb_spec r 0) as [->|]; [|congruence].
    destruct (H2 eq_refl) as (Hok2 & kv & Hkv & He2). split; [congruence|]. split; [done|].
    replace (Z.to_nat (j + 1)) with (S (Z.to_nat j)) by lia. exists (kvs ++ [kv]).
    rewrite (take_S_r _ _ _ Hl). split; [by apply Forall2_app; [|constructor]|].
    rewrite map_app, concat_app. simpl. rewrite app_nil_r. by eapply emits_trans.
  - split; [done|]. split; [done|]. exists []. split; [constructor|apply emits_refl].
  - intros s1 (Hv1 & Hok1 & kvs & Hkvs & He1). wp_step. apply HQ; [done|]. simpl. intros Hr0. split; [done|].
    exists kvs. split; [|done]. rewrite Z.add_0_l, Nat2Z.id, take_ge in Hkvs by (by rewrite (Hall Hr0)). done.
  - intros r s1 Hr Hv1. wp_step. replace (r =? 0)%Z with false by lia. apply HQ; [done|lia].
Qed.

Lemma wp_pack_group_recursive id (Q : Z → pstore → Prop) s :
  v_objs (view s) !! id = Some o →
  (∀ r s', writes (group_described described depth max_depth o) s r s' → Q r s') →
  wp (pack_group_recursive type_fuel rec id depth max_depth) Q s.
Proof.
  intros Hid HQ. unfold pack_group_recursive. destruct (fo_links Hfile o Ho) as [Hnl _].
  destruct (fo_attrs Hfile o) as [Hattrs Hna]; [by rewrite Ho|]. pose proof (len_nonneg (obj_links o)).
  assert (Hfail : ∀ s', view s' = view s → wp (ret (-1)%Z) Q s') by (intros; by apply wp_ret, HQ, writes_fail).
  wp_step. apply wp_lib_get. pose proof (gget_info_law id (p_h5 s)) as Hlaw.
  destruct (H5Gget_info id (p_h5 s)) as [r0 n0]. cbn [fst snd]. destruct (r0 <? 0)%Z eqn:E0; [by apply Hfail|].
  destruct Hlaw as [?|(o' & Ho' & ->)]; [lia|].
  assert (o' = o) as ->.
  { change (t_objs (tables (p_h5 s))) with (v_objs (view s)) in Ho'. congruence. }
  assert (s32 (len (obj_links o)) = len (obj_links o)) as -> by (unfold s32; rewrite Z.mod_small; lia).
  fold encode_members. cbn zeta.
  apply wp_check_header; [|by intros; apply Hfail]. intros s1 Hv1 He1 _.
  apply wp_check_string; [by vm_compute| |intros; apply Hfail; congruence]. intros s2 Hv2 He2 _.
  apply wp_check_string; [by vm_compute| |intros; apply Hfail; congruence]. intros s3 Hv3 He3 _.
  apply wp_check_string; [by vm_compute| |intros; apply Hfail; congruence]. intros s4 Hv4 He4 _.
  assert (Hv4' : view s4 = view s) by congruence.
  eapply (wp_checked (λ s', ∃ kvs, Forall2 attr_entry (obj_attrs o) kvs ∧ emits (encode (OMap kvs)) s4 s'));
    [| |intros; apply Hfail; congruence].
  { apply (wp_pack_attributes type_fuel id o); [by rewrite Hv4'|done|done|by apply Hfile|].
    intros r s5 [Hv5 H5]. split; [done|]. intros Hr. by apply H5. }
  intros s5 Hv5 (attrs & Hkvs & He5).
  apply wp_check_string; [by vm_compute| |intros; apply Hfail; congruence]. intros s6 Hv6 He6 _.
  apply wp_check_header; [|intros; apply Hfail; congruence]. intros s7 Hv7 He7 Hok7.
  rewrite u64_small in He7 by (unfold is_u64; lia).
  assert (Hv7' : view s7 = view s) by congruence.
  eapply (wp_checked (λ s', pk_ok s' ∧ ∃ kvs,
     Forall2 (entry_described described encode_members o) (obj_links o) kvs ∧
     emits (concat (map (λ kv, encode_str kv.1 ++ encode kv.2) kvs)) s7 s')); [| |intros; apply Hfail; congruence].
  { apply wp_literate; [by rewrite Hv7'|done|]. intros r s8 Hv8 H8. by split. }
  intros s8 Hv8 (Hok8 & members & Hmem & He8). wp_step. apply HQ. split; [congruence|]. intros _.
  split; [done|]. exists (group_obj attrs members). split; [by exists attrs, members|].
  assert (len members = len (obj_links o)) as Hml by (unfold len; by rewrite (Forall2_length _ _ _ Hmem)).
  unfold group_obj. eapply emits_cast; [emits_chain|]. cbn [encode map concat fst snd app]. rewrite Hml.
  by rewrite <- ?app_assoc, ?app_nil_r.
Qed.
End group.

(** ** Objects *)

Definition depth_fuel (max_depth depth : Z) : nat := S (Z.to_nat (max_depth + 1 - depth)).

Lemma wp_pack_object_recursive fuel max_depth limit bufsize loc lo name depth (Q : Z → pstore → Prop) s :
  file_ok → v_objs (view s) !! loc = Some lo → (0 ≤ depth)%Z → depth_fuel max_depth depth ≤ fuel →
  (∀ r s', writes (λ ob, ∃ o, follow lo name = Some o ∧ object_described fuel max_depth limit depth o ob) s r s' →
     Q r s') →
  wp (pack_object_recursive type_fuel debug fuel max_depth limit bufsize loc name depth) Q s.
Proof.
  intros Hfile. revert loc lo name depth Q s. induction fuel as [|fuel IH];
    intros loc lo name depth Q s Hloc Hd Hfuel HQ; [unfold depth_fuel in Hfuel; lia|].
  cbn [pack_object_recursive]. wp_step. eapply wp_new_obj; [apply oopen_law|].
  intros id s1 m Hc Hv1 Hp1. change (t_objs (tables (p_h5 s))) with (v_objs (view s)) in Hc.
  rewrite Hloc in Hc. simpl in Hc.
  assert (Hclose : ∀ r s', view s' = view s1 →
    (∀ s2, view s2 = view s → p_pk s2 = p_pk s' → Q r s2) → wp (do! close_if H5Oclose id in ret r) Q s').
  { intros r s' Hv' HQ'. wp_step. apply wp_close_if_obj. intros s2 Hv2 Hp2. wp_step. apply HQ'; [|done].
    rewrite Hv2, Hv', Hv1. apply view_eq; try done. cbn [v_objs with_objs].
    eapply creates_closed; [exact Hc|apply objs_neg]. }
  destruct (id <? 0)%Z eqn:Eid.
  { apply Hclose; [done|]. intros. by apply HQ, writes_fail. }
  destruct Hc as [[? _]|(o & Hfol & Hpos & Hn & Hm)]; [lia|].
  assert (Hido : v_objs (view s1) !! id = Some o) by (rewrite Hv1; simpl; rewrite Hm; apply lookup_insert_eq).
  wp_step. apply wp_lib_get. rewrite (iget_type_law _ _ o) by exact Hido.
  assert (Hend : ∀ r s', writes (object_described (S fuel) max_depth limit depth o) s1 r s' →
    wp (do! close_if H5Oclose id in ret (if (r =? 0)%Z then 0 else -1)%Z) Q s').
  { intros r s' [Hv' Hw]. apply Hclose; [done|]. intros s2 Hv2 Hp2.
    destruct (Z.eqb_spec r 0) as [->|]; [|by apply HQ, writes_fail].
    destruct (Hw eq_refl) as (Hok & ob & Hob & He). apply HQ. split; [done|]. intros _.
    split; [by eapply pk_ok_eq|]. exists ob. split; [eauto|].
    eapply emits_pk; [|exact Hp2]. by eapply emits_pk_l. }
  wp_step. destruct (obj_type o) eqn:Eo.
  - destruct (max_depth <? depth)%Z eqn:Edep.
    + apply wp_msgpack_pack. intros r s2 Hv2 He2 Hok2. apply Hend. split; [done|]. intros Hr.
      split; [auto|]. exists ONil. split; [cbn [object_described]; by rewrite Eo, Edep|done].
    + apply (wp_pack_group_recursive Hfile _ (object_described fuel max_depth limit (depth + 1)) depth max_depth o Eo).
      * intros id' name' Q' s' _ Hid' HQ'. apply (IH id' o name' (depth + 1)%Z); [done|lia| |done].
        unfold depth_fuel in *. lia.
      * done.
      * intros r s2 Hw. apply Hend. destruct Hw as [Hv2 Hw]. split; [done|]. intros Hr.
        destruct (Hw Hr) as (Hok & ob & Hob & He). split; [done|]. exists ob.
        split; [cbn [object_described]; by rewrite Eo, Edep|done].
  - destruct (fo_attrs Hfile o) as [Hattrs Hna]; [by rewrite Eo|].
    apply (wp_pack_dataset type_fuel debug id o); [done|by apply Hfile|done|].
    intros r s2 [Hv2 Hw]. apply Hend. split; [done|]. intros Hr. destruct (Hw Hr) as (Hok & ob & Hob & He).
    split; [done|]. exists ob. split; [cbn [object_described]; by rewrite Eo|done].
  - apply wp_pack_unknown. intros r s2 [Hv2 Hw]. apply Hend. split; [done|]. intros Hr.
    destruct (Hw Hr) as (Hok & ob & Hob & He). split; [done|]. exists ob.
    split; [cbn [object_described]; by rewrite Eo|done].
Qed.
End proof.
