(* ===== verification/PackDecode.v ===== *)
(** * The packed objects fit the format

    Everything the packing code writes is an object whose strings, arrays and
    maps have 32-bit lengths and whose integers have 64 bits, so that it can be
    decoded again. *)
From Stdlib Require Import Strings.Byte Strings.String.
From stdpp Require Import base tactics numbers list gmap propset.
From S2P Require Import Prelude Bytes Msgpack Select H5 PackStore Multislice Points NumpyType.
From S2P Require Import NumpyTypeProof PackContents PackContentsProof PackAttributes PackDataset.
From S2P Require Import PackDatasetProof PackDatasetMain PackObject PackObjectProof.

(** ** Lists of objects *)

Definition entry_ok (kv : list byte * obj) : Prop := is_u32 (len kv.1) ∧ obj_ok kv.2.

Lemma array_ok l : is_u32 (len l) → Forall obj_ok l → obj_ok (OArray l).
Proof. intros. simpl. split; [done|]. by apply foldr_and_Forall. Qed.
Lemma map_ok l : is_u32 (len l) → Forall entry_ok l → obj_ok (OMap l).
Proof. intros. simpl. split; [done|]. by apply (foldr_and_Forall entry_ok). Qed.
Lemma ints_ok l : Forall is_u64 l → Forall obj_ok (OInt <$> l).
Proof. intros H. apply Forall_fmap. eapply Forall_impl; [exact H|]. unfold is_u64. simpl. lia. Qed.
Lemma shape_ok l : Forall is_u64 l → is_u32 (len l) → obj_ok (OArray (OInt <$> l)).
Proof. intros Hl Hn. apply array_ok; [|by apply ints_ok]. unfold len. rewrite length_fmap. exact Hn. Qed.

Lemma sequence_Forall {A B} (f : A → option B) l r :
  sequence (map f l) = Some r → Forall2 (λ x y, f x = Some y) l r.
Proof.
  revert r. induction l as [|x l IH]; intros r; simpl; [intros [= <-]; constructor|].
  destruct (f x) as [y|] eqn:E; [|done]. simpl. destruct (sequence (map f l)) as [r'|]; [|done].
  intros [= <-]. constructor; auto.
Qed.

Lemma Forall2_Forall_r {A B} (R : A → B → Prop) (P : A → Prop) (P' : B → Prop) l1 l2 :
  Forall2 R l1 l2 → Forall P l1 → (∀ x y, P x → R x y → P' y) → Forall P' l2.
Proof. intros HR HP H. induction HR as [|x y l1 l2 Hxy HR IH]; inversion HP; subst; constructor; eauto. Qed.

Ltac u32 := unfold is_u32, len in *; simpl; lia.
(** A map with the given entries; lengths and constant strings are solved. *)
Ltac entries := apply map_ok; [u32|];
  repeat (apply Forall_cons_2; [split; [u32|cbn [snd]]|]); try apply Forall_nil_2; try (simpl; done || u32).

(** ** Types *)

Lemma len_snprintf_small text : is_u32 (len (snprintf descr_len text)).
Proof.
  pose proof (len_snprintf descr_len text ltac:(done)). pose proof (len_nonneg (snprintf descr_len text)).
  unfold descr_len, is_u32 in *. lia.
Qed.

Lemma numpy_obj_ok t name o :
  type_ok t → (∀ f, name = Some f → (len f < 2 ^ 31)%Z) → numpy_obj t name = Some o → obj_ok o.
Proof.
  assert (Hname : ∀ f : list byte, (len f < 2 ^ 31)%Z → is_u32 (len f))
    by (intros f; pose proof (len_nonneg f); unfold is_u32; lia).
  assert (Hscalar : ∀ text (name : option (list byte)), (∀ f, name = Some f → (len f < 2 ^ 31)%Z) →
    obj_ok match name with Some f => OArray [OStr f; OStr (snprintf descr_len text)]
                         | None => OStr (snprintf descr_len text) end).
  { intros text [f|] Hf; [|apply len_snprintf_small]. apply array_ok; [u32|].
    apply Forall_cons_2; [by apply Hname, Hf|]. apply Forall_cons_2; [apply len_snprintf_small|apply Forall_nil_2]. }
  revert name o. induction t as [c sg ord n|v n pad|e dims IH|fs n IH|e IH] using dtype_induction;
    intros name o Hok Hn Ho; cbn [numpy_obj] in Ho.
  - destruct (descr_text _) as [text|]; [|done]. simpl in Ho. injection Ho as <-. by apply Hscalar.
  - destruct v; [injection Ho as <-; simpl; u32|].
    destruct (descr_text _) as [text|]; [|done]. simpl in Ho. injection Ho as <-. by apply Hscalar.
  - destruct Hok as (Hd & Hds & He). destruct (numpy_obj e name) as [oe|] eqn:Eoe; [|done].
    simpl in Ho. injection Ho as <-. specialize (IH _ _ He Hn Eoe).
    assert (obj_ok (OArray (OInt <$> dims))) as Hsh.
    { apply shape_ok; [|pose proof (len_nonneg dims); unfold is_u32; lia].
      eapply Forall_impl; [exact Hds|]. unfold is_u64. lia. }
    destruct name as [f|]; (apply array_ok; [u32|]); repeat (apply Forall_cons_2; [try done|]); try apply Forall_nil_2.
    by apply Hname, Hn.
  - destruct Hok as (Hl & _ & Hfs). apply (foldr_and_Forall (λ f, (len f.1 < 2 ^ 31)%Z ∧ type_ok f.2)) in Hfs.
    destruct (sequence _) as [l|] eqn:El; [|done]. injection Ho as <-. apply sequence_Forall in El.
    apply array_ok.
    + unfold len. rewrite <- (Forall2_length _ _ _ El). unfold is_u32, len in *. lia.
    + eapply Forall2_Forall_r; [exact El|exact (conj_Forall _ _ _ IH Hfs)|].
      intros f ob (IHf & Hnf & Hf) Hob. apply (IHf (Some f.1)); [done| |done]. by intros f' [= <-].
  - by apply (IH None o).
Qed.

Lemma numpy_kind_ok t k : numpy_kind t = Some k → is_u32 (len k).
Proof. unfold numpy_kind. destruct (class_of t); intros [= <-]; u32. Qed.

(** ** Contents *)

Lemma contents_map_ok t dims nr_bytes data o :
  type_ok t → Forall is_u64 dims → is_u32 (len dims) → (0 ≤ nr_bytes < 2 ^ 62)%Z →
  Forall obj_ok data → is_u32 (len data) → contents_map t dims nr_bytes data = Some o → obj_ok o.
Proof.
  intros Ht Hd Hdl Hn Hdata Hl. unfold contents_map. pose proof (shape_ok _ Hd Hdl) as Hsh.
  pose proof (array_ok _ Hl Hdata) as Ha. destruct (has_vlen t).
  - intros [= <-]. entries; done.
  - destruct (numpy_obj t None) as [ty|] eqn:Ety; [|done]. destruct (numpy_kind t) as [k|] eqn:Ek; [|done].
    intros [= <-]. pose proof (numpy_obj_ok t None ty Ht ltac:(done) Ety) as Hty.
    pose proof (numpy_kind_ok t k Ek) as Hk. entries; done || (simpl; lia).
Qed.

Lemma bins_count n : (0 ≤ n < 2 ^ 62)%Z → is_u32 ((n + MSGPACK_MAX_SIZE - 1) / MSGPACK_MAX_SIZE).
Proof.
  intros Hn. unfold is_u32, MSGPACK_MAX_SIZE. split; [apply Z.div_pos; lia|]. apply Z.div_lt_upper_bound; lia.
Qed.

(** The number of objects that hold the data. *)
Lemma data_objs_count t data objs :
  Forall (elem_ok t) data → (0 ≤ len data * dtype_size t < 2 ^ 62)%Z →
  (has_vlen t = true → is_u32 (len data)) →
  data_objs t MSGPACK_MAX_SIZE data = Some objs → is_u32 (len objs).
Proof.
  intros Hty Hsz Hcount Ho. destruct (has_vlen t) eqn:Hv.
  - unfold len. rewrite (data_objs_length _ _ _ _ Hv Ho). auto.
  - rewrite data_objs_fixed in Ho by done. destruct (raw_bytes_typed _ _ Hv Hty) as (bs & Hbs & Hl).
    rewrite Hbs in Ho. injection Ho as <-. unfold len. rewrite length_fmap. fold (len (bins MSGPACK_MAX_SIZE bs)).
    rewrite len_bins, Hl by done. by apply bins_count.
Qed.

Lemma data_objs_ok t data objs :
  type_ok t → Forall (elem_ok t) data → data_objs t MSGPACK_MAX_SIZE data = Some objs → Forall obj_ok objs.
Proof.
  revert data objs. induction t as [c sg ord n|v n pad|e dims IH|fs n IH|e IH] using dtype_induction;
    intros data objs Hok Hty Ho.
  1-4: assert (Hfixed : ∀ t, has_vlen t = false → data_objs t MSGPACK_MAX_SIZE data = Some objs → Forall obj_ok objs)
    by (intros t Hv; rewrite data_objs_fixed by done; destruct (raw_bytes data) as [bs|]; [|done];
        intros [= <-]; apply Forall_fmap; eapply Forall_impl; [by apply bins_bounded|];
        intros b Hb; simpl; unfold is_u32, MSGPACK_MAX_SIZE in *; lia).
  - by apply (Hfixed (DAtomic c sg ord n)).
  - destruct v; [|by apply (Hfixed (DString false n pad))]. simpl in Ho. apply sequence_Forall in Ho.
    eapply Forall2_Forall_r; [exact Ho|exact Hty|]. intros [|str| |] ob; simpl; try done.
    intros [_ Hl] [= <-]. pose proof (len_nonneg str). simpl. unfold is_u32. lia.
  - destruct (has_vlen (DArray e dims)) eqn:Hv; [|by apply (Hfixed (DArray e dims))].
    simpl in Ho, Hv. rewrite Hv in Ho. destruct data; [injection Ho as <-; constructor|done].
  - destruct (has_vlen (DCompound fs n)) eqn:Hv; [|by apply (Hfixed (DCompound fs n))].
    simpl in Ho, Hv. rewrite Hv in Ho. destruct data; [injection Ho as <-; constructor|done].
  - simpl in Ho. apply sequence_Forall in Ho. eapply Forall2_Forall_r; [exact Ho|exact Hty|].
    intros [| | |l] ob; simpl; try done. intros (Hl & Hn & Hs) Hob.
    destruct (data_objs e MSGPACK_MAX_SIZE l) as [os|] eqn:Eos; [|done]. simpl in Hob.
    pose proof (len_nonneg l). pose proof (dtype_size_nonneg e Hok).
    assert (is_u32 (len os)) by (eapply (data_objs_count e l); [done|nia|intros _; unfold is_u32; lia|done]).
    eapply (contents_map_ok e); [exact Hok| | | | | |exact Hob]; eauto.
    + constructor; [unfold is_u64; lia|constructor].
    + u32.
    + nia.
Qed.

Lemma contents_obj_ok t dims data o :
  type_ok t → Forall (elem_ok t) data → (0 ≤ len data * dtype_size t < 2 ^ 62)%Z →
  Forall is_u64 dims → is_u32 (len dims) →
  contents_obj t MSGPACK_MAX_SIZE dims data = Some o → obj_ok o.
Proof.
  intros Ht Hty Hsz Hd Hdl. unfold contents_obj.
  destruct (has_vlen t && (MSGPACK_MAX_SIZE <? len data)%Z) eqn:Ec; [done|].
  destruct (data_objs _ _ _) as [objs|] eqn:Eo; [|done]. simpl. intros Ho.
  eapply contents_map_ok; [exact Ht|exact Hd|exact Hdl|exact Hsz|by eapply data_objs_ok| |exact Ho].
  eapply data_objs_count; [exact Hty|exact Hsz| |exact Eo]. intros Hv. rewrite Hv in Ec.
  pose proof (len_nonneg data). unfold is_u32, MSGPACK_MAX_SIZE in *. simpl in Ec. lia.
Qed.

(** ** Datasets and groups *)
Section proof.
Context `{HS : H5Space, HL : !H5Lib, HM : Msgpack, HP : Packer}.
Context (type_fuel : nat).
Context `{HSL : !H5SpaceLaws, HLL : !H5LibLaws, HML : !MsgpackLaws, HPL : !PackerLaws}.

Lemma mem_type_ok t t' : mem_type_of t t' → type_ok t → type_ok t'.
Proof.
  induction 1; intros Hok; try done.
  - by apply native_ok.
  - destruct Hok as (? & ? & ?). simpl. auto.
  - by apply packed_ok.
  - simpl in *. auto.
Qed.

Lemma attr_entry_ok o a kv : attr_ok type_fuel a → a ∈ obj_attrs o → attr_entry a kv → entry_ok kv.
Proof.
  intros Ha Hin (Hkey & t & Hmt & Hob).
  pose proof Ha as (Hname & Hrank & Hdims & Hprod & _ & _).
  pose proof (len_nonneg (at_name a)). split; [rewrite Hkey; unfold is_u32; lia|].
  destruct (file_types_ok o) as [_ Hat]. rewrite Forall_forall in Hat.
  pose proof (mem_type_ok _ _ Hmt (Hat a Hin)) as Hok. pose proof (dtype_size_nonneg _ Hok).
  destruct (attr_data_ok type_fuel o a t Ha Hin Hmt Hok) as (Hsize & Hty & Hlen).
  eapply contents_obj_ok; [exact Hok|exact Hty| | | |exact Hob].
  - rewrite Hlen. nia.
  - eapply Forall_impl; [exact Hdims|]. unfold is_u64. lia.
  - pose proof (len_nonneg (at_dims a)). unfold HDFSTREAM_MAX_DIMS, is_u32 in *. lia.
Qed.

Lemma attrs_map_ok o attrs :
  object_ok type_fuel o → Forall2 attr_entry (obj_attrs o) attrs → obj_ok (OMap attrs).
Proof.
  intros [Hok Hn] Ha. apply map_ok.
  - unfold len. rewrite <- (Forall2_length _ _ _ Ha). unfold is_u32, len in *. lia.
  - eapply (Forall2_Forall_r _ (λ a, attr_ok type_fuel a ∧ a ∈ obj_attrs o)); [exact Ha| |].
    + apply Forall_forall. intros a Hin. rewrite Forall_forall in Hok. auto.
    + intros a kv [? ?]. by eapply attr_entry_ok.
Qed.

Lemma all_points_length dims : Forall is_u64 dims → len (all_points dims) = prod_list dims.
Proof.
  intros Hd. unfold all_points. rewrite len_box.
  - f_equal. rewrite <- list_fmap_compose. apply list_fmap_id.
  - apply Forall_fmap. eapply Forall_impl; [exact Hd|]. unfold is_u64. simpl. lia.
Qed.

Lemma dataset_described_ok o limit ob :
  dataset_ok type_fuel o → object_ok type_fuel o → dataset_described o limit ob → obj_ok ob.
Proof.
  intros Hdk Hobj (t & attrs & contents & Hmt & Hattrs & Hob & Hcont).
  pose proof Hdk as [Hrk Hdims _ Hsize _]. pose proof (len_nonneg (ds_dims o)). unfold HDFSTREAM_MAX_DIMS in *.
  assert (is_u32 (len (ds_dims o))) as Hl by (unfold is_u32; lia).
  destruct (file_types_ok o) as [Hds _]. pose proof (mem_type_ok _ _ Hmt Hds) as Hok.
  assert (∀ c, contents = Some c → obj_ok c) as Hc.
  { intros c ->. destruct (_ <=? _)%Z; [|done]. destruct Hcont as (t2 & c' & Hmt2 & [= <-] & Hc).
    pose proof (mem_type_ok _ _ Hmt2 Hds) as Hok2. destruct (Hsize t2 Hmt2) as ([? ?] & Hb & _).
    eapply contents_obj_ok; [exact Hok2| | |exact Hdims|exact Hl|exact Hc].
    - by eapply dataset_elem_ok.
    - unfold len at 1 2. rewrite length_fmap. fold (len (all_points (ds_dims o))).
      rewrite all_points_length by done.
      assert (0 ≤ prod_list (ds_dims o))%Z; [|nia].
      apply prod_list_nonneg. eapply Forall_impl; [exact Hdims|]. unfold is_u64. lia. }
  pose proof (attrs_map_ok o attrs Hobj Hattrs) as Ha. pose proof (shape_ok _ Hdims Hl) as Hsh.
  unfold dataset_obj in Hob. destruct (numpy_obj t None) as [ty|] eqn:Ety; [|done].
  destruct (numpy_kind t) as [k|] eqn:Ek; [|done]. simpl in Hob. injection Hob as <-.
  pose proof (numpy_obj_ok t None ty Hok ltac:(done) Ety) as Hty. pose proof (numpy_kind_ok t k Ek) as Hk.
  destruct contents as [c|]; [specialize (Hc c eq_refl)|]; entries; done.
Qed.

Lemma object_described_ok fuel max_depth limit depth o ob :
  file_ok type_fuel → object_described fuel max_depth limit depth o ob → obj_ok ob.
Proof.
  intros Hfile. revert depth o ob. induction fuel as [|fuel IH]; intros depth o ob; [done|].
  cbn [object_described]. destruct (obj_type o) eqn:Eo.
  - destruct (max_depth <? depth)%Z; [by intros ->|].
    intros (attrs & members & -> & Hattrs & Hmem).
    destruct (fo_links _ Hfile o Eo) as [Hnl Hlinks].
    pose proof (attrs_map_ok o attrs (fo_attrs _ Hfile o ltac:(by rewrite Eo)) Hattrs) as Ha.
    assert (obj_ok (OMap members)) as Hm.
    { apply map_ok.
      - unfold len. rewrite <- (Forall2_length _ _ _ Hmem). unfold is_u32, len in *. lia.
      - eapply Forall2_Forall_r; [exact Hmem|exact Hlinks|].
        intros l kv [Hl Ht] [Hk Hv]. pose proof (len_nonneg l.1).
        split; [rewrite Hk; unfold is_u32; lia|]. destruct (encodes_members _ _ _); [|by rewrite Hv].
        unfold link_described in Hv. destruct l.2 as [e|target|b] eqn:El.
        + destruct Hv as (o' & _ & Ho'). by eapply IH.
        + rewrite Hv. specialize (Ht target eq_refl). pose proof (len_nonneg target).
          unfold soft_link_obj. entries.
        + rewrite (proj2 Hv). unfold unknown_obj. entries. }
    unfold group_obj. entries; done.
  - intros Hd. eapply dataset_described_ok; [by apply Hfile|apply (fo_attrs _ Hfile); by rewrite Eo|exact Hd].
  - intros ->. unfold unknown_obj. entries.
Qed.
End proof.
