(* ===== verification/H5File.v ===== *)
(** * A concrete HDF5 library

    An implementation of the interfaces of Select.v and H5.v: tables of open
    identifiers and a file with a group, a dataset and an object of a type that
    the code does not know.  The witnesses of the theorems about the packing
    code run on it. *)
From Stdlib Require Import Strings.Byte Strings.String.
From stdpp Require Import base tactics numbers list gmap propset sorting.
From S2P Require Import Prelude Bytes Msgpack Select H5 Multislice Points.

Module H5File.

(** ** The file *)

Inductive cobj := Root | Data | Named.

Definition int32 : dtype := DAtomic H5T_INTEGER H5T_SGN_2 H5T_ORDER_LE 4.

Definition default_elem (t : dtype) : elem :=
  match t with
  | DVlen _ => EVlen []
  | DString true _ _ => EStr []
  | _ => EBytes (replicate (Z.to_nat (dtype_size t)) x00)
  end.
Definition celem (o : cobj) (t : dtype) (p : list Z) : elem :=
  match t with
  | DAtomic _ _ _ n => EBytes (le_bytes (Z.to_nat n) (foldl (λ a x, a * 100 + x)%Z 0%Z p))
  | _ => default_elem t
  end.
Definition count_attr : attribute :=
  Attribute (lit "count") [2%Z] int32 (λ t, [default_elem t; default_elem t]).

Definition ctype (o : cobj) : H5I_type :=
  match o with Root => H5I_GROUP | Data => H5I_DATASET | Named => H5I_OTHER end.
Definition cattrs (o : cobj) : list attribute := match o with Named => [] | _ => [count_attr] end.
Definition clinks (o : cobj) : list (list byte * link) :=
  match o with
  | Root => [(lit "d", LObject false); (lit "s", LSoft (lit "/d")); (lit "t", LObject true);
             (lit "u", LOther false); (lit "g", LObject false)]
  | _ => []
  end.
Definition cfollow (o : cobj) (name : list byte) : option cobj :=
  if decide (name = lit "d") then Some Data
  else if decide (name = lit "t") then Some Named
  else if decide (name = lit "/" ∨ name = lit "g") then Some Root else None.
Definition cdims (o : cobj) : list Z := [40; 3]%Z.
Definition info (l : link) : link_info :=
  match l with
  | LObject e => LinkInfo (if e then H5L_TYPE_EXTERNAL else H5L_TYPE_HARD) 0
  | LSoft target => LinkInfo H5L_TYPE_SOFT (len target + 1)
  | LOther b => LinkInfo (if b then H5L_TYPE_ERROR else H5L_TYPE_OTHER) 0
  end.

(** ** The state *)

(** A dataspace: the selected points are those of [raw] inside the extent. *)
Record cspace := CSpace { cextent : list Z; raw : list (list Z) }.
Definition cpts (sp : cspace) : list (list Z) := filter (λ p, p ∈ raw sp) (all_points (cextent sp)).

Fixpoint type_okb (t : dtype) : bool :=
  match t with
  | DAtomic _ _ _ n | DString _ n _ => bool_decide (0 ≤ n < 2 ^ 63)%Z
  | DArray e dims => bool_decide (len dims ≤ 32)%Z && bool_decide (Forall (λ d, 0 ≤ d < 2 ^ 63)%Z dims) && type_okb e
  | DCompound fields n =>
      bool_decide (len fields < 2 ^ 31)%Z && bool_decide (0 ≤ n < 2 ^ 63)%Z &&
      forallb (λ f, bool_decide (len f.1 < 2 ^ 31)%Z && type_okb f.2) fields
  | DVlen e => type_okb e
  end.

Lemma type_okb_spec t : type_okb t = true ↔ type_ok t.
Proof.
  induction t as [c sg o n|v n p|e d IH|fs n IH|e IH] using dtype_induction; simpl;
    rewrite ?andb_true_iff, ?bool_decide_eq_true; try tauto.
  rewrite forallb_forall, (foldr_and_Forall (λ f, (len f.1 < 2 ^ 31)%Z ∧ type_ok f.2)).
  rewrite Forall_forall in IH |- *.
  assert (∀ f, f ∈ fs → (bool_decide (len f.1 < 2 ^ 31)%Z && type_okb f.2) = true ↔ (len f.1 < 2 ^ 31)%Z ∧ type_ok f.2)
    as Hf by (intros f Hin; rewrite andb_true_iff, bool_decide_eq_true, IH; done).
  setoid_rewrite <- list_elem_of_In. naive_solver.
Qed.

Definition ok_type : Type := { t : dtype | type_okb t = true }.

Record state := State {
  s_types : gmap N ok_type;
  s_objs : gmap N cobj;
  s_attrs : gmap N attribute;
  s_vlens : Z;
  s_spaces : gmap N cspace;
}.
Definition set_s_types m s := State m (s_objs s) (s_attrs s) (s_vlens s) (s_spaces s).
Definition set_s_objs m s := State (s_types s) m (s_attrs s) (s_vlens s) (s_spaces s).
Definition set_s_attrs m s := State (s_types s) (s_objs s) m (s_vlens s) (s_spaces s).
Definition add_s_vlens n s := State (s_types s) (s_objs s) (s_attrs s) (s_vlens s + n)%Z (s_spaces s).
Definition set_s_spaces m s := State (s_types s) (s_objs s) (s_attrs s) (s_vlens s) m.

(** Identifiers are the non-negative numbers. *)
Definition at_id {A} (m : gmap N A) (id : Z) : option A := if (0 <=? id)%Z then m !! Z.to_N id else None.
Definition drop_id {A} (id : Z) (m : gmap N A) : gmap N A := if (0 <=? id)%Z then delete (Z.to_N id) m else m.
Definition put_id {A} (id : Z) (a : A) (m : gmap N A) : gmap N A := <[Z.to_N id := a]> m.
Definition view_ids {A} (m : gmap N A) : gmap Z A := kmap Z.of_N m.

Lemma view_lookup {A} (m : gmap N A) id : view_ids m !! id = at_id m id.
Proof.
  unfold view_ids, at_id. destruct (Z.leb_spec 0 id) as [H|H].
  - pose proof (lookup_kmap Z.of_N m (Z.to_N id)) as Hl. by rewrite Z2N.id in Hl.
  - apply (lookup_kmap_None Z.of_N). intros n Hn. lia.
Qed.
Lemma view_insert {A} (m : gmap N A) n a : view_ids (<[n := a]> m) = <[Z.of_N n := a]> (view_ids m).
Proof. apply (kmap_insert Z.of_N). Qed.
Lemma view_put {A} (m : gmap N A) id a : (0 ≤ id)%Z → view_ids (put_id id a m) = <[id := a]> (view_ids m).
Proof. intros. unfold put_id. rewrite view_insert. by rewrite Z2N.id. Qed.
Lemma view_delete {A} (m : gmap N A) id : view_ids (drop_id id m) = delete id (view_ids m).
Proof.
  unfold drop_id. destruct (Z.leb_spec 0 id) as [H|H].
  - unfold view_ids. rewrite (kmap_delete Z.of_N). by rewrite Z2N.id.
  - rewrite delete_id; [done|]. rewrite view_lookup. unfold at_id. by replace (0 <=? id)%Z with false by lia.
Qed.
Lemma at_id_nonneg {A} (m : gmap N A) id a : at_id m id = Some a → (0 ≤ id)%Z.
Proof. unfold at_id. destruct (Z.leb_spec 0 id); [done|done]. Qed.

(** A new entry, if there is a value. *)
Definition new_id {A} (o : option A) (get : state → gmap N A) (set : gmap N A → state → state)
    (s : state) : Z * state :=
  match o with
  | Some a => let n := fresh (dom (get s)) in (Z.of_N n, set (<[n := a]> (get s)) s)
  | None => ((-1)%Z, s)
  end.
Lemma new_id_creates {A B} (f : A → B) (o : option A) get set s :
  (∀ m s, get (set m s) = m) →
  let '(r, s') := new_id o get set s in
  creates r (f <$> o) (f <$> view_ids (get s)) (f <$> view_ids (get s')).
Proof.
  intros Hget. destruct o as [a|]; simpl; [right|by left].
  exists (f a). split; [done|]. split; [lia|]. rewrite Hget, view_insert, fmap_insert.
  split; [|done]. rewrite lookup_fmap, view_lookup. unfold at_id. rewrite (proj2 (Z.leb_le _ _) (N2Z.is_nonneg _)).
  rewrite N2Z.id. rewrite (not_elem_of_dom_1 (get s) _ (is_fresh _)). done.
Qed.

Definition mk_type (t : dtype) : option ok_type :=
  match decide (type_okb t = true) with left H => Some (exist _ t H) | right _ => None end.
Lemma mk_type_Some t x : mk_type t = Some x → `x = t.
Proof. unfold mk_type. case_decide; [|done]. by intros [= <-]. Qed.

Definition type_at (id : Z) (s : state) : option dtype := proj1_sig <$> at_id (s_types s) id.
Definition new_ty (o : option dtype) (s : state) : Z * state := new_id (o ≫= mk_type) s_types set_s_types s.
Definition new_sp (o : option cspace) (s : state) : Z * state := new_id o s_spaces set_s_spaces s.

(** Changes a dataspace, if that is possible. *)
Definition on_space (id : Z) (f : cspace → option (list (list Z))) (s : state) : Z * state :=
  match at_id (s_spaces s) id with
  | Some sp => match f sp with
               | Some pts => (0%Z, set_s_spaces (put_id id (CSpace (cextent sp) pts) (s_spaces s)) s)
               | None => ((-1)%Z, s)
               end
  | None => ((-1)%Z, s)
  end.
(** Points inside an extent. *)
Definition inside (ext : list Z) (pts : list (list Z)) : bool := bool_decide (Forall (λ p, p ∈ all_points ext) pts).

#[export] Instance file_space : H5Space := {|
  h5 := state;
  H5Scopy id s := new_sp (at_id (s_spaces s) id) s;
  H5Sclose id s := (0%Z, set_s_spaces (drop_id id (s_spaces s)) s);
  H5Sselect_none id s := on_space id (λ _, Some []) s;
  H5Sselect_all id s := on_space id (λ sp, Some (all_points (cextent sp))) s;
  H5Sselect_hyperslab_or id st ct s := on_space id (λ sp,
    let n := length (cextent sp) in
    let b := box (zip (take n st) (take n ct)) in
    if inside (cextent sp) b then Some (raw sp ++ b) else None) s;
  H5Scombine_select_or a b s :=
    new_sp (spa ← at_id (s_spaces s) a; spb ← at_id (s_spaces s) b;
            if inside (cextent spa) (cpts spb) then Some (CSpace (cextent spa) (raw spa ++ cpts spb)) else None) s;
  H5Sselect_copy dst src s :=
    match at_id (s_spaces s) src with
    | Some sps => on_space dst (λ sp, if inside (cextent sp) (cpts sps) then Some (cpts sps) else None) s
    | None => ((-1)%Z, s)
    end;
  H5Sget_select_npoints id s :=
    match at_id (s_spaces s) id with Some sp => len (cpts sp) | None => (-1)%Z end;
  H5Sget_simple_extent_ndims id s :=
    match at_id (s_spaces s) id with Some sp => len (cextent sp) | None => (-1)%Z end;
|}.

Definition ctables (s : state) : h5_tables cobj :=
  Tables (proj1_sig <$> view_ids (s_types s)) (view_ids (s_objs s)) (view_ids (s_attrs s)) (s_vlens s).

Definition csel (sp : cspace) : propset (list Z) := {[ p | p ∈ cpts sp ]}.

Lemma csel_points sp p : p ∈ csel sp ↔ p ∈ raw sp ∧ p ∈ all_points (cextent sp).
Proof. unfold csel, cpts. by rewrite elem_of_PropSet, list_elem_of_filter. Qed.
Lemma on_space_law id f s sp :
  view_ids (s_spaces s) !! id = Some sp →
  let '(r, s') := on_space id f s in
  ∃ sp', view_ids (s_spaces s') = <[id := sp']> (view_ids (s_spaces s)) ∧ cextent sp' = cextent sp ∧
    ((0 ≤ r)%Z → f sp = Some (raw sp')) ∧ ctables s' = ctables s.
Proof.
  intros Hid. pose proof Hid as Hid'. rewrite view_lookup in Hid'. unfold on_space. rewrite Hid'.
  destruct (f sp) as [pts|] eqn:Ef.
  - exists (CSpace (cextent sp) pts). simpl. rewrite view_put by (by eapply at_id_nonneg). done.
  - exists sp. rewrite insert_id by done. done || (split_and!; try done; lia).
Qed.

Lemma inside_spec ext pts p : inside ext pts = true → p ∈ pts → p ∈ all_points ext.
Proof. unfold inside. rewrite bool_decide_eq_true, Forall_forall. auto. Qed.

Lemma new_sp_law o s :
  let '(r, s') := new_sp o s in creates r o (view_ids (s_spaces s)) (view_ids (s_spaces s')) ∧ ctables s' = ctables s.
Proof.
  pose proof (new_id_creates id o s_spaces set_s_spaces s ltac:(done)) as Hc. unfold new_sp.
  destruct (new_id o s_spaces set_s_spaces s) as [r s'] eqn:E. rewrite option_fmap_id, !map_fmap_id in Hc.
  split; [done|]. unfold new_id in E. destruct o; by simplify_eq/=.
Qed.

Lemma slab_box n st ct p : p ∈ slab (take n st) (take n ct) ↔ p ∈ box (zip (take n st) (take n ct)).
Proof. unfold slab. by rewrite elem_of_PropSet, elem_of_box. Qed.
Lemma slab_all ext p : p ∈ slab (replicate (length ext) 0%Z) ext ↔ p ∈ all_points ext.
Proof.
  unfold slab, all_points. rewrite elem_of_PropSet, elem_of_box.
  replace (zip (replicate (length ext) 0%Z) ext) with ((λ d, (0, d)%Z) <$> ext); [done|].
  induction ext; simpl; [done|]. by f_equal.
Qed.

#[export] Instance file_space_laws : H5SpaceLaws.
Proof.
  refine {| space := cspace; extent := cextent; points := csel; spaces := λ s : h5, view_ids (s_spaces s) |};
    intros s; simpl.
  - intros id sp Hid. rewrite view_lookup in Hid. rewrite Hid.
    pose proof (new_sp_law (Some sp) s) as Hl. destruct (new_sp (Some sp) s) as [r s'].
    destruct Hl as [[[? ?]|(? & [= <-] & ? & ? & ?)] _]; auto.
  - intros id sp _. apply view_delete.
  - intros id sp Hid. pose proof (on_space_law id (λ _, Some []) s sp Hid) as Hl.
    destruct (on_space _ _ _) as [r s']. destruct Hl as (sp' & ? & ? & Hr & _). exists sp'. split; [done|]. split; [done|].
    intros Hr0. pose proof (Hr Hr0) as Hr'; injection Hr' as Hr'. intros p. rewrite csel_points, <- Hr'. set_solver.
  - intros id sp Hid. pose proof (on_space_law id (λ sp, Some (all_points (cextent sp))) s sp Hid) as Hl.
    destruct (on_space _ _ _) as [r s']. destruct Hl as (sp' & ? & He & Hr & _). exists sp'. split; [done|]. split; [done|].
    intros Hr0. pose proof (Hr Hr0) as Hr'; injection Hr' as Hr'. intros p. rewrite csel_points, <- Hr', He, slab_all. tauto.
  - intros id sp st ct Hid.
    pose proof (on_space_law id (λ sp, let n := length (cextent sp) in let b := box (zip (take n st) (take n ct)) in
      if inside (cextent sp) b then Some (raw sp ++ b) else None) s sp Hid) as Hl.
    destruct (on_space _ _ _) as [r s']. destruct Hl as (sp' & ? & He & Hr & _). exists sp'. split; [done|]. split; [done|].
    intros Hr0. specialize (Hr Hr0). simpl in Hr. destruct (inside _ _) eqn:Ei; [|done]. injection Hr as Hr'.
    intros p. rewrite elem_of_union, !csel_points, <- Hr', He, elem_of_app, slab_box.
    pose proof (inside_spec _ _ p Ei). tauto.
  - intros a b spa spb Ha Hb. rewrite view_lookup in Ha, Hb. rewrite Ha, Hb. simpl.
    destruct (inside _ _) eqn:Ei; last first.
    { left. done. }
    set (sp := CSpace (cextent spa) (raw spa ++ cpts spb)).
    pose proof (new_sp_law (Some sp) s) as Hl. destruct (new_sp (Some sp) s) as [r s'].
    destruct Hl as [[[? ?]|(? & [= <-] & ? & ? & ?)] _]; [by left|right].
    split; [done|]. split; [done|]. exists sp. split; [done|]. split; [done|].
    intros p. rewrite elem_of_union, csel_points. simpl. rewrite elem_of_app.
    unfold csel at 2. rewrite elem_of_PropSet, csel_points. pose proof (inside_spec _ _ p Ei). tauto.
  - intros dst src spd sps Hd Hs. rewrite view_lookup in Hs. rewrite Hs.
    pose proof (on_space_law dst (λ sp, if inside (cextent sp) (cpts sps) then Some (cpts sps) else None) s spd Hd) as Hl.
    destruct (on_space _ _ _) as [r s']. destruct Hl as (sp' & ? & He & Hr & _). exists sp'. split; [done|]. split; [done|].
    intros Hr0. specialize (Hr Hr0). simpl in Hr. destruct (inside _ _) eqn:Ei; [|done]. injection Hr as Hr'.
    intros p. rewrite csel_points, <- Hr', He. unfold csel. rewrite elem_of_PropSet.
    pose proof (inside_spec _ _ p Ei). tauto.
  - intros id sp Hid. rewrite view_lookup in Hid. rewrite Hid. done.
Defined.
(** ** The functions of H5.v *)

Definition on_type {A} (id : Z) (d : A) (f : dtype → A) (s : state) : A :=
  match type_at id s with Some t => f t | None => d end.

Definition set_type (id : Z) (t : dtype) (s : state) : state :=
  match mk_type t with Some x => set_s_types (put_id id x (s_types s)) s | None => s end.

#[export] Instance file_lib : H5Lib := {|
  H5Tget_class id (s : h5) := on_type id H5T_NO_CLASS class_of s;
  H5Tget_sign id (s : h5) := on_type id H5T_SGN_ERROR (λ t, match t with DAtomic _ sg _ _ => sg | _ => H5T_SGN_ERROR end) s;
  H5Tget_order id (s : h5) := on_type id H5T_ORDER_ERROR (λ t, match t with DAtomic _ _ o _ => o | _ => H5T_ORDER_NONE end) s;
  H5Tget_size id (s : h5) := on_type id 0%Z dtype_size s;
  H5Tis_variable_str id (s : h5) := on_type id (-1)%Z (λ t, match t with DString true _ _ => 1%Z | _ => 0%Z end) s;
  H5Tget_array_ndims id (s : h5) := on_type id (-1)%Z (λ t, match t with DArray _ dims => len dims | _ => (-1)%Z end) s;
  H5Tget_array_dims id (s : h5) := on_type id [] (λ t, match t with DArray _ dims => dims | _ => [] end) s;
  H5Tget_nmembers id (s : h5) := on_type id (-1)%Z (λ t, len (members t)) s;
  H5Tget_member_name id i (s : h5) := on_type id None (λ t, fst <$> members t !! Z.to_nat i) s;
  H5Tget_member_type id i (s : h5) := new_ty (t ← type_at id s; snd <$> members t !! Z.to_nat i) s;
  H5Tget_super id (s : h5) := new_ty (type_at id s ≫= super) s;
  H5Tget_native_type id (s : h5) := new_ty (type_at id s) s;
  H5Tset_strpad id pad (s : h5) :=
    match type_at id s with
    | Some (DString v n _) => (0%Z, set_type id (DString v n pad) s)
    | _ => ((-1)%Z, s)
    end;
  H5Tcopy id (s : h5) := new_ty (type_at id s) s;
  H5Tpack id (s : h5) := (match type_at id s with Some _ => 0%Z | None => (-1)%Z end, s);
  H5Tarray_create id dims (s : h5) := new_ty ((λ t, DArray t dims) <$> type_at id s) s;
  H5Tvlen_create id (s : h5) := new_ty (DVlen <$> type_at id s) s;
  H5Tclose id (s : h5) := (0%Z, set_s_types (drop_id id (s_types s)) s);
  H5Sget_simple_extent_dims id (s : h5) :=
    match at_id (s_spaces s) id with Some sp => (len (cextent sp), cextent sp) | None => ((-1)%Z, []) end;
  H5Screate_simple dims (s : h5) := new_sp (Some (CSpace dims (all_points dims))) s;
  H5Screate_scalar (s : h5) := new_sp (Some (CSpace [] (all_points []))) s;
  H5Dget_type id (s : h5) := new_ty (_ ← at_id (s_objs s) id; Some int32) s;
  H5Dget_space id (s : h5) := new_sp (o ← at_id (s_objs s) id; Some (CSpace (cdims o) (all_points (cdims o)))) s;
  H5Dread d mt ms fs (s : h5) :=
    match at_id (s_objs s) d, type_at mt s, at_id (s_spaces s) ms, at_id (s_spaces s) fs with
    | Some o, Some t, Some spm, Some spf =>
        if (len (cpts spf) =? prod_list (cextent spm))%Z
        then (0%Z, celem o t <$> cpts spf, add_s_vlens (if has_vlen t then 1 else 0) s)
        else ((-1)%Z, [], s)
    | _, _, _, _ => ((-1)%Z, [], s)
    end;
  H5Treclaim mt ms (s : h5) := (0%Z, add_s_vlens (-1) s);
  H5Oget_num_attrs id (s : h5) :=
    match at_id (s_objs s) id with Some o => (0%Z, len (cattrs o)) | None => ((-1)%Z, 0%Z) end;
  H5Aopen_by_idx id i (s : h5) := new_id (o ← at_id (s_objs s) id; cattrs o !! Z.to_nat i) s_attrs set_s_attrs s;
  H5Aget_name id (s : h5) :=
    match at_id (s_attrs s) id with Some a => (len (at_name a), at_name a) | None => ((-1)%Z, []) end;
  H5Aget_space id (s : h5) := new_sp (a ← at_id (s_attrs s) id; Some (CSpace (at_dims a) (all_points (at_dims a)))) s;
  H5Aget_type id (s : h5) := new_ty (at_type <$> at_id (s_attrs s) id) s;
  H5Aread id mt (s : h5) :=
    match at_id (s_attrs s) id, type_at mt s with
    | Some a, Some t => (0%Z, at_data a t, add_s_vlens (if has_vlen t then 1 else 0) s)
    | _, _ => ((-1)%Z, [], s)
    end;
  H5Aclose id (s : h5) := (0%Z, set_s_attrs (drop_id id (s_attrs s)) s);
  H5Oopen id name (s : h5) := new_id (o ← at_id (s_objs s) id; cfollow o name) s_objs set_s_objs s;
  H5Oclose id (s : h5) := (0%Z, set_s_objs (drop_id id (s_objs s)) s);
  H5Iget_type id (s : h5) := match at_id (s_objs s) id with Some o => ctype o | None => H5I_OTHER end;
  H5Gget_info id (s : h5) :=
    match at_id (s_objs s) id with Some o => (0%Z, len (clinks o)) | None => ((-1)%Z, 0%Z) end;
  H5Lvisit id (s : h5) :=
    match at_id (s_objs s) id with Some o => (0%Z, (λ l, (l.1, info l.2)) <$> clinks o) | None => ((-1)%Z, []) end;
  H5Lget_val id name n (s : h5) := (0%Z, lit "/d" ++ [x00]);
|}.

Lemma tables_type (s : state) id : t_types (ctables s) !! id = type_at id s.
Proof. unfold ctables, type_at. simpl. by rewrite lookup_fmap, view_lookup. Qed.

Lemma type_at_ok id s t : type_at id s = Some t → type_ok t.
Proof.
  unfold type_at. intros (x & _ & ->)%fmap_Some. apply type_okb_spec. exact (proj2_sig x).
Qed.

Lemma new_ty_law o (s : state) :
  let '(r, s') := new_ty o s in new_type ctables (λ s : state, view_ids (s_spaces s)) r o s s'.
Proof.
  pose proof (new_id_creates (A := ok_type) proj1_sig (o ≫= mk_type) s_types set_s_types s ltac:(done)) as Hc. unfold new_ty.
  destruct (new_id _ s_types set_s_types s) as [r s'] eqn:E.
  assert (Hs : view_ids (s_spaces s') = view_ids (s_spaces s) ∧
    ctables s' = set_types (proj1_sig <$> view_ids (s_types s')) (ctables s)).
  { unfold new_id in E. destruct (o ≫= mk_type); simplify_eq/=; done. }
  destruct Hs as [Hs Ht]. split; [done|]. eexists. split; [exact Ht|].
  destruct Hc as [Hc|(a & Ha & Hc)]; [by left|right]. exists a. split; [|done].
  apply fmap_Some in Ha as (x & Hx & ->). destruct o as [t|]; [|done]. simpl in Hx. by rewrite (mk_type_Some t x).
Qed.

Lemma new_space_law o (P : cspace → Prop) (s : state) sp :
  o = Some sp → P sp →
  let '(r, s') := new_sp o s in new_space ctables (λ s : state, view_ids (s_spaces s)) r P s s'.
Proof.
  intros -> HP'. pose proof (new_sp_law (Some sp) s) as Hl. destruct (new_sp _ s) as [r s'].
  destruct Hl as [Hc Ht]. split; [done|]. by exists sp.
Qed.

Lemma new_obj_law o (s : state) :
  let '(r, s') := new_id o s_objs set_s_objs s in new_obj ctables (λ s : state, view_ids (s_spaces s)) r o s s'.
Proof.
  pose proof (new_id_creates id o s_objs set_s_objs s ltac:(done)) as Hc.
  destruct (new_id o s_objs set_s_objs s) as [r s'] eqn:E. rewrite option_fmap_id, !map_fmap_id in Hc.
  assert (Hs : view_ids (s_spaces s') = view_ids (s_spaces s) ∧
    ctables s' = set_objs (view_ids (s_objs s')) (ctables s)) by (unfold new_id in E; destruct o; by simplify_eq/=).
  destruct Hs as [Hs Ht]. split; [done|]. by eexists.
Qed.
Lemma new_attr_law o (s : state) :
  let '(r, s') := new_id o s_attrs set_s_attrs s in new_attr ctables (λ s : state, view_ids (s_spaces s)) r o s s'.
Proof.
  pose proof (new_id_creates id o s_attrs set_s_attrs s ltac:(done)) as Hc.
  destruct (new_id o s_attrs set_s_attrs s) as [r s'] eqn:E. rewrite option_fmap_id, !map_fmap_id in Hc.
  assert (Hs : view_ids (s_spaces s') = view_ids (s_spaces s) ∧
    ctables s' = set_attrs (view_ids (s_attrs s')) (ctables s)) by (unfold new_id in E; destruct o; by simplify_eq/=).
  destruct Hs as [Hs Ht]. split; [done|]. by eexists.
Qed.

Lemma default_ok t : type_ok t → elem_read t (default_elem t).
Proof.
  intros Hok. pose proof (dtype_size_nonneg t Hok).
  assert (Hb : len (replicate (Z.to_nat (dtype_size t)) x00) = dtype_size t)
    by (unfold len; rewrite length_replicate; lia).
  destruct t as [| [] | | |]; simpl in *; try exact Hb; [set_solver by lia|].
  split; [constructor|]. unfold len. simpl. lia.
Qed.
Lemma on_space_tables id f s : ctables (on_space id f s).2 = ctables s.
Proof. unfold on_space. destruct (at_id _ id); [|done]. by destruct (f _). Qed.
Lemma new_sp_tables o s : ctables (new_sp o s).2 = ctables s.
Proof. pose proof (new_sp_law o s) as Hl. destruct (new_sp o s). apply Hl. Qed.

Lemma celem_ok o t p : type_ok t → elem_read t (celem o t p).
Proof.
  intros Hok. destruct t; try by apply default_ok.
  cbn [elem_read celem dtype_size type_ok] in *. unfold len. rewrite length_le_bytes. lia.
Qed.

(** The objects of the file are within the limits. *)
Lemma count_attr_ok t : type_ok t →
  Forall (elem_read t) (at_data count_attr t) ∧
  (len (at_data count_attr t) = prod_list (at_dims count_attr) ∨ at_dims count_attr = [] ∧ at_data count_attr t = []).
Proof.
  intros Hok. split; [|by left]. simpl. apply Forall_cons_2; [by apply default_ok|].
  apply Forall_cons_2; [by apply default_ok|apply Forall_nil_2].
Qed.
Lemma attr_is_count o a : a ∈ cattrs o → a = count_attr.
Proof. destruct o; simpl; rewrite ?list_elem_of_singleton; [done|done|]. by intros ?%not_elem_of_nil. Qed.

Lemma set_type_law id v n pad pad' s :
  type_at id s = Some (DString v n pad') →
  view_ids (s_spaces (set_type id (DString v n pad) s)) = view_ids (s_spaces s) ∧
  ctables (set_type id (DString v n pad) s) =
    set_types (<[id := DString v n pad]> (t_types (ctables s))) (ctables s).
Proof.
  intros Ht. pose proof (type_at_ok _ _ _ Ht) as Hok.
  assert (0 ≤ id)%Z by (unfold type_at in Ht; apply fmap_Some in Ht as (x & Hx & _); by eapply at_id_nonneg).
  unfold set_type, mk_type. destruct (decide _) as [Hd|Hd]; last first.
  { exfalso. apply Hd. by apply type_okb_spec. }
  split; [done|]. unfold ctables, set_types. simpl. rewrite view_put by done. by rewrite fmap_insert.
Qed.

Lemma dims_negative id s : (id < 0)%Z → view_ids (s_spaces s) !! id = None ∧ t_types (ctables s) !! id = None ∧
    t_objs (ctables s) !! id = None ∧ t_attrs (ctables s) !! id = None.
Proof.
  intros Hid. unfold ctables. simpl. rewrite lookup_fmap, !view_lookup. unfold at_id.
  by replace (0 <=? id)%Z with false by lia.
Qed.

(** The selected points are listed in order. *)
Lemma cpts_enumerates sp : enumerates (cpts sp) (csel sp).
Proof.
  split; [|done]. unfold cpts. pose proof (box_sorted ((λ d, (0, d)%Z) <$> cextent sp)) as Hs.
  fold (all_points (cextent sp)) in Hs. induction Hs as [|p l Hl IH Hp]; [constructor|].
  rewrite filter_cons. destruct (decide (p ∈ raw sp)); [|exact IH]. constructor; [exact IH|].
  rewrite Forall_forall in Hp |- *. intros q [_ Hq]%list_elem_of_filter. auto.
Qed.
Lemma csel_rank sp p : p ∈ csel sp → length p = length (cextent sp).
Proof.
  rewrite csel_points. intros [_ Hp]. unfold all_points in Hp. apply elem_of_box in Hp.
  apply Forall2_length in Hp. by rewrite length_fmap in Hp.
Qed.
Lemma objs_at s id o : t_objs (ctables s) !! id = Some o → at_id (s_objs s) id = Some o.
Proof. simpl. by rewrite view_lookup. Qed.
Lemma attrs_at s id a : t_attrs (ctables s) !! id = Some a → at_id (s_attrs s) id = Some a.
Proof. simpl. by rewrite view_lookup. Qed.

Lemma types_view s id : (proj1_sig <$> view_ids (s_types s)) !! id = type_at id s.
Proof. apply tables_type. Qed.

#[export] Instance file_laws : H5LibLaws.
Proof.
  refine {| hobj := cobj; tables := ctables; obj_type := ctype; obj_attrs := cattrs; obj_links := clinks;
            follow := cfollow; ds_type := λ _, int32; ds_dims := cdims; ds_elem := celem;
            native := λ t, t; packed := λ t, t |}; simpl.
  - done.
  - intros v n pad. by exists pad.
  - intros fs n Hn. exists fs, n. split; [done|]. split; [done|]. lia.
  - done.
  - done.
  - done.
  - done.
  - intros o. split; [simpl; lia|]. destruct o; simpl; repeat constructor; simpl; lia.
  - intros id s t. rewrite types_view. apply type_at_ok.
  - intros o t p. apply celem_ok.
  - intros o a t ->%attr_is_count. apply count_attr_ok.
  - intros id s. apply dims_negative.
  - intros id s. rewrite types_view. unfold on_type. by destruct (type_at id s).
  - intros id s c sg o n. rewrite types_view. unfold on_type. by intros ->.
  - intros id s c sg o n. rewrite types_view. unfold on_type. by intros ->.
  - intros id s t. rewrite types_view. unfold on_type. by intros ->.
  - intros id s. rewrite types_view. unfold on_type. by intros ->.
  - intros id s v n pad. rewrite types_view. unfold on_type. intros ->. by destruct v.
  - intros id s e dims. rewrite types_view. unfold on_type. by intros ->.
  - intros id s fs n. rewrite types_view. unfold on_type. by intros ->.
  - intros id i s t. rewrite types_view. unfold on_type. by intros ->.
  - intros id i s _. rewrite types_view. apply new_ty_law.
  - intros id s. rewrite types_view. apply new_ty_law.
  - intros id s. rewrite types_view, option_fmap_id. apply new_ty_law.
  - intros id pad s. rewrite types_view. destruct (type_at id s) as [[]|] eqn:E; try done.
    by eapply set_type_law.
  - intros id s. rewrite types_view. apply new_ty_law.
  - intros id s. rewrite types_view. destruct (type_at id s) as [t|] eqn:E; [|split; [done|left; done]].
    split; [done|]. right. split; [done|]. exists t. split; [done|]. unfold set_types.
    rewrite insert_id by (by rewrite types_view). done.
  - intros id dims s. rewrite types_view. apply new_ty_law.
  - intros id s. rewrite types_view. apply new_ty_law.
  - intros id s. split; [done|]. unfold ctables, set_types. simpl. by rewrite view_delete, fmap_delete.
  - intros id s. destruct (at_id (s_spaces s) id) as [sp|] eqn:E; [right|by left].
    exists sp. by rewrite view_lookup.
  - intros dims s. refine (new_space_law _ _ s (CSpace dims (all_points dims)) eq_refl (conj eq_refl _)).
    intros p. rewrite slab_all, csel_points. simpl. tauto.
  - intros s. refine (new_space_law _ _ s (CSpace [] (all_points [])) eq_refl (conj eq_refl _)).
    intros p. rewrite csel_points, (slab_all []). simpl. tauto.
  - intros id s Hid. rewrite view_delete. by apply delete_id.
  - intros id s. apply (new_sp_tables _ s).
  - done.
  - intros id s. apply (on_space_tables id _ s).
  - intros id s. apply (on_space_tables id _ s).
  - intros id st ct s. apply (on_space_tables id _ s).
  - intros a b s. apply (new_sp_tables _ s).
  - intros a b s. destruct (at_id (s_spaces s) b); [|done]. apply (on_space_tables a _ s).
  - intros id s. rewrite view_lookup. destruct (at_id (s_objs s) id); apply new_ty_law.
  - intros id s o. rewrite view_lookup. intros ->.
    exact (new_space_law _ _ s (CSpace (cdims o) (all_points (cdims o))) eq_refl eq_refl).
  - intros id s sp p _. apply csel_rank.
  - intros d mt ms fs s o t spm spf. rewrite !view_lookup, types_view. intros -> -> -> -> _.
    destruct (Z.eqb_spec (len (cpts spf)) (prod_list (cextent spm))); [|split; [done|by left]].
    split; [done|]. right. split; [done|]. exists (cpts spf). split; [apply cpts_enumerates|].
    split; [done|]. split; [by unfold len; rewrite length_fmap|done].
  - intros d mt ms fs s. rewrite view_lookup. intros ->.
    destruct (at_id (s_objs s) d); [|done]. by destruct (type_at mt s).
  - intros mt sp s. done.
  - intros id s. rewrite view_lookup. destruct (at_id (s_objs s) id) as [o|]; [right; by exists o|by left].
  - intros id i s _. rewrite view_lookup. apply new_attr_law.
  - intros id s. rewrite view_lookup. destruct (at_id (s_attrs s) id) as [a|]; [right; by exists a|by left].
  - intros id s a. rewrite view_lookup. intros ->.
    exact (new_space_law _ _ s (CSpace (at_dims a) (all_points (at_dims a))) eq_refl eq_refl).
  - intros id s. rewrite view_lookup. apply new_ty_law.
  - intros id mt s a t. rewrite view_lookup, types_view. intros -> ->. split; [done|]. by right.
  - intros id s. split; [done|]. unfold ctables, set_attrs. simpl. by rewrite view_delete.
  - intros id name s. rewrite view_lookup. apply new_obj_law.
  - intros id s. split; [done|]. unfold ctables, set_objs. simpl. by rewrite view_delete.
  - intros id s o. rewrite view_lookup. by intros ->.
  - intros id s. rewrite view_lookup. destruct (at_id (s_objs s) id) as [o|]; [right; by exists o|by left].
  - intros id s o. rewrite view_lookup. intros ->.
    split; [|by rewrite length_fmap]. rewrite length_fmap, take_ge by done.
    destruct o; simpl; repeat constructor; simpl; try done; set_solver.
  - intros id name target s o. rewrite view_lookup. intros _ Hin. right.
    destruct o; simpl in Hin; [|set_solver..].
    repeat (apply elem_of_cons in Hin as [Hin|Hin]; [by simplify_eq|]). by apply not_elem_of_nil in Hin.
Defined.
End H5File.
