(* ===== verification/H5Access.v ===== *)
(** * The HDF5 library as a whole

    The caches open and close files and datasets through one interface
    (Caches.v), the packing code reads them through another (H5.v).  In the
    reader process both are the same library: here is how they belong together,
    and that the concrete library of H5File.v is such a library. *)
From Stdlib Require Import Strings.Byte Strings.String.
From stdpp Require Import base tactics numbers list gmap propset.
From S2P Require Import Prelude Bytes Select H5 H5File Caches.

(** What the names of a file, and of an object in it, stand for: an object, or
    nothing if there is none. *)
Class H5Contents `{HLL : H5LibLaws} `{!H5Files (list byte) h5} := contents : h5_what → option hobj.

(** An open handle is the identifier of what its name stands for; what is open
    is a matter of the table of open identifiers. *)
Class H5ContentsLaws `{H5Contents} : Prop := {
  handles_objs l id w : h5_handles l !! id = Some w →
    ∃ o, contents w = Some o ∧ t_objs (tables l) !! id = Some o;
  handles_kept l l' : tables l' = tables l → h5_handles l' = h5_handles l;
}.

(** ** The concrete library

    There is one file, [a.h5]; its only dataset is [d]. *)
Import H5File.
Module H5Access.
Definition open_id (o : option cobj) : M state Z := λ s, Some (new_id o s_objs set_s_objs s).
Definition close_id (id : Z) : M state () :=
  λ s, match at_id (s_objs s) id with
       | Some _ => Some ((), set_s_objs (drop_id id (s_objs s)) s)
       | None => None
       end.
Definition file_at (name : list byte) : option cobj := if decide (name = lit "a.h5") then Some Root else None.
Definition dataset_in (w : option cobj) (name : list byte) : option cobj :=
  match w ≫= λ o, cfollow o name with Some Data => Some Data | _ => None end.

#[export] Instance object_files : H5Files (list byte) (h5 : Type) := {|
  h5_what := option cobj;
  h5_file := file_at;
  h5_member := dataset_in;
  H5Fopen name := open_id (file_at name);
  H5Fclose := close_id;
  H5Dopen f name := λ s : state, open_id (dataset_in (at_id (s_objs s) f) name) s;
  H5Dclose := close_id;
  h5_handles (s : state) := Some <$> view_ids (s_objs s);
|}.

Lemma open_id_opened w (s : state) : opened (K := list byte) (L := h5) s (new_id w s_objs set_s_objs s).1 w (new_id w s_objs set_s_objs s).2.
Proof.
  pose proof (new_id_creates Some w s_objs set_s_objs s ltac:(done)) as Hc.
  destruct (new_id w s_objs set_s_objs s) as [r s'] eqn:E. cbn [fst snd].
  destruct Hc as [Hc|(a & Ha & Hr & Hn & Hm)]; [by left|right]. split; [done|]. split; [done|].
  apply fmap_Some in Ha as (o & -> & ->). exact Hm.
Qed.
Lemma close_id_closed id (s : state) (Q : () → h5 → Prop) :
  is_Some (h5_handles (K := list byte) (L := h5) s !! id) →
  (∀ s' : h5, h5_handles s' = delete id (h5_handles (K := list byte) (L := h5) s) → Q () s') → wp (close_id id) Q s.
Proof.
  intros [w Hw] HQ. cbn [h5_handles object_files] in Hw. rewrite lookup_fmap, view_lookup in Hw.
  apply fmap_Some in Hw as (o & Ho & _). eexists (), _. split; [unfold close_id; by rewrite Ho|].
  apply HQ. cbn [h5_handles object_files s_objs set_s_objs]. by rewrite view_delete, fmap_delete.
Qed.
#[export] Instance object_files_laws : H5FilesLaws (list byte) (h5 : Type).
Proof.
  split.
  - intros s name Q HQ. pose proof (open_id_opened (file_at name) s) as Ho.
    eexists _, _. split; [cbn; unfold open_id; by rewrite (surjective_pairing (new_id _ _ _ _))|]. by apply HQ.
  - intros s f w name Q Hf HQ. cbn [h5_handles object_files] in Hf. rewrite lookup_fmap, view_lookup in Hf.
    apply fmap_Some in Hf as (o & Hf & ->). pose proof (open_id_opened (dataset_in (Some o) name) s) as Ho.
    eexists _, _. split; [cbn; rewrite Hf; unfold open_id; by rewrite (surjective_pairing (new_id _ _ _ _))|]. by apply HQ.
  - intros s id Q. apply close_id_closed.
  - intros s id Q. apply close_id_closed.
Qed.

#[export] Instance object_contents : H5Contents := λ w : option cobj, w.
#[export] Instance object_contents_laws : H5ContentsLaws.
Proof.
  split.
  - intros l id w Hw. cbn [h5_handles object_files] in Hw. rewrite lookup_fmap in Hw.
    apply fmap_Some in Hw as (o & Ho & ->). by exists o.
  - intros l l' E. exact (f_equal (λ t : h5_tables cobj, Some <$> t_objs t) E).
Qed.
End H5Access.
