(* ===== verification/NumpyTypeMain.v ===== *)
(** * Datatypes: the main theorems

    What [make_packed_native_type] and [pack_numpy_type] return and write for
    every type, that the descriptor of a simple type determines it, and the
    sizes from which descriptors are cut off. *)
From Stdlib Require Import Strings.Byte Strings.String.
From stdpp Require Import base tactics numbers list gmap propset.
From S2P Require Import Prelude Bytes Msgpack MsgpackFormat Select H5 PackStore Multislice Points.
From S2P Require Import NumpyType NumpyTypeProof PackContents PackContentsProof PackAttributes.
From S2P Require Import PackDataset PackDatasetProof PackDatasetMain PackObject PackObjectProof.
From S2P Require Import PackDecode H5File.

(** ** Decimal digits *)

Lemma dec_go_app fuel z acc : dec_go fuel z acc = dec_go fuel z [] ++ acc.
Proof.
  revert z acc. induction fuel as [|n IH]; intros z acc; simpl; [done|].
  destruct (z <? 10)%Z; [done|]. rewrite IH, (IH _ [_]). by rewrite <- app_assoc.
Qed.

Lemma dec_go_fuel f1 f2 z : (0 ≤ z < 10 ^ Z.of_nat f1)%Z → 0 < f1 → f1 ≤ f2 → dec_go f1 z [] = dec_go f2 z [].
Proof.
  revert f2 z. induction f1 as [|f1 IH]; intros [|f2] z Hz H0 Hle; try lia. simpl.
  destruct (Z.ltb_spec z 10); [done|]. rewrite dec_go_app, (dec_go_app f2). f_equal.
  rewrite Nat2Z.inj_succ, Z.pow_succ_r in Hz by lia.
  apply IH; [split; [apply Z.div_pos|apply Z.div_lt_upper_bound]; lia| |lia].
  destruct f1; [simpl in Hz; lia|lia].
Qed.

Lemma length_dec_go_ge k fuel z acc :
  (10 ^ Z.of_nat k ≤ z)%Z → k < fuel → k < length (dec_go fuel z acc).
Proof.
  revert fuel z acc. induction k as [|k IH]; intros [|fuel] z acc Hz Hk; try lia; simpl.
  - destruct (z <? 10)%Z; simpl; [lia|]. rewrite dec_go_app, length_app. simpl. lia.
  - rewrite Nat2Z.inj_succ, Z.pow_succ_r in Hz by lia.
    assert (1 ≤ 10 ^ Z.of_nat k)%Z by (pose proof (Z.pow_pos_nonneg 10 (Z.of_nat k)); lia).
    replace (z <? 10)%Z with false by lia. rewrite dec_go_app, length_app. simpl.
    assert (10 ^ Z.of_nat k ≤ z / 10)%Z by (apply Z.div_le_lower_bound; lia).
    specialize (IH fuel (z / 10)%Z [] ltac:(done) ltac:(lia)). lia.
Qed.

Lemma dec_go_S n z acc :
  dec_go (S n) z acc = if (z <? 10)%Z then digit z :: acc else dec_go n (z / 10)%Z (digit (z mod 10) :: acc).
Proof. reflexivity. Qed.

Lemma fmt_d_snoc z : (10 ≤ z < 10 ^ 9)%Z → fmt_d z = fmt_d (z / 10) ++ [digit (z mod 10)].
Proof.
  intros Hz. assert (0 ≤ z / 10 < 10 ^ 8)%Z by (split; [apply Z.div_pos|apply Z.div_lt_upper_bound]; lia).
  unfold fmt_d. replace (z <? 0)%Z with false by lia. replace (z / 10 <? 0)%Z with false by lia.
  rewrite <- (dec_go_fuel 9 10 (z / 10)) by (change (10 ^ Z.of_nat 9)%Z with (10 ^ 9)%Z; lia).
  rewrite dec_go_S. replace (z <? 10)%Z with false by lia. apply dec_go_app.
Qed.

(** A size of nine digits is cut to the first eight. *)
Lemma descr_cut n :
  (10 ^ 8 ≤ n < 10 ^ 9)%Z →
  snprintf descr_len ("S"%byte :: fmt_d n) = snprintf descr_len ("S"%byte :: fmt_d (n / 10)).
Proof.
  intros Hn. assert (10 ^ 7 ≤ n / 10 < 10 ^ 8)%Z as Hm
    by (split; [apply Z.div_le_lower_bound|apply Z.div_lt_upper_bound]; lia).
  assert (length (fmt_d (n / 10)) = 8) as Hl.
  { pose proof (length_fmt_d 7 (n / 10) ltac:(change (10 ^ Z.of_nat 8)%Z with (10 ^ 8)%Z; lia)) as Hle.
    pose proof (length_dec_go_ge 7 10 (n / 10) [] ltac:(change (10 ^ Z.of_nat 7)%Z with (10 ^ 7)%Z; lia) ltac:(lia)) as Hge.
    unfold fmt_d, len in *. replace (n / 10 <? 0)%Z with false in * by lia. lia. }
  rewrite fmt_d_snoc by lia. unfold snprintf, descr_len. change (Z.to_nat (10 - 1)) with 9. simpl. f_equal.
  rewrite take_app_le by lia. done.
Qed.

(** ** Scalar types *)

Definition scalar (t : dtype) : Prop :=
  match t with DAtomic _ _ _ n => (0 ≤ n < 10 ^ 7)%Z | DString false n _ => (0 ≤ n < 10 ^ 7)%Z | _ => False end.
(** What the descriptor determines: the kind of number, the byte order, the size. *)
Definition kind_of (t : dtype) : option byte := descr_text t ≫= λ text, text !! 1.
Definition same_scalar (t1 t2 : dtype) : Prop :=
  match t1, t2 with
  | DAtomic _ _ o1 n1, DAtomic _ _ o2 n2 => kind_of t1 = kind_of t2 ∧ o1 = o2 ∧ n1 = n2
  | DString _ n1 _, DString _ n2 _ => n1 = n2
  | _, _ => False
  end.

Lemma scalar_text t text :
  scalar t → descr_text t = Some text → snprintf descr_len text = text.
Proof.
  intros Hs Ht. apply snprintf_fits. unfold descr_len.
  assert (∀ n, (0 ≤ n < 10 ^ 7)%Z → len (fmt_d (s32 n)) ≤ 7)%Z as Hl.
  { intros n Hn. assert (s32 n = n) as -> by (unfold s32; rewrite Z.mod_small; lia).
    by apply (length_fmt_d 6). }
  destruct t as [c sg o n|[] n p| | |]; simpl in Hs; try done; simpl in Ht; specialize (Hl n Hs).
  - repeat (case_match; simplify_eq/=); unfold len in *; simpl; lia.
  - injection Ht as <-. unfold len in *. simpl. lia.
Qed.

Lemma same_text t1 t2 text :
  scalar t1 → scalar t2 → descr_text t1 = Some text → descr_text t2 = Some text → same_scalar t1 t2.
Proof.
  assert (∀ n1 n2, (0 ≤ n1 < 10 ^ 7)%Z → (0 ≤ n2 < 10 ^ 7)%Z → fmt_d (s32 n1) = fmt_d (s32 n2) → n1 = n2) as Hinj.
  { intros n1 n2 H1 H2. assert (s32 n1 = n1) as -> by (unfold s32; rewrite Z.mod_small; lia).
    assert (s32 n2 = n2) as -> by (unfold s32; rewrite Z.mod_small; lia). apply fmt_d_inj; lia. }
  intros Hs1 Hs2 Ht1 Ht2.
  destruct t1 as [c1 sg1 o1 n1|[] n1 p1| | |], t2 as [c2 sg2 o2 n2|[] n2 p2| | |]; simpl in Hs1, Hs2; try done.
  - simpl. unfold kind_of. rewrite Ht1, Ht2. split; [done|]. simpl in Ht1, Ht2.
    destruct (match c1 with H5T_INTEGER | H5T_ENUM => _ | H5T_FLOAT => _ | _ => _ end) as [k1|]; [|done].
    destruct (match c2 with H5T_INTEGER | H5T_ENUM => _ | H5T_FLOAT => _ | _ => _ end) as [k2|]; [|done].
    simpl in *. destruct o1; simplify_eq/=; destruct o2; simplify_eq/=; (split; [done|apply Hinj; done]).
  - exfalso. simpl in Ht1, Ht2. repeat (case_match; simplify_eq/=).
  - exfalso. simpl in Ht1, Ht2. repeat (case_match; simplify_eq/=).
  - simpl in *. simplify_eq/=. by apply Hinj.
Qed.

Section claims.
Context `{HS : H5Space, HL : !H5Lib, HM : Msgpack, HP : Packer}.
Context `{HSL : !H5SpaceLaws, HLL : !H5LibLaws, HML : !MsgpackLaws, HPL : !PackerLaws}.
Implicit Types s : pstore.

(** A scalar type is described by one string. *)
Lemma pack_scalar_string fuel id t text s :
  v_types (view s) !! id = Some t → descr_text t = Some text →
  pack_numpy_type (S fuel) id None s = bind (put_string (snprintf descr_len text)) (λ _, ret 0%Z) s.
Proof.
  intros Hid Ht. cbn [pack_numpy_type]. unfold bind at 1, lib_get, gets. rewrite get_class_law, <- view_types, Hid.
  rewrite view_types in Hid.
  assert (wp (numpy_type_info id descr_len) (λ r s', r = (0%Z, snprintf descr_len text) ∧ s' = s) s)
    as (r & s1 & Hi & -> & ->).
  { apply (wp_numpy_type_info id t); [by rewrite view_types|by rewrite Ht|..];
      destruct t as [[] sg o n|[] n p| | |]; try done; simpl; auto. }
  assert (∀ b, b && (0 <? H5Tis_variable_str id (p_h5 s))%Z = true → b = true) as Hb by (by intros []).
  destruct t as [c sg o n|[] n p| | |]; try done.
  - destruct c; try done; simpl; unfold bind; rewrite Hi; simpl; done.
  - simpl. unfold bind. rewrite (is_variable_str_law _ _ _ _ _ Hid). simpl. rewrite Hi. done.
Qed.

Lemma wp_pack_scalar_type fuel id t text (Q : Z → pstore → Prop) s :
  v_types (view s) !! id = Some t → descr_text t = Some text →
  (∀ s', view s' = view s → emits (encode (OStr (snprintf descr_len text))) s s' → Q 0%Z s') →
  wp (pack_numpy_type (S fuel) id None) Q s.
Proof.
  intros Hid Ht HQ.
  assert (wp (let! _ := put_string (snprintf descr_len text) in ret 0%Z) Q s) as (r & s' & E & Hr).
  { wp_step. apply wp_put_string.
    - apply len_u64. pose proof (len_snprintf descr_len text). unfold descr_len in *. lia.
    - intros s' Hv He. wp_step. by apply HQ. }
  exists r, s'. split; [|done]. rewrite <- E. by eapply pack_scalar_string.
Qed.

(** C17: the type of the data in memory is well formed and described exactly.
    [make_packed_native_type] returns for every datatype, and leaves at most one
    new identifier behind, that of a memory type of the given type; on that
    type [pack_numpy_type] returns, opens no identifier that it does not close,
    and a result of 0 means that it wrote the object that describes the type,
    which is within the limits of the format. *)
Theorem packed_type_described fuel id s :
  depth_below (v_types (view s) !! id) fuel →
  ∃ r s1, make_packed_native_type fuel id s = Some (r, s1) ∧
    ((r < 0)%Z ∧ view s1 = view s ∨
     ∃ t mt r2 s2, (0 ≤ r)%Z ∧ v_types (view s) !! r = None ∧
       v_types (view s) !! id = Some t ∧ mem_type_of t mt ∧
       view s1 = with_types (<[r := mt]> (v_types (view s))) (view s) ∧
       pack_numpy_type fuel r None s1 = Some (r2, s2) ∧ view s2 = view s1 ∧ (r2 = 0 ∨ r2 = -1)%Z ∧
       (r2 = 0%Z → ∃ ob, numpy_obj mt None = Some ob ∧ obj_ok ob ∧ emits (encode ob) s1 s2)).
Proof.
  intros Hd. assert (wp (make_packed_native_type fuel id)
    (λ r s', type_result (v_types (view s) !! id) mem_type_of s r s') s) as (r & s1 & E & Hr).
  { by apply wp_make_packed. }
  exists r, s1. split; [exact E|]. destruct Hr as (m & o & Hc & Ho & Hv & Hp).
  destruct Hc as [[? ->]|(mt & -> & Hr0 & Hn & ->)]; [left; split; [done|]; by rewrite Hv, with_types_id|right].
  destruct (Ho mt eq_refl) as (t & Ht & Hmt). rewrite Ht in Hd.
  assert (v_types (view s1) !! r = Some mt) as Hmid by (rewrite Hv; apply lookup_insert_eq).
  assert (type_ok mt) as Hok by (apply (types_ok r (p_h5 s1)); by rewrite <- view_types).
  assert (wp (pack_numpy_type fuel r None) (λ r2 s2, numpy_result (Some mt) None s1 r2 s2) s1)
    as (r2 & s2 & E2 & Hv2 & Hr2 & Hw).
  { apply wp_pack_numpy_type; [rewrite Hmid; simpl; by rewrite (mem_type_depth _ _ Hmt)|done|].
    by rewrite Hmid. }
  exists t, mt, r2, s2. split; [done|]. split; [done|]. split; [done|]. split; [done|]. split; [done|].
  split; [done|]. split; [done|]. split; [done|]. intros H0.
  destruct (Hw H0) as (t' & ob & [= <-] & Hob & He). exists ob. split; [done|]. split; [|done].
  by apply (numpy_obj_ok mt None ob).

Qed.

(** C18: the descriptor of a number or string type determines the type.  If
    two types of numbers or strings of less than 10^7 bytes are described with
    the same bytes, they have the same kind, byte order and size. *)
Theorem numpy_descr_determines_type fuel id1 id2 t1 t2 s s1 s2 :
  v_types (view s) !! id1 = Some t1 → v_types (view s) !! id2 = Some t2 → scalar t1 → scalar t2 →
  pack_numpy_type (S fuel) id1 None s = Some (0%Z, s1) → pk_ok s1 →
  pack_numpy_type (S fuel) id2 None s = Some (0%Z, s2) → pk_ok s2 →
  pk_written (p_pk s1) = pk_written (p_pk s2) → same_scalar t1 t2.
Proof.
  intros Hid1 Hid2 Hs1 Hs2 E1 Hok1 E2 Hok2 Hsame.
  assert (∀ id t s', v_types (view s) !! id = Some t → scalar t →
    pack_numpy_type (S fuel) id None s = Some (0%Z, s') → pk_ok s' →
    ∃ text, descr_text t = Some text ∧ pk_written (p_pk s') = pk_written (p_pk s) ++ encode (OStr text) ∧
      obj_ok (OStr text)) as Hone.
  { intros id t s' Hid Hs E Hok.
    assert (wp (pack_numpy_type (S fuel) id None) (λ r s2, numpy_result (Some t) None s r s2) s) as Hwp.
    { apply wp_pack_numpy_type; rewrite ?Hid; [|done..]. by destruct t as [|[]| | |]; simpl in *; try done; lia. }
    destruct (wp_run _ _ _ _ _ Hwp E) as (_ & _ & Hw).
    destruct (Hw eq_refl) as (t' & ob & [= <-] & Hob & He). destruct (He Hok) as [_ Hbytes].
    destruct (descr_text t) as [text|] eqn:Et.
    - exists text. pose proof (scalar_text _ _ Hs Et) as Hfit. split; [done|].
      assert (ob = OStr text) as ->.
      { destruct t as [|[]| | |]; try done; simpl in Hob, Et; rewrite Et in Hob || injection Et as <-; simpl in Hob;
          rewrite Hfit in Hob; congruence. }
      split; [done|]. simpl. rewrite <- Hfit. apply len_snprintf_small.
    - exfalso. destruct t as [|[]| | |]; try done. simpl in Hob, Et. by rewrite Et in Hob. }
  destruct (Hone id1 t1 s1) as (x1 & Hx1 & Hw1 & Ho1); [done..|].
  destruct (Hone id2 t2 s2) as (x2 & Hx2 & Hw2 & Ho2); [done..|].
  rewrite Hw1, Hw2 in Hsame. apply app_inv_head in Hsame.
  pose proof (unpack_encode_depth (OStr x1) 1 [] Ho1 ltac:(done)) as Hu1.
  pose proof (unpack_encode_depth (OStr x2) 1 [] Ho2 ltac:(done)) as Hu2.
  rewrite Hsame, Hu2 in Hu1. injection Hu1 as ->. by eapply same_text.
Qed.

(** The descriptor of a string type of 10^8 bytes or more is cut.  The
    buffer has room for nine characters, "S" and eight digits, so a type of
    nine digits is described exactly as the type of a tenth of its size, and
    [pack_numpy_type] still returns 0. *)
Lemma string_descr_truncated fuel id1 id2 n p1 p2 s :
  v_types (view s) !! id1 = Some (DString false n p1) → (10 ^ 8 ≤ n < 10 ^ 9)%Z →
  v_types (view s) !! id2 = Some (DString false (n / 10) p2) →
  pack_numpy_type (S fuel) id1 None s = pack_numpy_type (S fuel) id2 None s ∧
  wp (pack_numpy_type (S fuel) id1 None) (λ r _, r = 0%Z) s.
Proof.
  intros Hid1 Hn Hid2.
  assert (10 ^ 7 ≤ n / 10 < 10 ^ 8)%Z by (split; [apply Z.div_le_lower_bound|apply Z.div_lt_upper_bound]; lia).
  assert (∀ m, (0 ≤ m < 10 ^ 9)%Z → s32 m = m) as Hs by (intros m Hm; unfold s32; rewrite Z.mod_small; lia).
  split.
  - rewrite (pack_scalar_string fuel id1 _ _ s Hid1 eq_refl), (pack_scalar_string fuel id2 _ _ s Hid2 eq_refl).
    rewrite !Hs by lia. by rewrite descr_cut by done.
  - by eapply wp_pack_scalar_type.
Qed.
End claims.

(** ** A store with some datatypes *)

Import H5File.
Module TypesDemo.

Definition big (n : Z) : dtype := DString false n H5T_STR_NULLTERM.
Definition pairs : dtype := DArray (DVlen int32) [2; 3]%Z.
Definition ty (t : dtype) (H : type_okb t = true) : ok_type := exist _ t H.
Definition types : gmap N ok_type :=
  {[ 0%N := ty int32 eq_refl; 1%N := ty pairs eq_refl; 2%N := ty (big 123456789) eq_refl;
     3%N := ty (big 12345678) eq_refl; 4%N := ty (DAtomic H5T_ENUM H5T_SGN_2 H5T_ORDER_LE 4) eq_refl ]}.
Definition store : pstore := PStore (State types ∅ ∅ 0 ∅) (Collector [] 1000 false) ∅.
Definition after (id : Z) : pstore :=
  match pack_numpy_type 1 id None store with Some (_, s) => s | None => store end.
End TypesDemo.

Lemma packed_type_described_witness :
  ∃ r s1, make_packed_native_type 3 1 TypesDemo.store = Some (r, s1) ∧
    ((r < 0)%Z ∧ view s1 = view TypesDemo.store ∨
     ∃ t mt r2 s2, (0 ≤ r)%Z ∧ v_types (view TypesDemo.store) !! r = None ∧
       v_types (view TypesDemo.store) !! 1%Z = Some t ∧ mem_type_of t mt ∧
       view s1 = with_types (<[r := mt]> (v_types (view TypesDemo.store))) (view TypesDemo.store) ∧
       pack_numpy_type 3 r None s1 = Some (r2, s2) ∧ view s2 = view s1 ∧ (r2 = 0 ∨ r2 = -1)%Z ∧
       (r2 = 0%Z → ∃ ob, numpy_obj mt None = Some ob ∧ obj_ok ob ∧ emits (encode ob) s1 s2)).
Proof. apply (packed_type_described 3 1 TypesDemo.store). vm_compute. lia. Defined.

Lemma numpy_descr_determines_type_witness :
  same_scalar H5File.int32 (DAtomic H5T_ENUM H5T_SGN_2 H5T_ORDER_LE 4).
Proof.
  apply (numpy_descr_determines_type 0 0 4 int32 (DAtomic H5T_ENUM H5T_SGN_2 H5T_ORDER_LE 4)
    TypesDemo.store (TypesDemo.after 0) (TypesDemo.after 4));
    first [by_vm | simpl; lia | unfold pk_ok; by_vm].
Defined.

Lemma string_descr_truncated_witness :
  pack_numpy_type 1 2 None TypesDemo.store = pack_numpy_type 1 3 None TypesDemo.store ∧
  wp (pack_numpy_type 1 2 None) (λ r _, r = 0%Z) TypesDemo.store.
Proof.
  apply (string_descr_truncated 0 2 3 123456789 H5T_STR_NULLTERM H5T_STR_NULLTERM TypesDemo.store);
    [vm_compute; reflexivity|lia|vm_compute; reflexivity].
Defined.
