(* ===== verification/PackMain.v ===== *)
(** * Packing datasets and objects: the main theorems

    What a reader of the output gets back, that the output does not depend on
    the size of the read buffer, that packing terminates and releases what it
    acquired, and the requests for which it divides by zero. *)
From Stdlib Require Import Strings.Byte Strings.String.
From stdpp Require Import base tactics numbers list gmap propset.
From S2P Require Import Prelude Bytes Msgpack MsgpackFormat Select H5 PackStore Multislice Points.
From S2P Require Import NumpyType NumpyTypeProof PackContents PackContentsProof PackAttributes.
From S2P Require Import PackDataset PackDatasetProof PackDatasetMain PackObject PackObjectProof.
From S2P Require Import PackDecode H5File.

(** A type that is or contains a struct may be packed or not in memory; for the
    other types the type in memory is determined. *)
Fixpoint plain (t : dtype) : bool :=
  match t with
  | DAtomic _ _ _ _ | DString _ _ _ => true
  | DArray e _ | DVlen e => plain e
  | DCompound _ _ => false
  end.

Section claims.
Context `{HS : H5Space, HL : !H5Lib, HM : Msgpack, HP : Packer}.
Context (type_fuel : nat) (debug : bool).
Context `{HSL : !H5SpaceLaws, HLL : !H5LibLaws, HML : !MsgpackLaws, HPL : !PackerLaws}.
Implicit Types s : pstore.

Lemma mem_type_unique t t1 t2 : plain t = true → mem_type_of t t1 → mem_type_of t t2 → t1 = t2.
Proof.
  intros Hp H1. revert t2 Hp. induction H1; intros t2 Hp H2; simpl in Hp; try done;
    inversion H2; subst; f_equal; auto.
Qed.

(** The contents of a request are within the limits of the format. *)
Lemma request_contents_ok o t rank n starts counts ob :
  dataset_ok type_fuel o → request_fits o rank n starts counts → mem_type_of (ds_type o) t → (1 ≤ n)%Z →
  ((0 < rank)%Z → slices_valid rank n starts counts (ds_dims o)) →
  contents_obj t MSGPACK_MAX_SIZE (request_shape rank n starts counts)
    (request_data o t rank n starts counts) = Some ob → obj_ok ob.
Proof.
  intros Hdk [Hr Hrq _ _] Hmt Hn Hvalid Hob. pose proof Hdk as [Hrk Hdims _ Hsize _].
  destruct (Hsize t Hmt) as ([Hsz _] & Hbd & _). destruct (file_types_ok o) as [Hty _].
  pose proof (mem_type_ok _ _ Hmt Hty) as Hok. unfold HDFSTREAM_MAX_DIMS in *.
  assert (Forall is_u64 (request_shape rank n starts counts) ∧
    len (request_points rank n starts counts) = prod_list (request_shape rank n starts counts) ∧
    (0 ≤ prod_list (request_shape rank n starts counts) ≤ prod_list (ds_dims o))%Z ∧
    (len (request_shape rank n starts counts) ≤ 32)%Z) as (Hu & Hl & Hb & Hlen).
  { pose proof (len_nonneg (ds_dims o)). destruct (decide (rank = 0)%Z) as [H0|H0].
    - assert (ds_dims o = []) as -> by (apply nil_length_inv; unfold len in *; lia).
      unfold request_shape, request_points. rewrite H0. simpl. split; [constructor|]. unfold len. simpl. lia.
    - assert (0 < rank)%Z as H1 by lia. specialize (Hrq H1 Hn). specialize (Hvalid H1).
      split; [by eapply request_shape_u64|]. split; [by eapply len_request_points|].
      split; [by eapply request_shape_bound|].
      unfold request_shape. replace (rank =? 0)%Z with false by lia. unfold len. simpl. rewrite length_take. lia. }
  pose proof (len_nonneg (request_shape rank n starts counts)).
  eapply contents_obj_ok; [exact Hok| | |exact Hu| |exact Hob].
  - unfold request_data. by eapply dataset_elem_ok.
  - unfold request_data. assert (len (ds_elem o t <$> request_points rank n starts counts) =
      len (request_points rank n starts counts)) as -> by (unfold len; by rewrite length_fmap).
    rewrite Hl. nia.
  - unfold is_u32. lia.
Qed.

Lemma multi_slice_runs id o rank n starts counts bufsize s :
  v_objs (view s) !! id = Some o → dataset_ok type_fuel o → request_fits o rank n starts counts →
  wp (pack_dataset_multi_slice type_fuel debug id rank n starts counts bufsize)
    (multi_slice_result o MSGPACK_MAX_SIZE rank n starts counts s) s.
Proof.
  intros. unfold pack_dataset_multi_slice. eapply wp_multi_slice; [done..|unfold MSGPACK_MAX_SIZE; lia|auto].
Qed.

Lemma emits_decodes ob s s' :
  obj_ok ob → pk_ok s' → emits (encode ob) s s' →
  ∃ out, pk_written (p_pk s') = pk_written (p_pk s) ++ out ∧
    ∀ rest, unpack (obj_depth ob) (out ++ rest) = Some (ob, rest).
Proof.
  intros Hob Hok He. destruct (He Hok) as [_ Hw]. exists (encode ob). split; [exact Hw|].
  intros rest. by apply unpack_encode_depth.
Qed.

(** C20: the output of a successful request decodes to the requested data.
    When [pack_dataset_multi_slice] returns 0, the bytes it wrote decode, with
    nothing left over, to the contents of the dataset at the points of the
    request.  For a type of fixed size they are a map with the type, the shape
    of the request, the number of bytes and blocks of at most
    [MSGPACK_MAX_SIZE] bytes that together are the bytes of the elements in the
    order of the slices. *)
Theorem multi_slice_decodes id o rank n starts counts bufsize s s' :
  v_objs (view s) !! id = Some o → dataset_ok type_fuel o → request_fits o rank n starts counts →
  pack_dataset_multi_slice type_fuel debug id rank n starts counts bufsize s = Some (0%Z, s') →
  ∃ t ob out, mem_type_of (ds_type o) t ∧
    contents_obj t MSGPACK_MAX_SIZE (request_shape rank n starts counts)
      (ds_elem o t <$> request_points rank n starts counts) = Some ob ∧
    pk_written (p_pk s') = pk_written (p_pk s) ++ out ∧
    (∀ rest, unpack (obj_depth ob) (out ++ rest) = Some (ob, rest)) ∧
    (has_vlen t = false → ∃ ty k bs blocks,
      ob = OMap [(lit "nd", OBool true); (lit "type", ty); (lit "kind", OStr k);
                 (lit "shape", OArray (OInt <$> request_shape rank n starts counts));
                 (lit "nbytes", OInt (len bs)); (lit "data", OArray (OBin <$> blocks))] ∧
      numpy_obj t None = Some ty ∧ numpy_kind t = Some k ∧
      raw_bytes (ds_elem o t <$> request_points rank n starts counts) = Some bs ∧
      concat blocks = bs ∧ Forall (λ b, 0 < len b ≤ MSGPACK_MAX_SIZE)%Z blocks).
Proof.
  intros Hid Hok Hfits E.
  destruct (wp_run _ _ _ _ _ (multi_slice_runs id o rank n starts counts bufsize s Hid Hok Hfits) E) as [_ H0].
  destruct (H0 eq_refl) as ([Hn _] & Hvalid & t & Hmt & Hpk & ob & Hob & He).
  pose proof (request_contents_ok _ _ _ _ _ _ _ Hok Hfits Hmt Hn Hvalid Hob) as Hobok.
  destruct (emits_decodes _ _ _ Hobok Hpk He) as (out & Hw & Hu).
  exists t, ob, out. split; [done|]. split; [done|]. split; [done|]. split; [done|]. intros Hv.
  unfold contents_obj, request_data in Hob. rewrite Hv, data_objs_fixed in Hob by done. simpl in Hob.
  destruct (file_types_ok o) as [Hty _]. pose proof (mem_type_ok _ _ Hmt Hty) as Htok.
  destruct (raw_bytes_typed t (ds_elem o t <$> request_points rank n starts counts) Hv) as (bs & Hbs & Hl).
  { by eapply dataset_elem_ok. }
  rewrite Hbs in Hob. simpl in Hob. unfold contents_map in Hob. rewrite Hv in Hob.
  destruct (numpy_obj t None) as [ty|] eqn:Ety; [|done]. destruct (numpy_kind t) as [k|] eqn:Ek; [|done].
  simpl in Hob. injection Hob as <-. exists ty, k, bs, (bins MSGPACK_MAX_SIZE bs).
  split; [by rewrite Hl|]. repeat (split; [done|]).
  split; [by apply concat_bins|by apply bins_bounded].
Qed.

(** C16: the size of the read buffer does not show in the output.  Two
    successful calls with the same request and any two buffer sizes, so with
    any two ways of splitting the request into reads, write the same bytes, for
    every type that contains no struct. *)
Theorem multi_slice_buffer_independent id o rank n starts counts buf1 buf2 s s1 s2 :
  v_objs (view s) !! id = Some o → dataset_ok type_fuel o → request_fits o rank n starts counts →
  plain (ds_type o) = true →
  pack_dataset_multi_slice type_fuel debug id rank n starts counts buf1 s = Some (0%Z, s1) →
  pack_dataset_multi_slice type_fuel debug id rank n starts counts buf2 s = Some (0%Z, s2) →
  pk_written (p_pk s1) = pk_written (p_pk s2).
Proof.
  intros Hid Hok Hfits Hp E1 E2.
  destruct (wp_run _ _ _ _ _ (multi_slice_runs id o rank n starts counts buf1 s Hid Hok Hfits) E1) as [_ H1].
  destruct (wp_run _ _ _ _ _ (multi_slice_runs id o rank n starts counts buf2 s Hid Hok Hfits) E2) as [_ H2].
  destruct (H1 eq_refl) as (_ & _ & t1 & Hm1 & Hk1 & ob1 & Ho1 & He1).
  destruct (H2 eq_refl) as (_ & _ & t2 & Hm2 & Hk2 & ob2 & Ho2 & He2).
  pose proof (mem_type_unique _ _ _ Hp Hm1 Hm2) as <-. rewrite Ho1 in Ho2. injection Ho2 as <-.
  destruct (He1 Hk1) as [_ ->]. by destruct (He2 Hk2) as [_ ->].
Qed.

(** C14: a request leaks nothing, on any path.  Let a dataset have fewer than
    2^62 bytes and no null strings, and a request the rank of the dataset, arrays
    of [rank*n] entries, no slice whose end wraps around 2^64 (those are C28)
    and rows whose size is not a multiple of 2^64 bytes (those are C40).  Then,
    whether its slices are valid or not and whatever call of the library or
    write fails, [pack_dataset_multi_slice] returns with the tables of open
    identifiers, the allocated blocks and the number of unreclaimed
    variable-length reads as they were; a request with an invalid slice or an
    invalid number of slices is an error. *)
Theorem multi_slice_safe id o rank n starts counts bufsize s :
  v_objs (view s) !! id = Some o → dataset_ok type_fuel o → request_fits o rank n starts counts →
  ∃ r s', pack_dataset_multi_slice type_fuel debug id rank n starts counts bufsize s = Some (r, s') ∧
    view s' = view s ∧
    ((n < 1)%Z ∨ (HDFSTREAM_MAX_SLICES < n)%Z ∨
     (0 < rank)%Z ∧ ¬ slices_valid rank n starts counts (ds_dims o) → r ≠ 0%Z).
Proof.
  intros Hid Hok Hfits.
  destruct (multi_slice_runs id o rank n starts counts bufsize s Hid Hok Hfits) as (r & s' & E & Hv & H0).
  exists r, s'. split; [exact E|]. split; [exact Hv|]. intros Hbad ->.
  destruct (H0 eq_refl) as (Hn & Hvalid & _). destruct Hbad as [?|[?|[Hr Hb]]]; [lia|lia|]. by apply Hb, Hvalid.
Qed.

Lemma pack_object_runs loc lo name max_depth limit bufsize s :
  file_ok type_fuel → v_objs (view s) !! loc = Some lo →
  wp (pack_object type_fuel debug loc name max_depth limit bufsize)
    (writes (λ ob, ∃ o, follow lo name = Some o ∧
       object_described (recursion_fuel max_depth) max_depth limit 0 o ob) s) s.
Proof.
  intros Hfile Hloc. unfold pack_object.
  apply (wp_pack_object_recursive type_fuel debug (recursion_fuel max_depth) max_depth limit bufsize
    loc lo name 0); [exact Hfile|exact Hloc|done| |by intros].
  unfold depth_fuel, recursion_fuel. lia.
Qed.


(** C21: the output of [pack_object] decodes to a description of the
    object.  When it returns 0, the name denotes an object, and the bytes that
    were written decode, with nothing left over, to the description of that
    object: a group with its attributes and, down to the recursion limit, its
    members, a dataset with its type, shape, attributes and contents if they
    are small, or the marker of an unknown object. *)
Theorem pack_object_decodes loc lo name max_depth limit bufsize s s' :
  file_ok type_fuel → v_objs (view s) !! loc = Some lo →
  pack_object type_fuel debug loc name max_depth limit bufsize s = Some (0%Z, s') →
  ∃ o ob out, follow lo name = Some o ∧
    object_described (recursion_fuel max_depth) max_depth limit 0 o ob ∧
    pk_written (p_pk s') = pk_written (p_pk s) ++ out ∧
    ∀ rest, unpack (obj_depth ob) (out ++ rest) = Some (ob, rest).
Proof.
  intros Hfile Hloc E.
  destruct (wp_run _ _ _ _ _ (pack_object_runs loc lo name max_depth limit bufsize s Hfile Hloc) E) as [_ H0].
  destruct (H0 eq_refl) as (Hok & ob & (o & Ho & Hd) & He).
  pose proof (object_described_ok _ _ _ _ _ _ _ Hfile Hd) as Hob.
  destruct (emits_decodes _ _ _ Hob Hok He) as (out & Hw & Hu). by exists o, ob, out.
Qed.
(** C40: a request can make the program divide by zero.  The size of a row is
    computed modulo 2^64 from the counts of the request before those are
    compared with the dataset, and the number of rows that fit the buffer is the
    size of the buffer divided by it.  For every open dataset of every file,
    every number of dimensions and every counts whose product is not 0 but whose
    rows have a size that is 0 modulo 2^64 bytes (such as 2^62 columns of 4
    bytes), whatever the starts and the buffer: either a call of the library
    fails first, which is an error with everything released, or the request is
    planned, the divisor is 0 and the call has no result. *)
Theorem multi_slice_divides_by_zero id o rank n starts counts bufsize s :
  v_objs (view s) !! id = Some o → type_depth (ds_type o) < type_fuel → ((1 ≤ n)%Z → (rank ≤ len counts)%Z) →
  row_elements rank counts ≠ 0%Z →
  (∀ t, mem_type_of (ds_type o) t → u64 (row_elements rank counts * dtype_size t) = 0%Z) →
  ∃ plan s1, plan_request type_fuel id rank n counts s = Some (plan, s1) ∧
    match plan with
    | inl r => r = (-1)%Z ∧ view s1 = view s ∧ p_pk s1 = p_pk s ∧
        pack_dataset_multi_slice type_fuel debug id rank n starts counts bufsize s = Some (r, s1)
    | inr p => (0 < rp_nr_elements p)%Z ∧ row_size p = 0%Z ∧ rows_per_buffer bufsize p = None ∧
        pack_dataset_multi_slice type_fuel debug id rank n starts counts bufsize s = None
    end.
Proof.
  intros Hid Hdep Hc Hne Hz.
  assert (wp (plan_request type_fuel id rank n counts) (λ plan s1, match plan with
    | inl r => r = (-1)%Z ∧ view s1 = view s ∧ p_pk s1 = p_pk s
    | inr p => (0 < rp_nr_elements p)%Z ∧ row_size p = 0%Z end) s) as (plan & s1 & E & H).
  { apply (wp_plan_request type_fuel id o); [exact Hid|exact Hdep|exact Hc|done|].
    intros p s1 t T sp _ [Hmt _ _ _ _ _ _ _ Hsz Hnr _] _. unfold row_size. rewrite Hsz, Hnr.
    split; [|by apply Hz]. pose proof (u64_range (prod_list (take (Z.to_nat (rank - 1)) (tail counts)))).
    unfold row_elements, is_u64 in *. lia. }
  exists plan, s1. split; [exact E|]. unfold pack_dataset_multi_slice, pack_dataset_multi_slice_with_max_size, bind.
  rewrite E. destruct plan as [r|p]; [by destruct H as (-> & ? & ?)|]. destruct H as [Hn Hr].
  pose proof (no_rows bufsize p Hn Hr) as Hno. split; [done|]. split; [done|]. split; [done|].
  unfold read_request, bind, lift. by rewrite Hno.
Qed.
End claims.

(** ** A store with a file that is open *)

Import H5File.
Module PackDemo.
(** The dataset and the group, as objects of the library. *)
Definition data : hobj := Data.
Definition root : hobj := Root.
Definition objs : gmap N cobj := {[ 0%N := Root; 1%N := Data ]}.
Definition store : pstore := PStore (State ∅ objs ∅ 0 ∅) (Collector [] 100000 false) ∅.
Definition starts : list Z := [0; 0; 5; 0]%Z.
Definition counts : list Z := [2; 3; 4; 3]%Z.

(** The store after a call. *)
Definition after (o : option (Z * pstore)) : pstore := match o with Some (_, s) => s | None => store end.
Definition slices (bufsize : Z) : option (Z * pstore) :=
  pack_dataset_multi_slice 5 true 1 2 2 starts counts bufsize store.
Definition object : option (Z * pstore) := pack_object 5 true 0 (lit "/") 1 1000 64 store.

(** Whether a call returned 0. *)
Definition ran (o : option (Z * pstore)) : bool := match o with Some (0%Z, _) => true | _ => false end.
Lemma ran_after o : ran o = true → o = Some (0%Z, after o).
Proof. by destruct o as [[[] ?]|]. Qed.

Lemma mem_int32 t : mem_type_of int32 t → t = int32.
Proof. by inversion 1. Qed.

(** A planned request, with what it computed. *)
Definition plans (fuel : nat) (id rank n : Z) (counts : list Z) (s : pstore) : bool :=
  match plan_request fuel id rank n counts s with
  | Some (inr p, _) => (rp_nr_elements p =? 2 ^ 62)%Z && (rp_element_size p =? 4)%Z
  | _ => false
  end.
Lemma planned_right fuel id rank n counts s : plans fuel id rank n counts s = true →
  ∃ p s1, plan_request fuel id rank n counts s = Some (inr p, s1) ∧
    rp_nr_elements p = (2 ^ 62)%Z ∧ rp_element_size p = 4%Z.
Proof.
  unfold plans. destruct (plan_request fuel id rank n counts s) as [[[?|p] s1]|]; try done.
  intros [?%Z.eqb_eq ?%Z.eqb_eq]%andb_prop. eauto.
Qed.

Lemma data_ok : dataset_ok 5 data.
Proof.
  split; [by vm_compute|repeat constructor; done|simpl; lia| |].
  - intros t ->%mem_int32. vm_compute. done.
  - by intros t p ->%mem_int32.
Qed.
Lemma fits : request_fits data 2 2 starts counts.
Proof.
  split; [done| | |].
  - intros _ _. split; [done|done|simpl; lia|]. repeat (split; [repeat constructor; done|]). repeat constructor; done.
  - intros i st ct Hs Hc.
    assert (Forall (λ x, x ≤ 5)%Z starts) as Hb by (repeat constructor; lia).
    assert (Forall (λ x, x ≤ 4)%Z counts) as Hb' by (repeat constructor; lia).
    pose proof (Forall_lookup_1 _ _ _ _ Hb Hs). pose proof (Forall_lookup_1 _ _ _ _ Hb' Hc). simpl in *. lia.
  - intros t ->%mem_int32. vm_compute. done.
Qed.
Lemma file_is_ok : file_ok 5.
Proof.
  assert (Forall (attr_ok 5) [count_attr]) as Hc.
  { apply Forall_singleton. repeat (split; [by repeat constructor|]). intros t ->%mem_int32.
    split; [by vm_compute|]. split; [done|repeat constructor]. }
  split; [lia| | |].
  - intros [] _; (split; [first [exact Hc|apply Forall_nil_2]|by vm_compute]).
  - intros [] Ho; try done. exact data_ok.
  - intros [] Ho; try done. split; [by vm_compute|].
    repeat (apply Forall_cons_2; [split; [by vm_compute|]; intros target; by intros [= <-]|]). apply Forall_nil_2.
Qed.
End PackDemo.

Lemma multi_slice_decodes_witness :
  ∃ t ob out, mem_type_of (ds_type PackDemo.data) t ∧
    contents_obj t MSGPACK_MAX_SIZE (request_shape 2 2 PackDemo.starts PackDemo.counts)
      (ds_elem PackDemo.data t <$> request_points 2 2 PackDemo.starts PackDemo.counts) = Some ob ∧
    pk_written (p_pk (PackDemo.after (PackDemo.slices 24))) = pk_written (p_pk PackDemo.store) ++ out ∧
    (∀ rest, unpack (obj_depth ob) (out ++ rest) = Some (ob, rest)) ∧
    (has_vlen t = false → ∃ ty k bs blocks,
      ob = OMap [(lit "nd", OBool true); (lit "type", ty); (lit "kind", OStr k);
                 (lit "shape", OArray (OInt <$> request_shape 2 2 PackDemo.starts PackDemo.counts));
                 (lit "nbytes", OInt (len bs)); (lit "data", OArray (OBin <$> blocks))] ∧
      numpy_obj t None = Some ty ∧ numpy_kind t = Some k ∧
      raw_bytes (ds_elem PackDemo.data t <$> request_points 2 2 PackDemo.starts PackDemo.counts) = Some bs ∧
      concat blocks = bs ∧ Forall (λ b, 0 < len b ≤ MSGPACK_MAX_SIZE)%Z blocks).
Proof.
  apply (multi_slice_decodes 5 true 1 PackDemo.data 2 2 PackDemo.starts PackDemo.counts 24 PackDemo.store);
    [by_vm|exact PackDemo.data_ok|exact PackDemo.fits|apply PackDemo.ran_after; by_vm].
Defined.

Lemma multi_slice_buffer_independent_witness :
  pk_written (p_pk (PackDemo.after (PackDemo.slices 24))) =
  pk_written (p_pk (PackDemo.after (PackDemo.slices 1000))).
Proof.
  apply (multi_slice_buffer_independent 5 true 1 PackDemo.data 2 2 PackDemo.starts PackDemo.counts 24 1000 PackDemo.store);
    [by_vm|exact PackDemo.data_ok|exact PackDemo.fits|reflexivity|apply PackDemo.ran_after; by_vm..].
Defined.

Lemma multi_slice_safe_witness :
  ∃ r s', pack_dataset_multi_slice 5 true 1 2 2 PackDemo.starts PackDemo.counts 24 PackDemo.store = Some (r, s') ∧
    view s' = view PackDemo.store ∧
    ((2 < 1)%Z ∨ (HDFSTREAM_MAX_SLICES < 2)%Z ∨
     (0 < 2)%Z ∧ ¬ slices_valid 2 2 PackDemo.starts PackDemo.counts (ds_dims PackDemo.data) → r ≠ 0%Z).
Proof.
  apply (multi_slice_safe 5 true 1 PackDemo.data 2 2 PackDemo.starts PackDemo.counts 24 PackDemo.store);
    [by_vm|exact PackDemo.data_ok|exact PackDemo.fits].
Defined.


Lemma pack_object_decodes_witness :
  ∃ o ob out, follow PackDemo.root (lit "/") = Some o ∧
    object_described (recursion_fuel 1) 1 1000 0 o ob ∧
    pk_written (p_pk (PackDemo.after PackDemo.object)) = pk_written (p_pk PackDemo.store) ++ out ∧
    ∀ rest, unpack (obj_depth ob) (out ++ rest) = Some (ob, rest).
Proof.
  apply (pack_object_decodes 5 true 0 PackDemo.root (lit "/") 1 1000 64 PackDemo.store);
    [exact PackDemo.file_is_ok|by_vm|apply PackDemo.ran_after; by_vm].
Defined.

Lemma multi_slice_divides_by_zero_witness :
  ∃ p s1, plan_request 5 1 2 1 [0; 2 ^ 62]%Z PackDemo.store = Some (inr p, s1) ∧
    rp_nr_elements p = (2 ^ 62)%Z ∧ rp_element_size p = 4%Z ∧ row_size p = 0%Z ∧ rows_per_buffer 1024 p = None ∧
    pack_dataset_multi_slice 5 true 1 2 1 [0; 0]%Z [0; 2 ^ 62]%Z 1024 PackDemo.store = None.
Proof.
  destruct (multi_slice_divides_by_zero 5 true 1 PackDemo.data 2 1 [0; 0]%Z [0; 2 ^ 62]%Z 1024 PackDemo.store)
    as (plan & s1 & E & H);
    [by_vm|simpl; lia|unfold len; simpl; lia|by vm_compute|by intros t ->%PackDemo.mem_int32; vm_compute|].
  destruct (PackDemo.planned_right 5 1 2 1 [0; 2 ^ 62]%Z PackDemo.store) as (p & s2 & E2 & Hn & Hs); [by_vm|].
  rewrite E in E2. injection E2 as -> ->. destruct H as (_ & Hz & Hr & Hcall). exists p, s2. auto 10.
Defined.
