(* ===== verification/Pipe.v ===== *)
(** * Pipes between the library and a reader process

    The functions of src/src/util/worker_process.c that send and receive
    messages.  A process sees one end of the two pipes: what arrives on one,
    what it has sent on the other, and how the operating system answers its
    calls.  [read] and [write] may move fewer bytes than asked for, may be
    interrupted, and may fail. *)
From Stdlib Require Import Strings.Byte Strings.String.
From stdpp Require Import base tactics numbers list.
From S2P Require Import Prelude Bytes.

(** ** System calls *)

Inductive errno := EINTR | EPIPE | EOTHER.
(** [Moves n]: up to [n] bytes are moved, fewer if there are not as many. *)
Inductive answer := Moves (n : positive) | Errno (e : errno).
Inductive poll_answer := PollReady | PollTimeout | PollErrno (e : errno).

(** The answers to the next calls; after them every call moves all it can, and
    [poll] finds data.  SIGPIPE may be blocked, and pending. *)
Record endpoint := Endpoint {
  ep_answers : list answer;
  ep_polls : list poll_answer;
  ep_in : list byte;
  ep_out : list byte;
  ep_blocked : bool;
  ep_pending : bool;
}.

Definition set_answers a e := Endpoint a (ep_polls e) (ep_in e) (ep_out e) (ep_blocked e) (ep_pending e).
Definition set_polls p e := Endpoint (ep_answers e) p (ep_in e) (ep_out e) (ep_blocked e) (ep_pending e).
Definition set_in i e := Endpoint (ep_answers e) (ep_polls e) i (ep_out e) (ep_blocked e) (ep_pending e).
Definition set_out o e := Endpoint (ep_answers e) (ep_polls e) (ep_in e) o (ep_blocked e) (ep_pending e).
Definition set_blocked b e := Endpoint (ep_answers e) (ep_polls e) (ep_in e) (ep_out e) b (ep_pending e).
Definition set_pending b e := Endpoint (ep_answers e) (ep_polls e) (ep_in e) (ep_out e) (ep_blocked e) b.

Definition next_answer : M endpoint (option answer) := λ e,
  match ep_answers e with
  | [] => Some (None, e)
  | a :: l => Some (Some a, set_answers l e)
  end.
Definition room (a : option answer) (n : nat) : nat + errno :=
  match a with
  | None => inl n
  | Some (Moves k) => inl (Nat.min (Pos.to_nat k) n)
  | Some (Errno e) => inr e
  end.

(** The number of bytes written, or an error.  When nobody can read the pipe
    SIGPIPE is sent, which ends the process unless it is blocked. *)
Definition sys_write (buf : list byte) : M endpoint (Z + errno) :=
  let! a := next_answer in
  match room a (length buf) with
  | inl k => do! modify (λ e, set_out (ep_out e ++ take k buf) e) in ret (inl (Z.of_nat k))
  | inr EPIPE =>
      let! blocked := gets ep_blocked in
      do! assertM blocked in
      do! modify (set_pending true) in ret (inr EPIPE)
  | inr e => ret (inr e)
  end.
(** No bytes are read at the end of file, when the other process has ended. *)
Definition sys_read (nbyte : Z) : M endpoint (list byte + errno) :=
  let! a := next_answer in
  let! i := gets ep_in in
  match room a (Nat.min (Z.to_nat nbyte) (length i)) with
  | inl k => do! modify (set_in (drop k i)) in ret (inl (take k i))
  | inr e => ret (inr e)
  end.
Definition sys_poll : M endpoint poll_answer := λ e,
  match ep_polls e with
  | [] => Some (PollReady, e)
  | a :: l => Some (a, set_polls l e)
  end.

(** ** Reading and writing all bytes *)

(** Enough iterations: each one uses an answer, or is the last that moves bytes. *)
Definition io_fuel : M endpoint nat := gets (λ e, S (S (length (ep_answers e)))).

Fixpoint do_write_loop (fuel : nat) (ptr : list byte) (nbytes : Z) : M endpoint Z :=
  match fuel with
  | 0 => ub
  | S fuel =>
    if (0 <? len ptr)%Z then
      let! r := sys_write ptr in
      match r with
      | inr EINTR => do_write_loop fuel ptr nbytes
      | inr EPIPE => ret (-2)%Z
      | inr _ => ret (-1)%Z
      | inl nwritten => do_write_loop fuel (drop (Z.to_nat nwritten) ptr) nbytes
      end
    else ret nbytes
  end.

(** "Temporarily block SIGPIPE so we don't die if the pipe is broken" around
    the loop of [do_write] and [do_read]. *)
Definition with_sigpipe_blocked {A} (block_sigpipe : bool) (m : M endpoint A) : M endpoint A :=
  let! old_set := gets ep_blocked in
  do! when block_sigpipe (modify (set_blocked true)) in
  let! r := m in
  do! when block_sigpipe (do! modify (set_pending false) in modify (set_blocked old_set)) in
  ret r.

Definition do_write (buf : list byte) (block_sigpipe : bool) : M endpoint Z :=
  with_sigpipe_blocked block_sigpipe
    (let! fuel := io_fuel in let! nbytes := do_write_loop fuel buf (len buf) in ret (s64 nbytes)).

(** [got] is what is in the buffer. *)
Fixpoint do_read_loop (fuel : nat) (got : list byte) (nleft nbytes : Z) : M endpoint (Z * list byte) :=
  match fuel with
  | 0 => ub
  | S fuel =>
    if (0 <? nleft)%Z then
      let! r := sys_read nleft in
      match r with
      | inl [] => ret ((-3)%Z, got)
      | inr EINTR => do_read_loop fuel got nleft nbytes
      | inr EPIPE => ret ((-2)%Z, got)
      | inr _ => ret ((-1)%Z, got)
      | inl bs => do_read_loop fuel (got ++ bs) (nleft - len bs) nbytes
      end
    else ret (nbytes, got)
  end.
Definition do_read (nbytes : Z) (block_sigpipe : bool) : M endpoint (Z * list byte) :=
  with_sigpipe_blocked block_sigpipe
    (let! fuel := io_fuel in let! r := do_read_loop fuel [] nbytes nbytes in ret (s64 r.1, r.2)).

(** 0 if all [n] bytes were moved; [n] is a [size_t]. *)
Definition io_result (nr n : Z) : Z := if (nr <? 0)%Z || negb (u64 nr =? n)%Z then (-1)%Z else 0%Z.

(** ** The reader process *)

Definition worker_send (data : list byte) : M endpoint Z :=
  let! nr := do_write data false in ret (io_result nr (len data)).
(** The result and what is in the buffer. *)
Definition worker_recv (n : Z) : M endpoint (Z * list byte) :=
  let! r := do_read n false in ret (io_result r.1 n, r.2).
Definition worker_init : M endpoint () := let! _ := worker_send (int_bytes 1) in ret ().

Fixpoint poll_loop (fuel : nat) : M endpoint poll_answer :=
  match fuel with
  | 0 => ub
  | S fuel => let! result := sys_poll in
              match result with PollErrno EINTR => poll_loop fuel | _ => ret result end
  end.
Definition worker_recv_with_timeout (n : Z) : M endpoint (Z * list byte) :=
  let! fuel := gets (λ e, S (length (ep_polls e))) in
  let! result := poll_loop fuel in
  match result with
  | PollErrno _ => ret ((-1)%Z, [])
  | PollTimeout => ret (1%Z, [])
  | PollReady => worker_recv n
  end.

(** ** The library *)

(** The fields of [struct worker_process] that matter here; [lk_waited]: the
    process was waited for. *)
Record link := Link { lk_end : endpoint; lk_is_dead : bool; lk_waited : bool }.
Definition on_end {A} (m : M endpoint A) : M link A :=
  zoom lk_end (λ e l, Link e (lk_is_dead l) (lk_waited l)) m.
(** [worker->is_dead = 1; waitpid(worker->pid, &worker->exit_status, 0);] *)
Definition mark_dead : M link () := modify (λ l, Link (lk_end l) true true).

Definition worker_process_send (data : list byte) : M link Z :=
  let! is_dead := gets lk_is_dead in
  if is_dead then ret (-1)%Z else
  let! nr := on_end (do_write data true) in
  do! when (nr =? -2)%Z mark_dead in
  ret (io_result nr (len data)).
Definition worker_process_recv (n : Z) : M link (Z * list byte) :=
  let! is_dead := gets lk_is_dead in
  if is_dead then ret ((-1)%Z, []) else
  let! r := on_end (do_read n true) in
  do! when ((r.1 =? -2) || (r.1 =? -3))%Z mark_dead in
  ret (io_result r.1 n, r.2).
Definition worker_default_init : M link Z :=
  let! r := worker_process_recv sizeof_int in
  ret (if (r.1 <? 0)%Z then -1 else 0)%Z.

(** ** What the functions do *)

(** No error other than an interrupted call. *)
Definition answer_ok (a : answer) : Prop := match a with Errno EPIPE | Errno EOTHER => False | _ => True end.
Definition poll_ok (a : poll_answer) : Prop := match a with PollErrno EPIPE | PollErrno EOTHER => False | _ => True end.
Record healthy (e : endpoint) : Prop := {
  he_answers : Forall answer_ok (ep_answers e);
  he_polls : Forall poll_ok (ep_polls e);
}.
(** Writing does not end the process. *)
Definition no_sigpipe (e : endpoint) : Prop := ep_blocked e = true ∨ Forall answer_ok (ep_answers e).

(** What a write may do: it sends all the bytes, or some of them and then fails. *)
Record wrote (bs : list byte) (n r : Z) (e e' : endpoint) : Prop := {
  wr_out : ∃ sent left, bs = sent ++ left ∧ ep_out e' = ep_out e ++ sent ∧
    (r = n ∧ left = [] ∨ r = (-2)%Z ∨ r = (-1)%Z);
  wr_in : ep_in e' = ep_in e;
  wr_polls : ep_polls e' = ep_polls e;
  wr_blocked : ep_blocked e' = ep_blocked e;
  wr_pending : ep_blocked e = false → ep_pending e' = ep_pending e;
  wr_answers : ∃ l, ep_answers e = l ++ ep_answers e';
  wr_healthy : Forall answer_ok (ep_answers e) → r = n;
}.

Lemma suffix_ok l (a : list answer) : Forall answer_ok (l ++ a) → Forall answer_ok a.
Proof. rewrite Forall_app. tauto. Qed.

Lemma wrote_nil n e : wrote [] n n e e.
Proof. split; try done; [exists [], []; rewrite (app_nil_r (ep_out e)); by auto|by exists []]. Qed.

(** One call that moved [k] bytes, or was interrupted. *)
Lemma wrote_step bs k n r e e1 e' a l :
  ep_answers e = a ++ l → e1 = set_out (ep_out e ++ take k bs) (set_answers l e) →
  wrote (drop k bs) n r e1 e' → wrote bs n r e e'.
Proof.
  intros Ha -> [(sent & left & E & Ho & Hr) Hi Hp Hb Hq (l' & Hl) Hh]. simpl in *. split; [|done..| |].
  - exists (take k bs ++ sent), left. split; [by rewrite <- app_assoc, <- E, take_drop|].
    split; [by rewrite app_assoc|done].
  - exists (a ++ l'). by rewrite Ha, Hl, app_assoc.
  - rewrite Ha. by intros ?%suffix_ok%Hh.
Qed.

Lemma wrote_fail bs n r e e' a l :
  ep_answers e = a :: l → ¬ answer_ok a → r = (-2)%Z ∨ r = (-1)%Z →
  ep_out e' = ep_out e → ep_in e' = ep_in e → ep_polls e' = ep_polls e → ep_blocked e' = ep_blocked e →
  (ep_blocked e = false → ep_pending e' = ep_pending e) → ep_answers e' = l → wrote bs n r e e'.
Proof.
  intros Ha Hok Hr Ho Hi Hp Hb Hq Hl. split; try done.
  - exists [], bs. rewrite Ho, app_nil_r. destruct Hr; auto.
  - exists [a]. by rewrite Ha, Hl.
  - rewrite Ha. by intros [? _]%Forall_cons.
Qed.

Lemma wp_do_write_loop fuel bs n e :
  no_sigpipe e → length (ep_answers e) + 2 ≤ fuel →
  wp (do_write_loop fuel bs n) (λ r e', wrote bs n r e e') e.
Proof.
  revert bs e. induction fuel as [|fuel IH]; intros bs e Hs Hf; [lia|]. simpl.
  destruct (Z.ltb_spec 0 (len bs)) as [Hb|Hb]; [|].
  2: { apply wp_ret. destruct bs; [apply wrote_nil|unfold len in Hb; simpl in Hb; lia]. }
  unfold sys_write, next_answer. unfold wp, bind. destruct (ep_answers e) as [|a l] eqn:Ea; simpl.
  - unfold modify, ret. simpl. destruct fuel as [|fuel]; [simpl in *; lia|].
    rewrite Nat2Z.id, drop_all, firstn_all. simpl. eexists _, _. split; [done|].
    eapply (wrote_step bs (length bs) _ _ e _ _ [] []); [done| |rewrite drop_all; apply wrote_nil].
    rewrite firstn_all. by destruct e; simpl in *; subst.
  - simpl in Hf. assert (Hs' : ∀ x, no_sigpipe (set_out x (set_answers l e))).
    { intros x. destruct Hs as [Hs|Hs]; [by left|right]. rewrite Ea in Hs. by apply Forall_cons in Hs as [_ ?]. }
    destruct a as [k|[]]; unfold modify, ret; simpl.
    + rewrite Nat2Z.id. edestruct (IH (drop (Pos.to_nat k `min` length bs) bs)) as (r & e' & -> & Hw); [apply Hs'|simpl; lia|].
      eexists _, _. split; [done|]. by eapply (wrote_step _ _ _ _ _ _ _ [_] l).
    + edestruct (IH bs (set_answers l e)) as (r & e' & -> & Hw); [|simpl; lia|].
      { specialize (Hs' (ep_out e)). by destruct e. }
      eexists _, _. split; [done|]. eapply (wrote_step bs 0 _ _ _ _ _ [_] l); [exact Ea|done|].
      simpl. rewrite take_0, app_nil_r. by destruct e.
    + unfold gets, assertM. simpl. destruct (ep_blocked e) eqn:Eb; simpl.
      * eexists _, _. split; [done|]. eapply wrote_fail; simpl; eauto. congruence.
      * destruct Hs as [Hs|Hs]; [congruence|]. rewrite Ea in Hs. by apply Forall_cons in Hs as [[] _].
    + eexists _, _. split; [done|]. eapply wrote_fail; simpl; eauto.
Qed.

(** What a read of [nleft] bytes may do: it gets them, or some of them and then
    fails, with -3 at the end of file. *)
Record was_read (got : list byte) (nleft n : Z) (r : Z * list byte) (e e' : endpoint) : Prop := {
  rd_in : ∃ bs, r.2 = got ++ bs ∧ ep_in e = bs ++ ep_in e' ∧
    (r.1 = n ∧ len bs = nleft ∨ (len bs < nleft)%Z ∧
     (r.1 = (-3)%Z ∧ ep_in e' = [] ∨ r.1 = (-2)%Z ∨ r.1 = (-1)%Z));
  rd_out : ep_out e' = ep_out e;
  rd_polls : ep_polls e' = ep_polls e;
  rd_blocked : ep_blocked e' = ep_blocked e;
  rd_pending : ep_pending e' = ep_pending e;
  rd_answers : ∃ l, ep_answers e = l ++ ep_answers e';
  rd_healthy : Forall answer_ok (ep_answers e) → (nleft ≤ len (ep_in e))%Z → r.1 = n;
}.

Lemma was_read_nil got n e : was_read got 0 n (n, got) e e.
Proof. split; try done; [exists []; rewrite app_nil_r; by auto|by exists []]. Qed.

Lemma was_read_step got bs nleft n r e e1 e' a l :
  ep_answers e = a ++ l → e1 = set_in (drop (length bs) (ep_in e)) (set_answers l e) →
  bs `prefix_of` ep_in e →
  was_read (got ++ bs) (nleft - len bs) n r e1 e' → was_read got nleft n r e e'.
Proof.
  intros Ha -> [i Hi] [(bs' & E & E' & Hr) Ho Hp Hb Hq (l' & Hl) Hh]. simpl in *.
  rewrite Hi, drop_app_length in E', Hh. split; [|done..| |].
  - exists (bs ++ bs'). split; [by rewrite app_assoc|]. split; [by rewrite Hi, E', <- app_assoc|].
    rewrite len_app. destruct Hr as [[? ?]|[? ?]]; [left; split; [done|lia]|right; split; [lia|done]].
  - exists (a ++ l'). by rewrite Ha, Hl, app_assoc.
  - rewrite Ha, Hi, len_app. intros Hok%suffix_ok ?. apply Hh; [done|lia].
Qed.

Lemma was_read_fail got nleft n e e' a l z :
  ep_answers e = a ++ l → (0 < nleft)%Z →
  (z = (-3)%Z ∧ ep_in e = [] ∨ (z = (-2)%Z ∨ z = (-1)%Z) ∧ ¬ Forall answer_ok a) →
  e' = set_answers l e → was_read got nleft n (z, got) e e'.
Proof.
  intros Ha Hn Hz ->. split; simpl; [|done..| |].
  - exists []. rewrite app_nil_r. split_and!; [done|done|]. right. unfold len. simpl. split; [lia|].
    destruct Hz as [?|[? _]]; auto.
  - by exists a.
  - rewrite Ha, Forall_app. intros [? _] Hl. destruct Hz as [[_ E]|[_ ?]]; [|done].
    rewrite E in Hl. unfold len in Hl. simpl in Hl. lia.
Qed.

Lemma wp_do_read_loop fuel got nleft n e :
  (0 ≤ nleft)%Z → length (ep_answers e) + 1 ≤ fuel →
  (nleft = 0)%Z ∨ ep_in e = [] ∨ length (ep_answers e) + 2 ≤ fuel →
  wp (do_read_loop fuel got nleft n) (λ r e', was_read got nleft n r e e') e.
Proof.
  revert got nleft e. induction fuel as [|fuel IH]; intros got nleft e H0 Hf Hf'; [lia|]. simpl.
  destruct (Z.ltb_spec 0 nleft) as [Hb|Hb].
  2: { assert (nleft = 0)%Z as -> by lia. apply wp_ret, was_read_nil. }
  unfold sys_read, next_answer, wp, bind. destruct (ep_answers e) as [|a l] eqn:Ea; simpl.
  - unfold gets, modify, ret. simpl. set (k := Z.to_nat nleft `min` length (ep_in e)).
    destruct (take k (ep_in e)) as [|b bs] eqn:Ek.
    + assert (ep_in e = []) as Ei.
      { apply (f_equal length) in Ek. rewrite length_take in Ek. unfold k in *. simpl in *.
        destruct (ep_in e); [done|simpl in *; lia]. }
      eexists _, _. split; [done|]. eapply (was_read_fail _ _ _ _ _ [] []); [done|done|by left|].
      rewrite Ei, drop_nil. destruct e; simpl in *; by subst.
    + rewrite <- Ek. assert (length (take k (ep_in e)) = k) as Hk by (rewrite length_take; unfold k; lia).
      edestruct (IH (got ++ take k (ep_in e)) (nleft - len (take k (ep_in e)))%Z (set_in (drop k (ep_in e)) e))
        as (r & e' & Hrun & Hw); [unfold len; rewrite Hk; unfold k; lia|simpl; rewrite Ea; simpl; destruct Hf' as [?|[Hi|?]]; simpl in *; [lia|by rewrite Hi, take_nil in Ek|lia]|..].
      { simpl. destruct (decide (nleft ≤ len (ep_in e))%Z); [left|right; left].
        - unfold len in *. rewrite Hk. unfold k. lia.
        - apply drop_ge. unfold k, len in *. lia. }
      exists r, e'. split; [rewrite <- Hrun; f_equal; by destruct e|].
      eapply (was_read_step _ (take k (ep_in e)) _ _ _ _ _ _ [] []); [done| |apply prefix_take|exact Hw].
      rewrite Hk. destruct e; simpl in *; by subst.
  - simpl in Hf, Hf'. destruct a as [p|[]]; unfold gets, modify, ret; simpl.
    + set (k := Pos.to_nat p `min` (Z.to_nat nleft `min` length (ep_in e))).
      destruct (take k (ep_in e)) as [|b bs] eqn:Ek.
      * assert (ep_in e = []) as Ei.
        { apply (f_equal length) in Ek. rewrite length_take in Ek. unfold k in *. simpl in *.
          destruct (ep_in e); [done|simpl in *; lia]. }
        eexists _, _. split; [done|]. eapply (was_read_fail _ _ _ _ _ [_] l); [exact Ea|done|by left|].
        rewrite Ei, drop_nil. destruct e; simpl in *; by subst.
      * rewrite <- Ek. assert (length (take k (ep_in e)) = k) as Hk by (rewrite length_take; unfold k; lia).
        edestruct (IH (got ++ take k (ep_in e)) (nleft - len (take k (ep_in e)))%Z
          (set_in (drop k (ep_in e)) (set_answers l e))) as (r & e' & Hrun & Hw);
          [unfold len; rewrite Hk; unfold k; lia|simpl; lia|simpl; right; right; destruct Hf' as [?|[Hi|?]]; [lia|by rewrite Hi, take_nil in Ek|lia]|].
        exists r, e'. split; [exact Hrun|].
        eapply (was_read_step _ (take k (ep_in e)) _ _ _ _ _ _ [_] l); [exact Ea| |apply prefix_take|exact Hw].
        by rewrite Hk.
    + edestruct (IH got nleft (set_answers l e)) as (r & e' & -> & Hw); [done|simpl; lia|simpl; destruct Hf' as [?|[?|?]]; auto; right; right; lia|].
      eexists _, _. split; [done|]. eapply (was_read_step got [] _ _ _ _ _ _ [_] l); [exact Ea|done|apply prefix_nil|].
      rewrite app_nil_r. unfold len. simpl. rewrite Z.sub_0_r, drop_0. by destruct e.
    + eexists _, _. split; [done|]. eapply (was_read_fail _ _ _ _ _ [_] l); [exact Ea|done| |done].
      right. split; [by auto|]. by intros [? _]%Forall_cons.
    + eexists _, _. split; [done|]. eapply (was_read_fail _ _ _ _ _ [_] l); [exact Ea|done| |done].
      right. split; [by auto|]. by intros [? _]%Forall_cons.
Qed.

#[local] Arguments do_write_loop : simpl never.
#[local] Arguments do_read_loop : simpl never.

(** ** Messages *)

(** The result of a message: everything was sent, or a part and then an error. *)
Record sent (bs : list byte) (r : Z) (e e' : endpoint) : Prop := {
  se_out : ∃ part, part `prefix_of` bs ∧ ep_out e' = ep_out e ++ part ∧ (r = 0%Z ∧ part = bs ∨ r = (-1)%Z);
  se_in : ep_in e' = ep_in e;
  se_polls : ep_polls e' = ep_polls e;
  se_blocked : ep_blocked e' = ep_blocked e;
  se_pending : ep_blocked e = false → ep_pending e' = ep_pending e;
  se_answers : ∃ l, ep_answers e = l ++ ep_answers e';
  se_healthy : Forall answer_ok (ep_answers e) → r = 0%Z;
}.
Record received (n : Z) (r : Z * list byte) (e e' : endpoint) : Prop := {
  re_in : ep_in e = r.2 ++ ep_in e' ∧ (r.1 = 0%Z ∧ len r.2 = n ∨ r.1 = (-1)%Z ∧ (len r.2 < n)%Z);
  re_out : ep_out e' = ep_out e;
  re_polls : ep_polls e' = ep_polls e;
  re_blocked : ep_blocked e' = ep_blocked e;
  re_pending : ep_blocked e = false → ep_pending e' = ep_pending e;
  re_answers : ∃ l, ep_answers e = l ++ ep_answers e';
  re_healthy : Forall answer_ok (ep_answers e) → (n ≤ len (ep_in e))%Z → r.1 = 0%Z;
}.
(** The sizes of objects are below [2^63]. *)
Definition is_size (n : Z) : Prop := (0 ≤ n < 2 ^ 63)%Z.

Lemma s64_small z : (-2 ^ 63 ≤ z < 2 ^ 63)%Z → s64 z = z.
Proof. unfold s64. intros. rewrite Z.mod_small; lia. Qed.
Lemma io_result_ok n : is_size n → io_result n n = 0%Z.
Proof.
  unfold io_result, is_size. intros. rewrite u64_small by (unfold is_u64; lia). rewrite Z.eqb_refl.
  by replace (n <? 0)%Z with false by lia.
Qed.
Lemma io_result_neg z n : (z < 0)%Z → io_result z n = (-1)%Z.
Proof. unfold io_result. intros. by replace (z <? 0)%Z with true by lia. Qed.

Lemma wrote_sent bs r e e' :
  is_size (len bs) → wrote bs (len bs) r e e' → sent bs (io_result (s64 r) (len bs)) e e'.
Proof.
  intros Hn [(p & left & -> & Ho & Hr) Hi Hp Hb Hq Ha Hh]. split; try done.
  - exists p. split; [by exists left|]. split; [done|].
    destruct Hr as [[-> ->]|[-> | ->]]; [left|by right..].
    rewrite app_nil_r in *. rewrite s64_small by (unfold is_size in *; lia). split; [by apply io_result_ok|done].
  - intros ->%Hh. rewrite s64_small by (unfold is_size in *; lia). by apply io_result_ok.
Qed.
Lemma was_read_received n r e e' :
  is_size n → was_read [] n n r e e' → received n (io_result (s64 r.1) n, r.2) e e'.
Proof.
  intros Hn [(bs & -> & Hi & Hr) Ho Hp Hb Hq Ha Hh]. split; try done; simpl in *.
  - split; [done|]. destruct Hr as [[-> ?]|[? Hr]]; [left|right]; (split; [|done]).
    + rewrite s64_small by (unfold is_size in *; lia). by apply io_result_ok.
    + by destruct Hr as [[-> _]|[-> | ->]].
  - intros Hok ->%Hh; [|done]. rewrite s64_small by (unfold is_size in *; lia). by apply io_result_ok.
Qed.

Lemma wp_do_write_worker bs e :
  no_sigpipe e → wp (do_write bs false) (λ r e', ∃ r', r = s64 r' ∧ wrote bs (len bs) r' e e') e.
Proof.
  intros Hs. unfold do_write, with_sigpipe_blocked, io_fuel. wp_steps.
  eapply wp_mono; [apply wp_do_write_loop; [done|lia]|]. intros r e' Hw. simpl. wp_steps. eauto.
Qed.
Lemma wp_do_read_worker n e :
  (0 ≤ n)%Z → wp (do_read n false) (λ r e', ∃ r', r = (s64 r'.1, r'.2) ∧ was_read [] n n r' e e') e.
Proof.
  intros Hs. unfold do_read, with_sigpipe_blocked, io_fuel. wp_steps.
  eapply wp_mono; [apply wp_do_read_loop; [done|lia|right; right; lia]|]. intros r e' Hw. simpl. wp_steps. eauto.
Qed.

(** With SIGPIPE blocked no answer ends the process, the signal is consumed and
    the mask is restored. *)
Lemma wp_do_write_library bs e :
  ep_pending e = false →
  wp (do_write bs true) (λ r e', ep_pending e' = false ∧ ∃ r', r = s64 r' ∧ wrote bs (len bs) r' e e') e.
Proof.
  intros Hq. unfold do_write, with_sigpipe_blocked, io_fuel. wp_steps.
  eapply wp_mono; [apply wp_do_write_loop; [by left|simpl; lia]|].
  intros r e' [Ho Hi Hp Hb Hq' Ha Hh]. simpl in *. wp_steps. split; [done|].
  exists r. split; [done|]. by split.
Qed.
Lemma wp_do_read_library n e :
  (0 ≤ n)%Z → ep_pending e = false →
  wp (do_read n true) (λ r e', ep_pending e' = false ∧ ∃ r', r = (s64 r'.1, r'.2) ∧ was_read [] n n r' e e') e.
Proof.
  intros Hn Hq. unfold do_read, with_sigpipe_blocked, io_fuel. wp_steps.
  eapply wp_mono; [apply wp_do_read_loop; [done|simpl; lia|right; right; simpl; lia]|].
  intros r e' [Ho Hi Hp Hb Hq' Ha Hh]. simpl in *. wp_steps. split; [done|].
  exists r. split; [done|]. by split.
Qed.

Lemma wp_worker_send bs e (Q : Z → endpoint → Prop) :
  no_sigpipe e → is_size (len bs) → (∀ r e', sent bs r e e' → Q r e') → wp (worker_send bs) Q e.
Proof.
  intros Hs Hn HQ. unfold worker_send. wp_step. eapply wp_mono; [by apply wp_do_write_worker|].
  intros r e' (r' & -> & Hw). wp_steps. by apply HQ, wrote_sent.
Qed.
Lemma wp_worker_recv n e (Q : Z * list byte → endpoint → Prop) :
  is_size n → (∀ r e', received n r e e' → Q r e') → wp (worker_recv n) Q e.
Proof.
  intros Hn HQ. unfold worker_recv. wp_step. eapply wp_mono; [apply wp_do_read_worker, Hn|].
  intros r e' (r' & -> & Hw). wp_steps. by apply HQ, was_read_received.
Qed.

(** The first answer that is not an interruption, and the ones after it. *)
Fixpoint poll_next (ps : list poll_answer) : poll_answer * list poll_answer :=
  match ps with
  | [] => (PollReady, [])
  | PollErrno EINTR :: ps => poll_next ps
  | a :: ps => (a, ps)
  end.

Lemma poll_loop_next fuel e :
  length (ep_polls e) < fuel →
  poll_loop fuel e = Some ((poll_next (ep_polls e)).1, set_polls (poll_next (ep_polls e)).2 e).
Proof.
  revert e. induction fuel as [|fuel IH]; intros e Hf; [lia|]. simpl. unfold sys_poll, bind at 1.
  destruct e as [a p i o b q]. simpl in *. destruct p as [|[| |[]] p]; try done.
  simpl in Hf. rewrite IH by (simpl; lia). done.
Qed.

#[local] Arguments poll_loop : simpl never.
(** A poll either finds data to read, or times out, or fails. *)
Lemma wp_recv_with_timeout n e (Q : Z * list byte → endpoint → Prop) :
  (let e' := set_polls (poll_next (ep_polls e)).2 e in
   match (poll_next (ep_polls e)).1 with
   | PollReady => wp (worker_recv n) Q e'
   | PollTimeout => Q (1%Z, []) e'
   | PollErrno _ => Q ((-1)%Z, []) e'
   end) → wp (worker_recv_with_timeout n) Q e.
Proof.
  intros HQ. unfold worker_recv_with_timeout. wp_steps. eapply wp_intro; [apply poll_loop_next; lia|].
  simpl in HQ. destruct (poll_next (ep_polls e)).1; [done|by wp_step..].
Qed.

(** ** The library's end *)

(** The process is marked dead only when it was waited for. *)
Record link_ok (l : link) : Prop := {
  lo_pending : ep_pending (lk_end l) = false;
  lo_waited : lk_is_dead l = true → lk_waited l = true;
}.

Lemma wp_on_end {A} (m : M endpoint A) (Q : A → link → Prop) l :
  wp m (λ a e, Q a (Link e (lk_is_dead l) (lk_waited l))) (lk_end l) → wp (on_end m) Q l.
Proof. intros (a & e & Hm & HQ). eexists _, _. split; [|exact HQ]. unfold on_end, zoom. by rewrite Hm. Qed.

(** A message from the library, or to it. *)
Lemma wp_worker_process_send bs l (Q : Z → link → Prop) :
  link_ok l → is_size (len bs) →
  (∀ r l', link_ok l' → (lk_is_dead l = true → r = (-1)%Z ∧ l' = l) →
     (lk_is_dead l = false → sent bs r (lk_end l) (lk_end l') ∧ (r = 0%Z → lk_is_dead l' = false)) → Q r l') →
  wp (worker_process_send bs) Q l.
Proof.
  intros [Hq Hw] Hn HQ. unfold worker_process_send. wp_steps.
  destruct (lk_is_dead l) eqn:Hd; [wp_steps; apply HQ; [by split; auto|done|done]|].
  wp_step. apply wp_on_end. eapply wp_mono; [by apply wp_do_write_library|].
  intros r e' (Hq' & r' & -> & Hwr). wp_step. apply wp_when; intros Hr; unfold mark_dead; wp_steps; (apply HQ; [split; simpl; [done|intros; congruence]|done|]);
    intros _; (split; [by apply wrote_sent|]); simpl; [|by intros].
  apply Z.eqb_eq in Hr. rewrite Hr. by rewrite io_result_neg by lia.
Qed.
Lemma wp_worker_process_recv n l (Q : Z * list byte → link → Prop) :
  link_ok l → is_size n →
  (∀ r l', link_ok l' → (lk_is_dead l = true → r = ((-1)%Z, []) ∧ l' = l) →
     (lk_is_dead l = false → received n r (lk_end l) (lk_end l') ∧ (r.1 = 0%Z → lk_is_dead l' = false)) → Q r l') →
  wp (worker_process_recv n) Q l.
Proof.
  intros [Hq Hw] Hn HQ. unfold worker_process_recv. wp_steps.
  destruct (lk_is_dead l) eqn:Hd; [wp_steps; apply HQ; [by split; auto|done|done]|].
  wp_step. apply wp_on_end. eapply wp_mono; [apply wp_do_read_library; [by apply Hn|done]|].
  intros r e' (Hq' & r' & -> & Hwr). wp_step. apply wp_when; intros Hr; unfold mark_dead; wp_steps; (apply HQ; [split; simpl; [done|intros; congruence]|done|]);
    intros _; (split; [by apply (was_read_received _ _ _ _ Hn)|]); simpl in *; [|by intros].
  intros E. assert (s64 r'.1 < 0)%Z as Hneg by lia. by rewrite io_result_neg in E.
Qed.

(** ** Conversations *)

Inductive message := MSend (bs : list byte) | MRecv (n : Z).
(** The result, and the bytes received. *)
Definition transfer (m : message) : M link (Z * list byte) :=
  match m with
  | MSend bs => let! r := worker_process_send bs in ret (r, [])
  | MRecv n => worker_process_recv n
  end.
Fixpoint exchange (ms : list message) : M link (list (Z * list byte)) :=
  match ms with
  | [] => ret []
  | m :: ms => let! r := transfer m in let! rs := exchange ms in ret (r :: rs)
  end.
Definition message_size (m : message) : Z := match m with MSend bs => len bs | MRecv n => n end.

(** What one message puts on a pipe or takes from the other. *)
Definition moved (m : message) (r : Z * list byte) (e e' : endpoint) : Prop :=
  match m with
  | MSend bs => ∃ part, part `prefix_of` bs ∧ (r.1 = 0%Z → part = bs) ∧ ep_out e' = ep_out e ++ part ∧ ep_in e' = ep_in e
  | MRecv n => (r.1 = 0%Z → len r.2 = n) ∧ ep_in e = r.2 ++ ep_in e' ∧ ep_out e' = ep_out e
  end.
(** The results of a conversation. *)
Inductive conversation : list message → list (Z * list byte) → link → link → Prop :=
  | conv_nil l : conversation [] [] l l
  | conv_dead m ms r rs l l' :
      lk_is_dead l = true → r.1 = (-1)%Z → conversation ms rs l l' → conversation (m :: ms) (r :: rs) l l'
  | conv_alive m ms r rs l l1 l' :
      lk_is_dead l = false → r.1 = 0%Z ∨ r.1 = (-1)%Z → moved m r (lk_end l) (lk_end l1) →
      (r.1 = 0%Z → lk_is_dead l1 = false) → (lk_is_dead l1 = true → lk_waited l1 = true) →
      ep_blocked (lk_end l1) = ep_blocked (lk_end l) → conversation ms rs l1 l' →
      conversation (m :: ms) (r :: rs) l l'.

Lemma wp_transfer m l (Q : Z * list byte → link → Prop) :
  link_ok l → is_size (message_size m) →
  (∀ r l', link_ok l' → (lk_is_dead l = true → r.1 = (-1)%Z ∧ l' = l) →
     (lk_is_dead l = false → (r.1 = 0%Z ∨ r.1 = (-1)%Z) ∧ moved m r (lk_end l) (lk_end l') ∧
        (r.1 = 0%Z → lk_is_dead l' = false) ∧ ep_blocked (lk_end l') = ep_blocked (lk_end l)) → Q r l') →
  wp (transfer m) Q l.
Proof.
  intros Hl Hn HQ. destruct m as [bs|n]; simpl in *.
  - wp_step. apply wp_worker_process_send; [done|done|]. intros r l' Hl' Hd Hs. wp_steps. apply HQ; [done|done|].
    intros [[(part & Hp & Ho & Hr) Hi _ Hb _ _ _] Hz]%Hs. simpl. split_and!; [|exists part|done|done].
    + destruct Hr as [[? _]| ?]; auto.
    + split_and!; [done| |done|done]. intros E. destruct Hr as [[_ ?]|?]; [done|lia].
  - apply wp_worker_process_recv; [done|done|]. intros r l' Hl' Hd Hs. apply HQ; [done|..].
    + intros [-> ->]%Hd. done.
    + intros [[[Hi Hr] Ho _ Hb _ _ _] Hz]%Hs. simpl. split_and!; [| |done|done|done|done].
      * destruct Hr as [[? _]|[? _]]; auto.
      * intros E. destruct Hr as [[_ ?]|[? _]]; [done|lia].
Qed.

(** C12: talking to a worker process never ends the library.  Whatever the
    operating system answers to the calls (short transfers, interruptions,
    broken pipes, other errors) every conversation comes to an end: the loops
    terminate, SIGPIPE is never delivered, the signal mask is as it was and no
    signal is left pending.  Each message returns 0, and is then transferred
    whole, or -1; a worker that is found dead has been waited for, and nothing
    is sent to it afterwards. *)
Theorem conversation_survives ms l :
  ep_pending (lk_end l) = false → (lk_is_dead l = true → lk_waited l = true) →
  Forall (λ m, is_size (message_size m)) ms →
  ∃ rs l', exchange ms l = Some (rs, l') ∧ conversation ms rs l l' ∧
    ep_pending (lk_end l') = false ∧ ep_blocked (lk_end l') = ep_blocked (lk_end l).
Proof.
  intros Hp Hw Hms. assert (link_ok l) as Hl by by split. clear Hp Hw. change (wp (exchange ms) (λ rs l',
    conversation ms rs l l' ∧ ep_pending (lk_end l') = false ∧ ep_blocked (lk_end l') = ep_blocked (lk_end l)) l).
  revert l Hl. induction Hms as [|m ms Hm _ IH]; intros l Hl; simpl.
  { wp_step. split_and!; [constructor|apply Hl|done]. }
  wp_step. apply wp_transfer; [done..|]. intros r l1 Hl1 Hd Ha. wp_step.
  eapply wp_mono; [by apply IH|]. intros rs l' (Hc & Hq & Hb). wp_step. split_and!; [|done|].
  - destruct (lk_is_dead l) eqn:E.
    + destruct (Hd eq_refl) as [? ->]. by apply conv_dead.
    + destruct (Ha eq_refl) as (? & ? & ? & ?). eapply conv_alive; try done. apply Hl1.
  - rewrite Hb. destruct (lk_is_dead l) eqn:E; [by destruct (Hd eq_refl) as [_ ->]|by apply Ha].
Qed.

(** A worker that reads four bytes and ends: the second message is interrupted,
    sent in parts, and then the pipe is broken. *)
Definition dying_worker : link :=
  Link (Endpoint [Moves 3; Errno EINTR; Moves 1; Moves 2; Errno EPIPE] [] [] [] false false) false false.
Lemma conversation_survives_witness :
  exchange [MSend (int_bytes 1001); MSend (int_bytes 7); MRecv 4; MSend []] dying_worker =
    Some ([(0, []); (-1, []); (-1, []); (-1, [])]%Z,
      Link (Endpoint [] [] [] (int_bytes 1001 ++ take 2 (int_bytes 7)) false false) true true) ∧
  ∃ rs l', exchange [MSend (int_bytes 1001); MSend (int_bytes 7); MRecv 4; MSend []] dying_worker = Some (rs, l') ∧
    conversation [MSend (int_bytes 1001); MSend (int_bytes 7); MRecv 4; MSend []] rs dying_worker l' ∧
    ep_pending (lk_end l') = false ∧ ep_blocked (lk_end l') = ep_blocked (lk_end dying_worker).
Proof.
  split; [by vm_compute|]. apply conversation_survives; [done|done|].
  repeat apply Forall_cons_2; try apply Forall_nil_2; unfold is_size, message_size, len; simpl; lia.
Defined.
