(* ===== verification/Requests.v ===== *)
(** * Requests: how the library and a reader process open a stream

    The library's half is [hdfstream_dataset_multi_slice_open] and
    [hdfstream_object_open] (src/src/lib/hdfstream.c), up to the stream they
    return; the reader's half is [do_read_dataset], [do_read_object] and the
    loop of [main] (src/src/reader/hdfstream_reader.c).  They talk through the
    pipes of Pipe.v, look files and datasets up in the caches of FileCache.v,
    and meet again at the ring of Stream.v. *)
From Stdlib Require Import Strings.Byte Strings.String.
From stdpp Require Import base tactics numbers list gmap.
From S2P Require Import Prelude Bytes Multislice Pipe Stream SharedData MapInterface OrderedMap Caches DatasetCache FileCache.

Definition COMMAND_EXIT : Z := 1000.
Definition COMMAND_OPEN_DATASET : Z := 1001.
Definition COMMAND_OPEN_OBJECT : Z := 1002.

(** ** Data on the pipes *)

(** A string with its terminator; an array of [hsize_t]. *)
Definition c_string (s : list byte) : list byte := s ++ [x00].
Definition hsize_bytes (l : list Z) : list byte := concat (size_bytes <$> l).
Fixpoint hsize_values (n : nat) (bs : list byte) : list Z :=
  match n with
  | 0 => []
  | S n => size_value (take 8 bs) :: hsize_values n (drop 8 bs)
  end.
(** A product of two [int]s: overflow is undefined. *)
Definition int_mul {S} (a b : Z) : M S Z := if decide (is_s32 (a * b)) then ret (a * b)%Z else ub.

(** What a stream sends: the arguments of [pack_dataset_multi_slice] or of
    [pack_object], with the size of the buffer. *)
Inductive job :=
  | DatasetJob (dataset_id rank nr_slices : Z) (start count : list Z) (buffer_size : Z)
  | ObjectJob (file_id : Z) (object_name : list byte) (max_depth data_size_limit buffer_size : Z).

#[export] Instance job_eq_dec : EqDecision job.
Proof. solve_decision. Defined.
(** The identifier of the dataset or file. *)
Definition job_id (j : job) : Z := match j with DatasetJob id _ _ _ _ _ | ObjectJob id _ _ _ _ => id end.

(** * The reader process *)

Section reader.
Context {T L J : Type} `{!KVMap T (list byte) positive, !KVMapLaws T (list byte) positive}.
Context `{!H5Files (list byte) L, !H5FilesLaws (list byte) L}.
Abbreviation files := (L * file_cache T (list byte))%type.

(** Its end of the pipes, its file cache, the shared memory, the blocks it has
    allocated, and what is kept of the streams it sends. *)
Record reader := Reader {
  r_end : endpoint;
  r_files : files;
  r_srd : region (byte := byte);
  r_blocks : gmap positive Z;
  r_jobs : J;
}.
Definition on_pipe {A} : M endpoint A → M reader A :=
  zoom r_end (λ e r, Reader e (r_files r) (r_srd r) (r_blocks r) (r_jobs r)).
Definition on_files {A} : M files A → M reader A :=
  zoom r_files (λ f r, Reader (r_end r) f (r_srd r) (r_blocks r) (r_jobs r)).
Definition blocks : heap_of reader Z :=
  HeapOf r_blocks (λ b r, Reader (r_end r) (r_files r) (r_srd r) b (r_jobs r)).
(** [worker_recv(n, &x)] to a variable or block that is then read: if the
    message does not arrive, it is not initialized and reading it is
    undefined. *)
Definition recv (n : Z) : M reader (list byte) :=
  let! r := on_pipe (worker_recv n) in
  if (r.1 =? 0)%Z then ret r.2 else ub.
Definition recv_int : M reader Z := let! bs := recv sizeof_int in ret (int_value bs).
Definition recv_size : M reader Z := let! bs := recv sizeof_size_t in ret (size_value bs).
(** The length, [malloc(len)], the bytes; used as a string. *)
Definition recv_string : M reader (loc * list byte) :=
  let! len := recv_size in
  let! a := malloc blocks len in
  let! bs := recv len in
  if bool_decide (x00 ∈ bs) then ret (a, until_null bs) else ub.
Definition send_status (status : Z) : M reader () := let! _ := on_pipe (worker_send (int_bytes status)) in ret ().

(** [srd->nr_file_cache_hits = fc->nr_cache_hits; ...] *)
Definition report_hits : M reader () :=
  modify (λ r, let c := (r_files r).2 in let g := r_srd r in
    Reader (r_end r) (r_files r)
      (Region (rg_total_size g) (rg_buffer_size g) (fc_nr_cache_hits c) (fc_nr_cache_misses c) (rg_offset g) (rg_ring g))
      (r_blocks r) (r_jobs r)).
(** [if(buffer_size > srd->buffer_size)buffer_size = srd->buffer_size;] *)
Definition limit_buffer (buffer_size : Z) : M reader Z :=
  let! max := gets (λ r, rg_buffer_size (r_srd r)) in
  ret (if (buffer_size >? max)%Z then max else buffer_size).

(** [stream j]: from [msgpack_chunkbuffer_init] to the end of the packing, with
    the [result] of the packing functions; [destroy result]:
    [msgpack_chunkbuffer_destroy(&cb, result)]. *)
Context {R : Type} (stream : job → M reader R) (destroy : R → M reader ()).

Definition do_read_dataset (now : Z) : M reader () :=
  let! filename := recv_string in
  let! datasetname := recv_string in
  let! rank := recv_int in
  let! nr_slices := recv_int in
  let! start := malloc blocks (u64 (8 * rank * nr_slices)) in
  let! count := malloc blocks (u64 (8 * rank * nr_slices)) in
  let! n := int_mul rank nr_slices in
  let! start_data := recv (u64 (n * 8)) in
  let! n := int_mul rank nr_slices in
  let! count_data := recv (u64 (n * 8)) in
  let! buffer_size := recv_size in
  let! buffer_size := limit_buffer buffer_size in
  let cleanup :=
    do! free blocks (Some filename.1) in
    do! free blocks (Some datasetname.1) in
    do! free blocks (Some start) in
    free blocks (Some count) in
  let! file := on_files (file_cache_open_file false now filename.2) in
  if negb (is_set file) then do! send_status 0 in cleanup else
  let status := Z.lor 0 RESULT_FILE_OPENED in
  let! dataset_id := on_files (file_cache_open_dataset false file datasetname.2) in
  do! report_hits in
  if negb (0 <=? dataset_id)%Z then do! send_status status in cleanup else
  let status := Z.lor status RESULT_DATASET_OPENED in
  do! send_status status in
  let! result := stream (DatasetJob dataset_id rank nr_slices (hsize_values (Z.to_nat n) start_data)
                           (hsize_values (Z.to_nat n) count_data) buffer_size) in
  do! cleanup in
  destroy result.

Definition do_read_object (now : Z) : M reader () :=
  let! file_name := recv_string in
  let! object_name := recv_string in
  let! max_depth := recv_int in
  let! data_size_limit := recv_size in
  let! buffer_size := recv_size in
  let! buffer_size := limit_buffer buffer_size in
  let cleanup :=
    do! free blocks (Some file_name.1) in
    free blocks (Some object_name.1) in
  let! file := on_files (file_cache_open_file false now file_name.2) in
  do! report_hits in
  if negb (is_set file) then do! send_status 0 in cleanup else
  do! send_status (Z.lor 0 RESULT_FILE_OPENED) in
  let! file_id := on_files (let! e := load F file in ret (fe_file_id e)) in
  let! result := stream (ObjectJob file_id object_name.2 max_depth data_size_limit buffer_size) in
  do! cleanup in
  destroy result.

(** How an iteration of the loop of [main] ends: with [done] 0 or 1, with
    [exit(1)] or with [abort()]. *)
Inductive iteration := Next | Stop | ExitFailure | Aborted.

(** [now]: what [time(NULL)] returns. *)
Definition main_loop_body (file_cache_check_interval file_cache_expiry_interval now : Z) : M reader iteration :=
  let expire := ((file_cache_check_interval >? 0) && (file_cache_expiry_interval >? 0))%Z in
  let! result :=
    if expire then
      (* the timeout in milliseconds; only whether it has passed matters *)
      let! _ := int_mul file_cache_check_interval 1000 in on_pipe (worker_recv_with_timeout sizeof_int)
    else on_pipe (worker_recv sizeof_int) in
  if (expire && (result.1 >? 0)%Z)%bool then
    do! on_files (file_cache_expire_entries false now file_cache_expiry_interval) in ret Next
  else if (result.1 <? 0)%Z then ret ExitFailure
  else
    let command := int_value result.2 in
    if (command =? COMMAND_OPEN_DATASET)%Z then do! do_read_dataset now in ret Next
    else if (command =? COMMAND_OPEN_OBJECT)%Z then do! do_read_object now in ret Next
    else if (command =? COMMAND_EXIT)%Z then ret Stop
    else ret Aborted.
End reader.

(** * The library *)

Section library.
Context {T L : Type} `{!KVMap T (list byte) positive, !KVMapLaws T (list byte) positive}.
Context `{!H5Files (list byte) L, !H5FilesLaws (list byte) L}.
Abbreviation files := (L * file_cache T (list byte))%type.

(** A thread that opens a stream: the worker it may be assigned, with the end
    of the pipes, the shadow cache and the shared memory that belong to it,
    whether the thread holds that worker, and the streams it has allocated. *)
Record library := Library {
  l_link : link;
  l_shadow : files;
  l_srd : region (byte := byte);
  l_idle : bool;
  l_held : bool;
  l_streams : gmap positive data_stream;
}.
Definition on_link {A} : M link A → M library A :=
  zoom l_link (λ k l, Library k (l_shadow l) (l_srd l) (l_idle l) (l_held l) (l_streams l)).
Definition on_shadow {A} : M files A → M library A :=
  zoom l_shadow (λ f l, Library (l_link l) f (l_srd l) (l_idle l) (l_held l) (l_streams l)).
Definition streams : heap_of library data_stream :=
  HeapOf l_streams (λ st l, Library (l_link l) (l_shadow l) (l_srd l) (l_idle l) (l_held l) st).
Definition set_held (b : bool) : M library () :=
  modify (λ l, Library (l_link l) (l_shadow l) (l_srd l) (l_idle l) b (l_streams l)).

(** The calls of the pool (ProcessPool.v): a worker may be available, and one
    that is held can be released. *)
Definition get_worker : M library bool :=
  let! idle := gets l_idle in
  do! when idle (set_held true) in ret idle.
Definition process_pool_release_worker : M library () :=
  let! held := gets l_held in
  do! assertM held in set_held false.

Context (NR_BUFFERS : nat).

(** [srd->status = 0; shared_data_init_semaphores(srd);] *)
Definition reset_ring : M library () :=
  let! srd := gets l_srd in
  let! ring := lift (open_ring NR_BUFFERS (rg_ring srd)) in
  modify (λ l, Library (l_link l) (l_shadow l)
    (Region (rg_total_size srd) (rg_buffer_size srd) (rg_nr_file_cache_hits srd) (rg_nr_file_cache_misses srd)
       (rg_offset srd) ring) (l_idle l) (l_held l) (l_streams l)).

Definition send (bs : list byte) : M library Z := on_link (worker_process_send bs).
(** [size_t len = strlen(s) + 1;], the length and the string. *)
Definition send_string (s : list byte) : M library Z :=
  check! send (size_bytes (u64 (len s + 1))) else ret (-1)%Z in
  send (c_string s).
(** The first [n] entries of an array of the caller. *)
Definition send_hsizes (n : Z) (l : list Z) : M library Z :=
  if decide (n ≤ len l)%Z then send (hsize_bytes (take (Z.to_nat n) l)) else ub.

(** The arguments of the two functions that open a stream; [None] is NULL. *)
Inductive request :=
  | DatasetRequest (file_name dataset_name : option (list byte)) (nr_slices rank : Z)
      (start count : option (list Z)) (buffer_size : Z)
  | ObjectRequest (file_name object_name : option (list byte)) (max_depth buffer_size data_size_limit : Z).

(** The checks of the parameters. *)
Definition given {A} (p : option A) : bool := match p with Some _ => true | None => false end.
Definition arguments_ok (r : request) : bool :=
  match r with
  | DatasetRequest f d nr_slices rank start count buffer_size =>
      given f && given d && negb ((rank <? 0) || (rank >? HDFSTREAM_MAX_DIMS))%Z &&
      negb ((nr_slices <? 1) || (nr_slices >? HDFSTREAM_MAX_SLICES))%Z &&
      given start && given count && negb (buffer_size =? 0)%Z
  | ObjectRequest f o max_depth buffer_size _ =>
      given f && given o && negb (max_depth <? 0)%Z && negb (buffer_size =? 0)%Z
  end.

(** The messages, up to the first that fails. *)
Definition send_request (r : request) : M library Z :=
  match r with
  | DatasetRequest (Some file_name) (Some dataset_name) nr_slices rank (Some start) (Some count) buffer_size =>
      check! send (int_bytes COMMAND_OPEN_DATASET) else ret (-1)%Z in
      check! send_string file_name else ret (-1)%Z in
      check! send_string dataset_name else ret (-1)%Z in
      check! send (int_bytes rank) else ret (-1)%Z in
      check! send (int_bytes nr_slices) else ret (-1)%Z in
      let! n := int_mul nr_slices rank in
      check! send_hsizes n start else ret (-1)%Z in
      check! send_hsizes n count else ret (-1)%Z in
      send (size_bytes buffer_size)
  | ObjectRequest (Some file_name) (Some object_name) max_depth buffer_size data_size_limit =>
      check! send (int_bytes COMMAND_OPEN_OBJECT) else ret (-1)%Z in
      check! send_string file_name else ret (-1)%Z in
      check! send_string object_name else ret (-1)%Z in
      check! send (int_bytes max_depth) else ret (-1)%Z in
      check! send (size_bytes data_size_limit) else ret (-1)%Z in
      send (size_bytes buffer_size)
  | _ => ub
  end.

(** [cleanup]: the worker goes back to the pool, the stream is freed. *)
Definition open_cleanup (stream : loc) : M library (option loc) :=
  do! process_pool_release_worker in
  do! free streams (Some stream) in
  ret None.

(** The two functions up to the last message of the request: NULL, or the
    stream whose worker has got the request. *)
Definition open_begin (r : request) : M library (option loc) :=
  if negb (arguments_ok r) then ret None else
  let! worker := get_worker in
  if negb worker then ret None else
  let! stream := malloc streams (Stream.DS false 0) in
  do! reset_ring in
  check! send_request r else open_cleanup stream in
  ret (Some stream).

Definition file_of (r : request) : list byte :=
  match r with DatasetRequest f _ _ _ _ _ _ | ObjectRequest f _ _ _ _ => default [] f end.
Definition dataset_of (r : request) : option (list byte) :=
  match r with DatasetRequest _ d _ _ _ _ _ => d | ObjectRequest _ _ _ _ _ => None end.
(** What the names in a request denote: a dataset, or a file. *)
Definition named (r : request) : h5_what (L := L) :=
  match dataset_of r with
  | Some d => h5_member (h5_file (file_of r)) d
  | None => h5_file (file_of r)
  end.
(** The return codes for which there is a stream. *)
Definition success (r : request) (retcode : Z) : bool :=
  match r with
  | DatasetRequest _ _ _ _ _ _ _ => (retcode =? Z.lor RESULT_FILE_OPENED RESULT_DATASET_OPENED)%Z
  | ObjectRequest _ _ _ _ _ => negb (Z.land retcode RESULT_FILE_OPENED =? 0)%Z
  end.

(** From the answer of the worker on. *)
Definition open_finish (now : Z) (r : request) (stream : loc) : M library (option loc) :=
  let! m := on_link (worker_process_recv sizeof_int) in
  if negb (m.1 =? 0)%Z then open_cleanup stream else
  let retcode := int_value m.2 in
  do! on_shadow (update_shadow true now retcode (file_of r) (dataset_of r)) in
  if negb (success r retcode) then open_cleanup stream else
  ret (Some stream).

Definition open_stream (now : Z) (r : request) : M library (option loc) :=
  let! begun := open_begin r in
  match begun with
  | None => ret None
  | Some stream => open_finish now r stream
  end.
Definition hdfstream_dataset_multi_slice_open (now : Z) (file_name dataset_name : option (list byte))
    (nr_slices rank : Z) (start count : option (list Z)) (buffer_size : Z) : M library (option loc) :=
  open_stream now (DatasetRequest file_name dataset_name nr_slices rank start count buffer_size).
Definition hdfstream_object_open (now : Z) (file_name object_name : option (list byte))
    (max_depth buffer_size data_size_limit : Z) : M library (option loc) :=
  open_stream now (ObjectRequest file_name object_name max_depth buffer_size data_size_limit).

(** The end of [hdfstream_close_stream], after [close_ring] of Stream.v. *)
Definition close_stream (stream : loc) : M library () :=
  do! process_pool_release_worker in free streams (Some stream).

End library.

(** * Both sides

    The library reads nothing before it has sent the whole request, and the
    reader answers when it has read it: there is one order of their messages.
    What the reader does with the ring is seen apart from the requests
    ([write_stream] of Stream.v): here the jobs that it starts are recorded. *)
Section both.
Context {T L : Type} `{!KVMap T (list byte) positive, !KVMapLaws T (list byte) positive}.
Context `{!H5Files (list byte) L, !H5FilesLaws (list byte) L}.
Abbreviation library := (library (T := T) (L := L)).
Abbreviation reader := (reader (T := T) (L := L) (J := list job)).

Definition start_job (j : job) : M reader () :=
  modify (λ r, Reader (r_end r) (r_files r) (r_srd r) (r_blocks r) (r_jobs r ++ [j])).
Definition serve_iteration (check expiry now : Z) : M reader iteration :=
  main_loop_body start_job ret check expiry now.

Definition deliver_request (s : library * reader) : library * reader :=
  let '(l, r) := s in
  let e := lk_end (l_link l) in
  (Library (Link (set_out [] e) (lk_is_dead (l_link l)) (lk_waited (l_link l))) (l_shadow l) (l_srd l) (l_idle l)
     (l_held l) (l_streams l),
   Reader (set_in (ep_in (r_end r) ++ ep_out e) (r_end r)) (r_files r) (l_srd l) (r_blocks r) (r_jobs r)).
Definition deliver_answer (s : library * reader) : library * reader :=
  let '(l, r) := s in
  let e := lk_end (l_link l) in
  (Library (Link (set_in (ep_in e ++ ep_out (r_end r)) e) (lk_is_dead (l_link l)) (lk_waited (l_link l)))
     (l_shadow l) (r_srd r) (l_idle l) (l_held l) (l_streams l),
   Reader (set_out [] (r_end r)) (r_files r) (r_srd r) (r_blocks r) (r_jobs r)).

(** A request from the call of the library to its return; the reader is in its
    loop.  The result of the reader's iteration is for the next one. *)
Definition serve_open (NR_BUFFERS : nat) (check expiry nw nl : Z) (q : request) : M (library * reader) (option loc) :=
  let! begun := zoom fst (λ l s, (l, s.2)) (open_begin NR_BUFFERS q) in
  match begun with
  | None => ret None
  | Some stream =>
      do! modify deliver_request in
      let! i := zoom snd (λ r s, (s.1, r)) (serve_iteration check expiry nw) in
      do! modify deliver_answer in
      zoom fst (λ l s, (l, s.2)) (open_finish nl q stream)
  end.
End both.
