(* ===== verification/RequestsProof.v ===== *)
(** * Requests: lemmas

    What the messages of Requests.v do to the pipes: on the library's side
    whatever the answers of the operating system are, on the reader's side when
    they are no errors. *)
From Stdlib Require Import Strings.Byte Strings.String.
From stdpp Require Import base tactics numbers list gmap.
From S2P Require Import Prelude Bytes Multislice Pipe Stream SharedData MapInterface OrderedMap Caches DatasetCache FileCache.
From S2P Require Import FileCacheProof FileCacheMain ShadowCache Requests.

(** ** Arrays on the pipes *)

Lemma hsize_bytes_cons z l : hsize_bytes (z :: l) = size_bytes z ++ hsize_bytes l.
Proof. done. Qed.
Lemma length_hsize_bytes l : length (hsize_bytes l) = 8 * length l.
Proof.
  induction l as [|z l IH]; [done|]. rewrite hsize_bytes_cons, length_app, IH.
  unfold size_bytes. rewrite length_le_bytes. simpl. lia.
Qed.

Lemma hsize_values_bytes l : Forall is_u64 l → hsize_values (length l) (hsize_bytes l) = l.
Proof.
  induction 1 as [|z l Hz _ IH]; [done|]. rewrite hsize_bytes_cons. cbn [length hsize_values].
  assert (length (size_bytes z) = 8) as Hl by apply length_le_bytes.
  rewrite <- Hl, take_app_length, drop_app_length, IH. by rewrite size_value_bytes.
Qed.

Lemma len_int_bytes z : len (int_bytes z) = sizeof_int.
Proof. unfold len, int_bytes. by rewrite length_le_bytes. Qed.
Lemma len_size_bytes z : len (size_bytes z) = sizeof_size_t.
Proof. unfold len, size_bytes. by rewrite length_le_bytes. Qed.

(** ** An end of the pipes at which nothing goes wrong

    [calm_at P i o e]: there is [i] to read, [o] was sent, no call on the pipes
    fails, and [P] holds for the next answers of [poll]. *)
Record calm_at (P : list poll_answer → Prop) (i o : list byte) (e : endpoint) : Prop := {
  cm_answers : Forall answer_ok (ep_answers e);
  cm_polls : P (ep_polls e);
  cm_in : ep_in e = i;
  cm_out : ep_out e = o;
  cm_blocked : ep_blocked e = false;
  cm_pending : ep_pending e = false;
}.
Arguments cm_answers {_ _ _ _}.
Arguments cm_polls {_ _ _ _}.
Arguments cm_in {_ _ _ _}.
Arguments cm_out {_ _ _ _}.
Arguments cm_blocked {_ _ _ _}.
Arguments cm_pending {_ _ _ _}.
(** No call fails or times out. *)
Definition no_timeout (ps : list poll_answer) : Prop := Forall (λ p, poll_ok p ∧ p ≠ PollTimeout) ps.
Abbreviation calm := (calm_at no_timeout).

Lemma calm_sent {P} i o bs r e e' : calm_at P i o e → sent bs r e e' → r = 0%Z ∧ calm_at P i (o ++ bs) e'.
Proof.
  intros [Ha Hp Hi Ho Hb Hq] [(part & _ & Ho' & Hr) Hi' Hp' Hb' Hq' (l & Hl) Hh].
  assert (r = 0%Z) as -> by auto. split; [done|]. destruct Hr as [[_ ->]|?]; [|lia]. split; try congruence.
  - rewrite Hl in Ha. by apply Forall_app in Ha as [_ ?].
  - rewrite Hq'; congruence.
Qed.
Lemma calm_received {P} i o bs r e e' :
  calm_at P (bs ++ i) o e → received (len bs) r e e' → r = (0%Z, bs) ∧ calm_at P i o e'.
Proof.
  intros [Ha Hp Hi Ho Hb Hq] [[Hi' Hr] Ho' Hp' Hb' Hq' (l & Hl) Hh].
  assert (r.1 = 0%Z) as E1. { apply Hh; [done|]. rewrite Hi, len_app. pose proof (len_nonneg i). lia. }
  destruct Hr as [[_ Hlen]|[? _]]; [|lia]. rewrite Hi in Hi'.
  apply app_inj_1 in Hi' as [E2 E3]; [|unfold len in Hlen; lia].
  split; [by destruct r; simpl in *; subst|]. split; try congruence.
  - rewrite Hl in Ha. by apply Forall_app in Ha as [_ ?].
  - rewrite Hq'; congruence.
Qed.
Lemma calm_no_sigpipe {P} i o e : calm_at P i o e → no_sigpipe e.
Proof. intros [Ha _ _ _ _ _]. by right. Qed.

(** A message arrives when its receiver polls first ([timer]), or reads at once. *)
Definition ready (timer : bool) (P P' : list poll_answer → Prop) : Prop :=
  ∀ ps, P ps → if timer then (poll_next ps).1 = PollReady ∧ P' (poll_next ps).2 else P' ps.
Lemma ready_no_timeout timer : ready timer no_timeout no_timeout.
Proof.
  intros ps Hps. destruct timer; [|done]. induction Hps as [|a ps [Ha Ht] Hps IH]; [by split; [|constructor]|].
  by destruct a as [| |[]].
Qed.

(** ** The library's side *)

Definition calm_link (i o : list byte) (k : link) : Prop := lk_is_dead k = false ∧ calm i o (lk_end k).

(** [z = 0]: the bytes [bs] were sent; this is so if nothing goes wrong. *)
Record conveys (bs : list byte) (z : Z) (k k' : link) : Prop := {
  cv_ok : link_ok k';
  cv_sent : z = 0%Z → ep_out (lk_end k') = ep_out (lk_end k) ++ bs ∧ ep_in (lk_end k') = ep_in (lk_end k);
  cv_blocked : ep_blocked (lk_end k') = ep_blocked (lk_end k);
  cv_calm i o : calm_link i o k → z = 0%Z ∧ calm_link i (o ++ bs) k';
}.

Lemma conveys_trans b1 b2 z k k1 k2 : conveys b1 0 k k1 → conveys b2 z k1 k2 → conveys (b1 ++ b2) z k k2.
Proof.
  intros [_ Hs Hb Hc] [Hok Hs' Hb' Hc']. split; [done| |congruence|].
  - intros [-> ->]%Hs'. destruct (Hs eq_refl) as [-> ->]. by rewrite app_assoc.
  - intros i o [_ Hk]%Hc. apply Hc' in Hk. by rewrite app_assoc.
Qed.
Lemma conveys_fail b1 b2 z k k1 : z ≠ 0%Z → conveys b1 z k k1 → conveys (b1 ++ b2) (-1) k k1.
Proof. intros Hz [Hok Hs Hb Hc]. split; [done|done|done|]. by intros i o [? _]%Hc. Qed.

Lemma wp_send_conveys bs k (Q : Z → link → Prop) :
  link_ok k → is_size (len bs) → (∀ z k', conveys bs z k k' → Q z k') → wp (worker_process_send bs) Q k.
Proof.
  intros Hk Hn HQ. apply wp_worker_process_send; [done|done|].
  intros r k' Hk' Hd Hs. apply HQ. destruct (lk_is_dead k) eqn:E.
  - destruct (Hd eq_refl) as [-> ->]. split; [done|done|done|]. intros i o [? _]. congruence.
  - destruct (Hs eq_refl) as [Hse Hz]. split; [done| |apply Hse|].
    + intros ->. destruct Hse as [(part & _ & -> & [[_ ->]|?]) Hi _ _ _ _ _]; [by rewrite Hi|lia].
    + intros i o [_ Hc]. destruct (calm_sent _ _ _ _ _ _ Hc Hse) as [-> ?]. split; [done|]. split; [auto|done].
Qed.

(** An answer: [bs] if nothing goes wrong. *)
Lemma wp_hear n k (Q : Z * list byte → link → Prop) :
  link_ok k → is_size n →
  (∀ r k', link_ok k' → ep_blocked (lk_end k') = ep_blocked (lk_end k) → ep_out (lk_end k') = ep_out (lk_end k) →
     (∀ bs i o, len bs = n → calm_link (bs ++ i) o k → r = (0%Z, bs) ∧ calm_link i o k') → Q r k') →
  wp (worker_process_recv n) Q k.
Proof.
  intros Hk Hn HQ. apply wp_worker_process_recv; [done|done|]. intros r k' Hk' Hd Ha.
  destruct (lk_is_dead k) eqn:E.
  - destruct (Hd eq_refl) as [-> ->]. apply HQ; [done..|]. intros bs i o _ [? _]. congruence.
  - destruct (Ha eq_refl) as [Hr Hz]. apply HQ; [done|apply Hr|apply Hr|].
    intros bs i o <- [_ Hc]. destruct (calm_received _ _ _ _ _ _ Hc Hr) as [-> ?]. split; [done|]. split; [auto|done].
Qed.

#[local] Arguments size_bytes : simpl never.
#[local] Arguments int_bytes : simpl never.

Section library.
Context {T L : Type} `{!KVMap T (list byte) positive, !KVMapLaws T (list byte) positive}.
Context `{!H5Files (list byte) L, !H5FilesLaws (list byte) L}.
Abbreviation library := (library (T := T) (L := L)).
Implicit Types (l : library).

Definition with_link (k : link) l : library :=
  Library k (l_shadow l) (l_srd l) (l_idle l) (l_held l) (l_streams l).

(** The call [m] sends [bs], or fails. *)
Definition Conveys (m : M library Z) (bs : list byte) : Prop :=
  ∀ l (Q : Z → library → Prop), link_ok (l_link l) →
    (∀ z k, conveys bs z (l_link l) k → Q z (with_link k l)) → wp m Q l.

Lemma Conveys_send bs : is_size (len bs) → Conveys (send bs) bs.
Proof.
  intros Hn l Q Hl HQ. unfold send, on_link. apply wp_zoom. by apply wp_send_conveys.
Qed.

Lemma Conveys_check m k b1 b2 :
  Conveys m b1 → Conveys k b2 → Conveys (check! m else ret (-1)%Z in k) (b1 ++ b2).
Proof.
  intros Hm Hk l Q Hl HQ. wp_step. apply Hm; [done|]. intros z k1 Hc. destruct (Z.eqb_spec z 0) as [->|Hz].
  - apply Hk; [apply Hc|]. intros z2 k2 Hc2. apply (HQ z2 k2). by eapply conveys_trans.
  - wp_step. apply HQ. by eapply conveys_fail.
Qed.

Lemma Conveys_string s :
  is_size (len s + 1) → Conveys (send_string s) (size_bytes (len s + 1) ++ c_string s).
Proof.
  intros Hn. unfold send_string. unfold is_size in Hn. rewrite u64_small by (unfold is_u64; lia). apply Conveys_check.
  - apply Conveys_send. by rewrite len_size_bytes.
  - apply Conveys_send. unfold c_string. rewrite len_app. exact Hn.
Qed.

Lemma Conveys_hsizes n a :
  (0 ≤ n ≤ len a)%Z → is_size (8 * n) → Conveys (send_hsizes n a) (hsize_bytes (take (Z.to_nat n) a)).
Proof.
  intros Hn Hs. unfold send_hsizes. rewrite decide_True by lia. apply Conveys_send.
  unfold len in *. rewrite length_hsize_bytes, length_take. replace (Z.to_nat n `min` length a) with (Z.to_nat n) by lia.
  by replace (Z.of_nat (8 * Z.to_nat n)) with (8 * n)%Z by lia.
Qed.

Lemma Conveys_int_mul a b (k : Z → M library Z) bs :
  is_s32 (a * b) → Conveys (k (a * b)%Z) bs → Conveys (let! n := int_mul a b in k n) bs.
Proof.
  intros Hs Hk l Q Hl HQ. unfold int_mul. rewrite decide_True by done. wp_steps. by apply Hk.
Qed.

(** A request with arguments as a caller in C can give them: the names are
    strings that fit in memory, the arrays are as long as the code assumes. *)
Definition name_ok (s : list byte) : Prop := x00 ∉ s ∧ is_size (len s + 1).
Definition request_ok (q : request) : Prop :=
  match q with
  | DatasetRequest f d n rank st ct bs =>
      (∀ s, f = Some s ∨ d = Some s → name_ok s) ∧ is_s32 n ∧ is_s32 rank ∧
      (∀ a, st = Some a ∨ ct = Some a → (n * rank ≤ len a)%Z ∧ Forall is_u64 a) ∧ is_u64 bs
  | ObjectRequest f o depth bs limit =>
      (∀ s, f = Some s ∨ o = Some s → name_ok s) ∧ is_s32 depth ∧ is_u64 bs ∧ is_u64 limit
  end.

(** What is sent for it. *)
Definition string_message (s : list byte) : list byte := size_bytes (len s + 1) ++ c_string s.
Definition request_bytes (q : request) : list byte :=
  match q with
  | DatasetRequest (Some f) (Some d) n rank (Some st) (Some ct) bs =>
      int_bytes COMMAND_OPEN_DATASET ++ string_message f ++ string_message d ++ int_bytes rank ++ int_bytes n ++
      hsize_bytes (take (Z.to_nat (n * rank)) st) ++ hsize_bytes (take (Z.to_nat (n * rank)) ct) ++ size_bytes bs
  | ObjectRequest (Some f) (Some o) depth bs limit =>
      int_bytes COMMAND_OPEN_OBJECT ++ string_message f ++ string_message o ++ int_bytes depth ++
      size_bytes limit ++ size_bytes bs
  | _ => []
  end.

(** The checks of the parameters bound the arrays. *)
Lemma arguments_bounds f d n rank st ct bs :
  arguments_ok (DatasetRequest f d n rank st ct bs) = true →
  ∃ f' d' st' ct', f = Some f' ∧ d = Some d' ∧ st = Some st' ∧ ct = Some ct' ∧
    (0 ≤ rank ≤ 32)%Z ∧ (1 ≤ n ≤ 16777216)%Z ∧ is_s32 (n * rank) ∧ is_size (8 * (n * rank)) ∧ bs ≠ 0%Z.
Proof.
  unfold arguments_ok, HDFSTREAM_MAX_DIMS, HDFSTREAM_MAX_SLICES.
  destruct f as [f|], d as [d|], st as [st|], ct as [ct|]; simpl; rewrite ?andb_false_r; try done.
  intros Hb. assert (0 ≤ rank ≤ 32 ∧ 1 ≤ n ≤ 16777216)%Z by lia.
  eexists _, _, _, _. repeat (split; [done|]). split; [lia|]. split; [lia|]. unfold is_s32, is_size. nia.
Qed.

Lemma Conveys_request q : request_ok q → arguments_ok q = true → Conveys (send_request q) (request_bytes q).
Proof.
  assert (∀ z, Conveys (send (int_bytes z)) (int_bytes z)) as Hint.
  { intros z. apply Conveys_send. by rewrite len_int_bytes. }
  assert (∀ z, Conveys (send (size_bytes z)) (size_bytes z)) as Hsize.
  { intros z. apply Conveys_send. by rewrite len_size_bytes. }
  intros Hok Ha. destruct q as [f d n rank st ct bs|f o depth bs limit].
  - destruct (arguments_bounds _ _ _ _ _ _ _ Ha) as (f' & d' & st' & ct' & -> & -> & -> & -> & Hr & Hn & Hs & Hsz & _).
    destruct Hok as (Hnames & _ & _ & Harr & _).
    destruct (Harr st') as [Hst _]; [by left|]. destruct (Harr ct') as [Hct _]; [by right|].
    unfold send_request, request_bytes. apply Conveys_check; [done|].
    apply Conveys_check; [apply Conveys_string, Hnames; by left|].
    apply Conveys_check; [apply Conveys_string, Hnames; by right|].
    apply Conveys_check; [done|]. apply Conveys_check; [done|]. apply Conveys_int_mul; [done|].
    apply Conveys_check; [apply Conveys_hsizes; [nia|done]|].
    apply Conveys_check; [apply Conveys_hsizes; [nia|done]|]. done.
  - destruct f as [f|], o as [o|]; [|done..]. destruct Hok as (Hnames & _).
    unfold send_request, request_bytes. apply Conveys_check; [done|].
    apply Conveys_check; [apply Conveys_string, Hnames; by left|].
    apply Conveys_check; [apply Conveys_string, Hnames; by right|].
    apply Conveys_check; [done|]. apply Conveys_check; done.
Qed.

(** ** Opening a stream *)

Context (NR_BUFFERS : nat) (cap : Z).

Definition ring_usable (g : region (byte := byte)) : Prop :=
  length (sh_buffer (rg_ring g)) = NR_BUFFERS ∧ Forall (usable_buffer cap) (sh_buffer (rg_ring g)).

(** The result of opening: NULL, and the thread has given the worker back and
    freed the stream, or a new stream whose worker it holds. *)
Definition stream_result (l : library) (r : option loc) (l' : library) : Prop :=
  match r with
  | None => l_held l' = false ∧ l_streams l' = l_streams l
  | Some s => l_held l' = true ∧ l_streams l !! s = None ∧ l_streams l' = <[s := Stream.DS false 0]> (l_streams l) ∧
      fresh_ring NR_BUFFERS cap (rg_ring (l_srd l'))
  end.

Lemma fresh_usable g : fresh_ring NR_BUFFERS cap (rg_ring g) → ring_usable g.
Proof.
  intros (_ & Hl & Hf). split; [done|]. eapply Forall_impl; [exact Hf|]. intros b (_ & Hw & Hr & Hd).
  unfold usable_buffer. rewrite Hw, Hr. done.
Qed.

Lemma wp_open_cleanup l0 l s (Q : option loc → library → Prop) :
  l_held l = true → l_streams l0 !! s = None → l_streams l = <[s := Stream.DS false 0]> (l_streams l0) →
  Q None (Library (l_link l) (l_shadow l) (l_srd l) (l_idle l) false (l_streams l0)) →
  wp (open_cleanup s) Q l.
Proof.
  intros Hh Hs Hl HQ. unfold open_cleanup, process_pool_release_worker. wp_steps.
  apply wp_assert; [done|]. unfold set_held. wp_steps. eapply wp_free; simpl.
  { rewrite Hl. apply lookup_insert_eq. }
  wp_steps. rewrite Hl, delete_insert_id by done. exact HQ.
Qed.

(** Up to the answer. *)
Lemma wp_open_begin q l (Q : option loc → library → Prop) :
  link_ok (l_link l) → l_held l = false → ring_usable (l_srd l) → request_ok q →
  (arguments_ok q = false ∨ l_idle l = false → Q None l) →
  (∀ r k g h st, arguments_ok q = true → let l' := Library k (l_shadow l) g (l_idle l) h st in
     stream_result l r l' → link_ok k → ring_usable g → ep_blocked (lk_end k) = ep_blocked (lk_end (l_link l)) →
     rg_buffer_size g = rg_buffer_size (l_srd l) →
     (is_Some r → ep_out (lk_end k) = ep_out (lk_end (l_link l)) ++ request_bytes q) →
     (∀ i o, calm_link i o (l_link l) → is_Some r ∧ calm_link i (o ++ request_bytes q) k) →
     Q r l') →
  wp (open_begin NR_BUFFERS q) Q l.
Proof.
  intros Hl Hh [Hlen Hus] Hq Hno HQ. unfold open_begin.
  destruct (arguments_ok q) eqn:Ha; simpl; [|wp_step; auto]. unfold get_worker, set_held. wp_steps.
  destruct (l_idle l) eqn:Hi; simpl; [|wp_steps; auto]. wp_steps.
  apply wp_malloc. simpl. intros s Hs. unfold reset_ring. wp_steps.
  destruct (open_ring_fresh NR_BUFFERS cap (rg_ring (l_srd l)) Hlen Hus) as (ring & Hring & Hfresh).
  eapply wp_lift; [exact Hring|]. wp_steps.
  apply (Conveys_request q Hq Ha); [done|]. simpl. intros z k Hc. unfold with_link. simpl. rewrite ?Hi.
  destruct (Z.eqb_spec z 0) as [->|Hz].
  - wp_steps. eapply (HQ (Some s)); [done|split_and!; done|apply Hc|by apply fresh_usable|apply Hc|done|..].
    + intros _. by apply (cv_sent _ _ _ _ Hc).
    + intros i o Hcalm. destruct (cv_calm _ _ _ _ Hc i o Hcalm) as [_ ?]. split; [by eexists|done].
  - eapply wp_open_cleanup; [done|exact Hs|done|]. simpl. rewrite ?Hi.
    eapply (HQ None); [done|done|apply Hc|by apply fresh_usable|apply Hc|done|..].
    + by intros [].
    + intros i o [? _]%(cv_calm _ _ _ _ Hc). done.
Qed.

(** From the answer on.  [P c f]: what [update_shadow] does with the answer
    [c]. *)
Lemma wp_open_finish now q s l0 l (P : Z → L * file_cache T (list byte) → Prop) (Q : option loc → library → Prop) :
  link_ok (l_link l) → stream_result l0 (Some s) l →
  (∀ c, wp (update_shadow true now c (file_of q) (dataset_of q)) (λ _ f, P c f) (l_shadow l)) →
  (∀ r k f h st, let l' := Library k f (l_srd l) (l_idle l) h st in
     stream_result l0 r l' → link_ok k → ep_blocked (lk_end k) = ep_blocked (lk_end (l_link l)) →
     ep_out (lk_end k) = ep_out (lk_end (l_link l)) →
     f = l_shadow l ∨ (∃ c, P c f) →
     (∀ c i o, is_s32 c → calm_link (int_bytes c ++ i) o (l_link l) →
        calm_link i o k ∧ P c f ∧ r = if success q c then Some s else None) →
     Q r l') →
  wp (open_finish now q s) Q l.
Proof.
  intros Hl (Hh & Hs & Hst & Hfr) Hup HQ. unfold open_finish, on_link. wp_step. apply wp_zoom.
  assert (is_size sizeof_int) as Hsz by done.
  apply wp_hear; [done|exact Hsz|]. intros m k Hk Hb Ho Hcalm'.
  assert (∀ c i o, is_s32 c → calm_link (int_bytes c ++ i) o (l_link l) → m = (0%Z, int_bytes c) ∧ calm_link i o k) as Hcalm.
  { intros c i o Hc. by apply Hcalm', len_int_bytes. }
  destruct (Z.eqb_spec m.1 0) as [Hm|Hm]; simpl.
  2: { eapply wp_open_cleanup; [done|exact Hs|done|]. simpl.
       eapply HQ; [done|done|done|done|by left|]. intros c i o Hc H. by destruct (Hcalm c i o Hc H) as [-> _]. }
  wp_step. unfold on_shadow. apply wp_zoom. eapply wp_mono; [apply Hup|]. simpl. intros [] f Hf.
  assert (∀ c i o, is_s32 c → calm_link (int_bytes c ++ i) o (l_link l) → int_value m.2 = c ∧ calm_link i o k) as Hc'.
  { intros c i o Hc H. destruct (Hcalm c i o Hc H) as [-> ?]. split; [by apply int_value_bytes|done]. }
  destruct (success q (int_value m.2)) eqn:Hsu; simpl.
  - wp_step. eapply HQ; [split_and!; done|done|done|done|by eauto|].
    intros c i o Hc H. destruct (Hc' c i o Hc H) as [E ?]. rewrite E in *. by rewrite Hsu.
  - eapply wp_open_cleanup; [done|exact Hs|done|]. simpl.
    eapply HQ; [done|done|done|done|by eauto|].
    intros c i o Hc H. destruct (Hc' c i o Hc H) as [E ?]. rewrite E in *. by rewrite Hsu.
Qed.

(** Whatever the worker answers, the shadow copy stays a cache. *)
Lemma wp_update_shadow bl mf md ws s now c f d :
  fc_state true bl mf md ws s → 0 < mf → 0 < md →
  wp (update_shadow true now c f d) (λ _ s', ∃ ws', fc_state true bl mf md ws' s') s.
Proof.
  intros Hs Hmf Hmd. unfold update_shadow. destruct (negb _); [|wp_step; by exists ws].
  wp_step. eapply open_file_spec; [exact Hs|exact Hmf|..]; clear Hs.
  { intros s' Hfail. exfalso. by inversion Hfail. }
  intros h c' e fs Hl Hr Ho Hf Hd.
  assert (fc_state true bl mf md (fn_view <$> e :: fs) (h, c')) as Hst by (by eapply (fc_state_intro true _ _ _ _ c')).
  destruct d as [d|]; [|wp_step; by eauto]. destruct (negb _); [|wp_step; by eauto].
  wp_step. eapply wp_file_cache_open_dataset; [exact Hr|exact Ho|lia|].
  intros r h2 c2 e' Hop Hn Hi Ht Hr' Ho' Hlim. wp_step.
  exists (fn_view <$> e' :: fs). by eapply fc_state_intro.
Qed.
End library.
