(* ===== verification/RequestsMain.v ===== *)
(** * Requests: the reader's side and the theorems

    What the reader does with a request, how the two ends of the pipes agree on
    it, and what opening a stream leaves of the library when calls fail. *)
From Stdlib Require Import Strings.Byte Strings.String.
From stdpp Require Import base tactics numbers list gmap.
From S2P Require Import Prelude Bytes Multislice Pipe Stream SharedData MapInterface OrderedMap Caches DatasetCache FileCache.
From S2P Require Import FileCacheProof FileCacheMain ShadowCache Requests RequestsProof AvlTree AvlMap.

#[local] Arguments size_bytes : simpl never.
#[local] Arguments int_bytes : simpl never.

Section reader.
Context {T L J R : Type} `{!KVMap T (list byte) positive, !KVMapLaws T (list byte) positive}.
Context `{!H5Files (list byte) L, !H5FilesLaws (list byte) L}.
Abbreviation files := (L * file_cache T (list byte))%type.
Abbreviation reader := (reader (T := T) (L := L) (J := J)).

(** ** What the caches answer *)

(** With buffers of [max] bytes and the cache [f] a request is answered with the
    code [c], the streams [jobs] are started, and the cache is [f'] then. *)
Inductive opens (max now : Z) : request → files → Z → list job → files → Prop :=
  | opens_nothing q f f' :
      file_cache_open_file false now (file_of q) f = Some (None, f') → opens max now q f 0 [] f'
  | opens_file fn d n rank st ct bs f p f1 id f' :
      file_cache_open_file false now fn f = Some (Some p, f1) →
      file_cache_open_dataset false (Some p) d f1 = Some (id, f') → (id < 0)%Z →
      opens max now (DatasetRequest (Some fn) (Some d) n rank st ct bs) f RESULT_FILE_OPENED [] f'
  | opens_dataset fn d n rank st ct bs f p f1 id f' :
      file_cache_open_file false now fn f = Some (Some p, f1) →
      file_cache_open_dataset false (Some p) d f1 = Some (id, f') → (0 ≤ id)%Z →
      opens max now (DatasetRequest (Some fn) (Some d) n rank (Some st) (Some ct) bs) f
        (Z.lor RESULT_FILE_OPENED RESULT_DATASET_OPENED)
        [DatasetJob id rank n (take (Z.to_nat (n * rank)) st) (take (Z.to_nat (n * rank)) ct) (Z.min bs max)] f'
  | opens_object fn o depth bs limit f p f' e :
      file_cache_open_file false now fn f = Some (Some p, f') → fc_entries f'.2 !! p = Some e →
      opens max now (ObjectRequest (Some fn) (Some o) depth bs limit) f RESULT_FILE_OPENED
        [ObjectJob (fe_file_id e) o depth limit (Z.min bs max)] f'.

Lemma opens_request max now q f c jobs f' :
  opens max now q f c jobs f' → open_request false now (file_of q) (dataset_of q) f = Some (c, f').
Proof.
  intros Ho. destruct Ho as [q f f' E|? ? ? ? ? ? ? ? ? ? ? ? E Ed Hid|? ? ? ? ? ? ? ? ? ? ? ? E Ed Hid|? ? ? ? ? ? ? ? ? E Ee];
    unfold open_request; rewrite (bind_Some _ _ _ _ _ E); simpl; [done|..|done];
    unfold bind; rewrite Ed; unfold ret.
  - by replace (0 <=? id)%Z with false by lia.
  - by replace (0 <=? id)%Z with true by lia.
Qed.

(** What is opened denotes what the names say. *)
Lemma wp_open_named bw mf md vs now name (f : files) :
  fc_state false bw mf md vs f → 0 < mf → 0 < md →
  wp (file_cache_open_file false now name) (λ p f1, match p with
    | None => True
    | Some p =>
        (∃ e, fc_entries f1.2 !! p = Some e ∧ h5_handles f1.1 !! fe_file_id e = Some (h5_file name)) ∧
        ∀ d, wp (file_cache_open_dataset false (Some p) d)
               (λ id f2, (0 ≤ id)%Z → h5_handles f2.1 !! id = Some (h5_member (h5_file name) d)) f1
    end) f.
Proof.
  intros Hs Hmf Hmd. eapply open_file_spec; [exact Hs|exact Hmf|done|]. intros h c e fs Hl Hr Ho _ Hmd'.
  assert (fn_name e = name) as En.
  { by inversion Hl. }
  split.
  - eexists. split; [exact (fc_rep_entry _ [] _ _ Hr)|]. cbn [fe_file_id fst]. rewrite <- En.
    eapply owns_elem; [exact Ho|done|]. constructor.
  - intros d. eapply wp_file_cache_open_dataset; [exact Hr|exact Ho|lia|].
    intros r h2 c2 e' Hop Hn' _ _ _ Ho' _ Hr0. rewrite <- En, <- Hn'. eapply owns_elem; [exact Ho'|done|].
    assert (∃ x es, fn_dss e' = x :: es ∧ dn_name x = d ∧ dn_id x = r) as (x & es & Ees & <- & <-).
    { destruct Hop as [(es1 & x & es2 & _ & Hx & -> & ->)|(_ & [(? & _)|(_ & _ & p & ->)])];
        [by eexists _, _|lia|by eexists _, _]. }
    apply elem_of_app. left. change (handles (e' :: fs)) with (fn_handles e' ++ handles fs).
    apply elem_of_app. left. unfold fn_handles, dn_handles. rewrite Ees. right. left.
Qed.

Lemma opens_total bw mf md vs max now q f :
  fc_state false bw mf md vs f → 0 < mf → 0 < md → arguments_ok q = true →
  ∃ c jobs f', opens max now q f c jobs f' ∧ Forall (λ j, h5_handles f'.1 !! job_id j = Some (named q)) jobs.
Proof.
  intros Hs Hmf Hmd Ha.
  destruct (wp_open_named bw mf md vs now (file_of q) f Hs Hmf Hmd) as (p & f1 & E & Hp).
  destruct p as [p|]; [|eexists _, _, _; split; [by constructor|constructor]]. destruct Hp as [(e & He & Hid) Hd].
  destruct q as [fn d n rank st ct bs|fn o depth bs limit].
  - destruct (arguments_bounds _ _ _ _ _ _ _ Ha) as (fn' & d' & st' & ct' & -> & -> & -> & -> & _).
    destruct (Hd d') as (id & f' & Ed & Hid'). destruct (Z.lt_ge_cases id 0).
    + eexists _, _, _. split; [by eapply opens_file|constructor].
    + eexists _, _, _. split; [by eapply opens_dataset|]. constructor; [by apply Hid'|constructor].
  - destruct fn as [fn|], o as [o|]; [|done..]. eexists _, _, _. split; [by eapply opens_object|].
    constructor; [exact Hid|constructor].
Qed.

(** ** The reader *)

Lemma wp_recv {P} bs n i o e f g b j (Q : list byte → reader → Prop) :
  calm_at P (bs ++ i) o e → len bs = n → is_size n →
  (∀ e', calm_at P i o e' → Q bs (Reader e' f g b j)) → wp (recv n) Q (Reader e f g b j).
Proof.
  intros Hc <- Hn HQ. unfold recv. wp_step. apply wp_zoom. apply wp_worker_recv; [done|]. simpl. intros r e' Hr.
  destruct (calm_received _ _ _ _ _ _ Hc Hr) as [-> He']. simpl. wp_steps. by apply HQ.
Qed.
Lemma wp_recv_int {P} z i o e f g b j (Q : Z → reader → Prop) :
  calm_at P (int_bytes z ++ i) o e → is_s32 z →
  (∀ e', calm_at P i o e' → Q z (Reader e' f g b j)) → wp recv_int Q (Reader e f g b j).
Proof.
  intros Hc Hz HQ. unfold recv_int. wp_step. eapply wp_recv; [exact Hc|apply len_int_bytes|done|].
  intros e' He'. wp_step. rewrite int_value_bytes by done. by apply HQ.
Qed.
Lemma wp_recv_size {P} z i o e f g b j (Q : Z → reader → Prop) :
  calm_at P (size_bytes z ++ i) o e → is_u64 z →
  (∀ e', calm_at P i o e' → Q z (Reader e' f g b j)) → wp recv_size Q (Reader e f g b j).
Proof.
  intros Hc Hz HQ. unfold recv_size. wp_step. eapply wp_recv; [exact Hc|apply len_size_bytes|done|].
  intros e' He'. wp_step. rewrite size_value_bytes by done. by apply HQ.
Qed.
Lemma wp_recv_string {P} s i o e f g b j (Q : loc * list byte → reader → Prop) :
  calm_at P (string_message s ++ i) o e → name_ok s →
  (∀ a x e', b !! a = None → calm_at P i o e' → Q (a, s) (Reader e' f g (<[a := x]> b) j)) →
  wp recv_string Q (Reader e f g b j).
Proof.
  intros Hc [Hs Hn] HQ. unfold recv_string. unfold string_message in Hc. rewrite <- app_assoc in Hc.
  wp_step. eapply wp_recv_size; [exact Hc|unfold is_size, is_u64 in *; lia|]. intros e1 Hc1.
  wp_step. apply wp_malloc. intros a Ha. simpl in *.
  wp_step. eapply wp_recv; [exact Hc1|unfold c_string; by rewrite len_app|done|]. intros e2 Hc2.
  unfold c_string. rewrite bool_decide_eq_true_2 by (apply elem_of_app; right; constructor).
  wp_step. rewrite until_null_app by done. by apply HQ.
Qed.
Lemma wp_send_status {P} z i o e f g b j (Q : () → reader → Prop) :
  calm_at P i o e → (∀ e', calm_at P i (o ++ int_bytes z) e' → Q () (Reader e' f g b j)) →
  wp (send_status z) Q (Reader e f g b j).
Proof.
  intros Hc HQ. unfold send_status. wp_step. apply wp_zoom.
  apply wp_worker_send; [by eapply calm_no_sigpipe|by rewrite len_int_bytes|]. simpl. intros r e' Hs.
  destruct (calm_sent _ _ _ _ _ _ Hc Hs) as [_ ?]. wp_step. by apply HQ.
Qed.
Lemma wp_files {A} (m : M files A) a f f' e g b j (Q : A → reader → Prop) :
  m f = Some (a, f') → Q a (Reader e f' g b j) → wp (on_files m) Q (Reader e f g b j).
Proof. intros E HQ. apply wp_zoom. simpl. eapply wp_intro; [exact E|exact HQ]. Qed.

(** What a request leaves of the shared memory: all but the counters. *)
Definition same_ring (g g' : region (byte := byte)) : Prop :=
  rg_ring g' = rg_ring g ∧ rg_buffer_size g' = rg_buffer_size g ∧ rg_total_size g' = rg_total_size g ∧
  rg_offset g' = rg_offset g.

Lemma wp_report_hits e f g b j (Q : () → reader → Prop) :
  (∀ g', same_ring g g' → Q () (Reader e f g' b j)) → wp report_hits Q (Reader e f g b j).
Proof. intros HQ. unfold report_hits. wp_step. by apply HQ. Qed.
Lemma wp_limit_buffer n e f g b j (Q : Z → reader → Prop) :
  Q (Z.min n (rg_buffer_size g)) (Reader e f g b j) → wp (limit_buffer n) Q (Reader e f g b j).
Proof.
  intros HQ. unfold limit_buffer. wp_steps.
  replace (if (n >? rg_buffer_size g)%Z then rg_buffer_size g else n) with (Z.min n (rg_buffer_size g)); [done|].
  destruct (Z.gtb_spec n (rg_buffer_size g)); lia.
Qed.

Lemma wp_free_block a x b b' e f g j (Q : () → reader → Prop) :
  b = <[a := x]> b' → b' !! a = None → Q () (Reader e f g b' j) → wp (free blocks (Some a)) Q (Reader e f g b j).
Proof.
  intros -> Ha HQ. eapply wp_free; [apply lookup_insert_eq|]. simpl. by rewrite delete_insert_id.
Qed.

(** The values of an array that was sent. *)
Lemma sent_values n l :
  Forall is_u64 l → (0 ≤ n ≤ len l)%Z →
  hsize_values (Z.to_nat n) (hsize_bytes (take (Z.to_nat n) l)) = take (Z.to_nat n) l.
Proof.
  intros Hl Hn. unfold len in Hn.
  replace (Z.to_nat n) with (length (take (Z.to_nat n) l)) at 1 by (rewrite length_take; lia).
  apply hsize_values_bytes. by apply Forall_take.
Qed.
Lemma len_sent_values n l : (0 ≤ n ≤ len l)%Z → len (hsize_bytes (take (Z.to_nat n) l)) = (n * 8)%Z.
Proof. unfold len. intros. rewrite length_hsize_bytes, length_take. lia. Qed.

(** The handling of a stream: [P] is what it makes of the files and of what is
    kept of the streams; the rest of the reader is as before. *)
Context (stream : job → M reader R) (destroy : R → M reader ()).
Definition streamed (max : Z) (j : job) (f : files) (s : J) (P : files → J → Prop) : Prop :=
  ∀ e g b, rg_buffer_size g = max →
    wp (stream j) (λ r t, ∃ f1 s1, t = Reader e f1 g b s1 ∧
      ∀ b', wp (destroy r) (λ _ t', ∃ f2 s2, t' = Reader e f2 g b' s2 ∧ P f2 s2) (Reader e f1 g b' s1)) (Reader e f g b s).
Definition all_streamed (max : Z) (jobs : list job) (f : files) (s : J) (P : files → J → Prop) : Prop :=
  match jobs with [] => P f s | j :: _ => streamed max j f s P end.

Lemma wp_streamed max j f s P e g b b' (cleanup : M reader ()) (Q : () → reader → Prop) :
  streamed max j f s P → rg_buffer_size g = max →
  (∀ f1 s1 (Q' : () → reader → Prop), Q' () (Reader e f1 g b' s1) → wp cleanup Q' (Reader e f1 g b s1)) →
  (∀ f2 s2, P f2 s2 → Q () (Reader e f2 g b' s2)) →
  wp (let! result := stream j in do! cleanup in destroy result) Q (Reader e f g b s).
Proof.
  intros Hs Hg Hcl HQ. wp_step. eapply wp_mono; [by apply Hs|]. intros r t (f1 & s1 & -> & Hd). wp_step. apply Hcl.
  eapply wp_mono; [apply Hd|]. intros [] t (f2 & s2 & -> & HP). by apply HQ.
Qed.

Lemma wp_do_read_dataset {P} now fn d n rank st ct bs i o e f g b j c jobs f' S (Q : () → reader → Prop) :
  let q := DatasetRequest (Some fn) (Some d) n rank (Some st) (Some ct) bs in
  request_ok q → arguments_ok q = true → opens (rg_buffer_size g) now q f c jobs f' →
  all_streamed (rg_buffer_size g) jobs f' j S →
  calm_at P (string_message fn ++ string_message d ++ int_bytes rank ++ int_bytes n ++
        hsize_bytes (take (Z.to_nat (n * rank)) st) ++ hsize_bytes (take (Z.to_nat (n * rank)) ct) ++
        size_bytes bs ++ i) o e →
  (∀ e' g' f2 j2, calm_at P i (o ++ int_bytes c) e' → same_ring g g' → S f2 j2 → Q () (Reader e' f2 g' b j2)) →
  wp (do_read_dataset stream destroy now) Q (Reader e f g b j).
Proof.
  intros q Hq Ha Hopens Hst0 Hc HQ.
  destruct (arguments_bounds _ _ _ _ _ _ _ Ha) as (? & ? & ? & ? & _ & _ & _ & _ & Hr & Hn & Hs & Hsz & _).
  destruct Hq as (Hnames & Hn32 & Hr32 & Harr & Hbs).
  destruct (Harr st) as [Hst Hst64]; [by left|]. destruct (Harr ct) as [Hct Hct64]; [by right|].
  unfold do_read_dataset.
  wp_step. eapply wp_recv_string; [exact Hc|apply Hnames; by left|]. clear Hc e. intros a1 y1 e Hf1 Hc.
  wp_step. eapply wp_recv_string; [exact Hc|apply Hnames; by right|]. clear Hc e. intros a2 y2 e Hf2 Hc.
  wp_step. eapply wp_recv_int; [exact Hc|done|]. clear Hc e. intros e Hc.
  wp_step. eapply wp_recv_int; [exact Hc|done|]. clear Hc e. intros e Hc.
  wp_step. apply wp_malloc. simpl. intros a3 Hf3.
  wp_step. apply wp_malloc. simpl. intros a4 Hf4.
  unfold int_mul. rewrite (Z.mul_comm rank n), decide_True by done. wp_steps.
  rewrite u64_small by (unfold is_size, is_u64 in *; nia).
  eapply wp_recv; [exact Hc|apply len_sent_values; nia|by rewrite Z.mul_comm|]. clear Hc e. intros e Hc.
  wp_steps. rewrite (u64_small (n * rank * 8)) by (unfold is_size, is_u64 in *; nia).
  eapply wp_recv; [exact Hc|apply len_sent_values; nia|by rewrite Z.mul_comm|]. clear Hc e. intros e Hc.
  wp_step. eapply wp_recv_size; [exact Hc|done|]. clear Hc e. intros e Hc.
  wp_step. apply wp_limit_buffer. rewrite !sent_values by (done || nia).
  assert (∀ e f g j (Q : () → reader → Prop), Q () (Reader e f g b j) →
    wp (do! free blocks (Some a1) in do! free blocks (Some a2) in do! free blocks (Some a3) in free blocks (Some a4))
      Q (Reader e f g (<[a4 := u64 (8 * rank * n)]> (<[a3 := u64 (8 * rank * n)]> (<[a2 := y2]> (<[a1 := y1]> b)))) j)) as Hfree.
  { clear -Hf1 Hf2 Hf3 Hf4. intros e f g j Q HQ. rewrite !lookup_insert_None in *. destruct_and?.
    wp_step. eapply (wp_free_block a1 y1 _ (<[a4 := _]> (<[a3 := _]> (<[a2 := y2]> b)))).
    { by rewrite !(insert_insert_ne _ _ a1). }
    { by rewrite !lookup_insert_ne. }
    wp_step. eapply (wp_free_block a2 y2 _ (<[a4 := _]> (<[a3 := _]> b))).
    { by rewrite !(insert_insert_ne _ _ a2). }
    { by rewrite !lookup_insert_ne. }
    wp_step. eapply (wp_free_block a3 _ _ (<[a4 := _]> b)).
    { by rewrite !(insert_insert_ne _ _ a3). }
    { by rewrite !lookup_insert_ne. }
    eapply wp_free_block; [done|done|done]. }
  wp_step. inversion Hopens as [? ? ? E|? ? ? ? ? ? ? ? p f1 id ? E Ed Hid|? ? ? ? ? ? ? ? p f1 id ? E Ed Hid|]; subst;
    (eapply wp_files; [exact E|]); simpl.
  - wp_step. eapply wp_send_status; [exact Hc|]. intros e' Hc'. apply Hfree.
    by apply HQ.
  - wp_step. eapply wp_files; [exact Ed|]. wp_step. apply wp_report_hits. intros g' Hg'.
    replace (0 <=? id)%Z with false by lia. simpl.
    wp_step. eapply wp_send_status; [exact Hc|]. intros e' Hc'. apply Hfree.
    by apply HQ.
  - wp_step. eapply wp_files; [exact Ed|]. wp_step. apply wp_report_hits. intros g' Hg'.
    replace (0 <=? id)%Z with true by lia. simpl.
    wp_step. eapply wp_send_status; [exact Hc|]. intros e' Hc'.
    eapply wp_streamed; [exact Hst0|apply Hg'|intros; by apply Hfree|]. intros f2 j2 HS. by apply HQ.
Qed.

Lemma wp_do_read_object {P} now fn on depth bs limit i o e f g b j c jobs f' S (Q : () → reader → Prop) :
  let q := ObjectRequest (Some fn) (Some on) depth bs limit in
  request_ok q → opens (rg_buffer_size g) now q f c jobs f' →
  all_streamed (rg_buffer_size g) jobs f' j S →
  calm_at P (string_message fn ++ string_message on ++ int_bytes depth ++ size_bytes limit ++ size_bytes bs ++ i) o e →
  (∀ e' g' f2 j2, calm_at P i (o ++ int_bytes c) e' → same_ring g g' → S f2 j2 → Q () (Reader e' f2 g' b j2)) →
  wp (do_read_object stream destroy now) Q (Reader e f g b j).
Proof.
  intros q (Hnames & Hd & Hbs & Hlim) Hopens Hst0 Hc HQ. unfold do_read_object.
  wp_step. eapply wp_recv_string; [exact Hc|apply Hnames; by left|]. clear Hc e. intros a1 y1 e Hf1 Hc.
  wp_step. eapply wp_recv_string; [exact Hc|apply Hnames; by right|]. clear Hc e. intros a2 y2 e Hf2 Hc.
  wp_step. eapply wp_recv_int; [exact Hc|done|]. clear Hc e. intros e Hc.
  wp_step. eapply wp_recv_size; [exact Hc|done|]. clear Hc e. intros e Hc.
  wp_step. eapply wp_recv_size; [exact Hc|done|]. clear Hc e. intros e Hc.
  wp_step. apply wp_limit_buffer.
  assert (∀ e f g j (Q : () → reader → Prop), Q () (Reader e f g b j) →
    wp (do! free blocks (Some a1) in free blocks (Some a2)) Q (Reader e f g (<[a2 := y2]> (<[a1 := y1]> b)) j)) as Hfree.
  { clear -Hf1 Hf2. intros e f g j Q HQ. rewrite !lookup_insert_None in *. destruct_and?.
    wp_step. eapply (wp_free_block a1 y1 _ (<[a2 := y2]> b)).
    { by rewrite insert_insert_ne. }
    { by rewrite lookup_insert_ne. }
    eapply wp_free_block; [done|done|done]. }
  wp_step. inversion Hopens as [? ? ? E| | |? ? ? ? ? ? p ? en E Ee]; subst;
    (eapply wp_files; [exact E|]); simpl; wp_step; apply wp_report_hits; intros g' Hg'; simpl.
  - wp_step. eapply wp_send_status; [exact Hc|]. intros e' Hc'. apply Hfree.
    by apply HQ.
  - wp_step. eapply wp_send_status; [exact Hc|]. intros e' Hc'.
    wp_step. eapply (wp_files _ (fe_file_id en) f' f').
    { unfold bind, load. simpl. by rewrite Ee. }
    eapply wp_streamed; [exact Hst0|apply Hg'|intros; by apply Hfree|]. intros f2 j2 HS. by apply HQ.
Qed.

(** Whether the loop polls, and then its timeout is an [int]. *)
Definition timer_on (check expiry : Z) : bool := ((check >? 0) && (expiry >? 0))%Z.
Definition timer_ok (check expiry : Z) : Prop := timer_on check expiry = true → is_s32 (check * 1000).

(** The command of a request. *)
Lemma wp_command {P P'} check expiry z i o e f g b j (Q : Z * list byte → reader → Prop) :
  timer_ok check expiry → ready (timer_on check expiry) P P' → calm_at P (int_bytes z ++ i) o e →
  (∀ e', calm_at P' i o e' → Q (0%Z, int_bytes z) (Reader e' f g b j)) →
  wp (if timer_on check expiry then
        let! _ := int_mul check 1000 in on_pipe (worker_recv_with_timeout sizeof_int)
      else on_pipe (worker_recv sizeof_int)) Q (Reader e f g b j).
Proof.
  intros Ht Hr [Ha Hp Hi Ho Hb Hq] HQ. apply Hr in Hp.
  assert (∀ e, calm_at P' (int_bytes z ++ i) o e → wp (worker_recv sizeof_int) (λ r e', Q r (Reader e' f g b j)) e) as Hrecv.
  { intros e1 Hc1. apply wp_worker_recv; [done|]. rewrite <- (len_int_bytes z). intros r e' Hre.
    destruct (calm_received _ _ _ _ _ _ Hc1 Hre) as [-> ?]. auto. }
  unfold timer_ok in Ht. destruct (timer_on check expiry).
  - unfold int_mul. rewrite decide_True by auto. wp_step. wp_step. apply wp_zoom, wp_recv_with_timeout. simpl.
    destruct Hp as [-> Hp]. by apply Hrecv.
  - apply wp_zoom. by apply Hrecv.
Qed.

(** An iteration of the loop serves a request. *)
Lemma wp_main_loop_request {P P'} check expiry now q i o e f g b j c jobs f' S (Q : iteration → reader → Prop) :
  timer_ok check expiry → ready (timer_on check expiry) P P' →
  request_ok q → arguments_ok q = true → opens (rg_buffer_size g) now q f c jobs f' →
  all_streamed (rg_buffer_size g) jobs f' j S →
  calm_at P (request_bytes q ++ i) o e →
  (∀ e' g' f2 j2, calm_at P' i (o ++ int_bytes c) e' → same_ring g g' → S f2 j2 → Q Next (Reader e' f2 g' b j2)) →
  wp (main_loop_body stream destroy check expiry now) Q (Reader e f g b j).
Proof.
  intros Ht Hready Hq Ha Hopens Hst0 Hc HQ. unfold main_loop_body. fold (timer_on check expiry). wp_step.
  destruct q as [fn d n rank st ct bs|fn on depth bs limit].
  - destruct (arguments_bounds _ _ _ _ _ _ _ Ha) as (fn' & d' & st' & ct' & -> & -> & -> & -> & _).
    unfold request_bytes in Hc. rewrite <- !app_assoc in Hc.
    eapply wp_command; [done|exact Hready|exact Hc|]. clear e Hc. intros e Hc. cbn [fst snd].
    rewrite andb_false_r, int_value_bytes by done. simpl. wp_step. eapply wp_do_read_dataset; [done..|exact Hc|].
    intros e' g' f2 j2 He' Hg' HS. wp_step. by apply HQ.
  - destruct fn as [fn|], on as [on|]; [|done..].
    unfold request_bytes in Hc. rewrite <- !app_assoc in Hc.
    eapply wp_command; [done|exact Hready|exact Hc|]. clear e Hc. intros e Hc. cbn [fst snd].
    rewrite andb_false_r, int_value_bytes by done. simpl. wp_step. eapply wp_do_read_object; [done..|exact Hc|].
    intros e' g' f2 j2 He' Hg' HS. wp_step. by apply HQ.
Qed.

(** The results of [worker_recv] are not looked at: if a request is cut off
    after the length of the file name, because the library has ended, the reader
    goes on with a name that it has not got. *)
Lemma cut_request_undefined now n o e f g b j :
  (0 < n < 2 ^ 63)%Z → calm (size_bytes n) o e →
  do_read_dataset stream destroy now (Reader e f g b j) = None ∧ do_read_object stream destroy now (Reader e f g b j) = None.
Proof.
  intros Hn Hc. assert (recv_string (Reader e f g b j) = None) as E.
  { unfold recv_string.
    destruct (wp_recv_size (P := no_timeout) n [] o e f g b j (λ z r, z = n ∧ ∃ e', r = Reader e' f g b j ∧ calm [] o e'))
      as (z & r & E & -> & e' & -> & Hc'); [by rewrite app_nil_r|unfold is_u64; lia|by eauto|].
    rewrite (bind_Some _ _ _ _ _ E). unfold bind at 1. unfold malloc. cbn [heap_put blocks].
    set (a := fresh _). unfold bind at 1. unfold recv, bind, on_pipe, zoom. cbn [r_end].
    destruct (wp_worker_recv n e' (λ r _, r.1 = (-1)%Z)) as (r & e2 & E2 & Hr); [unfold is_size; lia| |].
    - intros r e2 [[Hi [[_ Hl]|[? _]]] _ _ _ _ _ _]; [|done]. rewrite (cm_in Hc') in Hi.
      symmetry in Hi. apply app_eq_nil in Hi as [Hi _]. rewrite Hi in Hl. unfold len in Hl. simpl in Hl. lia.
    - rewrite E2, Hr. done. }
  unfold do_read_dataset, do_read_object, bind. by rewrite E.
Qed.
End reader.

(** ** Both sides *)

Section main.
Context {T L : Type} `{!KVMap T (list byte) positive, !KVMapLaws T (list byte) positive}.
Context `{!H5Files (list byte) L, !H5FilesLaws (list byte) L}.
Abbreviation files := (L * file_cache T (list byte))%type.
Abbreviation library := (library (T := T) (L := L)).
Abbreviation reader := (reader (T := T) (L := L) (J := list job)).

(** When the jobs are recorded, an iteration adds those of its request. *)
Lemma wp_serve_iteration {P P'} check expiry now q i o e f g b j c jobs f' (Q : iteration → reader → Prop) :
  timer_ok check expiry → ready (timer_on check expiry) P P' →
  request_ok q → arguments_ok q = true → opens (rg_buffer_size g) now q f c jobs f' →
  calm_at P (request_bytes q ++ i) o e →
  (∀ e' g', calm_at P' i (o ++ int_bytes c) e' → same_ring g g' → Q Next (Reader e' f' g' b (j ++ jobs))) →
  wp (serve_iteration check expiry now) Q (Reader e f g b j).
Proof.
  intros Ht Hr Hq Ha Hop Hc HQ. unfold serve_iteration.
  eapply (wp_main_loop_request start_job ret check expiry now q i o e f g b j c jobs f' (λ f2 j2, f2 = f' ∧ j2 = j ++ jobs));
    [done..| |exact Hc|].
  - destruct Hop; simpl; [by rewrite app_nil_r..| |]; intros e1 g1 b1 _; unfold start_job; wp_step;
      (eexists _, _; split; [done|]; intros b'; wp_step; by eexists _, _).
  - intros e' g' f2 j2 He' Hg' [-> ->]. by apply HQ.
Qed.

Context (NR_BUFFERS : nat) (cap : Z) (bw bl : gmap Z h5_what) (mf md : nat).

(** Between requests: nothing is in the pipes and nothing goes wrong with
    them, the shadow copy agrees with the reader's cache, the ring can be
    reset. *)
Record quiet (s : library * reader) : Prop := {
  qu_link : calm_link [] [] (l_link s.1);
  qu_end : calm [] [] (r_end s.2);
  qu_agree : agree bw bl mf md (r_files s.2, l_shadow s.1);
  qu_ring : ring_usable NR_BUFFERS cap (l_srd s.1);
  qu_size : rg_buffer_size (l_srd s.1) = cap;
}.

Lemma opens_success max now q f c jobs f' :
  opens max now q f c jobs f' → is_s32 c ∧ success q c = negb (bool_decide (jobs = [])).
Proof. intros [q0 ? ? _| | |]; (split; [by vm_compute|]); [by destruct q0|done..]. Qed.

(** What the worker did to its cache, the library does to its copy. *)
Lemma agree_update nw nl q f sh c f' :
  0 < mf → 0 < md → agree bw bl mf md (f, sh) → open_request false nw (file_of q) (dataset_of q) f = Some (c, f') →
  wp (update_shadow true nl c (file_of q) (dataset_of q)) (λ _ sh', agree bw bl mf md (f', sh')) sh.
Proof.
  intros Hmf Hmd Ha E. pose proof (serve_request_agree bw bl mf md _ nw nl (file_of q) (dataset_of q) Hmf Hmd Ha) as Hs.
  unfold serve_request in Hs. apply wp_bind_inv in Hs.
  destruct Hs as (c1 & s1 & E1 & ([] & s2 & E2 & Hag)). unfold zoom in E1, E2. simpl in E1. rewrite E in E1.
  injection E1 as <- <-. simpl in E2. destruct (update_shadow _ _ _ _ _ sh) as [[[] sh']|] eqn:E3; [|done].
  injection E2 as <-. exists (), sh'. split; [done|exact Hag].
Qed.

Lemma calm_in i i' o e : calm i o e → calm i' o (set_in i' e).
Proof. intros [Ha Hp Hi Ho Hb Hq]. by split. Qed.
Lemma calm_out i o o' e : calm i o e → calm i o' (set_out o' e).
Proof. intros [Ha Hp Hi Ho Hb Hq]. by split. Qed.

Lemma calm_link_ok i o k : calm_link i o k → link_ok k.
Proof. intros [Hd [_ _ _ _ _ Hq]]. split; [done|congruence]. Qed.

Lemma agree_shadow f sh : agree bw bl mf md (f, sh) → ∃ ws, fc_state true bl mf md ws sh.
Proof. intros (vs & ws & _ & Hw & _). by exists ws. Qed.

(** A request from the call to the return, when no call on the pipes fails. *)
Lemma wp_serve_open check expiry nw nl q l e f g b j c jobs f' :
  timer_ok check expiry → quiet (l, Reader e f g b j) → l_idle l = true → l_held l = false →
  request_ok q → arguments_ok q = true → opens cap nw q f c jobs f' → 0 < mf → 0 < md →
  wp (serve_open NR_BUFFERS check expiry nw nl q) (λ r s', r_files s'.2 = f' ∧ r_jobs s'.2 = j ++ jobs ∧
    (is_Some r ↔ jobs ≠ []) ∧ stream_result NR_BUFFERS cap l r s'.1 ∧ r_blocks s'.2 = b ∧ quiet s' ∧
    l_idle s'.1 = l_idle l) (l, Reader e f g b j).
Proof.
  intros Ht Hs Hidle Hheld Hq Ha Hop Hmf Hmd. destruct Hs as [Hk He Hag Hring Hsize]. simpl in *.
  destruct (opens_success _ _ _ _ _ _ _ Hop) as [Hc32 Hsucc].
  unfold serve_open. wp_step. apply wp_zoom.
  eapply wp_open_begin; [by eapply calm_link_ok|done|exact Hring|done|intros [?|?]; simpl in *; congruence|].
  intros r k g1 h st _ l' Hres Hk1 Hring1 Hb1 Hsz1 _ Hcalm. subst l'. cbn [fst snd] in *.
  destruct (Hcalm [] [] Hk) as [[sp ->] [Hdead Hk2]]. wp_step. wp_step. cbn [deliver_request l_link r_end r_files l_srd].
  wp_step. apply wp_zoom. cbn [fst snd].
  rewrite (cm_in He), (cm_out Hk2), app_nil_l.
  eapply (wp_serve_iteration check expiry nw q []); [done|apply ready_no_timeout|done|done|cbn; rewrite Hsz1, Hsize; exact Hop|rewrite app_nil_r; by eapply calm_in|].
  intros e2 g2 He2 (Hg2 & Hsz2 & _). wp_step. wp_step. apply wp_zoom.
  cbn [deliver_answer l_link r_end r_files l_srd r_srd lk_end lk_is_dead lk_waited l_shadow l_idle l_held l_streams r_blocks r_jobs fst snd].
  assert (calm_link (int_bytes c) [] (Link (set_in (ep_in (set_out [] (lk_end k)) ++ ep_out e2) (set_out [] (lk_end k))) (lk_is_dead k) (lk_waited k))) as Hk3.
  { split; [done|]. simpl. rewrite (cm_in Hk2), (cm_out He2). by eapply calm_in, calm_out. }
  eapply (wp_open_finish NR_BUFFERS cap nl q sp l _ (λ c1 sh', c1 = c → agree bw bl mf md (f', sh')));
    [by eapply calm_link_ok| | |].
  - destruct Hres as (? & ? & ? & Hfr). split_and!; [done|done|done|]. cbn. by rewrite Hg2.
  - cbn. intros c1. destruct (decide (c1 = c)) as [->|Hne].
    + eapply wp_mono; [by eapply (agree_update nw nl q f (l_shadow l) c); [..|by eapply opens_request]|]. by intros.
    + destruct (agree_shadow _ _ Hag) as [ws' Hw]. eapply wp_mono; [by eapply wp_update_shadow|]. by intros.
  - cbn. intros r k4 sh4 h4 st4 Hres4 Hk4 _ _ _ Hfin.
    destruct (Hfin c [] [] Hc32) as (Hk5 & Hag' & ->); [by rewrite app_nil_r|].
    split; [done|]. split; [done|]. split.
    { rewrite Hsucc. destruct jobs; simpl; by split. }
    split; [exact Hres4|]. split; [done|]. split; [|done]. split; cbn [fst snd l_link l_srd l_shadow r_end r_files].
    + done.
    + by eapply calm_out.
    + by apply Hag'.
    + unfold ring_usable. by rewrite Hg2.
    + congruence.
Qed.

(** C5: a request arrives as it was sent.  When no call on the pipes fails,
    however the bytes are split and whatever is interrupted, a request with
    valid arguments is read by the reader with the very arguments of the
    caller (the buffer size cut to the one of the ring), is answered from its
    cache, and starts the stream of exactly these arguments if and only if the
    caller gets a stream.  The pipes are empty then, the reader has freed its
    blocks, the shadow copy agrees with the reader's cache again, and without a
    stream the worker is given back. *)
Theorem request_served check expiry nw nl q s :
  0 < mf → 0 < md → timer_ok check expiry → quiet s → l_idle s.1 = true → l_held s.1 = false →
  request_ok q → arguments_ok q = true →
  ∃ r s' c jobs, serve_open NR_BUFFERS check expiry nw nl q s = Some (r, s') ∧
    opens cap nw q (r_files s.2) c jobs (r_files s'.2) ∧
    r_jobs s'.2 = r_jobs s.2 ++ jobs ∧ (is_Some r ↔ jobs ≠ []) ∧
    stream_result NR_BUFFERS cap s.1 r s'.1 ∧ r_blocks s'.2 = r_blocks s.2 ∧ quiet s'.
Proof.
  intros Hmf Hmd Ht Hs Hidle Hheld Hq Ha. destruct s as [l [e f g b j]]. simpl in *.
  destruct (qu_agree _ Hs) as (vs & ws & Hv & _).
  destruct (opens_total bw mf md vs cap nw q f Hv Hmf Hmd Ha) as (c & jobs & f' & Hop & _).
  destruct (wp_serve_open check expiry nw nl q l e f g b j c jobs f') as (r & s' & E & <- & ? & ? & ? & ? & ? & _); [done..|].
  by exists r, s', c, jobs.
Qed.

(** What opening a stream leaves of the library [l], whatever the worker and the
    operating system do. *)
Definition left_in_order (q : request) (l : library) (r : option loc) (l' : library) : Prop :=
  stream_result NR_BUFFERS cap l r l' ∧ link_ok (l_link l') ∧
  ep_blocked (lk_end (l_link l')) = ep_blocked (lk_end (l_link l)) ∧
  ring_usable NR_BUFFERS cap (l_srd l') ∧ (∃ ws', fc_state true bl mf md ws' (l_shadow l')) ∧
  (is_Some r → ep_out (lk_end (l_link l')) = ep_out (lk_end (l_link l)) ++ request_bytes q) ∧
  (arguments_ok q = false → r = None ∧ l' = l).
Lemma wp_open_stream now q (l : library) ws :
  0 < mf → 0 < md → link_ok (l_link l) → l_held l = false → ring_usable NR_BUFFERS cap (l_srd l) →
  fc_state true bl mf md ws (l_shadow l) → request_ok q →
  wp (open_stream NR_BUFFERS now q) (left_in_order q l) l.
Proof.
  intros Hmf Hmd Hl Hheld Hring Hws Hq.
  unfold open_stream. wp_step. apply (wp_open_begin NR_BUFFERS cap); [done..| |].
  { intros _. wp_step. split; [done|]. split; [exact Hl|]. split; [done|]. split; [done|]. split; [by eexists|].
    split; [by intros []|done]. }
  intros r k g h st Ha l' Hres Hk Hring' Hb _ Ho _. subst l'. destruct r as [s|].
  - eapply (wp_open_finish NR_BUFFERS cap now q s l _ (λ _ sh, ∃ ws', fc_state true bl mf md ws' sh));
      [done|exact Hres| |].
    { intros c. by eapply wp_update_shadow. }
    cbn. intros r k' f h' st' Hres' Hk' Hb' Ho' Hf _. split; [exact Hres'|]. split; [exact Hk'|].
    split; [cbn; congruence|]. split; [done|]. split; [|split; [|congruence]]; cbn.
    + destruct Hf as [->|[_ Hf]]; [by eexists|done].
    + intros _. rewrite Ho'. apply Ho. by eexists.
  - wp_step. split; [exact Hres|]. split; [exact Hk|]. split; [done|]. split; [done|]. split; [by eexists|].
    split; [by intros []|congruence].
Qed.

(** C7: opening a stream leaves the library in order, whatever happens.  For
    any worker (it may be dead, die at any time, or answer anything), any
    answers of the operating system and any arguments, the call returns; the
    process is not ended by SIGPIPE and its signal mask is as before.  With NULL
    the worker was given back to the pool and the stream was freed; otherwise
    there is one new stream, on a ring that is ready, whose worker this thread
    holds.  Invalid arguments change nothing.  The shadow copy stays a valid
    cache. *)
Theorem open_stream_robust now q (l : library) ws :
  0 < mf → 0 < md → ep_pending (lk_end (l_link l)) = false →
  (lk_is_dead (l_link l) = true → lk_waited (l_link l) = true) →
  l_held l = false → ring_usable NR_BUFFERS cap (l_srd l) →
  fc_state true bl mf md ws (l_shadow l) → request_ok q →
  ∃ r l', open_stream NR_BUFFERS now q l = Some (r, l') ∧ stream_result NR_BUFFERS cap l r l' ∧
    ep_pending (lk_end (l_link l')) = false ∧ ep_blocked (lk_end (l_link l')) = ep_blocked (lk_end (l_link l)) ∧
    ring_usable NR_BUFFERS cap (l_srd l') ∧ (∃ ws', fc_state true bl mf md ws' (l_shadow l')) ∧
    (is_Some r → ep_out (lk_end (l_link l')) = ep_out (lk_end (l_link l)) ++ request_bytes q) ∧
    (arguments_ok q = false → r = None ∧ l' = l).
Proof.
  intros Hmf Hmd Hp Hw Hheld Hring Hws Hq. assert (link_ok (l_link l)) as Hl by by split.
  destruct (wp_open_stream now q l ws Hmf Hmd Hl Hheld Hring Hws Hq) as (r & l' & E & Hres & [Hk _] & ?).
  by exists r, l'.
Qed.
End main.

(** ** A library and a reader *)

(** Files and datasets that are named by strings; those with an empty name
    cannot be opened. *)
#[export] Instance string_files : H5Files (list byte) (gset Z) := {|
  h5_what := unit;
  h5_file _ := ();
  h5_member _ _ := ();
  H5Fopen name := table_open (match name with [] => -1 | _ => 1 end)%Z;
  H5Fclose := table_close;
  H5Dopen _ name := table_open (match name with [] => -1 | _ => 1 end)%Z;
  H5Dclose := table_close;
  h5_handles s := gset_to_gmap () s;
|}.
#[export] Instance string_files_laws : H5FilesLaws (list byte) (gset Z).
Proof.
  split.
  - intros s name Q HQ. destruct (table_opened s (match name with [] => -1 | _ => 1 end)%Z) as (r & s' & E & Hop). exists r, s'. auto.
  - intros s f w name Q _ HQ. destruct (table_opened s (match name with [] => -1 | _ => 1 end)%Z) as (r & s' & E & Hop). exists r, s'. auto.
  - exact table_closed.
  - exact table_closed.
Qed.
#[export] Instance strcmp_order : CmpOrder strcmp.
Proof. split; [apply strcmp_eq|apply strcmp_opp|apply strcmp_trans]. Qed.

Module RequestDemo.
(** The caches are kept in AVL trees ordered by [strcmp]. *)
#[export] Instance names : KVMap (avltree (list byte) positive) (list byte) positive := avl_kvmap strcmp.
#[export] Instance names_laws : KVMapLaws (avltree (list byte) positive) (list byte) positive := avl_kvmap_laws strcmp.

Definition ring : region (byte := byte) :=
  Region 0 4 0 0 [0; 4]%Z (Shared 0 [Buffer 3 0 1 0 (repeat x00 4); Buffer 0 1 0 0 (repeat x00 4)]).
(** The calls are cut short and interrupted. *)
Definition lib : library (T := avltree (list byte) positive) (L := gset Z) :=
  Library (Link (Endpoint [Moves 3; Errno EINTR; Moves 7; Moves 1; Errno EINTR] [] [] [] false false) false false)
    (∅, file_cache_new 2 1) ring true false ∅.
Definition worker : reader (T := avltree (list byte) positive) (L := gset Z) (J := list job) :=
  Reader (Endpoint [Moves 2; Errno EINTR; Moves 5] [PollErrno EINTR] [] [] false false) (∅, file_cache_new 2 1) ring ∅ [].
Definition dataset : request :=
  DatasetRequest (Some (lit "a.h5")) (Some (lit "x")) 2 1 (Some [0; 5; 99]%Z) (Some [3; 4; 99]%Z) 1000.

Lemma dataset_ok : request_ok dataset.
Proof.
  split; [|split; [done|split; [done|split; [|done]]]].
  - intros s [[= <-]|[= <-]]; (split; [by apply (bool_decide_eq_true_1 _); vm_compute|done]).
  - intros a [[= <-]|[= <-]]; (split; [done|]); repeat apply Forall_cons_2; try apply Forall_nil_2; done.
Qed.
Lemma usable : ring_usable 2 4 ring.
Proof. split; [done|]. repeat apply Forall_cons_2; try apply Forall_nil_2; done. Qed.
Lemma is_quiet : quiet 2 4 ∅ ∅ 2 1 (lib, worker).
Proof.
  split; [| | |exact usable|done].
  - split; [done|]. split; try done; repeat constructor.
  - split; try done; repeat constructor; done.
  - exists [], []. split_and!; [exact (fc_state_new false (∅ : gset Z) 2 1)|exact (fc_state_new true (∅ : gset Z) 2 1)|done|constructor..].
Qed.

(** The request as it is served. *)
Lemma served :
  (match serve_open 2 10 10 100 200 dataset (lib, worker) with
   | Some (Some _, (l, r)) => bool_decide (r_jobs r = [DatasetJob 2 1 2 [0; 5] [3; 4] 4]%Z) && l_held l
   | _ => false
   end) = true.
Proof. by vm_compute. Qed.
End RequestDemo.
Import RequestDemo.

Lemma request_served_witness :
  ∃ r s' c jobs, serve_open 2 10 10 100 200 RequestDemo.dataset (RequestDemo.lib, RequestDemo.worker) = Some (r, s') ∧
    opens 4 100 RequestDemo.dataset (r_files RequestDemo.worker) c jobs (r_files s'.2) ∧
    r_jobs s'.2 = r_jobs RequestDemo.worker ++ jobs ∧ (is_Some r ↔ jobs ≠ []) ∧
    stream_result 2 4 RequestDemo.lib r s'.1 ∧ r_blocks s'.2 = r_blocks RequestDemo.worker ∧ quiet 2 4 ∅ ∅ 2 1 s'.
Proof.
  apply (request_served 2 4 ∅ ∅ 2 1 10 10 100 200 RequestDemo.dataset (RequestDemo.lib, RequestDemo.worker));
    [lia|lia|by intros _|exact RequestDemo.is_quiet|reflexivity|reflexivity|exact RequestDemo.dataset_ok|reflexivity].
Defined.

(** The worker ends while the request is sent. *)
Definition dying : library (T := avltree (list byte) positive) (L := gset Z) :=
  Library (Link (Endpoint [Moves 4; Moves 8; Errno EPIPE] [] [] [] false false) false false)
    (∅, file_cache_new 2 1) RequestDemo.ring true false ∅.
Lemma open_stream_robust_witness :
  (match open_stream 2 200 RequestDemo.dataset dying with
   | Some (None, l) => lk_is_dead (l_link l) && negb (l_held l)
   | _ => false
   end) = true ∧
  ∃ r l', open_stream 2 200 RequestDemo.dataset dying = Some (r, l') ∧ stream_result 2 4 dying r l' ∧
    ep_pending (lk_end (l_link l')) = false ∧ ep_blocked (lk_end (l_link l')) = ep_blocked (lk_end (l_link dying)) ∧
    ring_usable 2 4 (l_srd l') ∧ (∃ ws', fc_state true ∅ 2 1 ws' (l_shadow l')) ∧
    (is_Some r → ep_out (lk_end (l_link l')) = ep_out (lk_end (l_link dying)) ++ request_bytes RequestDemo.dataset) ∧
    (arguments_ok RequestDemo.dataset = false → r = None ∧ l' = dying).
Proof.
  split; [by_vm|].
  apply (open_stream_robust 2 4 ∅ 2 1 200 RequestDemo.dataset dying []);
    [lia|lia|reflexivity|intros [=]|reflexivity|exact RequestDemo.usable|
     exact (fc_state_new true (∅ : gset Z) 2 1)|exact RequestDemo.dataset_ok].
Defined.
