(* ===== verification/Startup.v ===== *)
(** * Starting and ending a reader process

    src/src/util/shared_memory.c, the functions of
    src/src/util/worker_process.c that start and end a process, the callbacks
    of src/src/lib/reader_data.c that prepare its shared memory, and the first
    part of [main] in src/src/reader/hdfstream_reader.c.  The resources of the
    operating system they use are tables; every call that may fail asks a list
    of answers. *)
From Stdlib Require Import Strings.Byte Strings.String.
From stdpp Require Import base tactics numbers list gmap.
From S2P Require Import Prelude Bytes Pipe Stream SharedData MapInterface OrderedMap Caches DatasetCache FileCache.

(** ** The operating system *)

(** What a file descriptor refers to. *)
Inductive descriptor := DShm (object : positive) | DPipe.

(** [struct shared_memory] *)
Record shared_memory := Shm {
  sm_name : list byte;
  sm_fd : positive;
  sm_data : positive;
  sm_size : Z;
}.

(** What a process sees: whether its next calls succeed; the names and sizes of
    the shared memory objects of the machine; its open descriptors; its
    mappings of objects, with their lengths; and the structs of shared_memory.c
    it has allocated. *)
Record host := Host {
  o_answers : list bool;
  o_names : gmap (list byte) positive;
  o_sizes : gmap positive Z;
  o_fds : gmap positive descriptor;
  o_maps : gmap positive (positive * Z);
  o_structs : gmap positive shared_memory;
}.
Definition set_answers (a : list bool) h := Host a (o_names h) (o_sizes h) (o_fds h) (o_maps h) (o_structs h).
Definition set_names n h := Host (o_answers h) n (o_sizes h) (o_fds h) (o_maps h) (o_structs h).
Definition set_sizes s h := Host (o_answers h) (o_names h) s (o_fds h) (o_maps h) (o_structs h).

Definition fds : heap_of host descriptor :=
  HeapOf o_fds (λ f h, Host (o_answers h) (o_names h) (o_sizes h) f (o_maps h) (o_structs h)).
Definition maps : heap_of host (positive * Z) :=
  HeapOf o_maps (λ m h, Host (o_answers h) (o_names h) (o_sizes h) (o_fds h) m (o_structs h)).
Definition structs : heap_of host shared_memory :=
  HeapOf o_structs (λ s h, Host (o_answers h) (o_names h) (o_sizes h) (o_fds h) (o_maps h) s).

Definition os_ok : M host bool := λ h,
  match o_answers h with
  | [] => Some (true, h)
  | a :: l => Some (a, set_answers l h)
  end.

(** [shm_open(name, O_CREAT | O_EXCL | O_RDWR, ...)]: a new object of size 0. *)
Definition shm_create (name : list byte) : M host (option loc) :=
  let! ok := os_ok in
  let! names := gets o_names in
  let! sizes := gets o_sizes in
  match names !! name with
  | Some _ => ret None
  | None =>
      if (ok : bool) then
        let object := fresh (dom sizes) in
        do! modify (set_names (<[name := object]> names)) in
        do! modify (set_sizes (<[object := 0%Z]> sizes)) in
        let! fd := malloc fds (DShm object) in ret (Some fd)
      else ret None
  end.
(** [shm_open(name, O_RDWR, ...)] *)
Definition shm_open (name : list byte) : M host (option loc) :=
  let! ok := os_ok in
  let! names := gets o_names in
  match names !! name with
  | Some object => if (ok : bool) then let! fd := malloc fds (DShm object) in ret (Some fd) else ret None
  | None => ret None
  end.
Definition ftruncate (fd : loc) (size : Z) : M host Z :=
  let! ok := os_ok in
  let! d := load fds (Some fd) in
  match d with
  | DShm object =>
      if (ok : bool) then
        let! sizes := gets o_sizes in
        do! modify (set_sizes (<[object := size]> sizes)) in ret 0%Z
      else ret (-1)%Z
  | DPipe => ret (-1)%Z
  end.
Definition mmap (size : Z) (fd : loc) : M host (option loc) :=
  let! ok := os_ok in
  let! d := load fds (Some fd) in
  match d with
  | DShm object =>
      if (ok : bool) then let! a := malloc maps (object, size) in ret (Some a) else ret None
  | DPipe => ret None
  end.
Definition shm_unlink (name : list byte) : M host Z :=
  let! names := gets o_names in
  match names !! name with
  | Some _ => do! modify (set_names (delete name names)) in ret 0%Z
  | None => ret (-1)%Z
  end.
(** Only what is open is closed, only what is mapped is unmapped. *)
Definition close (fd : loc) : M host () := free fds (Some fd).
Definition munmap (data : loc) : M host () := free maps (Some data).

(** ** shared_memory.c *)

Definition shared_memory_new (name : list byte) (size : Z) : M host ptr :=
  let! fd := shm_create name in
  match fd with
  | None => ret None
  | Some fd =>
      let! r := ftruncate fd size in
      if (r <? 0)%Z then let! _ := shm_unlink name in do! close fd in ret None else
      let! data := mmap size fd in
      match data with
      | None => let! _ := shm_unlink name in do! close fd in ret None
      | Some data => let! sm := malloc structs (Shm name fd data size) in ret (Some sm)
      end
  end.

Definition shared_memory_map (name : list byte) (size : Z) : M host ptr :=
  let! fd := shm_open name in
  match fd with
  | None => ret None
  | Some fd =>
      let! data := mmap size fd in
      match data with
      | None => do! close fd in ret None
      | Some data => let! sm := malloc structs (Shm name fd data size) in ret (Some sm)
      end
  end.

Definition shared_memory_unlink (sm : ptr) : M host Z :=
  let! s := load structs sm in shm_unlink (sm_name s).

Definition shared_memory_unmap (sm : ptr) : M host () :=
  let! s := load structs sm in
  do! munmap (sm_data s) in
  do! close (sm_fd s) in
  free structs sm.

(** ** reader_data.c *)

Section startup.
Context {T L : Type} `{!KVMap T (list byte) positive, !KVMapLaws T (list byte) positive}.
Context `{!H5Files (list byte) L, !H5FilesLaws (list byte) L}.
Abbreviation files := (L * file_cache T (list byte))%type.

(** [struct reader_data] *)
Record reader_data := RData {
  rd_file_cache : option files;
  rd_sm : ptr;
}.

(** What [struct worker_process] holds besides the link, and the parent process:
    [p_srd] is what is in the shared memory it creates. *)
Record worker_struct := WStruct {
  w_input : positive;   (* the end of the input pipe that the parent keeps *)
  w_output : positive;
  w_data : ptr;
}.
Record parent := Parent {
  p_host : host;
  p_link : link;
  p_running : bool;     (* the child process exists *)
  p_readers : gmap positive reader_data;
  p_workers : gmap positive worker_struct;
  p_srd : region (byte := byte);
  p_h5 : L;
}.
Definition on_host {A} : M host A → M parent A :=
  zoom p_host (λ h p, Parent h (p_link p) (p_running p) (p_readers p) (p_workers p) (p_srd p) (p_h5 p)).
Definition on_link {A} : M link A → M parent A :=
  zoom p_link (λ k p, Parent (p_host p) k (p_running p) (p_readers p) (p_workers p) (p_srd p) (p_h5 p)).
Definition readers : heap_of parent reader_data :=
  HeapOf p_readers (λ r p, Parent (p_host p) (p_link p) (p_running p) r (p_workers p) (p_srd p) (p_h5 p)).
Definition workers : heap_of parent worker_struct :=
  HeapOf p_workers (λ w p, Parent (p_host p) (p_link p) (p_running p) (p_readers p) w (p_srd p) (p_h5 p)).
Definition set_running (b : bool) : M parent () :=
  modify (λ p, Parent (p_host p) (p_link p) b (p_readers p) (p_workers p) (p_srd p) (p_h5 p)).
Definition set_link (k : link) : M parent () :=
  modify (λ p, Parent (p_host p) k (p_running p) (p_readers p) (p_workers p) (p_srd p) (p_h5 p)).
Definition set_data (d : ptr) (w : worker_struct) : worker_struct := WStruct (w_input w) (w_output w) d.
Definition set_sm (sm : ptr) (r : reader_data) : reader_data := RData (rd_file_cache r) sm.

Definition MAX_SM_NAME_LENGTH : Z := 1024.
(** Set when the library is built. *)
Context (struct_size : Z) (NR_BUFFERS : nat) (HDFSTREAM_MAX_BUFFER_SIZE : Z).
(** [getpid()], and the numbers that are the arguments of the reader. *)
Context (parent_pid max_open_files max_open_datasets : Z).

Definition populate : M parent () :=
  let! srd := gets p_srd in
  let! srd := lift (shared_data_populate struct_size NR_BUFFERS srd HDFSTREAM_MAX_BUFFER_SIZE) in
  modify (λ p, Parent (p_host p) (p_link p) (p_running p) (p_readers p) (p_workers p) srd (p_h5 p)).

Definition send (bs : list byte) : M parent Z := on_link (worker_process_send bs).

(** [snprintf(name, MAX_SM_NAME_LENGTH, "/hdfstream_%d_%d", parent_pid, child_pid)] *)
Definition region_name (child_pid : Z) : list byte :=
  snprintf MAX_SM_NAME_LENGTH (lit "/hdfstream_" ++ fmt_d parent_pid ++ lit "_" ++ fmt_d child_pid).

(** [worker->data] is the [struct hdfstream] at first, then NULL. *)
Definition reader_init (worker : loc) (child_pid : Z) : M parent Z :=
  do! store workers (Some worker) (set_data None) in
  let! r := on_link worker_default_init in
  if negb (r =? 0)%Z then ret (-1)%Z else
  let! rd := malloc readers (RData None None) in
  do! store workers (Some worker) (set_data (Some rd)) in
  let name := region_name child_pid in
  let total_size := shared_data_size struct_size NR_BUFFERS HDFSTREAM_MAX_BUFFER_SIZE in
  let! sm := on_host (shared_memory_new name total_size) in
  do! store readers (Some rd) (set_sm sm) in
  match sm with
  | None => ret (-1)%Z
  | Some _ =>
      let cleanup := let! _ := on_host (shared_memory_unlink sm) in ret (-1)%Z in
      do! populate in
      let len := u64 (len name + 1) in
      check! send (size_bytes total_size) else cleanup in
      check! send (size_bytes len) else cleanup in
      check! send (name ++ [x00]) else cleanup in
      let! ack := on_link (worker_process_recv sizeof_int) in
      if negb (ack.1 =? 0)%Z then cleanup else
      if negb (int_value ack.2 =? 0)%Z then cleanup else
      let! h5 := gets p_h5 in
      do! store readers (Some rd)
            (λ r, RData (Some (h5, file_cache_new max_open_files max_open_datasets)) (rd_sm r)) in
      let! _ := on_host (shared_memory_unlink sm) in
      ret 0%Z
  end.

(** [shared_data_free(rd->sm->data);] *)
Definition destroy_semaphores (sm : loc) : M parent () :=
  let! s := on_host (load structs (Some sm)) in
  let! _ := on_host (load maps (Some (sm_data s))) in
  let! srd := gets p_srd in
  let! ring := lift (shared_data_free NR_BUFFERS (rg_ring srd)) in
  modify (λ p, Parent (p_host p) (p_link p) (p_running p) (p_readers p) (p_workers p)
    (Region (rg_total_size srd) (rg_buffer_size srd) (rg_nr_file_cache_hits srd) (rg_nr_file_cache_misses srd)
       (rg_offset srd) ring) (p_h5 p)).

Definition reader_shutdown (worker : loc) : M parent () :=
  let! w := load workers (Some worker) in
  match w_data w with
  | None => ret ()
  | Some rd =>
      let! r := load readers (Some rd) in
      do! match rd_sm r with
          | None => ret ()
          | Some sm => do! destroy_semaphores sm in on_host (shared_memory_unmap (Some sm))
          end in
      do! match rd_file_cache r with
          | None => ret ()
          | Some f => let! _ := lift (file_cache_free true f) in ret ()
          end in
      free readers (Some rd)
  end.

(** ** worker_process.c *)

(** [pipe()]: the ends for reading and for writing. *)
Definition pipe : M host (option (loc * loc)) :=
  let! ok := os_ok in
  if (ok : bool) then
    let! r := malloc fds DPipe in let! w := malloc fds DPipe in ret (Some (r, w))
  else ret None.

(** [while(waited < 200)]: whether the process has ended after a SIGTERM. *)
Fixpoint wait_exit (n : nat) : M host bool :=
  match n with
  | 0 => ret false
  | S n => let! exited := os_ok in if (exited : bool) then ret true else wait_exit n
  end.

Definition worker_process_free (worker : loc) : M parent () :=
  let! is_dead := gets (λ p, lk_is_dead (p_link p)) in
  do! when (negb is_dead)
        (* SIGTERM; then, if it was not enough, SIGKILL and [waitpid] *)
        (let! _ := on_host (wait_exit 200) in set_running false) in
  let! w := load workers (Some worker) in
  do! on_host (close (w_input w)) in
  do! on_host (close (w_output w)) in
  do! reader_shutdown worker in
  free workers (Some worker).

(** The worker of a process with the given id; [e]: the pipes as the parent will
    see them. *)
Definition worker_process_new (child_pid : Z) (e : endpoint) : M parent ptr :=
  let! worker := malloc workers (WStruct 1 1 None) in
  let! input_pipe := on_host pipe in
  match input_pipe with
  | None => do! free workers (Some worker) in ret None
  | Some (in_read, in_write) =>
      let! output_pipe := on_host pipe in
      match output_pipe with
      | None => do! free workers (Some worker) in ret None
      | Some (out_read, out_write) =>
          let! forked := on_host os_ok in
          if negb forked then do! free workers (Some worker) in ret None else
          do! set_running true in
          do! set_link (Link e false false) in
          do! store workers (Some worker) (λ w, WStruct in_write out_read (w_data w)) in
          do! on_host (close in_read) in
          do! on_host (close out_write) in
          let! r := reader_init worker child_pid in
          if negb (r =? 0)%Z then do! worker_process_free worker in ret None
          else ret (Some worker)
      end
  end.

(** ** The first part of [main] *)

Record starting := Starting {
  st_end : endpoint;
  st_host : host;
  st_blocks : gmap positive Z;
}.
Definition on_end {A} : M endpoint A → M starting A :=
  zoom st_end (λ e s, Starting e (st_host s) (st_blocks s)).
Definition on_child_host {A} : M host A → M starting A :=
  zoom st_host (λ h s, Starting (st_end s) h (st_blocks s)).
Definition st_heap : heap_of starting Z := HeapOf st_blocks (λ b s, Starting (st_end s) (st_host s) b).
(** As in Requests.v: what is not received is not initialized. *)
Definition recv (n : Z) : M starting (list byte) :=
  let! r := on_end (worker_recv n) in if (r.1 =? 0)%Z then ret r.2 else ub.

(** [if((max_open_files < 1 ) || ...)return 1;] *)
Definition reader_arguments_ok (check_interval expiry_interval : Z) : bool :=
  negb ((max_open_files <? 1) || (max_open_datasets <? 1))%Z && negb (check_interval <? 0)%Z &&
  negb (expiry_interval <? 0)%Z.

(** The shared memory and the file cache with which the loop starts; [None]: the
    arguments are wrong. *)
Definition reader_start (check_interval expiry_interval : Z) : M starting (option (loc * file_cache T (list byte))) :=
  if negb (reader_arguments_ok check_interval expiry_interval) then ret None else
  do! on_end worker_init in
  let fc := file_cache_new max_open_files max_open_datasets in
  let! total_size := recv sizeof_size_t in
  let! len := recv sizeof_size_t in
  let! name := malloc st_heap (size_value len) in
  let! bs := recv (size_value len) in
  do! assertM (bool_decide (x00 ∈ bs)) in
  let! sm := on_child_host (shared_memory_map (until_null bs) (size_value total_size)) in
  match sm with
  | None => ub (* assert(sm) *)
  | Some sm =>
      do! free st_heap (Some name) in
      let! _ := on_end (worker_send (int_bytes 0)) in
      ret (Some (sm, fc))
  end.
End startup.
