(* ===== verification/StartupMain.v ===== *)
(** * Starting and ending a reader process: the theorems

    Starting a process is all or nothing for the library, and when no call
    fails the process that was started maps the memory that the library made. *)
From Stdlib Require Import Strings.Byte Strings.String.
From stdpp Require Import base tactics numbers list gmap.
From S2P Require Import Prelude Bytes Pipe Stream SharedData MapInterface OrderedMap Caches DatasetCache FileCache.
From S2P Require Import FileCacheProof FileCacheMain RequestsProof RequestsMain Startup AvlTree AvlMap.

(** ** shared_memory.c *)

Lemma wp_os_ok h (Q : bool → host → Prop) :
  (∀ b a, (o_answers h = [] → b = true ∧ a = []) → Q b (Startup.set_answers a h)) → wp os_ok Q h.
Proof.
  intros HQ. unfold os_ok, wp. destruct (o_answers h) as [|b a] eqn:E; eexists _, _; (split; [done|]).
  - specialize (HQ true []). destruct h; simpl in *; subst. by apply HQ.
  - by apply HQ.
Qed.

Lemma wp_os_ok_cases h (Q : bool → host → Prop) :
  (∀ b a, (o_answers h = [] → a = []) → (b = false → o_answers h = false :: a) → Q b (Startup.set_answers a h)) →
  wp os_ok Q h.
Proof.
  intros HQ. unfold os_ok, wp. destruct (o_answers h) as [|b a] eqn:E; eexists _, _; (split; [done|]).
  - specialize (HQ true []). destruct h; simpl in *; subst. by apply HQ.
  - apply HQ; [done|congruence].
Qed.

(** Either nothing is left, or there is a new object with a name, a descriptor
    and a mapping of the whole object. *)
Lemma wp_shared_memory_new name size h (Q : ptr → host → Prop) :
  (∀ a s, (o_answers h = [] → o_names h !! name ≠ None) →
     Q None (Host a (o_names h) s (o_fds h) (o_maps h) (o_structs h))) →
  (∀ a fd data object sm, o_names h !! name = None → o_fds h !! fd = None → o_maps h !! data = None →
     o_structs h !! sm = None →
     Q (Some sm) (Host a (<[name := object]> (o_names h)) (<[object := size]> (<[object := 0%Z]> (o_sizes h)))
       (<[fd := DShm object]> (o_fds h)) (<[data := (object, size)]> (o_maps h))
       (<[sm := Shm name fd data size]> (o_structs h)))) →
  wp (shared_memory_new name size) Q h.
Proof.
  intros Hno Hyes. unfold shared_memory_new, shm_create. wp_steps. apply wp_os_ok. intros ok a1 Ha1. wp_steps.
  destruct (o_names h !! name) as [ob|] eqn:Hn; [wp_steps; by apply Hno|].
  destruct ok; [|wp_steps; apply Hno; intros E; by destruct (Ha1 E)]. wp_steps. apply wp_malloc. simpl. intros fd Hfd. wp_steps.
  unfold ftruncate. wp_steps. apply wp_os_ok. intros ok a2 Ha2. simpl in Ha2. wp_steps.
  eapply wp_load; [apply lookup_insert_eq|].
  assert (∀ a s (Q : ptr → host → Prop), (∀ s', Q None (Host a (o_names h) s' (o_fds h) (o_maps h) (o_structs h))) →
    wp (let! _ := shm_unlink name in do! close fd in ret None) Q
      (Host a (<[name := fresh (dom (o_sizes h))]> (o_names h)) s (<[fd := DShm (fresh (dom (o_sizes h)))]> (o_fds h))
         (o_maps h) (o_structs h))) as Hundo.
  { clear -Hn Hfd. intros a s Q HQ. unfold shm_unlink, close. wp_steps. rewrite lookup_insert_eq. wp_steps.
    eapply wp_free; [apply lookup_insert_eq|]. simpl. wp_step. rewrite !delete_insert_id by done. apply HQ. }
  destruct ok; [|wp_step; simpl; apply Hundo; intros; apply Hno; intros E; destruct (Ha1 E) as [_ ->]; by destruct (Ha2 eq_refl)]. wp_steps.
  unfold mmap. wp_steps. apply wp_os_ok. intros ok a3 Ha3. simpl in Ha3. wp_steps. eapply wp_load; [apply lookup_insert_eq|].
  destruct ok; [|wp_step; simpl; apply Hundo; intros; apply Hno; intros E; destruct (Ha1 E) as [_ ->]; destruct (Ha2 eq_refl) as [_ ->]; by destruct (Ha3 eq_refl)].
  wp_steps. apply wp_malloc. simpl. intros data Hd. wp_steps. apply wp_malloc. simpl. intros sm Hsm. wp_step.
  apply Hyes; done.
Qed.

Lemma wp_shared_memory_map name size h (Q : ptr → host → Prop) :
  (∀ a, (o_answers h = [] → o_names h !! name = None) →
     Q None (Host a (o_names h) (o_sizes h) (o_fds h) (o_maps h) (o_structs h))) →
  (∀ a fd data object sm, (o_answers h = [] → a = []) → o_names h !! name = Some object →
     o_fds h !! fd = None → o_maps h !! data = None → o_structs h !! sm = None →
     Q (Some sm) (Host a (o_names h) (o_sizes h) (<[fd := DShm object]> (o_fds h)) (<[data := (object, size)]> (o_maps h))
       (<[sm := Shm name fd data size]> (o_structs h)))) →
  wp (shared_memory_map name size) Q h.
Proof.
  intros Hno Hyes. unfold shared_memory_map, shm_open. wp_steps. apply wp_os_ok. intros ok a1 Ha1. wp_steps.
  destruct (o_names h !! name) as [ob|] eqn:Hn; [|wp_steps; by apply Hno].
  destruct ok; [|wp_steps; apply Hno; intros E; by destruct (Ha1 E)]. wp_steps. apply wp_malloc. simpl. intros fd Hfd. wp_steps.
  unfold mmap. wp_steps. apply wp_os_ok. intros ok a3 Ha3. simpl in Ha3. wp_steps. eapply wp_load; [apply lookup_insert_eq|].
  destruct ok; wp_steps.
  - apply wp_malloc. simpl. intros data Hd. wp_steps. apply wp_malloc. simpl. intros sm Hsm. wp_step. apply Hyes; try done.
    intros E. by apply Ha3, Ha1.
  - unfold close. eapply wp_free; [apply lookup_insert_eq|]. simpl. wp_step. rewrite delete_insert_id by done.
    apply Hno. intros E. destruct (Ha1 E) as [_ ->]. by destruct (Ha3 eq_refl).
Qed.

Lemma wp_shared_memory_unlink h sm s ob (Q : Z → host → Prop) :
  o_structs h !! sm = Some s → o_names h !! sm_name s = Some ob →
  Q 0%Z (set_names (delete (sm_name s) (o_names h)) h) → wp (shared_memory_unlink (Some sm)) Q h.
Proof.
  intros Hs Hn HQ. unfold shared_memory_unlink. wp_step. eapply wp_load; [exact Hs|].
  unfold shm_unlink. wp_steps. rewrite Hn. by wp_steps.
Qed.

Lemma wp_shared_memory_unmap a n z f m st sm s d x (Q : () → host → Prop) :
  st !! sm = None → f !! sm_fd s = None → m !! sm_data s = None → Q () (Host a n z f m st) →
  wp (shared_memory_unmap (Some sm)) Q
    (Host a n z (<[sm_fd s := d]> f) (<[sm_data s := x]> m) (<[sm := s]> st)).
Proof.
  intros Hst Hf Hm HQ. unfold shared_memory_unmap. wp_step. eapply wp_load; [apply lookup_insert_eq|].
  wp_step. eapply wp_free; [apply lookup_insert_eq|]. simpl. wp_step. eapply wp_free; [apply lookup_insert_eq|]. simpl.
  eapply wp_free; [apply lookup_insert_eq|]. simpl. rewrite !delete_insert_id by done. exact HQ.
Qed.

Section main.
Context {T L : Type} `{!KVMap T (list byte) positive, !KVMapLaws T (list byte) positive}.
Context `{!H5Files (list byte) L, !H5FilesLaws (list byte) L}.
Context (struct_size : Z) (NR_BUFFERS : nat) (HDFSTREAM_MAX_BUFFER_SIZE : Z).
Context (parent_pid : Z) (max_open_files max_open_datasets : nat).
Abbreviation files := (L * file_cache T (list byte))%type.
Abbreviation parent := (Startup.parent (T := T) (L := L)).
Abbreviation total_size := (shared_data_size struct_size NR_BUFFERS HDFSTREAM_MAX_BUFFER_SIZE).
Abbreviation init := (reader_init struct_size NR_BUFFERS HDFSTREAM_MAX_BUFFER_SIZE parent_pid
  (Z.of_nat max_open_files) (Z.of_nat max_open_datasets)).

(** The parent has a worker struct, and maybe its reader data and the shared
    memory; besides that the tables are the given ones. *)
Inductive prepared (n : gmap (list byte) positive) (F : gmap positive descriptor) (m : gmap positive (positive * Z))
    (st : gmap positive shared_memory) (rds : gmap positive (Startup.reader_data (T := T) (L := L)))
    (wks : gmap positive worker_struct) (worker i o : positive) : parent → Prop :=
  | prep_none a s k run g h5 :
      prepared n F m st rds wks worker i o
        (Parent (Host a n s F m st) k run rds (<[worker := WStruct i o None]> wks) g h5)
  | prep_rd a s k run g h5 rd :
      rds !! rd = None →
      prepared n F m st rds wks worker i o
        (Parent (Host a n s F m st) k run (<[rd := RData None None]> rds) (<[worker := WStruct i o (Some rd)]> wks) g h5)
  | prep_sm a s k run g h5 rd sm fd data name size object fc :
      rds !! rd = None → st !! sm = None → F !! fd = None → m !! data = None →
      (∀ f, fc = Some f → ∃ bl mf md vs, fc_state true bl mf md vs f) → live_ring NR_BUFFERS (rg_ring g) →
      prepared n F m st rds wks worker i o
        (Parent (Host a n s (<[fd := DShm object]> F) (<[data := (object, size)]> m) (<[sm := Shm name fd data size]> st))
           k run (<[rd := RData fc (Some sm)]> rds) (<[worker := WStruct i o (Some rd)]> wks) g h5).

Lemma wp_destroy_semaphores sm s x p (Q : () → parent → Prop) :
  o_structs (p_host p) !! sm = Some s → o_maps (p_host p) !! sm_data s = Some x → live_ring NR_BUFFERS (rg_ring (p_srd p)) →
  (∀ g, Q () (Parent (p_host p) (p_link p) (p_running p) (p_readers p) (p_workers p) g (p_h5 p))) →
  wp (destroy_semaphores NR_BUFFERS sm) Q p.
Proof.
  intros Hs Hx Hl HQ. unfold destroy_semaphores, on_host. wp_step. apply wp_zoom. eapply wp_load; [exact Hs|].
  wp_step. apply wp_zoom. destruct p as [h k run rds wks g h5]. simpl in *. eapply wp_load; [exact Hx|].
  destruct (free_live _ _ Hl) as (ring & E & _). wp_steps. eapply wp_lift; [exact E|]. wp_step. apply HQ.
Qed.

(** [reader_shutdown] undoes all of it. *)
Lemma wp_reader_shutdown n F m st rds wks worker i o p (Q : () → parent → Prop) :
  prepared n F m st rds wks worker i o p →
  (∀ a s d g, Q () (Parent (Host a n s F m st) (p_link p) (p_running p) rds (<[worker := WStruct i o d]> wks) g (p_h5 p))) →
  wp (reader_shutdown NR_BUFFERS worker) Q p.
Proof.
  intros Hp HQ. unfold reader_shutdown.
  destruct Hp as [a s k run g h5|a s k run g h5 rd Hrd|a s k run g h5 rd sm fd data name size object fc Hrd Hsm Hfd Hd Hfc Hlive];
    wp_step; (eapply wp_load; [apply lookup_insert_eq|]); simpl.
  - wp_step. apply HQ.
  - wp_step. eapply wp_load; [apply lookup_insert_eq|]. simpl. wp_steps.
    eapply wp_free; [apply lookup_insert_eq|]. simpl. rewrite delete_insert_id by done. apply HQ.
  - wp_step. eapply wp_load; [apply lookup_insert_eq|]. simpl. wp_step. wp_step. eapply wp_destroy_semaphores; simpl;
      [apply lookup_insert_eq|apply lookup_insert_eq|done|]. intros g2. simpl.
    unfold on_host. apply wp_zoom. simpl.
    apply (wp_shared_memory_unmap a n s F m st sm (Shm name fd data size)); [done..|].
    assert (wp (do! match fc with None => ret () | Some f => let! _ := lift (file_cache_free true f) in ret () end in
                free readers (Some rd)) Q
      (Parent (Host a n s F m st) k run (<[rd := RData fc (Some sm)]> rds) (<[worker := WStruct i o (Some rd)]> wks) g2 h5)) as Hrest.
    { assert (∀ x, wp (free readers (Some rd)) Q
        (Parent (Host a n s F m st) k run (<[rd := x]> rds) (<[worker := WStruct i o (Some rd)]> wks) g2 h5)) as Hfree.
      { intros x. eapply wp_free; [apply lookup_insert_eq|]. simpl. rewrite delete_insert_id by done. apply HQ. }
      destruct fc as [f|]; [|wp_steps; apply Hfree].
      destruct (Hfc _ eq_refl) as (bl & mf & md & vs & Hf). destruct (free_state true _ _ _ _ _ Hf) as ([] & x & E & _).
      wp_steps. eapply wp_lift; [exact E|]. wp_steps. apply Hfree. }
    exact Hrest.
Qed.

(** [started]: the reader data are complete. *)
Definition started (n : gmap (list byte) positive) F m st (rds : gmap positive (Startup.reader_data (T := T) (L := L)))
    wks worker i o name (p : parent) : Prop :=
  ∃ a s k run g h5 rd sm fd data object,
    rds !! rd = None ∧ st !! sm = None ∧ F !! fd = None ∧ m !! data = None ∧ s !! object = Some total_size ∧
    live_ring NR_BUFFERS (rg_ring g) ∧
    p = Parent (Host a n s (<[fd := DShm object]> F) (<[data := (object, total_size)]> m)
                 (<[sm := Shm name fd data total_size]> st))
          k run (<[rd := RData (Some (h5, file_cache_new (Z.of_nat max_open_files) (Z.of_nat max_open_datasets))) (Some sm)]> rds)
          (<[worker := WStruct i o (Some rd)]> wks) g h5.

Lemma started_prepared n F m st rds wks worker i o name p :
  started n F m st rds wks worker i o name p → prepared n F m st rds wks worker i o p.
Proof.
  intros (a & s & k & run & g & h5 & rd & sm & fd & data & object & ? & ? & ? & ? & _ & ? & ->).
  apply prep_sm; try done. intros f [= <-]. eexists _, _, _, _. apply fc_state_new.
Qed.

(** The memory that the region is made from has the size of the region. *)
Definition blank (g : region (byte := byte)) : Prop :=
  length (rg_offset g) = NR_BUFFERS ∧ length (sh_buffer (rg_ring g)) = NR_BUFFERS ∧
  Forall (λ b, length (b_data b) = Z.to_nat HDFSTREAM_MAX_BUFFER_SIZE) (sh_buffer (rg_ring g)).

(** The message with the name and size of the region. *)
Definition region_message (name : list byte) : list byte :=
  size_bytes total_size ++ size_bytes (len name + 1) ++ name ++ [x00].

Lemma len_region_name pid : (len (region_name parent_pid pid) < 1024)%Z.
Proof. unfold region_name, snprintf, len, MAX_SM_NAME_LENGTH. rewrite length_take. lia. Qed.

(** Until the acknowledgement: the shared memory is there, with its name. *)
Lemma wp_parent_send bs h k run rds wks g h5 (Q : Z → parent → Prop) :
  link_ok k → is_size (len bs) → (∀ z k', conveys bs z k k' → Q z (Parent h k' run rds wks g h5)) →
  wp (Startup.send bs) Q (Parent h k run rds wks g h5).
Proof. intros Hk Hn HQ. apply wp_zoom. simpl. by apply wp_send_conveys. Qed.

#[local] Arguments size_bytes : simpl never.
#[local] Arguments int_bytes : simpl never.
#[local] Arguments len : simpl never.

(** Names the current state. *)
Ltac at_state p := lazymatch goal with |- wp ?m ?Q _ => change (wp m Q p) end.

(** The messages that hand the region over, and the answer. *)
Lemma wp_announce name (cleanup rest : M parent Z) h k run rds wks g h5 (Q : Z → parent → Prop) :
  link_ok k → (len name < 2 ^ 31)%Z →
  (∀ k', link_ok k' → ¬ calm_link (int_bytes 0) [] k → wp cleanup Q (Parent h k' run rds wks g h5)) →
  (∀ k', link_ok k' → (calm_link (int_bytes 0) [] k → calm_link [] (region_message name) k') →
     wp rest Q (Parent h k' run rds wks g h5)) →
  wp (check! Startup.send (size_bytes total_size) else cleanup in
      check! Startup.send (size_bytes (u64 (len name + 1))) else cleanup in
      check! Startup.send (name ++ [x00]) else cleanup in
      let! ack := Startup.on_link (worker_process_recv sizeof_int) in
      if negb (ack.1 =? 0)%Z then cleanup else
      if negb (int_value ack.2 =? 0)%Z then cleanup else rest) Q (Parent h k run rds wks g h5).
Proof.
  intros Hk Hlen Hfail HQ. pose proof (len_nonneg name). rewrite (u64_small (len name + 1)) by (unfold is_u64; lia).
  rewrite <- (app_nil_r (int_bytes 0)) in Hfail, HQ.
  wp_step. apply wp_parent_send; [done|by rewrite len_size_bytes|]. intros z2 k2 Hs2.
  destruct (Z.eqb_spec z2 0) as [->|Hz].
  2: { apply Hfail; [apply Hs2|]. intros Hc. by destruct (cv_calm _ _ _ _ Hs2 _ _ Hc). }
  wp_step. apply wp_parent_send; [apply Hs2|by rewrite len_size_bytes|]. intros z3 k3 Hs3'.
  pose proof (conveys_trans _ _ _ _ _ _ Hs2 Hs3') as Hs3. clear Hs2.
  destruct (Z.eqb_spec z3 0) as [->|Hz].
  2: { apply Hfail; [apply Hs3|]. intros Hc. by destruct (cv_calm _ _ _ _ Hs3 _ _ Hc). }
  wp_step. apply wp_parent_send; [apply Hs3|rewrite len_app; unfold is_size, len at 2 4; simpl; lia|]. intros z4 k4 Hs4'.
  pose proof (conveys_trans _ _ _ _ _ _ Hs3 Hs4') as Hs4. rewrite <- app_assoc in Hs4. clear Hs3 Hs3' Hs4'.
  destruct (Z.eqb_spec z4 0) as [->|Hz].
  2: { apply Hfail; [apply Hs4|]. intros Hc. by destruct (cv_calm _ _ _ _ Hs4 _ _ Hc). }
  wp_step. apply wp_zoom. simpl. apply wp_hear; [apply Hs4|done|]. intros r5 k5 Hk5 _ _ Hc5.
  at_state (Parent h k5 run rds wks g h5).
  assert (calm_link (int_bytes 0 ++ []) [] k → r5 = (0%Z, int_bytes 0) ∧ calm_link [] (region_message name) k5) as Hc5'.
  { intros Hc. destruct (cv_calm _ _ _ _ Hs4 _ _ Hc) as [_ Hc4]. exact (Hc5 _ _ _ (len_int_bytes 0) Hc4). }
  destruct (Z.eqb_spec r5.1 0) as [Hr5|Hr5]; simpl.
  2: { apply Hfail; [done|]. intros [-> _]%Hc5'. done. }
  destruct (Z.eqb_spec (int_value r5.2) 0) as [Hv|Hv]; simpl.
  2: { apply Hfail; [done|]. intros [-> _]%Hc5'. by apply Hv, (int_value_bytes 0). }
  apply HQ; [done|]. apply Hc5'.
Qed.

Lemma wp_reader_init worker pid n F m st rds wks i o d a s k run g h5 (Q : Z → parent → Prop) :
  link_ok k → blank g →
  (∀ z p, z = 0%Z ∨ z = (-1)%Z → prepared n F m st rds wks worker i o p → link_ok (p_link p) → p_running p = run →
     (z = 0%Z → started n F m st rds wks worker i o (region_name parent_pid pid) p) →
     (calm_link (int_bytes 1 ++ int_bytes 0) [] k → a = [] → n !! region_name parent_pid pid = None →
        z = 0%Z ∧ calm_link [] (region_message (region_name parent_pid pid)) (p_link p)) →
     Q z p) →
  wp (init worker pid) Q (Parent (Host a n s F m st) k run rds (<[worker := WStruct i o d]> wks) g h5).
Proof.
  intros Hk (Hb1 & Hb2 & Hb3) HQ. unfold reader_init. pose proof (len_region_name pid) as Hlen.
  set (name := region_name parent_pid pid) in *. clearbody name.
  wp_step. eapply wp_store; [apply lookup_insert_eq|]. simpl. rewrite insert_insert_eq.
  wp_step. unfold Startup.on_link. apply wp_zoom. simpl. unfold worker_default_init. wp_step.
  apply wp_hear; [done|done|]. intros r k1 Hk1 _ _ Hc1. wp_step. unfold set_data; simpl.
  destruct (Z.ltb_spec r.1 0) as [Hr|Hr]; simpl.
  { wp_step. apply HQ; [by right|by constructor|done|done|done|].
    intros Hc _ _. destruct (Hc1 (int_bytes 1) _ _ (len_int_bytes 1) Hc) as [-> _]. simpl in Hr. lia. }
  wp_step. apply wp_malloc. simpl. intros rd Hrd.
  wp_step. eapply wp_store; [apply lookup_insert_eq|]. simpl. rewrite insert_insert_eq. unfold set_data; simpl.
  wp_step. unfold on_host. apply wp_zoom. simpl. apply wp_shared_memory_new; simpl.
  { intros a' s' Hfail. wp_step. eapply wp_store; [apply lookup_insert_eq|]. simpl. rewrite !insert_insert_eq. unfold set_sm; simpl.
    wp_step. apply HQ; [by right|by constructor|done|done|done|]. intros _ Ha Hn. by destruct (Hfail Ha). }
  intros a' fd data object sm Hn Hfd Hdata Hsm.
  wp_step. eapply wp_store; [apply lookup_insert_eq|]. simpl. rewrite !insert_insert_eq. unfold set_sm; simpl.
  wp_step. unfold populate. wp_steps.
  destruct (populate_spec struct_size NR_BUFFERS HDFSTREAM_MAX_BUFFER_SIZE g Hb1 Hb2 Hb3) as (ol & bl & Hpop & _ & Hbl & _ & Hblank).
  eapply wp_lift; [exact Hpop|]. wp_step. cbn [p_host p_link p_running p_readers p_workers p_srd p_h5]. clear Hpop. set (g' := set_region _ _ _ _ _ _).
  assert (live_ring NR_BUFFERS (rg_ring g')) as Hlive.
  { split; [exact Hbl|]. eapply Forall_impl; [exact Hblank|]. intros b (_ & -> & -> & _). done. }
  set (before := calm_link (int_bytes 1 ++ int_bytes 0) [] k) in *.
  set (s' := <[object := total_size]> _). set (F' := <[fd := _]> F). set (m' := <[data := _]> m). set (st' := <[sm := _]> st).
  set (P := λ nm fc k, Parent (Host a' nm s' F' m' st') k run
    (<[rd := RData fc (Some sm)]> rds) (<[worker := WStruct i o (Some rd)]> wks) g' h5).
  at_state (P (<[name := object]> n) None k1).
  assert (∀ fc z k (Q : Z → parent → Prop), Q z (P n fc k) →
    wp (let! _ := on_host (shared_memory_unlink (Some sm)) in ret z) Q (P (<[name := object]> n) fc k)) as Hunlink.
  { clear -Hn. intros fc z k Q HQ. wp_step. apply wp_zoom. unfold P at 1. cbn [p_host].
    eapply wp_shared_memory_unlink; [apply lookup_insert_eq|simpl; apply lookup_insert_eq|]. simpl. wp_step.
    rewrite delete_insert_id by done. exact HQ. }
  assert (before → calm_link (int_bytes 0) [] k1) as Hc1'.
  { intros Hc. by destruct (Hc1 (int_bytes 1) _ _ (len_int_bytes 1) Hc). }
  apply wp_announce; [done|lia|..]; intros k2 Hk2 Hcalm.
  { apply Hunlink, HQ; [by right|by apply prep_sm|done|done|done|]. intros Hc _ _. by destruct (Hcalm (Hc1' Hc)). }
  wp_steps. eapply wp_store; [apply lookup_insert_eq|]. simpl. rewrite insert_insert_eq. simpl.
  change (wp (let! _ := on_host (shared_memory_unlink (Some sm)) in ret 0%Z) Q
    (P (<[name := object]> n) (Some (h5, file_cache_new (Z.of_nat max_open_files) (Z.of_nat max_open_datasets))) k2)).
  apply Hunlink. apply HQ; [by left| |done|done| |].
  - apply prep_sm; try done. intros f [= <-]. eexists _, _, _, _. apply fc_state_new.
  - intros _. eexists a', s', k2, run, g', h5, rd, sm, fd, data, object. split_and!; try done.
    unfold s'. apply lookup_insert_eq.
  - intros Hc _ _. split; [done|]. by apply Hcalm, Hc1'.
Qed.

(** ** worker_process.c *)

Lemma prepared_worker n F m st rds wks worker i o p :
  prepared n F m st rds wks worker i o p → ∃ d, p_workers p = <[worker := WStruct i o d]> wks.
Proof. intros []; eexists; done. Qed.

(** Closing a descriptor that is not the one of the shared memory. *)
Lemma wp_close_prepared n F m st rds wks worker i o x d p (Q : () → parent → Prop) :
  prepared n (<[x := d]> F) m st rds wks worker i o p → F !! x = None →
  (∀ p', prepared n F m st rds wks worker i o p' → p_link p' = p_link p → p_running p' = p_running p → Q () p') →
  wp (on_host (close x)) Q p.
Proof.
  intros Hp Hx HQ. unfold on_host, close. apply wp_zoom.
  destruct Hp as [a s k run g h5|a s k run g h5 rd Hrd|a s k run g h5 rd sm fd data name size object fc Hrd Hsm Hfd Hd Hfc Hlive]; simpl.
  1,2: eapply wp_free; [apply lookup_insert_eq|]; simpl; rewrite delete_insert_id by done; apply HQ; [by constructor|done|done].
  apply lookup_insert_None in Hfd as [Hfd Hne]. rewrite insert_insert_ne by done.
  eapply wp_free; [apply lookup_insert_eq|]. simpl. rewrite delete_insert_id by (by rewrite lookup_insert_ne).
  apply HQ; [by apply prep_sm|done|done].
Qed.

Lemma wp_wait_exit k h (Q : bool → host → Prop) : (∀ b a, Q b (Startup.set_answers a h)) → wp (wait_exit k) Q h.
Proof.
  intros HQ. revert h HQ. induction k as [|k IH]; intros h HQ; simpl.
  - wp_step. specialize (HQ false (o_answers h)). by destruct h.
  - wp_step. apply wp_os_ok. intros b a _. destruct b; [wp_step; apply HQ|]. apply IH. intros b a'. apply HQ.
Qed.

#[local] Arguments wait_exit : simpl never.
Lemma wp_worker_process_free n F m st rds wks worker i o d1 d2 p (Q : () → parent → Prop) :
  prepared n (<[o := d2]> (<[i := d1]> F)) m st rds wks worker i o p → link_ok (p_link p) →
  F !! i = None → F !! o = None → i ≠ o → wks !! worker = None →
  (∀ a s k g h5 run, run = false ∨ lk_waited k = true →
     Q () (Parent (Host a n s F m st) k run rds wks g h5)) →
  wp (worker_process_free NR_BUFFERS worker) Q p.
Proof.
  intros Hp Hl Hi Ho Hne Hw HQ. unfold worker_process_free. wp_step. wp_step. wp_step.
  assert (∀ p, prepared n (<[o := d2]> (<[i := d1]> F)) m st rds wks worker i o p →
    p_running p = false ∨ lk_waited (p_link p) = true →
    wp (let! w := load workers (Some worker) in
        do! on_host (close (w_input w)) in do! on_host (close (w_output w)) in
        do! reader_shutdown NR_BUFFERS worker in free workers (Some worker)) Q p) as Hrest.
  { clear p Hp Hl. intros p Hp Hrun. destruct (prepared_worker _ _ _ _ _ _ _ _ _ _ Hp) as [d Hd].
    wp_step. eapply wp_load; [cbn; rewrite Hd; apply lookup_insert_eq|]. cbn [w_input w_output].
    rewrite (insert_insert_ne _ o i) in Hp by done.
    wp_step. eapply wp_close_prepared; [exact Hp|by rewrite lookup_insert_ne|]. intros p1 Hp1 El1 Er1.
    wp_step. eapply wp_close_prepared; [exact Hp1|done|]. intros p2 Hp2 El2 Er2.
    wp_step. eapply wp_reader_shutdown; [exact Hp2|]. intros a s d' g'.
    eapply wp_free; [apply lookup_insert_eq|]. simpl. rewrite delete_insert_id by done. apply HQ.
    by rewrite El2, El1, Er2, Er1. }
  destruct (lk_is_dead (p_link p)) eqn:Hd; simpl.
  - wp_step. apply Hrest; [done|]. right. by apply Hl.
  - wp_step. apply wp_zoom. apply wp_wait_exit. intros b a. unfold Startup.set_running. wp_step. apply Hrest; [|by left].
    destruct Hp; simpl; [by constructor|by constructor|by apply prep_sm].
Qed.

(** The first calls of the operating system, [pipe] twice and [fork]. *)
Definition pipes_ok (a : list bool) : Prop := Forall (eq true) (take 3 a).

Lemma wp_pipe h (Q : option (loc * loc) → host → Prop) :
  (∀ a, o_answers h = false :: a → Q None (Startup.set_answers a h)) →
  (∀ a r w, a = tail (o_answers h) → o_fds h !! r = None → o_fds h !! w = None → r ≠ w →
     Q (Some (r, w)) (Host a (o_names h) (o_sizes h) (<[w := DPipe]> (<[r := DPipe]> (o_fds h))) (o_maps h) (o_structs h))) →
  wp pipe Q h.
Proof.
  intros Hno Hyes. unfold pipe. wp_step. unfold os_ok, wp at 1.
  destruct (o_answers h) as [|b a] eqn:E; eexists _, _; (split; [done|]); [|destruct b]; simpl.
  - wp_step. apply wp_malloc. simpl. intros r Hr. wp_step. apply wp_malloc. simpl. intros w [Hw Hne]%lookup_insert_None.
    wp_step. rewrite E. by apply Hyes.
  - wp_step. apply wp_malloc. simpl. intros r Hr. wp_step. apply wp_malloc. simpl. intros w [Hw Hne]%lookup_insert_None.
    wp_step. by apply Hyes.
  - wp_step. by apply Hno.
Qed.

Lemma wp_worker_process_new pid e a n s F m st k run rds wks g h5 (Q : ptr → parent → Prop) :
  ep_pending e = false → blank g → run = false →
  (∀ a' s' F' k' run' g' h5', run' = false ∨ lk_waited k' = true → (pipes_ok a → F' = F) →
     ¬ (calm_link (int_bytes 1 ++ int_bytes 0) [] (Link e false false) ∧ a = [] ∧ n !! region_name parent_pid pid = None) →
     Q None (Parent (Host a' n s' F' m st) k' run' rds wks g' h5')) →
  (∀ worker i o p, F !! i = None → F !! o = None → i ≠ o → wks !! worker = None →
     started n (<[o := DPipe]> (<[i := DPipe]> F)) m st rds wks worker i o (region_name parent_pid pid) p →
     link_ok (p_link p) →
     (calm_link (int_bytes 1 ++ int_bytes 0) [] (Link e false false) → a = [] → n !! region_name parent_pid pid = None →
        calm_link [] (region_message (region_name parent_pid pid)) (p_link p)) →
     Q (Some worker) p) →
  wp (worker_process_new struct_size NR_BUFFERS HDFSTREAM_MAX_BUFFER_SIZE parent_pid
        (Z.of_nat max_open_files) (Z.of_nat max_open_datasets) pid e) Q (Parent (Host a n s F m st) k run rds wks g h5).
Proof.
  intros He Hg -> Hno Hyes. unfold worker_process_new.
  wp_step. apply wp_malloc. simpl. intros worker Hw.
  set (calm := calm_link _ _ (Link e false false) ∧ a = [] ∧ _) in *.
  assert (∀ a1 k F', (pipes_ok a → F' = F) → ¬ calm →
    wp (do! free workers (Some worker) in ret None) Q
      (Parent (Host a1 n s F' m st) k false rds (<[worker := WStruct 1 1 None]> wks) g h5)) as Hfail.
  { intros a1 k1 F' HF Hc. wp_step. eapply wp_free; [apply lookup_insert_eq|]. simpl. rewrite delete_insert_id by done.
    wp_step. apply Hno; [by left|done|done]. }
  wp_step. apply wp_zoom. simpl. apply wp_pipe; simpl.
  { intros a1 ->. apply Hfail; [done|]. by intros (_ & ? & _). }
  intros a1 ir iw Ha1 Hir Hiw Hne. wp_step. apply wp_zoom. simpl. apply wp_pipe; simpl.
  { intros a2 Ha2. apply Hfail.
    - intros Hok. destruct a as [|b a]; simpl in *; [congruence|]. subst. simpl in Hok.
      by apply Forall_cons in Hok as [_ [? _]%Forall_cons].
    - intros (_ & -> & _). by subst. }
  intros a2 or ow Ha2 Hor How Hne2. rewrite !lookup_insert_None in Hor, How. destruct_and?.
  wp_step. apply wp_zoom. apply wp_os_ok_cases. cbn [p_host o_answers]. intros b a3 Ha3 Hb.
  destruct b; cbn [negb]; cycle 1.
  { apply Hfail.
    - specialize (Hb eq_refl). intros Hok. destruct a as [|b1 [|b2 a]]; simplify_eq/=.
      by apply Forall_cons in Hok as [_ [_ [? _]%Forall_cons]%Forall_cons].
    - intros (_ & E & _). subst. simpl in *. by specialize (Hb eq_refl). }
  unfold Startup.set_running, Startup.set_link. wp_step. wp_step. wp_step. wp_step.
  cbn [p_host p_link p_running p_readers p_workers p_srd p_h5].
  wp_step. eapply wp_store; [apply lookup_insert_eq|]. cbn. rewrite !insert_insert_eq.
  wp_step. apply wp_zoom. unfold close at 1. cbn [p_host].
  rewrite (insert_insert_ne _ iw ir), (insert_insert_ne _ or ir), (insert_insert_ne _ ow ir) by done.
  eapply wp_free; [apply lookup_insert_eq|]. cbn. rewrite delete_insert_id by (by rewrite !lookup_insert_ne).
  wp_step. apply wp_zoom. unfold close at 1. cbn [p_host].
  eapply wp_free; [apply lookup_insert_eq|]. cbn. rewrite delete_insert_id by (by rewrite !lookup_insert_ne).
  wp_step. apply wp_reader_init; [split; cbn; [done|by intros]|done|].
  intros z p Hz Hp Hl Hrun Hst Hcalm. cbn in Hcalm.
  destruct (Z.eqb_spec z 0) as [->|Hne0]; cbn [negb].
  - wp_step. apply (Hyes worker iw or); try done; [by apply Hst|].
    intros Hc Ea Hn. apply Hcalm; [done| |done]. subst a. subst a1. subst a2. by apply Ha3.
  - wp_step. eapply wp_worker_process_free; [exact Hp|exact Hl|done..|]. intros a4 s4 k4 g4 h4 run4 Hr4. wp_step.
    apply Hno; [done|done|]. intros (Hc & Ea & Hn). apply Hne0, Hcalm; [done| |done].
    subst a. subst a1. subst a2. by apply Ha3.
Qed.

(** ** The reader's part *)

Lemma region_name_ok pid : name_ok (region_name parent_pid pid).
Proof.
  split.
  - unfold region_name, snprintf. intros (j & Hin & _)%elem_of_take.
    apply list_elem_of_lookup_2 in Hin. rewrite !elem_of_app in Hin. destruct Hin as [Hin|[Hin|[Hin|Hin]]].
    + revert Hin. apply (bool_decide_eq_false_1 _). by vm_compute.
    + by apply fmt_d_not_null in Hin.
    + revert Hin. apply (bool_decide_eq_false_1 _). by vm_compute.
    + by apply fmt_d_not_null in Hin.
  - pose proof (len_region_name pid). pose proof (len_nonneg (region_name parent_pid pid)). unfold is_size. lia.
Qed.

Lemma total_size_u64 : is_u64 total_size.
Proof. unfold shared_data_size. apply u64_range. Qed.

Lemma wp_start_recv {P} bs n i o e h b (Q : list byte → starting → Prop) :
  calm_at P (bs ++ i) o e → len bs = n → is_size n →
  (∀ e', calm_at P i o e' → Q bs (Starting e' h b)) → wp (Startup.recv n) Q (Starting e h b).
Proof.
  intros Hc <- Hn HQ. unfold Startup.recv. wp_step. apply wp_zoom. apply wp_worker_recv; [done|]. simpl. intros r e' Hr.
  destruct (calm_received _ _ _ _ _ _ Hc Hr) as [-> He']. simpl. wp_steps. by apply HQ.
Qed.

Lemma wp_start_send {P} bs i o e h b (Q : Z → starting → Prop) :
  calm_at P i o e → is_size (len bs) → (∀ e', calm_at P i (o ++ bs) e' → Q 0%Z (Starting e' h b)) →
  wp (on_end (worker_send bs)) Q (Starting e h b).
Proof.
  intros Hc Hn HQ. apply wp_zoom. apply wp_worker_send; [by eapply calm_no_sigpipe|done|]. simpl. intros r e' Hs.
  destruct (calm_sent _ _ _ _ _ _ Hc Hs) as [-> ?]. by apply HQ.
Qed.

(** A process has mapped the object. *)
Definition shares (h : host) (sm object : positive) : Prop :=
  ∃ s, o_structs h !! sm = Some s ∧ o_maps h !! sm_data s = Some (object, total_size).

(** The mapping is all that the process has got since [h]. *)
Definition maps_only (h h' : host) (sm : positive) : Prop :=
  wp (shared_memory_unmap (Some sm)) (λ _ h2, h2 = h) h'.

Lemma wp_reader_start {P} check expiry name object i e h b
    (Q : option (loc * file_cache T (list byte)) → starting → Prop) :
  0 < max_open_files → 0 < max_open_datasets → (0 ≤ check)%Z → (0 ≤ expiry)%Z →
  calm_at P (region_message name ++ i) [] e → name_ok name → o_names h !! name = Some object → o_answers h = [] →
  (∀ sm e' h', calm_at P i (int_bytes 1 ++ int_bytes 0) e' → shares h' sm object → maps_only h h' sm →
     Q (Some (sm, file_cache_new (Z.of_nat max_open_files) (Z.of_nat max_open_datasets))) (Starting e' h' b)) →
  wp (reader_start (Z.of_nat max_open_files) (Z.of_nat max_open_datasets) check expiry) Q (Starting e h b).
Proof.
  intros Hmf Hmd Hck Hex Hc [Hnull Hsize] Hn Ha HQ. unfold reader_start.
  assert (reader_arguments_ok (Z.of_nat max_open_files) (Z.of_nat max_open_datasets) check expiry = true) as ->.
  { unfold reader_arguments_ok. lia. }
  cbn [negb]. unfold worker_init. wp_step.
  assert (∀ (m : M endpoint Z) (Q : () → starting → Prop) s, wp (on_end m) (λ _ s, Q () s) s →
    wp (on_end (let! _ := m in ret ())) Q s) as Hdrop.
  { clear. intros m Q s (z & s' & E & HQ). unfold on_end, zoom in E. destruct (m (st_end s)) as [[z' e']|] eqn:Em; [|done].
    injection E as <- <-. eexists _, _. split; [|exact HQ]. unfold on_end, zoom, bind. by rewrite Em. }
  apply Hdrop. eapply wp_start_send; [exact Hc|by rewrite len_int_bytes|]. clear e Hc. intros e Hc.
  unfold region_message in Hc. rewrite <- !app_assoc in Hc. pose proof (len_nonneg name).
  wp_step. eapply wp_start_recv; [exact Hc|apply len_size_bytes|done|]. clear e Hc. intros e Hc.
  wp_step. eapply wp_start_recv; [exact Hc|apply len_size_bytes|done|]. clear e Hc. intros e Hc.
  rewrite size_value_bytes by (unfold is_size, is_u64 in *; lia). rewrite size_value_bytes by apply total_size_u64.
  wp_step. apply wp_malloc. cbn. intros x Hx.
  wp_step. eapply wp_start_recv; [by rewrite app_assoc in Hc|by rewrite len_app|done|]. clear e Hc. intros e Hc.
  rewrite bool_decide_eq_true_2 by (apply elem_of_app; right; constructor). rewrite until_null_app by done.
  wp_step. apply wp_assert; [done|]. wp_step. unfold on_child_host. apply wp_zoom. cbn.
  apply wp_shared_memory_map; [intros a Hno; by rewrite Hno in Hn|].
  intros a fd data object' sm Ha' Hn' Hfd Hd Hsm. rewrite Ha' by done. rewrite Hn in Hn'. injection Hn' as <-.
  wp_step. eapply wp_free; [apply lookup_insert_eq|]. cbn. rewrite delete_insert_id by done.
  wp_step. eapply wp_start_send; [exact Hc|by rewrite len_int_bytes|]. clear e Hc. intros e Hc. wp_step.
  apply HQ; [exact Hc| |]; [eexists; split; [apply lookup_insert_eq|]; apply lookup_insert_eq|].
  unfold maps_only. apply (wp_shared_memory_unmap _ _ _ _ _ _ _ (Shm name fd data total_size)); [done..|].
  by destruct h; simpl in *; subst.
Qed.

#[local] Arguments worker_process_free : simpl never.
#[local] Arguments reader_start : simpl never.
Lemma wp_unit {S} (m : M S ()) (P : S → Prop) s : wp m (λ _, P) s → ∃ s', m s = Some ((), s') ∧ P s'.
Proof. intros ([] & s' & ? & ?). by exists s'. Qed.
Lemma some_pair {A B S} (m : M S (option (A * B))) b (P : A → S → Prop) s :
  wp m (λ r s', ∃ a, r = Some (a, b) ∧ P a s') s → ∃ a s', m s = Some (Some (a, b), s') ∧ P a s'.
Proof. intros (r & s' & E & a & -> & HP). by exists a, s'. Qed.
Lemma some_worker {A B S} (m : M S (option A)) (P : A → S → B → Prop) s :
  wp m (λ r s', ∃ w b, r = Some w ∧ P w s' b) s → ∃ w s' b, m s = Some (Some w, s') ∧ P w s' b.
Proof. intros (r & s' & E & w & b & -> & HP). by exists w, s', b. Qed.

(** ** The theorems *)

(** The tables of the operating system and of the library, but for the
    descriptors. *)
Definition same_tables (p p' : parent) : Prop :=
  o_names (p_host p') = o_names (p_host p) ∧ o_maps (p_host p') = o_maps (p_host p) ∧
  o_structs (p_host p') = o_structs (p_host p) ∧ p_readers p' = p_readers p ∧ p_workers p' = p_workers p.

(** C10: starting a reader process succeeds or leaves nothing behind.  Whatever
    calls of the operating system fail and whatever the new process does (it
    may end at once, or answer wrongly), [worker_process_new] with [reader_init]
    returns.  With NULL no shared memory, no name of it, no mapping and no
    struct is left, the process was ended, and its pipes are closed if they
    could be made.  With a worker, its shared memory is mapped and no longer has
    a name, and [worker_process_free] gives everything back. *)
Theorem worker_process_new_all_or_nothing pid e (p : parent) :
  ep_pending e = false → blank (p_srd p) → p_running p = false →
  ∃ r p', worker_process_new struct_size NR_BUFFERS HDFSTREAM_MAX_BUFFER_SIZE parent_pid
            (Z.of_nat max_open_files) (Z.of_nat max_open_datasets) pid e p = Some (r, p') ∧
    match r with
    | None => same_tables p p' ∧ (p_running p' = false ∨ lk_waited (p_link p') = true) ∧
        (pipes_ok (o_answers (p_host p)) → o_fds (p_host p') = o_fds (p_host p))
    | Some w =>
        o_names (p_host p') = o_names (p_host p) ∧
        (∃ ws rd r sm object, p_workers p' !! w = Some ws ∧ w_data ws = Some rd ∧ p_readers p' !! rd = Some r ∧
           rd_file_cache r = Some (p_h5 p', file_cache_new (Z.of_nat max_open_files) (Z.of_nat max_open_datasets)) ∧
           rd_sm r = Some sm ∧ shares (p_host p') sm object ∧ o_sizes (p_host p') !! object = Some total_size) ∧
        ∃ p'', worker_process_free NR_BUFFERS w p' = Some ((), p'') ∧ same_tables p p'' ∧
          o_fds (p_host p'') = o_fds (p_host p) ∧ (p_running p'' = false ∨ lk_waited (p_link p'') = true)
    end.
Proof.
  intros He Hg Hrun. destruct p as [[a n s F m st] k run rds wks g h5]. simpl in *.
  apply (wp_worker_process_new pid e a n s F m st k run rds wks g h5); [done..| |]; cbn.
  - intros a' s' F' k' run' g' h5' Hr Hok _. split; [done|]. split; [done|exact Hok].
  - intros w i o p Hi Ho Hne Hw Hst Hl _. pose proof (started_prepared _ _ _ _ _ _ _ _ _ _ _ Hst) as Hp.
    destruct Hst as (a' & s' & k' & run' & g' & h' & rd & sm & fd & data & object & Hrd & Hsm & Hfd & Hd & Hs & _ & ->). cbn in *.
    split; [done|]. split.
    { eexists _, rd, _, sm, object. split; [apply lookup_insert_eq|]. split; [done|]. split; [apply lookup_insert_eq|].
      split; [done|]. split; [done|]. split; [|done]. eexists. split; [apply lookup_insert_eq|]. apply lookup_insert_eq. }
    apply wp_unit. eapply (wp_worker_process_free n F m st rds wks w i o DPipe DPipe); [exact Hp|exact Hl|done..|].
    intros a2 s2 k2 g2 h2 run2 Hr2. split; [done|]. split; [done|exact Hr2].
Qed.

(** C13: the two processes agree at the start.  When no call fails, what
    [reader_init] sends is what the reader expects, and the other way round: the
    reader maps the object that the library has mapped, with the same length,
    while it still has its name, and starts with an empty cache of the same
    limits. *)
Theorem startup_handshake pid check expiry e (p : parent) :
  0 < max_open_files → 0 < max_open_datasets → (0 ≤ check)%Z → (0 ≤ expiry)%Z →
  calm (int_bytes 1 ++ int_bytes 0) [] e → blank (p_srd p) → p_running p = false →
  o_answers (p_host p) = [] → o_names (p_host p) !! region_name parent_pid pid = None →
  ∃ w p' object, worker_process_new struct_size NR_BUFFERS HDFSTREAM_MAX_BUFFER_SIZE parent_pid
            (Z.of_nat max_open_files) (Z.of_nat max_open_datasets) pid e p = Some (Some w, p') ∧
    (∃ ws rd r sm, p_workers p' !! w = Some ws ∧ w_data ws = Some rd ∧ p_readers p' !! rd = Some r ∧
       rd_sm r = Some sm ∧ shares (p_host p') sm object) ∧
    ∀ child, calm (ep_out (lk_end (p_link p'))) [] (st_end child) → o_answers (st_host child) = [] →
      o_names (st_host child) !! region_name parent_pid pid = Some object →
      ∃ sm' child', reader_start (Z.of_nat max_open_files) (Z.of_nat max_open_datasets) check expiry child =
          Some (Some (sm', file_cache_new (T := T) (K := list byte) (Z.of_nat max_open_files) (Z.of_nat max_open_datasets)), child') ∧
        ep_out (st_end child') = int_bytes 1 ++ int_bytes 0 ∧ ep_in (st_end child') = [] ∧
        shares (st_host child') sm' object ∧ st_blocks child' = st_blocks child.
Proof.
  intros Hmf Hmd Hck Hex He Hg Hrun Ha Hn. destruct p as [[a n s F m st] k run rds wks g h5]. simpl in *.
  assert (calm_link (int_bytes 1 ++ int_bytes 0) [] (Link e false false)) as Hcl by by split.
  apply some_worker.
  apply (wp_worker_process_new pid e a n s F m st k run rds wks g h5); [apply He|done|done| |].
  { intros a' s' F' k' run' g' h5' _ _ Hbad. by destruct Hbad. }
  intros w i o p Hi Ho Hne Hw Hst Hl Hout. specialize (Hout Hcl Ha Hn) as [_ Hout].
  destruct Hst as (a' & s' & k' & run' & g' & h' & rd & sm & fd & data & object & Hrd & Hsm & Hfd & Hd & Hs & _ & ->). cbn in *.
  exists w, object. split; [done|]. split.
  { eexists _, rd, _, sm. split; [apply lookup_insert_eq|]. split; [done|]. split; [apply lookup_insert_eq|].
    split; [done|]. eexists; split; [apply lookup_insert_eq|]; apply lookup_insert_eq. }
  intros [ce ch cb] Hc Hca Hcn. cbn in *. rewrite (cm_out Hout), <- (app_nil_r (region_message _)) in Hc.
  apply some_pair. eapply (wp_reader_start check expiry (region_name parent_pid pid) object []);
    [done..|exact Hc|apply region_name_ok|exact Hcn|exact Hca|].
  intros sm' e' h2 He' Hsh _. exists sm'. split; [done|]. cbn. split; [apply He'|]. split; [apply He'|]. by split.
Qed.
End main.

(** ** A library that starts a reader *)

Import RequestDemo.
Module StartupDemo.
Definition zeros : region (byte := byte) :=
  Region 0 0 0 0 [0; 0]%Z (Shared 0 [Buffer 0 0 0 0 (repeat x00 4); Buffer 0 0 0 0 (repeat x00 4)]).
Definition lib (answers : list bool) : Startup.parent (T := avltree (list byte) positive) (L := gset Z) :=
  Parent (Host answers ∅ ∅ ∅ ∅ ∅) (Link (Endpoint [] [] [] [] false false) false false) false ∅ ∅ zeros ∅.
(** What the reader answers, in pieces. *)
Definition pipes : endpoint := Endpoint [Moves 3; Errno EINTR] [] (int_bytes 1 ++ int_bytes 0) [] false false.
Definition start (answers : list bool) : option (ptr * Startup.parent) :=
  worker_process_new 200 2 4 41 2 1 42 pipes (lib answers).

Lemma zeros_blank : blank 2 4 zeros.
Proof. split; [done|]. split; [done|]. repeat constructor. Qed.

(** [pipe] fails the second time, or [fork] fails: the descriptors that were
    opened before are not closed. *)
Lemma failed_start_leaks :
  (match start [true; false] with Some (None, p) => size (o_fds (p_host p)) | _ => 0 end = 2) ∧
  (match start [true; true; false] with Some (None, p) => size (o_fds (p_host p)) | _ => 0 end = 4).
Proof. split; by vm_compute. Qed.
(** [ftruncate] fails: nothing is left. *)
Lemma failed_start :
  (match start [true; true; true; true; false] with
   | Some (None, p) => bool_decide (size (o_fds (p_host p)) = 0 ∧ size (o_names (p_host p)) = 0)
   | _ => false
   end) = true.
Proof. by vm_compute. Qed.
End StartupDemo.

Lemma worker_process_new_all_or_nothing_witness :
  ∃ r p', StartupDemo.start [true; true; true; true; false] = Some (r, p') ∧
    match r with
    | None => same_tables (StartupDemo.lib [true; true; true; true; false]) p' ∧
        (p_running p' = false ∨ lk_waited (p_link p') = true) ∧
        (pipes_ok [true; true; true; true; false] → o_fds (p_host p') = ∅)
    | Some w => o_names (p_host p') = ∅
    end.
Proof.
  destruct (worker_process_new_all_or_nothing 200 2 4 41 2 1 42 StartupDemo.pipes (StartupDemo.lib [true; true; true; true; false]))
    as (r & p' & E & H); [reflexivity|exact StartupDemo.zeros_blank|reflexivity|].
  exists r, p'. split; [exact E|]. destruct r; [exact (proj1 H)|exact H].
Defined.

Lemma startup_handshake_witness :
  ∃ w p' object, StartupDemo.start [] = Some (Some w, p') ∧
    (∃ ws rd r sm, p_workers p' !! w = Some ws ∧ w_data ws = Some rd ∧ p_readers p' !! rd = Some r ∧
       rd_sm r = Some sm ∧ shares 200 2 4 (p_host p') sm object).
Proof.
  destruct (startup_handshake 200 2 4 41 2 1 42 10 100 StartupDemo.pipes (StartupDemo.lib []))
    as (w & p' & object & E & H & _);
    [lia|lia|lia|lia|split; [repeat constructor|constructor|done..]|exact StartupDemo.zeros_blank|reflexivity|reflexivity|
     apply lookup_empty|].
  exists w, p', object. split; [exact E|exact H].
Defined.
