(* ===== verification/Jobs.v ===== *)
(** * Jobs: what the reader packs for a request

    Between [msgpack_chunkbuffer_init] and [msgpack_chunkbuffer_destroy] the
    handlers of src/src/reader/hdfstream_reader.c run [pack_dataset_multi_slice]
    or [pack_object] with [msgpack_chunkbuffer_write] as the callback.  Stream.v
    has a packer for this: a tree of writes and of what follows each reply.
    Here is the tree of a job, read off the packing functions by running them
    with a callback that replies from a script, and what the bytes on its
    branch without failures mean. *)
From Stdlib Require Import Strings.Byte Strings.String.
From stdpp Require Import base tactics numbers list gmap propset.
From S2P Require Import Prelude Bytes Stream StreamProof Requests.
From S2P Require Import Msgpack Select H5 PackStore Multislice Points.
From S2P Require Import NumpyType NumpyTypeProof PackContents PackContentsProof PackDataset PackDatasetProof.
From S2P Require Import PackObject PackObjectProof PackDecode PackMain.

(** ** A callback that replies from a script *)

(** The replies to come, the blocks that were written, and whether a write has
    failed.  Missing replies are 0. *)
Record script := Script { sc_replies : list Z; sc_log : list (list byte); sc_failed : bool }.

(** After a failure a write of at least one byte fails. *)
Definition reply (bs : list byte) (s : script) : Z :=
  let v := hd 0%Z (sc_replies s) in
  if (sc_failed s && (v =? 0)%Z && negb (bool_decide (bs = [])))%bool then (-1)%Z else v.

#[export] Instance script_packer : Packer := {|
  packer := script;
  pk_callback bs s :=
    (reply bs s, Script (tl (sc_replies s)) (sc_log s ++ [bs]) (sc_failed s || negb (hd 0 (sc_replies s) =? 0)%Z));
|}.
Definition script_written (s : script) : list byte := concat (sc_log s).
Lemma script_callback bs (s : script) :
  let '(r, s') := pk_callback bs s in
  if sc_failed s then sc_failed s' = true ∧ (bs ≠ [] → r ≠ 0%Z)
  else (r = 0%Z ∧ sc_failed s' = false ∧ script_written s' = script_written s ++ bs) ∨
       (r ≠ 0%Z ∧ sc_failed s' = true).
Proof.
  simpl. unfold reply, script_written. simpl. rewrite concat_app. simpl. rewrite app_nil_r.
  destruct (sc_failed s); simpl; destruct (Z.eqb_spec (hd 0%Z (sc_replies s)) 0) as [E|E]; simpl; auto.
  split; [done|]. intros Hb. by rewrite bool_decide_eq_false_2.
Qed.
#[export] Instance script_packer_laws : PackerLaws := {|
  pk_written := script_written;
  pk_failed := sc_failed;
  pk_callback_law := script_callback;
|}.

(** Scripts that differ in zeros at the end are the same. *)
Fixpoint strip (rs : list Z) : list Z :=
  match rs with
  | [] => []
  | v :: rs => match strip rs with [] => if (v =? 0)%Z then [] else [v] | rs' => v :: rs' end
  end.
Lemma strip_zeros k : strip (replicate k 0%Z) = [].
Proof. induction k as [|k IH]; simpl; [done|]. by rewrite IH. Qed.

Section jobs.
Context `{HS : H5Space, HL : !H5Lib, HM : Msgpack}.
Context (type_fuel : nat) (debug : bool).
Implicit Types s : pstore (HP := script_packer).

(** The result that is given to [msgpack_chunkbuffer_destroy]. *)
Definition serve_job (j : job) : M (pstore (HP := script_packer)) Z :=
  match j with
  | DatasetJob dataset_id rank nr_slices start count buffer_size =>
      let! r := pack_dataset_multi_slice type_fuel debug dataset_id rank nr_slices start count buffer_size in
      ret (if (r =? 0)%Z then 0 else -1)%Z
  | ObjectJob file_id object_name max_depth data_size_limit buffer_size =>
      let! r := pack_object type_fuel debug file_id object_name max_depth data_size_limit buffer_size in
      ret (if (r =? 0)%Z then 0 else 1)%Z
  end.
Definition job_buffer (j : job) : Z :=
  match j with DatasetJob _ _ _ _ _ bs | ObjectJob _ _ _ _ bs => bs end.

(** The store with which a job starts. *)
Definition job_start (l : h5) (m : gmap positive Z) (replies : list Z) : pstore (HP := script_packer) :=
  PStore (HP := script_packer) l (Script (strip replies) [] false) m.
(** The result and the blocks for some replies. *)
Definition run_job (l : h5) (m : gmap positive Z) (j : job) (replies : list Z) : option (Z * list (list byte)) :=
  match serve_job j (job_start l m replies) with
  | Some (r, s) => Some (r, sc_log (p_pk s))
  | None => None
  end.

(** The packer of a job after some replies, for up to [fuel] more writes.  (The
    last line is never reached for the jobs below: their runs are defined.) *)
Fixpoint job_packer (fuel : nat) (l : h5) (m : gmap positive Z) (j : job) (replies : list Z)
    : Stream.packer (byte := byte) :=
  match run_job l m j replies with
  | Some (r, log) =>
      match log !! length replies, fuel with
      | Some bs, S fuel => PackWrite bs (λ v, job_packer fuel l m j (replies ++ [v]))
      | _, _ => PackDone r
      end
  | None => PackDone BUFFER_STATUS_ERROR
  end.
(** The number of writes when none fails. *)
Definition job_writes (l : h5) (m : gmap positive Z) (j : job) : nat :=
  match run_job l m j [] with Some (_, log) => length log | None => 0 end.

(** The branch without failures is the run without failures. *)
Lemma job_packer_branch fuel l m j r log k :
  run_job l m j [] = Some (r, log) → k ≤ length log → length log ≤ k + fuel →
  packer_bytes (job_packer fuel l m j (replicate k 0%Z)) = concat (drop k log) ∧
  packer_result (job_packer fuel l m j (replicate k 0%Z)) = r.
Proof.
  intros Hrun. assert (∀ k, run_job l m j (replicate k 0%Z) = Some (r, log)) as Hz.
  { intros k'. unfold run_job, job_start in *. by rewrite strip_zeros. }
  revert k. induction fuel as [|fuel IH]; intros k Hk Hf; simpl; rewrite Hz, length_replicate.
  - rewrite lookup_ge_None_2, drop_ge by lia. done.
  - destruct (log !! k) as [bs|] eqn:E.
    + simpl. replace (replicate k 0%Z ++ [0%Z]) with (replicate (S k) 0%Z) by apply replicate_S_end.
      rewrite (drop_S _ _ _ E). apply lookup_lt_Some in E.
      destruct (IH (S k)) as [-> ->]; [lia|lia|done].
    + apply lookup_ge_None in E. by rewrite drop_ge by lia.
Qed.
Lemma job_packer_run fuel l m j r log :
  run_job l m j [] = Some (r, log) → length log ≤ fuel →
  packer_bytes (job_packer fuel l m j []) = concat log ∧ packer_result (job_packer fuel l m j []) = r.
Proof. intros Hrun Hf. exact (job_packer_branch fuel l m j r log 0 Hrun (Nat.le_0_l _) Hf). Qed.

Context `{HSL : !H5SpaceLaws, HLL : !H5LibLaws, HML : !MsgpackLaws}.

(** The object that a job is about: the one its identifier denotes, which is
    within the limits the packing functions need. *)
Definition job_fits (o : hobj) (j : job) : Prop :=
  match j with
  | DatasetJob _ rank n st ct _ => dataset_ok type_fuel o ∧ request_fits o rank n st ct
  | ObjectJob _ _ _ _ _ => file_ok type_fuel
  end.
Definition job_object (o : hobj) (objs : gmap Z hobj) (j : job) : Prop := objs !! job_id j = Some o ∧ job_fits o j.

(** What the caller asked for: the contents of the dataset at the points of the
    slices, or the description of the object that the name denotes. *)
Definition job_answer (o : hobj) (j : job) (ob : obj) : Prop :=
  match j with
  | DatasetJob _ rank n st ct _ =>
      ((0 < rank)%Z → slices_valid rank n st ct (ds_dims o)) ∧ ∃ t, mem_type_of (ds_type o) t ∧
      contents_obj t MSGPACK_MAX_SIZE (request_shape rank n st ct) (ds_elem o t <$> request_points rank n st ct) = Some ob
  | ObjectJob _ name depth limit _ =>
      ∃ o', follow o name = Some o' ∧ object_described (recursion_fuel depth) depth limit 0 o' ob
  end.

Lemma serve_job_runs o j s :
  job_object o (v_objs (view s)) j →
  wp (serve_job j) (writes (λ ob, obj_ok ob ∧ job_answer o j ob) s) s.
Proof.
  destruct j as [id rank n st ct bs|id name depth limit bs]; [intros [Hid [Hok Hfits]]|intros [Hid Hfile]];
    cbn [serve_job job_id] in *; wp_step.
  - eapply wp_mono; [by eapply multi_slice_runs|]. intros r s' [Hv H0]. wp_step.
    destruct (Z.eqb_spec r 0) as [->|]; [|by apply writes_fail]. split; [done|]. intros _.
    destruct (H0 eq_refl) as ([Hn _] & Hvalid & t & Hmt & Hpk & ob & Hob & He).
    split; [done|]. exists ob. split; [|done]. split; [by eapply request_contents_ok|].
    split; [done|]. by exists t.
  - eapply wp_mono; [by eapply pack_object_runs|]. intros r s' [Hv H0]. wp_step.
    destruct (Z.eqb_spec r 0) as [->|]; [|by split]. split; [done|]. intros _.
    destruct (H0 eq_refl) as (Hpk & ob & (o' & Hf & Hd) & He).
    split; [done|]. exists ob. split; [|done]. split; [by eapply object_described_ok|by exists o'].
Qed.

(** A run is defined whatever the replies, and if it succeeds its bytes decode
    to the answer. *)
Lemma run_job_decodes o l m j replies :
  job_object o (v_objs (view (job_start l m []))) j →
  ∃ r log, run_job l m j replies = Some (r, log) ∧
    (r = 0%Z → ∃ ob, job_answer o j ob ∧ unpack (obj_depth ob) (concat log) = Some (ob, [])).
Proof.
  intros Ho. destruct (serve_job_runs o j (job_start l m replies)) as (r & s' & E & Hv & H0); [done|].
  exists r, (sc_log (p_pk s')). split; [unfold run_job; by rewrite E|]. intros Hr.
  destruct (H0 Hr) as (Hpk & ob & [Hok Ha] & He). exists ob. split; [done|].
  destruct (emits_decodes _ _ _ Hok Hpk He) as (out & Hw & Hu). assert (concat (sc_log (p_pk s')) = out) as -> by exact Hw.
  specialize (Hu []). by rewrite app_nil_r in Hu.
Qed.
End jobs.
