(* ===== verification/EndToEnd.v ===== *)
(** * From the call to the data: requests, packing and the stream together

    The library's call (Requests.v), the packing functions that serve it
    (Jobs.v) and the stream that carries the bytes (Stream.v), composed: what a
    client that reads its stream to the end has got. *)
From Stdlib Require Import Strings.Byte Strings.String.
From stdpp Require Import base tactics numbers list gmap propset relations.
From S2P Require Import Prelude Bytes Stream SharedData StreamProof StreamMain Pipe.
From S2P Require Import MapInterface Caches FileCache FileCacheMain ShadowCache Requests RequestsProof RequestsMain.
From S2P Require Import Msgpack Select H5 PackStore Multislice Points.
From S2P Require Import NumpyType NumpyTypeProof PackContents PackContentsProof PackDataset PackDatasetProof.
From S2P Require Import PackObject PackObjectProof PackDecode PackMain MsgpackFormat H5File H5Access Jobs.

(** The job of a request: the arguments of the caller, with the size of the
    buffer cut to the one of the ring. *)
Inductive asks_for (max : Z) : request → job → Prop :=
  | asks_dataset fn d n rank st ct bs id :
      asks_for max (DatasetRequest (Some fn) (Some d) n rank (Some st) (Some ct) bs)
        (DatasetJob id rank n (take (Z.to_nat (n * rank)) st) (take (Z.to_nat (n * rank)) ct) (Z.min bs max))
  | asks_object fn name depth bs limit id :
      asks_for max (ObjectRequest (Some fn) (Some name) depth bs limit)
        (ObjectJob id name depth limit (Z.min bs max)).

Lemma opens_job `{!KVMap T (list byte) positive} `{!H5Files (list byte) L} cap now q (f : L * file_cache T (list byte)) c j f' :
  opens cap now q f c [j] f' → RequestsProof.request_ok q → arguments_ok q = true → (0 < cap)%Z →
  asks_for cap q j ∧ (0 < job_buffer j ≤ cap)%Z.
Proof.
  intros Ho Hq Ha Hcap. inversion Ho; subst; (split; [constructor|]); simpl in *.
  - destruct Hq as (_ & _ & _ & _ & [Hb _]). unfold is_u64 in *. lia.
  - destruct Hq as (_ & _ & [Hb _] & _). unfold is_u64 in *. lia.
Qed.

Section main.
Context {T : Type} `{!KVMap T (list byte) positive, !KVMapLaws T (list byte) positive}.
Context `{HS : H5Space, HL : !H5Lib, HM : Msgpack, HSL : !H5SpaceLaws, HLL : !H5LibLaws, HML : !MsgpackLaws}.
Context `{HF : !H5Files (list byte) h5, !H5FilesLaws (list byte) h5, HC : !H5Contents, !H5ContentsLaws}.
Context (type_fuel : nat) (debug : bool).

(** The conditions of the packing functions on a request, for the object [o]
    that it names; the library does not check them. *)
Definition request_packs (o : hobj) (q : request) : Prop :=
  match q with
  | DatasetRequest _ _ n rank (Some st) (Some ct) _ =>
      dataset_ok type_fuel o ∧ request_fits o rank n (take (Z.to_nat (n * rank)) st) (take (Z.to_nat (n * rank)) ct)
  | DatasetRequest _ _ _ _ _ _ _ => False
  | ObjectRequest _ _ _ _ _ => file_ok type_fuel
  end.
Lemma asked_fits max o q j : request_packs o q → asks_for max q j → job_fits type_fuel o j.
Proof. intros Ho Hj. by destruct Hj. Qed.

(** The job of a request is for the object that the request names. *)
Lemma asked_object max q j (l : h5) m :
  asks_for max q j → h5_handles l !! job_id j = Some (named q) →
  (∀ o, contents (named q) = Some o → request_packs o q) →
  ∃ o, contents (named q) = Some o ∧ job_object type_fuel o (v_objs (view (job_start l m []))) j.
Proof.
  intros Hj Hid Hq. destruct (handles_objs _ _ _ Hid) as (o & Ho & Ht). exists o. split; [done|].
  split; [exact Ht|]. by eapply asked_fits; [apply Hq|].
Qed.

Context (NR_BUFFERS : nat) (cap : Z) (bw bl : gmap Z h5_what) (mf md : nat).
Implicit Types s : library (T := T) (L := h5) * reader (T := T) (L := h5) (J := list job).

(** C1: a stream answers the call that opened it.  Suppose that no call on the
    pipes fails, and that the dataset or the file that the caller names, if
    there is one, meets the conditions of the packing functions
    ([request_packs]).  For slices of a dataset they are: it has at most 32
    dimensions and fewer than 2^62 bytes, no string of it is a null pointer
    ([dataset_ok]), and the request has its rank and complete arrays, no end of
    a slice wraps around 2^64, and no row that is not empty has a size that is
    a multiple of 2^64 bytes ([request_fits]; the library checks none of this,
    and C28 and C40 are about requests for which it fails).  For an object
    they are those limits for every object of a file ([file_ok]).  If opening
    then returns a stream, the reader has one new job, with the arguments of the
    caller and an identifier that denotes what the caller named.  However the
    two processes are interleaved from then on, the run ends with both of them
    done; a client that reads to the end gets chunks that fit its buffer and the
    result of the packing functions, and if that is 0 the chunks together
    decode, with nothing left over, to the contents of the dataset at the points
    of the caller's slices, or to the description of the object that the caller
    named. *)
Theorem call_answered check expiry nw nl q s st s' :
  0 < mf → 0 < md → 0 < NR_BUFFERS → (0 < cap < 2 ^ 64)%Z → timer_ok check expiry →
  quiet NR_BUFFERS cap bw bl mf md s → l_idle s.1 = true → l_held s.1 = false →
  RequestsProof.request_ok q → arguments_ok q = true → (∀ o, contents (named q) = Some o → request_packs o q) →
  serve_open NR_BUFFERS check expiry nw nl q s = Some (Some st, s') →
  let l := (r_files s'.2).1 in
  ∃ j o, r_jobs s'.2 = r_jobs s.2 ++ [j] ∧ asks_for cap q j ∧
    contents (named q) = Some o ∧ t_objs (tables l) !! job_id j = Some o ∧
    ∀ m writes fuel n,
      let p := job_packer type_fuel debug writes l m j [] in
      job_writes type_fuel debug l m j ≤ writes → 2 + length (packer_bytes p) ≤ fuel → 2 + length (packer_bytes p) ≤ n →
      always_ends (live_step false) (StreamMain.start NR_BUFFERS (job_buffer j) cap (rg_ring (l_srd s'.1)) p fuel (read_all n))
        (λ c, ∃ chunks rc, finished c (chunks ++ [Chunk 0 [] (Some rc)]) ∧
          Forall (λ r, r_len r = len (r_bytes r) ∧ (r_len r ≤ job_buffer j)%Z) chunks ∧
          (rc = 0%Z → ∃ ob, job_answer o j ob ∧ unpack (obj_depth ob) (concat (r_bytes <$> chunks)) = Some (ob, []))).
Proof.
  intros Hmf Hmd HN Hcap Ht Hs Hidle Hheld Hq Ha Hpacks E l. destruct s as [lib [e f g b js]].
  destruct (qu_agree _ _ _ _ _ _ _ Hs) as (vs & ws & Hv & _).
  destruct (opens_total bw mf md vs cap nw q f Hv Hmf Hmd Ha) as (c & jobs & f' & Hop & Hids).
  destruct (wp_run _ _ _ _ _ (wp_serve_open NR_BUFFERS cap bw bl mf md check expiry nw nl q lib e f g b js c jobs f'
    Ht Hs Hidle Hheld Hq Ha Hop Hmf Hmd) E) as (Hfiles & Hjobs & Hsome & (_ & _ & _ & Hring) & _).
  assert (∃ j, jobs = [j]) as [j ->].
  { assert (jobs ≠ []) as Hne by (by apply Hsome). destruct Hop; try done; by eexists. }
  destruct (opens_job _ _ _ _ _ _ _ Hop Hq Ha) as [Hasks Hb]; [lia|].
  apply Forall_cons in Hids as [Hids _]. rewrite <- Hfiles in Hids. fold l in Hids.
  destruct (asked_object cap q j l ∅ Hasks Hids Hpacks) as (o & Ho & Hj & Hfits).
  exists j, o. do 4 (split; [done|]). intros m writes fuel n p Hw Hf Hn.
  destruct (run_job_decodes type_fuel debug o l m j [] (conj Hj Hfits)) as (rc & log & Hrun & Hdec).
  unfold job_writes in Hw. rewrite Hrun in Hw.
  destruct (job_packer_run type_fuel debug writes l m j rc log Hrun Hw) as [Hbytes Hres].
  assert (sizes_ok NR_BUFFERS (job_buffer j) cap p fuel) as Hok by (split_and!; [done|lia..|done]).
  eapply always_ends_mono; [|by apply start_ends]. intros c1 (log1 & Hfin & Hcl & Hlog & _).
  destruct (read_all_chunks _ _ _ _ _ _ _ Hok Hn Hcl Hlog) as (chunks & -> & Hcat & Hsz).
  exists chunks, rc. unfold p in *. rewrite Hres in Hfin. split; [exact Hfin|]. split; [exact Hsz|]. intros H0.
  rewrite Hcat, Hbytes. by apply Hdec.
Qed.
End main.

(** ** A call *)

Import RequestDemo H5File H5Access.
Module CallDemo.
(** The library and the worker of RequestDemo, with the concrete HDF5 library
    and a ring of two buffers of sixteen bytes. *)
Definition none_open : h5 := State ∅ ∅ ∅ 0 ∅.
Definition ring : region (byte := byte) :=
  Region 0 16 0 0 [0; 16]%Z (Shared 0 [Buffer 3 0 1 0 (repeat x00 16); Buffer 0 1 0 0 (repeat x00 16)]).
Definition both : library (T := AvlTree.avltree (list byte) positive) (L := h5) *
    reader (T := AvlTree.avltree (list byte) positive) (L := h5) (J := list job) :=
  (Library (l_link lib) (none_open, file_cache_new 2 1) ring true false ∅,
   Reader (r_end worker) (none_open, file_cache_new 2 1) ring ∅ []).
Definition call : request :=
  DatasetRequest (Some (lit "a.h5")) (Some (lit "d")) 2 2 (Some PackDemo.starts) (Some PackDemo.counts) 1000.
Definition served : option (option loc * (library * reader)) := serve_open 2 10 10 100 200 call both.
(** The two processes when the call has returned. *)
Definition after : library * reader := match served with Some (_, s) => s | None => both end.
Definition stream : loc := match served with Some (Some st, _) => st | _ => 1%positive end.
Definition returned : bool := match served with Some (Some _, _) => true | _ => false end.
Lemma returned_stream : returned = true → serve_open 2 10 10 100 200 call both = Some (Some stream, after).
Proof.
  unfold returned, stream, after, served. by destruct (serve_open 2 10 10 100 200 call both) as [[[] ?]|].
Qed.

(** What is packed. *)
Definition dataset_job : job := DatasetJob 1 2 2 PackDemo.starts PackDemo.counts 16.
Definition packed : Stream.packer := job_packer 5 true 100 (r_files after.2).1 ∅ dataset_job [].

Lemma call_ok : RequestsProof.request_ok call.
Proof.
  split; [|split; [done|split; [done|split; [|done]]]].
  - intros s [[= <-]|[= <-]]; (split; [by apply (bool_decide_eq_true_1 _); vm_compute|done]).
  - intros a [[= <-]|[= <-]]; (split; [done|]); repeat apply Forall_cons_2; try apply Forall_nil_2; done.
Qed.
Lemma call_quiet : quiet 2 16 (h5_handles none_open) (h5_handles none_open) 2 1 both.
Proof.
  destruct RequestDemo.is_quiet as [Hl He _ _ _]. split; [exact Hl|exact He| | |done].
  - exists [], []. split_and!; [exact (fc_state_new false none_open 2 1)|exact (fc_state_new true none_open 2 1)|done|constructor..].
  - split; [done|]. repeat apply Forall_cons_2; try apply Forall_nil_2; done.
Qed.
Lemma call_packs o : contents (named call) = Some o → request_packs 5 o call.
Proof. intros [= <-]. split; [exact PackDemo.data_ok|exact PackDemo.fits]. Qed.
End CallDemo.

(** The contents of the dataset reach a client that reads to the end. *)
Lemma call_answered_witness :
  packer_result CallDemo.packed = 0%Z ∧
  always_ends (live_step false) (StreamMain.start 2 16 16 (rg_ring (l_srd CallDemo.after.1)) CallDemo.packed 1000 (read_all 1000))
    (λ c, ∃ chunks rc, finished c (chunks ++ [Chunk 0 [] (Some rc)]) ∧
      Forall (λ r, r_len r = len (r_bytes r) ∧ (r_len r ≤ 16)%Z) chunks ∧
      (rc = 0%Z → ∃ ob, job_answer PackDemo.data CallDemo.dataset_job ob ∧
         unpack (obj_depth ob) (concat (r_bytes <$> chunks)) = Some (ob, []))).
Proof.
  split; [by_vm|].
  assert (0 < 16 < 2 ^ 64)%Z as Hcap by (split; reflexivity).
  assert (timer_ok 10 10) as Ht by by intros _.
  assert (CallDemo.returned = true) as served by by_vm. apply CallDemo.returned_stream in served.
  destruct (call_answered 5 true 2 16 (h5_handles CallDemo.none_open) (h5_handles CallDemo.none_open) 2 1 10 10 100 200
    CallDemo.call CallDemo.both CallDemo.stream CallDemo.after
    ltac:(lia) ltac:(lia) ltac:(lia) Hcap Ht CallDemo.call_quiet eq_refl eq_refl CallDemo.call_ok eq_refl CallDemo.call_packs served)
    as (j & o & Hj & _ & Ho & _ & Hrun).
  assert (r_jobs CallDemo.after.2 = [CallDemo.dataset_job]) as Hj'
    by (apply (bool_decide_eq_true_1 _); by_vm).
  rewrite Hj' in Hj. injection Hj as <-. assert (o = PackDemo.data) as -> by (clear -Ho; vm_compute in Ho; by injection Ho).
  refine (Hrun ∅ 100 1000 1000 _ _ _).
  all: apply (Nat.leb_le _ _); by_vm.
Defined.
