(* ===== verification/Sessions.v ===== *)
(** * Sessions: one request after the other

    A thread opens a stream, reads what it wants, closes the stream, and opens
    the next one with the same worker.  What a request leaves behind in the
    pipes, the caches and the ring is what the next one starts from. *)
From Stdlib Require Import Strings.Byte Strings.String.
From stdpp Require Import base tactics numbers list gmap relations.
From S2P Require Import Prelude Bytes Stream SharedData StreamProof StreamMain Pipe.
From S2P Require Import MapInterface Caches FileCache FileCacheMain ShadowCache Requests RequestsProof RequestsMain.
From S2P Require Import EndToEnd Jobs.

Section sessions.
Context {T L : Type} `{!KVMap T (list byte) positive, !KVMapLaws T (list byte) positive}.
Context `{!H5Files (list byte) L, !H5FilesLaws (list byte) L}.
Context (NR_BUFFERS : nat) (cap : Z) (bw bl : gmap Z h5_what) (mf md : nat).
Context (check expiry : Z).
Abbreviation both := (library (T := T) (L := L) * reader (T := T) (L := L) (J := list job))%type.
Implicit Types s : both.

(** One use of the library: the request, what the client does with the stream,
    what the reader packs for a job, the fuel of the loop that drains the
    stream, and the times at the reader and at the library. *)
Record use := Use {
  u_request : request;
  u_client : client (byte := byte);
  u_pack : job → packer (byte := byte);
  u_fuel : nat;
  u_now : Z * Z;
}.

(** The library when the two processes are done with the ring. *)
Definition with_ring (ring : shared (byte := byte)) (l : library (T := T) (L := L)) : library (T := T) (L := L) :=
  let g := l_srd l in
  Library (l_link l) (l_shadow l) (Region (rg_total_size g) (rg_buffer_size g) (rg_nr_file_cache_hits g)
    (rg_nr_file_cache_misses g) (rg_offset g) ring) (l_idle l) (l_held l) (l_streams l).

(** A use, with what the client got if there was a stream. *)
Inductive exchange (u : use) : both → option (list (chunk_result (byte := byte))) → both → Prop :=
  | x_refused s s' :
      serve_open NR_BUFFERS check expiry (u_now u).1 (u_now u).2 (u_request u) s = Some (None, s') →
      exchange u s None s'
  | x_served s st l r j c log l' :
      serve_open NR_BUFFERS check expiry (u_now u).1 (u_now u).2 (u_request u) s = Some (Some st, (l, r)) →
      r_jobs r = r_jobs s.2 ++ [j] →
      rtc (live_step false)
        (start NR_BUFFERS (job_buffer j) cap (rg_ring (l_srd l)) (u_pack u j) (u_fuel u) (u_client u)) c →
      finished c log →
      close_stream st (with_ring (c_shared c) l) = Some ((), l') →
      exchange u s (Some log) (l', r).

Inductive session : list use → both → list (option (list (chunk_result (byte := byte)))) → both → Prop :=
  | session_end s : session [] s [] s
  | session_use u us s x s1 xs s2 :
      exchange u s x s1 → session us s1 xs s2 → session (u :: us) s (x :: xs) s2.

(** Between two requests. *)
Definition at_rest s : Prop := quiet NR_BUFFERS cap bw bl mf md s ∧ l_idle s.1 = true ∧ l_held s.1 = false.

Definition use_ok (u : use) : Prop :=
  request_ok (u_request u) ∧ arguments_ok (u_request u) = true ∧
  ∀ j, asks_for cap (u_request u) j → 2 + length (packer_bytes (u_pack u j)) ≤ u_fuel u.

(** The client got a part of what was packed for its request, all of it if it
    reads to the end. *)
Definition answered (u : use) (x : option (list (chunk_result (byte := byte)))) : Prop :=
  ∀ log, x = Some log → ∃ j, asks_for cap (u_request u) j ∧ client_log (u_client u) log ∧
    concat (r_bytes <$> log) `prefix_of` packer_bytes (u_pack u j) ∧
    ∀ n, u_client u = read_all n → 2 + length (packer_bytes (u_pack u j)) ≤ n →
      ∃ chunks, log = chunks ++ [Chunk 0 [] (Some (packer_result (u_pack u j)))] ∧
        concat (r_bytes <$> chunks) = packer_bytes (u_pack u j).

Hypothesis (Hmf : 0 < mf) (Hmd : 0 < md) (HN : 0 < NR_BUFFERS) (Hcap : (0 < cap < 2 ^ 64)%Z).
Hypothesis (Htimer : timer_ok check expiry).

Lemma serve_open_at_rest u s : at_rest s → use_ok u →
  wp (serve_open NR_BUFFERS check expiry (u_now u).1 (u_now u).2 (u_request u)) (λ r s',
    quiet NR_BUFFERS cap bw bl mf md s' ∧ l_idle s'.1 = true ∧ stream_result NR_BUFFERS cap s.1 r s'.1 ∧
    (is_Some r → ∃ j, r_jobs s'.2 = r_jobs s.2 ++ [j] ∧ asks_for cap (u_request u) j ∧ (0 < job_buffer j ≤ cap)%Z)) s.
Proof.
  intros (Hs & Hidle & Hheld) (Hq & Ha & _). destruct s as [l [e f g b js]]. simpl in *.
  destruct (qu_agree _ _ _ _ _ _ _ Hs) as (vs & ws & Hv & _).
  destruct (opens_total bw mf md vs cap (u_now u).1 (u_request u) f Hv Hmf Hmd Ha) as (c & jobs & f' & Hop & _).
  eapply wp_mono; [by eapply wp_serve_open|].
  intros r s' (_ & Hjobs & Hsome & Hres & _ & Hs' & Hi). split; [done|]. split; [congruence|]. split; [done|].
  intros Hr. apply Hsome in Hr. assert (∃ j, jobs = [j]) as [j ->] by (destruct Hop; try done; by eexists).
  exists j. split; [done|]. eapply opens_job; [done..|lia].
Qed.
(** The processes when the stream is closed. *)
Lemma wp_close_stream l0 l r st ring (Q : () → library (T := T) (L := L) → Prop) :
  stream_result NR_BUFFERS cap l0 (Some st) l → quiet NR_BUFFERS cap bw bl mf md (l, r) → l_idle l = true →
  length (sh_buffer ring) = NR_BUFFERS → Forall (usable_buffer cap) (sh_buffer ring) →
  (∀ l', at_rest (l', r) → l_streams l' = l_streams l0 → Q () l') →
  wp (close_stream st) Q (with_ring ring l).
Proof.
  intros (Hh & Hs & Hst & _) [Hk He Hag Hring Hsz] Hidle Hlen Hus HQ. simpl in *.
  unfold close_stream, process_pool_release_worker, set_held. wp_step. wp_step. wp_step. wp_step.
  apply wp_assert; [exact Hh|]. wp_step. cbn. eapply wp_free; [cbn; rewrite Hst; apply lookup_insert_eq|].
  cbn. rewrite Hst, delete_insert_id by done. apply HQ; [|done]. split; [|by split]. by split.
Qed.

Definition served_well (u : use) s (x : option (list (chunk_result (byte := byte)))) s' : Prop :=
  at_rest s' ∧ l_streams s'.1 = l_streams s.1 ∧ answered u x.

(** A stream that was opened, to its end. *)
Lemma stream_at_rest u s st l r j :
  use_ok u → quiet NR_BUFFERS cap bw bl mf md (l, r) → l_idle l = true → stream_result NR_BUFFERS cap s.1 (Some st) l →
  asks_for cap (u_request u) j → (0 < job_buffer j ≤ cap)%Z →
  always_ends (live_step false)
    (start NR_BUFFERS (job_buffer j) cap (rg_ring (l_srd l)) (u_pack u j) (u_fuel u) (u_client u))
    (λ c, ∃ log, finished c log ∧ wp (close_stream st) (λ _ l', served_well u s (Some log) (l', r)) (with_ring (c_shared c) l)).
Proof.
  intros (_ & _ & Hf) Hq Hidle Hres Hasks Hb. pose proof Hres as (_ & _ & _ & Hfr).
  assert (sizes_ok NR_BUFFERS (job_buffer j) cap (u_pack u j) (u_fuel u)) as Hok by (split_and!; [done|lia..|by apply Hf]).
  eapply always_ends_mono; [|by apply start_ends].
  intros c (log & Hfin & Hcl & Hlog & Hlen & Hus). exists log. split; [done|].
  eapply wp_close_stream; [exact Hres|exact Hq|exact Hidle|exact Hlen|exact Hus|]. intros l' Hrest Hst.
  split; [done|]. split; [done|]. intros ? [= <-]. exists j. split; [done|]. split; [done|].
  split; [exact (log_bytes _ _ _ _ [] log Hlog (prefix_nil _))|]. intros n Hn Hle. rewrite Hn in Hcl.
  destruct (read_all_chunks _ _ _ _ _ _ _ Hok Hle Hcl Hlog) as (chunks & -> & ? & _). by exists chunks.
Qed.

Lemma finished_stuck c (log : list (chunk_result (byte := byte))) : finished c log → ∀ c', ¬ live_step false c c'.
Proof.
  destruct c as [sh w r d]. intros [Hw Hr] c' Hc. simpl in *. subst. inversion Hc as [? ? Hs Hd]; subst.
  inversion Hs; subst. done.
Qed.

(** An exchange exists, and every exchange is in order. *)
Lemma exchange_total u s : at_rest s → use_ok u → ∃ x s', exchange u s x s'.
Proof.
  intros Hs Hu. destruct (serve_open_at_rest u s Hs Hu) as (r & [l rd] & E & Hq & Hidle & Hres & Hj).
  destruct r as [st|]; [|by eexists None, _; apply x_refused]. destruct Hj as (j & Hjobs & Hasks & Hb); [by eexists|].
  destruct (always_ends_some _ _ (stream_at_rest u s st l rd j Hu Hq Hidle Hres Hasks Hb))
    as (c & Hr & log & Hfin & [] & l' & Hc & _).
  exists (Some log), (l', rd). by eapply x_served.
Qed.
Lemma exchange_served u s x s' : at_rest s → use_ok u → exchange u s x s' → served_well u s x s'.
Proof.
  intros Hs Hu Hx. pose proof (serve_open_at_rest u s Hs Hu) as Hwp.
  destruct Hx as [s s' E|s st l rd j c log l' E Hjobs Hr Hfin Hc];
    destruct (wp_run _ _ _ _ _ Hwp E) as (Hq & Hidle & Hres & Hj).
  - destruct Hres as [Hh Hst]. split; [by split|]. split; [done|]. by intros log.
  - destruct Hj as (j' & Hjobs' & Hasks & Hb); [by eexists|].
    simpl in Hjobs'. rewrite Hjobs in Hjobs'. apply app_inj_tail in Hjobs' as [_ <-].
    destruct (stream_at_rest u s st l rd j Hu Hq Hidle Hres Hasks Hb) as [_ Hend].
    destruct (Hend c Hr (finished_stuck c log Hfin)) as (log' & Hfin' & Hclose).
    assert (log' = log) as -> by (destruct Hfin as [_ E1], Hfin' as [_ E2]; congruence).
    exact (wp_run _ _ _ _ _ Hclose Hc).
Qed.

(** C2: a worker serves any number of requests.  Whatever the requests, the
    clients and what is packed for them, when no call on the pipes fails and
    the reader lives: a session can always be completed, and every session,
    however the two processes are interleaved in each stream, leaves the
    processes at rest, with no stream open, and each client that got a stream
    got a part of the bytes packed for its own request, all of them and the
    result of packing if it reads to the end. *)
Theorem session_answered us s :
  at_rest s → Forall use_ok us →
  (∃ xs s', session us s xs s') ∧
  ∀ xs s', session us s xs s' → at_rest s' ∧ l_streams s'.1 = l_streams s.1 ∧ Forall2 answered us xs.
Proof.
  intros Hs Hus. split.
  - revert s Hs. induction Hus as [|u us Hu _ IH]; intros s Hs; [by eexists _, _; constructor|].
    destruct (exchange_total u s Hs Hu) as (x & s1 & Hx).
    destruct (IH s1) as (xs & s2 & Hxs); [by eapply exchange_served|]. eexists _, _. by eapply session_use.
  - intros xs s' Hss. revert Hs Hus. induction Hss as [s|u us s x s1 xs s2 Hx _ IH]; intros Hs Hus; [by split|].
    apply Forall_cons in Hus as [Hu Hus]. destruct (exchange_served u s x s1 Hs Hu Hx) as (Hs1 & Hst & Ha).
    destruct (IH Hs1 Hus) as (? & ? & ?). split; [done|]. split; [congruence|]. by constructor.
Qed.
End sessions.

(** ** A session *)

Import RequestDemo.
Module SessionDemo.
Definition small : request :=
  DatasetRequest (Some (lit "a.h5")) (Some (lit "x")) 2 1 (Some [0; 5; 99]%Z) (Some [3; 4; 99]%Z) 1000.
Definition missing : request := ObjectRequest (Some []) (Some (lit "/")) 1 1000 1000.
(** A dataset is read, a file that is not there is asked for, and a stream is
    closed after one chunk. *)
Definition uses : list use :=
  [Use small (read_all 20) (λ _, PackWrite [x01; x02; x03] (λ _, PackDone 0)) 20 (100, 200)%Z;
   Use missing (read_all 20) (λ _, PackDone 0) 20 (101, 201)%Z;
   Use small (Read (λ _, Close)) (λ _, PackWrite [x01; x02; x03; x04; x05] (λ _, PackDone 0)) 20 (102, 202)%Z].
Lemma uses_ok : Forall (use_ok 4) uses.
Proof.
  repeat apply Forall_cons_2; try apply Forall_nil_2; (split; [|split; [done|intros j _; simpl; lia]]);
    first [exact RequestDemo.dataset_ok|split; [|done]].
  intros s [[= <-]|[= <-]]; (split; [by apply (bool_decide_eq_true_1 _); vm_compute|done]).
Qed.
Lemma rests : at_rest 2 4 ∅ ∅ 2 1 (RequestDemo.lib, RequestDemo.worker).
Proof. split; [exact RequestDemo.is_quiet|done]. Qed.
End SessionDemo.

Lemma session_answered_witness :
  (∃ xs s', session 2 4 10 10 SessionDemo.uses (RequestDemo.lib, RequestDemo.worker) xs s') ∧
  ∀ xs s', session 2 4 10 10 SessionDemo.uses (RequestDemo.lib, RequestDemo.worker) xs s' →
    at_rest 2 4 ∅ ∅ 2 1 s' ∧ l_streams s'.1 = l_streams RequestDemo.lib ∧ Forall2 (answered 4) SessionDemo.uses xs.
Proof.
  apply (session_answered 2 4 ∅ ∅ 2 1 10 10 ltac:(lia) ltac:(lia) ltac:(lia) ltac:(split; reflexivity) ltac:(by intros _) SessionDemo.uses
    (RequestDemo.lib, RequestDemo.worker) SessionDemo.rests SessionDemo.uses_ok).
Defined.
