(* ===== verification/Reader.v ===== *)
(** * The reader process as a whole

    [main] of src/src/reader/hdfstream_reader.c: the arguments, the start
    (Startup.v), the loop that serves requests (Requests.v) until the process is
    told to end or the library is gone, and what is freed then.  The handlers
    run here with the packing functions (Jobs.v), on the process's own HDF5
    library and its own blocks; what the calls of [msgpack_chunkbuffer_write]
    return is up to the client at the other side of the ring (Stream.v), and is
    any list of results here. *)
From Stdlib Require Import Strings.Byte Strings.String.
From stdpp Require Import base tactics numbers list gmap.
From S2P Require Import Prelude Bytes Pipe Stream SharedData MapInterface Caches DatasetCache FileCache Requests Startup.
From S2P Require Import Select H5 Msgpack PackStore Jobs.

(** ** [atoi] *)

Definition is_digit (b : byte) : bool := ((48 <=? Z_of_byte b) && (Z_of_byte b <=? 57))%Z.
Definition is_space (b : byte) : bool :=
  ((Z_of_byte b =? 32) || (9 <=? Z_of_byte b) && (Z_of_byte b <=? 13))%Z.
Fixpoint skip_spaces (s : list byte) : list byte :=
  match s with b :: s' => if is_space b then skip_spaces s' else s | [] => [] end.
(** The number that the digits at the beginning of [s] continue. *)
Fixpoint digits_value (s : list byte) (v : Z) : Z :=
  match s with
  | b :: s => if is_digit b then digits_value s (v * 10 + (Z_of_byte b - 48))%Z else v
  | [] => v
  end.
Definition signed_value (s : list byte) : Z :=
  match s with
  | x2d :: s => - digits_value s 0
  | x2b :: s => digits_value s 0
  | _ => digits_value s 0
  end.
(** A value that is not an [int] is undefined. *)
Definition atoi {S} (s : list byte) : M S Z :=
  let v := signed_value (skip_spaces s) in if decide (is_s32 v) then ret v else ub.

(** A stream that was sent: its job, the blocks that were written, and the
    result that was given to [msgpack_chunkbuffer_destroy]. *)
Record sent := Sent { sn_job : job; sn_writes : list (list byte); sn_result : Z }.
(** What the calls of [msgpack_chunkbuffer_write] return in each of the streams
    to come, the stream that is open, and those that were sent. *)
Record streams := Streams { ss_replies : list (list Z); ss_script : script; ss_sent : list sent }.

Section process.
Context {T : Type} `{!KVMap T (list byte) positive, !KVMapLaws T (list byte) positive}.
Context `{HS : H5Space, HL : !H5Lib, HM : Msgpack, HF : !H5Files (list byte) h5}.
Context (type_fuel : nat) (debug : bool).
Abbreviation reader := (reader (T := T) (L := h5) (J := streams)).

(** ** The streams *)

(** [msgpack_chunkbuffer_init]: its assertions, and a chunk buffer to which
    nothing was written. *)
Definition chunkbuffer_init (j : job) : M reader () :=
  let! max := gets (λ r : reader, rg_buffer_size (r_srd r)) in
  do! assertM ((0 <? job_buffer j) && (job_buffer j <=? max))%Z in
  modify (λ r : reader, let s := r_jobs r in
    Reader (r_end r) (r_files r) (r_srd r) (r_blocks r)
      (Streams (tl (ss_replies s)) (Script (strip (hd [] (ss_replies s))) [] false) (ss_sent s))).
(** The packing functions, on the library and the blocks of the process. *)
Definition pack : job → M reader Z := λ j,
  zoom (λ r, PStore (HP := script_packer) (r_files r).1 (ss_script (r_jobs r)) (r_blocks r))
       (λ s r, Reader (r_end r) (p_h5 s, (r_files r).2) (r_srd r) (p_mem s)
                 (Streams (ss_replies (r_jobs r)) (p_pk s) (ss_sent (r_jobs r)))) (serve_job type_fuel debug j).
Definition stream (j : job) : M reader (job * Z) :=
  do! chunkbuffer_init j in let! result := pack j in ret (j, result).
(** [msgpack_chunkbuffer_destroy(&cb, result)] *)
Definition destroy (r : job * Z) : M reader () :=
  modify (λ x : reader, let s := r_jobs x in
    Reader (r_end x) (r_files x) (r_srd x) (r_blocks x)
      (Streams (ss_replies s) (ss_script s) (ss_sent s ++ [Sent r.1 (sc_log (ss_script s)) r.2]))).

(** ** The process *)

(** What the parts of the process use: its end of the pipes, its resources of
    the operating system, its blocks, its HDF5 library, the global variable
    [fc], what is in the shared memory, and its streams. *)
Record process := Process {
  pc_end : endpoint;
  pc_host : host;
  pc_blocks : gmap positive Z;
  pc_h5 : h5;
  pc_fc : option (file_cache T (list byte));
  pc_srd : region (byte := byte);
  pc_streams : streams;
}.

Definition on_starting {A} : M starting A → M process A :=
  zoom (λ p, Starting (pc_end p) (pc_host p) (pc_blocks p))
       (λ s p, Process (st_end s) (st_host s) (st_blocks s) (pc_h5 p) (pc_fc p) (pc_srd p) (pc_streams p)).
Definition set_fc (fc : file_cache T (list byte)) : M process () :=
  modify (λ p, Process (pc_end p) (pc_host p) (pc_blocks p) (pc_h5 p) (Some fc) (pc_srd p) (pc_streams p)).
Definition on_reader {A} (m : M reader A) : M process A :=
  let! fc := gets pc_fc in
  match fc with
  | None => ub
  | Some fc =>
      zoom (λ p, Reader (pc_end p) (pc_h5 p, fc) (pc_srd p) (pc_blocks p) (pc_streams p))
           (λ r p, Process (r_end r) (pc_host p) (r_blocks r) (r_files r).1 (Some (r_files r).2) (r_srd r) (r_jobs r)) m
  end.

(** The [do] loop.  [clock]: what [time(NULL)] returns in its iterations, one
    value for each. *)
Fixpoint command_loop (file_cache_check_interval file_cache_expiry_interval : Z) (clock : list Z)
    : M reader iteration :=
  match clock with
  | [] => ub
  | now :: clock =>
      let! i := main_loop_body stream destroy file_cache_check_interval file_cache_expiry_interval now in
      match i with
      | Next => command_loop file_cache_check_interval file_cache_expiry_interval clock
      | _ => ret i
      end
  end.

(** How a process ends: it returns from [main] or calls [exit], or [abort]. *)
Inductive ending := Exited (status : Z) | Killed.

Definition main (argv : list (list byte)) (clock : list Z) : M process ending :=
  match argv with
  | [_; arg1; arg2; arg3; arg4] =>
      let! max_open_files := atoi arg1 in
      let! max_open_datasets := atoi arg2 in
      let! file_cache_check_interval := atoi arg3 in
      let! file_cache_expiry_interval := atoi arg4 in
      let! started := on_starting
        (reader_start max_open_files max_open_datasets file_cache_check_interval file_cache_expiry_interval) in
      match started with
      | None => ret (Exited 1)
      | Some (sm, fc) =>
          do! set_fc fc in
          let! i := on_reader (command_loop file_cache_check_interval file_cache_expiry_interval clock) in
          match i with
          | ExitFailure => ret (Exited 1)
          | Aborted => ret Killed
          | Next | Stop =>
              do! on_reader (on_files (file_cache_free false)) in
              do! on_starting (on_child_host (shared_memory_unmap (Some sm))) in
              ret (Exited 0)
          end
      end
  | _ => ret (Exited 1)
  end.
End process.
