(* ===== verification/ReaderMain.v ===== *)
(** * The reader process: the theorem

    What the process reads from its command line, and what it does from its
    start to its end: it answers the requests as the contract of the file cache
    says, and gives everything back. *)
From Stdlib Require Import Strings.Byte Strings.String.
From stdpp Require Import base tactics numbers list gmap.
From S2P Require Import Prelude Bytes Pipe Stream SharedData AvlTree AvlMap MapInterface Caches DatasetCache FileCache FileCacheProof.
From S2P Require Import Msgpack Select H5 PackStore NumpyTypeProof PackContentsProof PackDatasetProof PackObjectProof PackDecode PackMain.
From S2P Require Import FileCacheMain ShadowCache Requests RequestsProof RequestsMain Startup StartupMain.
From S2P Require Import MsgpackFormat H5File H5Access Jobs EndToEnd Reader.

#[local] Arguments size_bytes : simpl never.
#[local] Arguments int_bytes : simpl never.

(** ** The command line *)

Lemma digit_is_digit d : (0 ≤ d < 10)%Z → is_digit (digit d) = true.
Proof. intros. unfold is_digit, digit. rewrite Z_of_byte_of_Z, Z.mod_small by lia. lia. Qed.

Lemma dec_go_digits fuel z acc :
  (0 ≤ z)%Z → Forall (λ b, is_digit b = true) acc → Forall (λ b, is_digit b = true) (dec_go fuel z acc).
Proof.
  revert z acc. induction fuel as [|n IH]; intros z acc Hz Ha; simpl; [done|].
  destruct (z <? 10)%Z eqn:E.
  - constructor; [by apply digit_is_digit; lia|done].
  - apply IH; [apply Z.div_pos; lia|]. constructor; [|done]. apply digit_is_digit, Z.mod_pos_bound. lia.
Qed.

Lemma digits_value_all s v : Forall (λ b, is_digit b = true) s → digits_value s v = dec_value s v.
Proof. intros Hs. revert v. induction Hs as [|b s Hb _ IH]; intros v; simpl; [done|]. by rewrite Hb, IH. Qed.

Lemma dec_go_read z : (0 ≤ z < 10 ^ 10)%Z → digits_value (dec_go 10 z []) 0 = z.
Proof.
  intros Hz. rewrite digits_value_all by (apply dec_go_digits; [lia|constructor]).
  rewrite dec_go_value by (change (Z.of_nat 10) with 10%Z; lia). cbn [dec_value foldl]. lia.
Qed.

(** [atoi] reads what [%d] prints. *)
Lemma atoi_fmt_d {S} z (s : S) : is_s32 z → atoi (fmt_d z) s = Some (z, s).
Proof.
  intros Hz. assert (signed_value (skip_spaces (fmt_d z)) = z) as E.
  { unfold is_s32 in Hz. unfold fmt_d. destruct (Z.ltb_spec z 0).
    - cbn [skip_spaces]. change (is_space x2d) with false. cbn [signed_value]. rewrite dec_go_read by lia. lia.
    - pose proof (dec_go_digits 10 z [] ltac:(lia) ltac:(constructor)) as Hd.
      rewrite <- (dec_go_read z) at 2 by lia. destruct (dec_go 10 z []) as [|b l]; [done|].
      apply Forall_cons in Hd as [Hb _]. cbn [skip_spaces].
      assert (is_space b = false) as ->.
      { unfold is_digit, is_space in *. lia. }
      by destruct b. }
  unfold atoi. rewrite E. by rewrite decide_True.
Qed.
Lemma wp_atoi {S} z s (Q : Z → S → Prop) : is_s32 z → Q z s → wp (atoi (fmt_d z)) Q s.
Proof. intros Hz HQ. eapply wp_intro; [by apply atoi_fmt_d|exact HQ]. Qed.

(** ** What happens to a reader

    The timer of the loop runs out, or a request arrives, at some time. *)
Inductive event := Tick (now : Z) | Ask (now : Z) (q : request).
Definition e_time (e : event) : Z := match e with Tick now | Ask now _ => now end.
Definition event_bytes (e : event) : list byte := match e with Tick _ => [] | Ask _ q => request_bytes q end.

(** The answers of [poll]: they decide when the timer runs out; without a timer
    there is no [poll]. *)
Fixpoint script (es : list event) (ps : list poll_answer) : Prop :=
  match es with
  | [] => (poll_next ps).1 = PollReady
  | Tick _ :: es => (poll_next ps).1 = PollTimeout ∧ script es (poll_next ps).2
  | Ask _ _ :: es => (poll_next ps).1 = PollReady ∧ script es (poll_next ps).2
  end.
Definition polls_for (timer : bool) (es : list event) (ps : list poll_answer) : Prop :=
  if timer then script es ps else Forall (λ e, match e with Tick _ => False | Ask _ _ => True end) es.
(** The events as calls of the file cache, and the results as what is sent. *)
Definition cache_op (expiry : Z) (e : event) : fc_op (list byte) :=
  match e with
  | Tick now => Expire now expiry
  | Ask now q => FileCacheMain.Request now (file_of q) (dataset_of q)
  end.
Definition reply (r : fc_result) : list byte := match r with RCode c => int_bytes c | _ => [] end.
Definition replies (rs : list fc_result) : list byte := concat (reply <$> rs).

(** How the input ends: with the command to exit, or because the library has
    ended, maybe in the middle of a command. *)
Definition last_input (stop : bool) (tail : list byte) : Prop :=
  if stop then tail = int_bytes COMMAND_EXIT else (len tail < sizeof_int)%Z.

Section main.
Context {T : Type} `{!KVMap T (list byte) positive, !KVMapLaws T (list byte) positive}.
Context `{HS : H5Space, HL : !H5Lib, HM : Msgpack, HSL : !H5SpaceLaws, HLL : !H5LibLaws, HML : !MsgpackLaws}.
Context `{HF : !H5Files (list byte) h5, !H5FilesLaws (list byte) h5, HC : !H5Contents, !H5ContentsLaws}.
Context (type_fuel : nat) (debug : bool).
Abbreviation files := (h5 * file_cache T (list byte))%type.
Abbreviation reader := (reader (T := T) (L := h5) (J := streams)).
Abbreviation process := (process (T := T)).

(** A request with valid arguments, for something that is not there or that the
    packing functions can deal with. *)
Definition event_ok (e : event) : Prop :=
  match e with
  | Tick _ => True
  | Ask _ q => request_ok q ∧ arguments_ok q = true ∧ ∀ o, contents (named q) = Some o → request_packs type_fuel o q
  end.

(** The stream [x] of the request [q]: its job has the arguments of the request;
    what was written is what its packer (Jobs.v) writes for some results of the
    calls of [msgpack_chunkbuffer_write]; and if the result is 0 that decodes to
    what was asked for. *)
Definition answers (max : Z) (q : request) (x : sent) : Prop :=
  asks_for max q (sn_job x) ∧
  (∃ l m replies, run_job type_fuel debug l m (sn_job x) replies = Some (sn_result x, sn_writes x)) ∧
  ∃ o, contents (named q) = Some o ∧ (sn_result x = 0%Z →
    ∃ ob, job_answer o (sn_job x) ob ∧ unpack (obj_depth ob) (concat (sn_writes x)) = Some (ob, [])).

(** Each request that succeeds has its stream. *)
Inductive streams_sent (max : Z) : list event → list fc_result → list sent → Prop :=
  | sent_none : streams_sent max [] [] []
  | sent_tick now es rs xs : streams_sent max es rs xs → streams_sent max (Tick now :: es) (RUnit :: rs) xs
  | sent_error now q c es rs xs :
      success q c = false → streams_sent max es rs xs → streams_sent max (Ask now q :: es) (RCode c :: rs) xs
  | sent_stream now q c x es rs xs :
      success q c = true → answers max q x → streams_sent max es rs xs →
      streams_sent max (Ask now q :: es) (RCode c :: rs) (x :: xs).

(** ** A stream *)

Lemma fc_state_handles base mf md vs (f : files) l :
  h5_handles l = h5_handles f.1 → fc_state false base mf md vs f → fc_state false base mf md vs (l, f.2).
Proof. intros E [Ha Ho Hf Hd]. split; [done| |done|done]. unfold owns_views, owns in *. cbn [fst]. by rewrite E. Qed.

Lemma view_tables (s s' : pstore (HP := script_packer)) : view s' = view s → tables (PackStore.p_h5 s') = tables (PackStore.p_h5 s).
Proof. unfold view. destruct (tables (PackStore.p_h5 s)), (tables (PackStore.p_h5 s')). by intros [= -> -> -> ->]. Qed.

(** Packing returns, keeps the tables of the library and the blocks, and what
    it wrote answers the request. *)
Lemma pack_streamed max q j (f : files) (s : streams) :
  asks_for max q j → h5_handles f.1 !! job_id j = Some (named q) → (0 < job_buffer j ≤ max)%Z →
  (∀ o, contents (named q) = Some o → request_packs type_fuel o q) →
  streamed (stream type_fuel debug) destroy max j f s (λ f2 s2, f2.2 = f.2 ∧ h5_handles f2.1 = h5_handles f.1 ∧
    ∃ x, ss_sent s2 = ss_sent s ++ [x] ∧ answers max q x).
Proof.
  intros Hj Hid Hb Hq e g b Hg. set (replies := hd [] (ss_replies s)).
  destruct (asked_object type_fuel max q j f.1 b Hj Hid Hq) as (o & Ho & Hobj).
  destruct (run_job_decodes type_fuel debug o f.1 b j replies Hobj) as (r & log & Hrun & Hdec).
  destruct (serve_job_runs type_fuel debug o j (job_start f.1 b replies) Hobj) as (r' & s' & E & Hv & _).
  unfold run_job in Hrun. rewrite E in Hrun. injection Hrun as -> <-.
  unfold stream, chunkbuffer_init. do 4 wp_step. apply wp_assert; [cbn [r_srd]; lia|]. wp_step. wp_step.
  unfold pack. apply wp_zoom. cbn [r_files r_jobs r_blocks ss_script ss_replies ss_sent r_end r_srd].
  eapply wp_intro; [exact E|]. wp_step. eexists _, _. assert (p_mem s' = b) as -> by exact (f_equal v_mem Hv).
  split; [done|]. intros b'.
  unfold destroy. wp_step. eexists _, _. split; [done|]. cbn [fst snd ss_sent ss_script r_jobs].
  split; [done|]. split; [by apply handles_kept, (view_tables _ _ Hv)|]. eexists. split; [done|].
  split; [exact Hj|]. split; [|by exists o]. exists f.1, b, replies. cbn [sn_job sn_result sn_writes].
  unfold run_job. by rewrite E.
Qed.
(** ** An iteration *)

Context (base : gmap Z h5_what) (mf md : nat) (check expiry : Z).
Hypothesis (Hmf : 0 < mf) (Hmd : 0 < md) (Htimer : timer_ok check expiry).
Abbreviation body := (main_loop_body (stream type_fuel debug) destroy check expiry).

Lemma ready_ask now q es :
  ready (timer_on check expiry) (polls_for (timer_on check expiry) (Ask now q :: es)) (polls_for (timer_on check expiry) es).
Proof. intros ps Hps. unfold polls_for in *. destruct (timer_on check expiry); [done|]. by apply Forall_cons in Hps as [_ ?]. Qed.

Lemma iteration_tick now es i o e f g b j vs (Q : iteration → reader → Prop) :
  fc_state false base mf md vs f → calm_at (polls_for (timer_on check expiry) (Tick now :: es)) i o e →
  (∀ e' f' vs', calm_at (polls_for (timer_on check expiry) es) i o e' →
     fc_spec false mf md vs (Expire now expiry) RUnit vs' → fc_state false base mf md vs' f' → Q Next (Reader e' f' g b j)) →
  wp (body now) Q (Reader e f g b j).
Proof.
  intros Hf [Ha Hp Hi Ho Hb Hq] HQ. unfold main_loop_body. fold (timer_on check expiry). unfold timer_ok in Htimer.
  destruct (timer_on check expiry) eqn:Et; [|by apply Forall_cons in Hp as [[] _]]. destruct Hp as [Ep Hp].
  wp_step. unfold int_mul. rewrite decide_True by auto. wp_step. wp_step.
  apply wp_zoom, wp_recv_with_timeout. cbn [r_end]. rewrite Ep. cbn [andb fst snd Z.gtb Z.compare].
  wp_step. apply wp_zoom. cbn [r_files].
  pose proof (run_fc_op_spec false _ _ _ _ _ (Expire now expiry) Hf Hmf Hmd) as Hwp. apply wp_bind_inv in Hwp.
  eapply wp_mono; [exact Hwp|]. intros [] f' (r & f2 & [= <- <-] & vs' & Hsp & Hf'). wp_step.
  eapply HQ; [by split|exact Hsp|exact Hf'].
Qed.

Lemma iteration_ask now q es i o e f g b j vs (Q : iteration → reader → Prop) :
  event_ok (Ask now q) → (0 < rg_buffer_size g)%Z →
  fc_state false base mf md vs f → calm_at (polls_for (timer_on check expiry) (Ask now q :: es)) (request_bytes q ++ i) o e →
  (∀ e' g' f' vs' c j', calm_at (polls_for (timer_on check expiry) es) i (o ++ int_bytes c) e' →
     fc_spec false mf md vs (cache_op expiry (Ask now q)) (RCode c) vs' → fc_state false base mf md vs' f' → same_ring g g' →
     (success q c = false ∧ j' = j ∨
      success q c = true ∧ ∃ x, ss_sent j' = ss_sent j ++ [x] ∧ answers (rg_buffer_size g) q x) →
     Q Next (Reader e' f' g' b j')) →
  wp (body now) Q (Reader e f g b j).
Proof.
  intros (Hq & Ha & Hpk) Hg Hf Hc HQ.
  destruct (opens_total base mf md vs (rg_buffer_size g) now q f Hf Hmf Hmd Ha) as (c & js & f' & Hop & Hids).
  destruct (run_fc_op_spec false _ _ _ _ _ (cache_op expiry (Ask now q)) Hf Hmf Hmd) as (r & f2 & E & vs' & Hsp & Hf').
  simpl in E. rewrite (bind_Some _ _ _ _ _ (opens_request _ _ _ _ _ _ _ Hop)) in E. injection E as <- <-.
  destruct (opens_success _ _ _ _ _ _ _ Hop) as [_ Hsu].
  eapply (wp_main_loop_request _ _ check expiry now q i o e f g b j c js f'
    (λ f2 j2, fc_state false base mf md vs' f2 ∧ (success q c = false ∧ j2 = j ∨
      success q c = true ∧ ∃ x, ss_sent j2 = ss_sent j ++ [x] ∧ answers (rg_buffer_size g) q x)));
    [done|apply ready_ask|done|done|exact Hop| |exact Hc|].
  - destruct (decide (js = [])) as [->|Hne]; [split; [done|by left]|].
    rewrite bool_decide_eq_false_2 in Hsu by done.
    assert (∃ j, js = [j]) as [j' ->] by (destruct Hop; try done; by eexists).
    apply Forall_cons in Hids as [Hid _]. destruct (opens_job _ _ _ _ _ _ _ Hop Hq Ha Hg) as [Hask Hb].
    intros e1 g1 b1 Hg1. eapply wp_mono; [by eapply (pack_streamed _ q j' f' j)|].
    intros r t (f1 & s1 & -> & Hd). exists f1, s1. split; [done|]. intros b'. eapply wp_mono; [apply Hd|].
    intros [] t (f2 & s2 & -> & Hc2 & Hh & Hx). exists f2, s2. split; [done|]. split; [|by right].
    destruct f2. simpl in Hc2, Hh. rewrite Hc2. by apply fc_state_handles.
  - intros e' g' f2 j2 He' Hg' [Hf2 Hj2]. by eapply HQ.
Qed.

Lemma iteration_last stop tail now o e f g b j (Q : iteration → reader → Prop) :
  last_input stop tail → calm_at (polls_for (timer_on check expiry) []) tail o e →
  (∀ e', ep_out e' = o → Q (if stop then Stop else ExitFailure) (Reader e' f g b j)) →
  wp (body now) Q (Reader e f g b j).
Proof.
  intros Hl Hc HQ. unfold main_loop_body. fold (timer_on check expiry). wp_step.
  assert (ready (timer_on check expiry) (polls_for (timer_on check expiry) []) (λ _, True)) as Hr.
  { intros ps Hps. unfold polls_for in *. by destruct (timer_on check expiry). }
  destruct stop; simpl in Hl.
  - subst tail. rewrite <- (app_nil_r (int_bytes _)) in Hc. eapply wp_command; [done|exact Hr|exact Hc|].
    intros e' He'. cbn [fst snd]. rewrite andb_false_r, int_value_bytes by done. simpl. wp_step. apply HQ, He'.
  - destruct Hc as [Ha Hp Hi Ho Hb Hq].
    assert (∀ e, ep_in e = tail → ep_out e = o → wp (worker_recv sizeof_int) (λ r e', r.1 = (-1)%Z ∧ ep_out e' = o) e) as Hrecv.
    { intros e1 Hi1 Ho1. apply wp_worker_recv; [done|]. intros r e' [[Hin Hres] Hout _ _ _ _ _]. split; [|congruence].
      destruct Hres as [[_ Hlen]|[? _]]; [|done]. rewrite <- Hi1, Hin, len_app in Hl. pose proof (len_nonneg (ep_in e')). lia. }
    eapply (wp_mono _ (λ r s, r.1 = (-1)%Z ∧ ∃ e', ep_out e' = o ∧ s = Reader e' f g b j)).
    + apply Hr in Hp. unfold timer_ok in Htimer. destruct (timer_on check expiry).
      * unfold int_mul. rewrite decide_True by auto. wp_step. wp_step. apply wp_zoom, wp_recv_with_timeout. cbn [r_end].
        destruct Hp as [-> _]. eapply wp_mono; [by apply Hrecv|]. intros r e' [? ?]. split; [done|by exists e'].
      * apply wp_zoom. eapply wp_mono; [by apply Hrecv|]. intros r e' [? ?]. split; [done|by exists e'].
    + intros r s (Hr1 & e' & He' & ->). rewrite Hr1, andb_false_r. cbn [Z.ltb Z.compare]. wp_step. by apply HQ.
Qed.

(** ** The loop *)

Lemma wp_command_loop stop tail es t o e f g b j vs (Q : iteration → reader → Prop) :
  last_input stop tail → Forall event_ok es → (0 < rg_buffer_size g)%Z → fc_state false base mf md vs f →
  calm_at (polls_for (timer_on check expiry) es) (concat (event_bytes <$> es) ++ tail) o e →
  (∀ e' g' f' vs' rs j' xs, fc_specs false mf md vs (cache_op expiry <$> es) rs vs' → fc_state false base mf md vs' f' →
     ep_out e' = o ++ replies rs → streams_sent (rg_buffer_size g) es rs xs → ss_sent j' = ss_sent j ++ xs →
     Q (if stop then Stop else ExitFailure) (Reader e' f' g' b j')) →
  wp (command_loop type_fuel debug check expiry ((e_time <$> es) ++ [t])) Q (Reader e f g b j).
Proof.
  intros Hl Hes. revert o e f g j vs Q. induction Hes as [|ev es Hev _ IH]; intros o e f g j vs Q Hg Hf Hc HQ; simpl.
  { wp_step. eapply iteration_last; [exact Hl|exact Hc|]. intros e' He'.
    assert (wp (ret (if stop then Stop else ExitFailure)) Q (Reader e' f g b j)) as Hfin.
    { wp_step. eapply (HQ _ _ _ _ _ _ []); [constructor|exact Hf| |constructor|by rewrite app_nil_r]. by rewrite app_nil_r. }
    by destruct stop. }
  wp_step. destruct ev as [now|now q]; simpl in Hev, Hc.
  - eapply iteration_tick; [exact Hf|exact Hc|]. intros e' f' vs' Hc' Hsp Hf'.
    eapply IH; [exact Hg|exact Hf'|exact Hc'|]. intros e2 g2 f2 vs2 rs j2 xs Hsps Hf2 Ho Hxs Hj2.
    eapply HQ; [econstructor; [exact Hsp|exact Hsps]|exact Hf2|exact Ho|by constructor|exact Hj2].
  - rewrite <- app_assoc in Hc. eapply iteration_ask; [exact Hev|exact Hg|exact Hf|exact Hc|].
    intros e' g' f' vs' c j1 Hc' Hsp Hf' (_ & Hsz & _) Hj1.
    eapply IH; [by rewrite Hsz|exact Hf'|exact Hc'|]. intros e2 g2 f2 vs2 rs j2 xs Hsps Hf2 Ho Hxs Hj2. rewrite Hsz in Hxs.
    assert (∃ ys, streams_sent (rg_buffer_size g) (Ask now q :: es) (RCode c :: rs) ys ∧ ss_sent j2 = ss_sent j ++ ys)
      as (ys & Hys & E).
    { destruct Hj1 as [[? ->]|(? & x & Ex & ?)]; [exists xs; split; [by constructor|done]|].
      exists (x :: xs). split; [by constructor|]. by rewrite Hj2, Ex, <- app_assoc. }
    eapply HQ; [econstructor; [exact Hsp|exact Hsps]|exact Hf2|by rewrite Ho, <- app_assoc|exact Hys|exact E].
Qed.

End main.

(** ** The process *)

Section process.
Context {T : Type} `{!KVMap T (list byte) positive, !KVMapLaws T (list byte) positive}.
Context `{HS : H5Space, HL : !H5Lib, HM : Msgpack, HSL : !H5SpaceLaws, HLL : !H5LibLaws, HML : !MsgpackLaws}.
Context `{HF : !H5Files (list byte) h5, !H5FilesLaws (list byte) h5, HC : !H5Contents, !H5ContentsLaws}.
Context (type_fuel : nat) (debug : bool).
Abbreviation reader := (reader (T := T) (L := h5) (J := streams)).
Abbreviation process := (process (T := T)).
Context (struct_size : Z) (NR_BUFFERS : nat) (HDFSTREAM_MAX_BUFFER_SIZE : Z).
Context (max_open_files max_open_datasets : nat) (check expiry : Z).

Lemma wp_on_reader {A} (m : M reader A) e h b l fc g j (Q : A → process → Prop) :
  wp m (λ a r, Q a (Process (r_end r) h (r_blocks r) (r_files r).1 (Some (r_files r).2) (r_srd r) (r_jobs r)))
    (Reader e (l, fc) g b j) → wp (on_reader m) Q (Process e h b l (Some fc) g j).
Proof. intros Hm. unfold on_reader. wp_step. wp_step. cbn [pc_fc]. by apply wp_zoom. Qed.

(** What is left of a process [p]: the blocks that it had, and, when it was told
    to exit, all its resources as they were, and the file cache freed. *)
Definition left_behind (stop : bool) (p p' : process) : Prop :=
  pc_blocks p' = pc_blocks p ∧
  (stop = true → h5_handles (pc_h5 p') = h5_handles (pc_h5 p) ∧ pc_host p' = pc_host p ∧
     ∃ fc, pc_fc p' = Some fc ∧ fc_freed fc).

(** The numbers on the command line. *)
Definition numbers : list Z := [Z.of_nat max_open_files; Z.of_nat max_open_datasets; check; expiry].

(** C6: the reader process, from its start to its end, with the packing of
    each stream. Suppose that it is started with arguments that the library
    prints (of which the check interval in milliseconds is an [int], see
    below), on the pipes and the shared memory that the library has made,
    that no call on the pipes or for the memory fails, and that its requests
    are valid and each names something that is not there or that meets the
    conditions of the packing functions ([request_packs]: a dataset with at
    most 32 dimensions, fewer than 2^62 bytes and no null strings, and a
    request of its rank with complete arrays, no end of a slice that wraps
    around and no row that has elements but a multiple of 2^64 bytes; or a
    file whose objects are within these limits). Then whatever is requested, whenever the timer runs out,
    however the calls on the pipes are split and interrupted, and whatever
    the writes to the ring return (that they return is the subject of C3,
    C19 and C24), the process runs to its end without undefined behaviour:
    it acknowledges the start, answers each request with the code that the
    contract of the file cache (a least-recently-used list with these
    limits, from which the timer removes old files) gives, and sends for
    each request that succeeds one stream, whose bytes, if its result is 0,
    decode to what was asked for. Told to exit, it returns 0 with all files
    and datasets closed, the file cache freed and the shared memory
    unmapped; when the library is gone, even in the middle of a command, it
    exits with 1. A request outside the conditions can end the process: the
    division of C40 has no result. *)
Theorem reader_process_runs argv0 name object es stop tail t (p : process) :
  0 < max_open_files → 0 < max_open_datasets → (0 ≤ check)%Z → (0 ≤ expiry)%Z → Forall is_s32 numbers →
  timer_ok check expiry →
  name_ok name → o_answers (pc_host p) = [] → o_names (pc_host p) !! name = Some object →
  (0 < rg_buffer_size (pc_srd p))%Z → Forall (event_ok type_fuel) es → last_input stop tail →
  calm_at (polls_for (timer_on check expiry) es)
    (region_message struct_size NR_BUFFERS HDFSTREAM_MAX_BUFFER_SIZE name ++ concat (event_bytes <$> es) ++ tail) [] (pc_end p) →
  ∃ rs xs vs p',
    Reader.main type_fuel debug (argv0 :: (fmt_d <$> numbers)) ((e_time <$> es) ++ [t]) p =
      Some (Exited (if stop then 0 else 1), p') ∧
    fc_specs false max_open_files max_open_datasets [] (cache_op expiry <$> es) rs vs ∧
    ep_out (pc_end p') = int_bytes 1 ++ int_bytes 0 ++ replies rs ∧
    ss_sent (pc_streams p') = ss_sent (pc_streams p) ++ xs ∧
    streams_sent type_fuel debug (rg_buffer_size (pc_srd p)) es rs xs ∧ left_behind stop p p'.
Proof.
  intros Hmf Hmd Hck Hex Hnum Htimer Hname Hans Hobj Hcap Hes Hlast Hcalm. destruct p as [e h b l fc0 g j]. simpl in *.
  cut (wp (Reader.main type_fuel debug (argv0 :: (fmt_d <$> numbers)) ((e_time <$> es) ++ [t]))
    (λ x p', x = Exited (if stop then 0 else 1) ∧ ∃ rs xs vs, fc_specs false max_open_files max_open_datasets [] (cache_op expiry <$> es) rs vs ∧
      ep_out (pc_end p') = int_bytes 1 ++ int_bytes 0 ++ replies rs ∧ ss_sent (pc_streams p') = ss_sent j ++ xs ∧
      streams_sent type_fuel debug (rg_buffer_size g) es rs xs ∧ left_behind stop (Process e h b l fc0 g j) p') (Process e h b l fc0 g j)).
  { intros (x & p' & E & -> & rs & xs & vs & ?). by exists rs, xs, vs, p'. }
  unfold Reader.main. simpl. unfold numbers in Hnum. rewrite !Forall_cons in Hnum. destruct Hnum as (? & ? & ? & ? & _).
  do 4 (wp_step; apply wp_atoi; [done|]). wp_step. apply wp_zoom. cbn [pc_end pc_host pc_blocks].
  eapply wp_reader_start; [done..|exact Hcalm|exact Hname|exact Hobj|exact Hans|].
  intros sm e' h' He' _ Hmaps. unfold set_fc. wp_step. wp_step. wp_step. apply wp_on_reader. cbn.
  eapply (wp_command_loop type_fuel debug (h5_handles l) max_open_files max_open_datasets);
    [done..|exact Hlast|exact Hes|exact Hcap|apply fc_state_new|exact He'|].
  intros e2 g2 [l2 fc2] vs rs j2 xs Hsps Hf2 Ho Hxs Hj2. cbn. destruct stop.
  - wp_step. apply wp_on_reader. apply wp_zoom. cbn. eapply wp_mono; [by eapply free_state|]. intros [] [l3 fc3] [Hfr Hop].
    cbn in *. wp_step. apply wp_zoom, wp_zoom. cbn. eapply wp_mono; [exact Hmaps|]. intros [] ? ->. wp_step. cbn.
    split; [done|]. exists rs, xs, vs. split_and!; [done|by rewrite Ho, <- app_assoc|done|done|].
    split; [done|]. intros _. cbn; split_and!; [done|done|by eexists].
  - wp_step. split; [done|]. exists rs, xs, vs. cbn. split_and!; [done|by rewrite Ho, <- app_assoc|done|done|].
    by split.
Qed.
End process.

(** ** Arguments that are not accepted, or that are not meaningful *)

Section arguments.
Context {T : Type} `{!KVMap T (list byte) positive}.
Context `{HS : H5Space, HL : !H5Lib, HM : Msgpack, HF : !H5Files (list byte) h5}.
Context (type_fuel : nat) (debug : bool).

(** Without limits for the caches, or with negative intervals, nothing is done. *)
Lemma main_bad_arguments argv0 a b check expiry clock (p : process (T := T)) :
  Forall is_s32 [a; b; check; expiry] → reader_arguments_ok a b check expiry = false →
  Reader.main type_fuel debug (argv0 :: (fmt_d <$> [a; b; check; expiry])) clock p = Some (Exited 1, p).
Proof.
  intros Hn Hr. rewrite !Forall_cons in Hn. destruct Hn as (? & ? & ? & ? & _). simpl. unfold bind.
  rewrite !atoi_fmt_d by done. unfold on_starting, zoom, reader_start. rewrite Hr. by destruct p.
Qed.

(** The timeout in milliseconds is an [int]: with an interval of more than
    2147483 seconds its computation overflows. *)
Lemma long_interval_undefined check expiry now (r : reader (T := T) (L := h5) (J := streams)) :
  (2147483 < check)%Z → (0 < expiry)%Z →
  main_loop_body (stream type_fuel debug) destroy check expiry now r = None.
Proof.
  intros Hc He. unfold main_loop_body, bind.
  replace ((check >? 0) && (expiry >? 0))%Z with true by lia.
  unfold int_mul. by rewrite decide_False by (unfold is_s32; lia).
Qed.
End arguments.

(** ** A reader process *)

Import RequestDemo H5File H5Access.
Module ReaderDemo.
Definition name : list byte := lit "/hdfstream_41_42".
(** Slices of a dataset are asked for, the files expire, a file is asked for
    that is not there, then the description of an object.  The client of the
    last stream closes it after two writes. *)
Definition dataset : request :=
  DatasetRequest (Some (lit "a.h5")) (Some (lit "d")) 2 2 (Some PackDemo.starts) (Some PackDemo.counts) 1000.
Definition missing : request := ObjectRequest (Some []) (Some (lit "/")) 1 1000 1000.
Definition root : request := ObjectRequest (Some (lit "a.h5")) (Some (lit "/")) 1 1000 1000.
Definition events : list event := [Ask 100 dataset; Tick 111; Ask 112 missing; Ask 113 root; Ask 114 dataset].
Definition ring : region (byte := byte) :=
  Region 0 64 0 0 [0; 64]%Z (Shared 0 [Buffer 3 0 1 0 (repeat x00 64); Buffer 0 1 0 0 (repeat x00 64)]).
Definition none_open : h5 := State ∅ ∅ ∅ 0 ∅.
Definition process (tail : list byte) : Reader.process (T := avltree (list byte) positive) :=
  Process (Endpoint [Moves 3; Errno EINTR] [PollErrno EINTR; PollReady; PollTimeout]
             (region_message 200 2 64 name ++ concat (event_bytes <$> events) ++ tail) [] false false)
    (Host [] {[ name := 1%positive ]} {[ 1%positive := 1000%Z ]} ∅ ∅ ∅) ∅ none_open None ring
    (Streams [[]; []; [0; 0; -1]%Z] (Script [] [] false) []).
Definition argv : list (list byte) := lit "reader" :: (fmt_d <$> numbers 2 1 10 10).

(** What is sent, and how the process ends. *)
Lemma run :
  (match Reader.main 5 true argv [100; 111; 112; 113; 114; 120]%Z (process (int_bytes COMMAND_EXIT)) with
   | Some (Exited 0, p) =>
       bool_decide (ep_out (pc_end p) = concat (int_bytes <$> [1; 0; 3; 0; 1; 3]%Z)) &&
       bool_decide (sn_result <$> ss_sent (pc_streams p) = [0; 0; -1]%Z)
   | _ => false
   end) = true.
Proof. by vm_compute. Qed.

(** A row of 2^62 columns of 4 bytes (claim C40): the arguments are valid, and
    the process has no next state when it comes to the rows. *)
Definition wide : request :=
  DatasetRequest (Some (lit "a.h5")) (Some (lit "d")) 1 2 (Some [0; 0]%Z) (Some [0; 2 ^ 62]%Z) 1000.
Definition process_asked (q : request) : Reader.process (T := avltree (list byte) positive) :=
  Process (Endpoint [] [PollReady; PollReady] (region_message 200 2 64 name ++ request_bytes q ++ int_bytes COMMAND_EXIT) [] false false)
    (Host [] {[ name := 1%positive ]} {[ 1%positive := 1000%Z ]} ∅ ∅ ∅) ∅ none_open None ring (Streams [] (Script [] [] false) []).
Lemma wide_row_has_no_result :
  arguments_ok wide = true ∧ Reader.main 5 true argv [100; 101]%Z (process_asked wide) = None.
Proof.
  split; [by vm_compute|].
  assert (bool_decide (is_Some (Reader.main 5 true argv [100; 101]%Z (process_asked wide))) = false) as H by by_vm.
  apply bool_decide_eq_false in H. by apply eq_None_not_Some.
Qed.

Lemma names_ok s : s = lit "a.h5" ∨ s = lit "d" ∨ s = lit "/" ∨ s = [] → name_ok s.
Proof. intros [->|[->|[->| ->]]]; (split; [by apply (bool_decide_eq_true_1 _); vm_compute|done]). Qed.
Lemma slices_event_ok : event_ok 5 (Ask 100 dataset).
Proof.
  split; [|split; [done|intros o [= <-]; split; [exact PackDemo.data_ok|exact PackDemo.fits]]].
  split; [|split; [done|split; [done|split; [|done]]]].
  - intros s [[= <-]|[= <-]]; apply names_ok; auto.
  - intros a [[= <-]|[= <-]]; (split; [done|]); repeat apply Forall_cons_2; try apply Forall_nil_2; done.
Qed.
Lemma events_ok : Forall (event_ok 5) events.
Proof.
  repeat apply Forall_cons_2; try apply Forall_nil_2; [exact slices_event_ok|done| | |exact slices_event_ok];
    (split; [split; [intros s [[= <-]|[= <-]]; apply names_ok; auto|done]|split; [done|intros o _; exact PackDemo.file_is_ok]]).
Qed.
Lemma input_calm tail :
  calm_at (polls_for true events) (region_message 200 2 64 name ++ concat (event_bytes <$> events) ++ tail) [] (pc_end (process tail)).
Proof. split; [repeat constructor|by repeat split|done..]. Qed.
End ReaderDemo.

Lemma reader_process_runs_witness :
  ∃ rs xs vs p',
    Reader.main 5 true ReaderDemo.argv ((e_time <$> ReaderDemo.events) ++ [120%Z]) (ReaderDemo.process (int_bytes COMMAND_EXIT)) =
      Some (Exited 0, p') ∧
    fc_specs false 2 1 [] (cache_op 10 <$> ReaderDemo.events) rs vs ∧
    ep_out (pc_end p') = int_bytes 1 ++ int_bytes 0 ++ replies rs ∧
    ss_sent (pc_streams p') = [] ++ xs ∧ streams_sent 5 true 64 ReaderDemo.events rs xs ∧
    left_behind true (ReaderDemo.process (int_bytes COMMAND_EXIT)) p'.
Proof.
  apply (reader_process_runs 5 true 200 2 64 2 1 10 10 (lit "reader") ReaderDemo.name 1%positive ReaderDemo.events true
    (int_bytes COMMAND_EXIT) 120 (ReaderDemo.process (int_bytes COMMAND_EXIT)));
    [lia|lia|lia|lia|by repeat constructor|by intros _| |reflexivity|apply lookup_singleton_eq|reflexivity|
     exact ReaderDemo.events_ok|reflexivity|exact (ReaderDemo.input_calm _)].
  split; [by apply (bool_decide_eq_true_1 _); vm_compute|done].
Defined.
