(* ===== verification/Lifetimes.v ===== *)
(** * The life of the library's objects

    [hdfstream_new_with_executable], [hdfstream_free] and [hdfstream_cache_info]
    (src/src/lib/hdfstream.c) with what src/src/util/process_pool.c does with
    memory: the copies of the command line, the list of all pools, and
    [process_pool_cleanup], which frees it when the program exits.  What threads
    do with a pool in between is ProcessPool.v. *)
From Stdlib Require Import Strings.Byte Strings.String.
From stdpp Require Import base tactics numbers list gmap.
From S2P Require Import Prelude Bytes ProcessPool ProcessPoolProof.

(** ** The memory of the program *)

(** [struct process_pool]: what ProcessPool.v models of it, and the pointers. *)
Record pool_struct := PoolStruct {
  po_pool : process_pool;
  po_executable : ptr;
  po_nargs : Z;
  po_args : ptr;
  po_worker : ptr;
  po_worker_state : ptr;
  po_next_pool : ptr;
}.
(** [struct hdfstream] *)
Record hdfstream := HDFStream {
  hs_executable : ptr;
  hs_pool : ptr;
  hs_max_open_files : Z;
  hs_max_open_datasets : Z;
}.

(** The allocated strings, arrays of strings, other arrays (with their sizes)
    and structs; the pools whose semaphore and mutex are initialized; the list
    of pools; how often [process_pool_cleanup] was given to [atexit]; whether
    the next calls that may fail succeed. *)
Record program := Program {
  pr_strings : gmap positive (list byte);
  pr_args : gmap positive (list ptr);
  pr_arrays : gmap positive Z;
  pr_pools : gmap positive pool_struct;
  pr_handles : gmap positive hdfstream;
  pr_sems : gset positive;
  pr_mutexes : gset positive;
  pr_first_pool : ptr;
  pr_atexit : nat;
  pr_answers : list bool;
}.

Definition strings : heap_of program (list byte) := HeapOf pr_strings (λ h p,
  Program h (pr_args p) (pr_arrays p) (pr_pools p) (pr_handles p) (pr_sems p) (pr_mutexes p) (pr_first_pool p) (pr_atexit p) (pr_answers p)).
Definition arg_arrays : heap_of program (list ptr) := HeapOf pr_args (λ h p,
  Program (pr_strings p) h (pr_arrays p) (pr_pools p) (pr_handles p) (pr_sems p) (pr_mutexes p) (pr_first_pool p) (pr_atexit p) (pr_answers p)).
Definition arrays : heap_of program Z := HeapOf pr_arrays (λ h p,
  Program (pr_strings p) (pr_args p) h (pr_pools p) (pr_handles p) (pr_sems p) (pr_mutexes p) (pr_first_pool p) (pr_atexit p) (pr_answers p)).
Definition pools : heap_of program pool_struct := HeapOf pr_pools (λ h p,
  Program (pr_strings p) (pr_args p) (pr_arrays p) h (pr_handles p) (pr_sems p) (pr_mutexes p) (pr_first_pool p) (pr_atexit p) (pr_answers p)).
Definition handles : heap_of program hdfstream := HeapOf pr_handles (λ h p,
  Program (pr_strings p) (pr_args p) (pr_arrays p) (pr_pools p) h (pr_sems p) (pr_mutexes p) (pr_first_pool p) (pr_atexit p) (pr_answers p)).
Definition set_sems s p :=
  Program (pr_strings p) (pr_args p) (pr_arrays p) (pr_pools p) (pr_handles p) s (pr_mutexes p) (pr_first_pool p) (pr_atexit p) (pr_answers p).
Definition set_mutexes m p :=
  Program (pr_strings p) (pr_args p) (pr_arrays p) (pr_pools p) (pr_handles p) (pr_sems p) m (pr_first_pool p) (pr_atexit p) (pr_answers p).
Definition set_first_pool f p :=
  Program (pr_strings p) (pr_args p) (pr_arrays p) (pr_pools p) (pr_handles p) (pr_sems p) (pr_mutexes p) f (pr_atexit p) (pr_answers p).
Definition set_atexit n p :=
  Program (pr_strings p) (pr_args p) (pr_arrays p) (pr_pools p) (pr_handles p) (pr_sems p) (pr_mutexes p) (pr_first_pool p) n (pr_answers p).
Definition set_answers a p :=
  Program (pr_strings p) (pr_args p) (pr_arrays p) (pr_pools p) (pr_handles p) (pr_sems p) (pr_mutexes p) (pr_first_pool p) (pr_atexit p) a.

(** Whether a call of the operating system succeeds. *)
Definition call_ok : M program bool := λ p,
  match pr_answers p with [] => Some (true, p) | a :: l => Some (a, set_answers l p) end.
Definition sem_init (pool : loc) : M program bool :=
  let! ok := call_ok in
  do! when ok (modify (λ p, set_sems ({[pool]} ∪ pr_sems p) p)) in ret ok.
Definition pthread_mutex_init (pool : loc) : M program bool :=
  let! ok := call_ok in
  do! when ok (modify (λ p, set_mutexes ({[pool]} ∪ pr_mutexes p) p)) in ret ok.
(** Only what was initialized is destroyed. *)
Definition sem_destroy (pool : loc) : M program () :=
  let! s := gets pr_sems in
  do! assertM (bool_decide (pool ∈ s)) in modify (set_sems (s ∖ {[pool]})).
Definition pthread_mutex_destroy (pool : loc) : M program () :=
  let! s := gets pr_mutexes in
  do! assertM (bool_decide (pool ∈ s)) in modify (set_mutexes (s ∖ {[pool]})).

(** [malloc(strlen(s)+1)] and [strcpy]. *)
Definition copy_string (s : list byte) : M program loc := malloc strings s.
(** [char text[100]; sprintf(text, "%d", n);] *)
Definition sprintf_d (n : Z) : M program (list byte) :=
  if (len (fmt_d n) <? 100)%Z then ret (fmt_d n) else ub.

(** ** process_pool.c *)

(** [args] is an array of strings of the caller that NULL ends. *)
Fixpoint count_args (args : list (option (list byte))) (nargs : Z) : option Z :=
  match args with
  | [] => None
  | None :: _ => Some nargs
  | Some _ :: args => count_args args (nargs + 1)
  end.
Definition copy_arg (args : list (option (list byte))) (copies : loc) (i : Z) : M program () :=
  let! arg := lift (arr_get args i) in
  match arg with
  | None => ub
  | Some s =>
      let! c := copy_string s in
      let! l := load arg_arrays (Some copies) in
      let! l := lift (arr_set l i (Some c)) in
      store arg_arrays (Some copies) (λ _, l)
  end.

Definition pool_new (max_nr_processes : Z) (executable : list byte) (args : list (option (list byte))) : M program ptr :=
  let! pool := malloc pools (PoolStruct (process_pool_new max_nr_processes) None 0 None None None None) in
  let! ok := sem_init pool in
  if negb ok then do! free pools (Some pool) in ret None else
  let! ok := pthread_mutex_init pool in
  if negb ok then do! sem_destroy pool in do! free pools (Some pool) in ret None else
  let! worker := malloc arrays (u64 (max_nr_processes * 8)) in
  let! worker_state := malloc arrays (u64 (max_nr_processes * 4)) in
  let! exe := copy_string executable in
  let! nargs := lift (count_args args 0) in
  let! copies := malloc arg_arrays (replicate (Z.to_nat (nargs + 1)) None) in
  do! forM (Z.to_nat nargs) 0 (copy_arg args copies) in
  let! first := gets pr_first_pool in
  do! when (is_null first) (modify (λ p, set_atexit (S (pr_atexit p)) p)) in
  do! store pools (Some pool) (λ s, PoolStruct (po_pool s) (Some exe) nargs (Some copies) (Some worker) (Some worker_state) first) in
  do! modify (set_first_pool (Some pool)) in
  ret (Some pool).

Definition with_pool (q : process_pool) (s : pool_struct) : pool_struct :=
  PoolStruct q (po_executable s) (po_nargs s) (po_args s) (po_worker s) (po_worker_state s) (po_next_pool s).
(** What a function of ProcessPool.v does to the pool at an address. *)
Definition on_pool {A} (pool : ptr) (m : P A) : M program A :=
  let! s := load pools pool in
  let! r := lift (m (po_pool s)) in
  do! store pools pool (with_pool r.2) in
  ret r.1.

(** [process_pool_free] when no other thread has a worker: the first count of
    the busy workers is the last.  (Otherwise it waits until they are released:
    that is the step relation of ProcessPool.v.) *)
Definition process_pool_free : P () :=
  do! stop_pool in
  let! n := nr_slots in
  let! nr_busy := count_busy n 0 0 in
  if (nr_busy =? 0)%Z then free_workers else ub.

(** [process_pool_cleanup]: the loop over at most [fuel] pools. *)
Definition free_arg (args : ptr) (i : Z) : M program () :=
  let! l := load arg_arrays args in
  let! a := lift (arr_get l i) in
  when (negb (is_null a)) (free strings a).
Fixpoint cleanup_loop (fuel : nat) (pool : ptr) : M program () :=
  match pool, fuel with
  | None, _ => ret ()
  | Some _, 0 => ub
  | Some p, S fuel =>
      let! s := load pools pool in
      let next := po_next_pool s in
      do! free arrays (po_worker s) in
      do! free arrays (po_worker_state s) in
      do! pthread_mutex_destroy p in
      do! sem_destroy p in
      do! free strings (po_executable s) in
      do! forM (Z.to_nat (po_nargs s)) 0 (free_arg (po_args s)) in
      do! free arg_arrays (po_args s) in
      do! free pools pool in
      cleanup_loop fuel next
  end.
Definition process_pool_cleanup (fuel : nat) : M program () :=
  let! first := gets pr_first_pool in
  do! cleanup_loop fuel first in
  modify (set_first_pool None).
(** [exit]: the functions given to [atexit]. *)
Definition exit_program (fuel : nat) : M program () :=
  let! n := gets pr_atexit in
  forM n 0 (λ _, process_pool_cleanup fuel).

(** ** hdfstream.c *)

Section hdfstream.
Context (HDFSTREAM_EXECUTABLE : list byte).

Definition hdfstream_new_with_executable (nr_processes : Z) (executable : option (list byte))
    (max_open_files max_open_datasets file_cache_check_interval file_cache_expiry_interval : Z) : M program ptr :=
  let! hs := malloc handles (HDFStream None None max_open_files max_open_datasets) in
  let! exe := copy_string (default HDFSTREAM_EXECUTABLE executable) in
  let! max_files_str := sprintf_d max_open_files in
  let! max_datasets_str := sprintf_d max_open_datasets in
  let! check_str := sprintf_d file_cache_check_interval in
  let! expiry_str := sprintf_d file_cache_expiry_interval in
  let! text := load strings (Some exe) in
  let! pool := pool_new nr_processes text
    [Some text; Some max_files_str; Some max_datasets_str; Some check_str; Some expiry_str; None] in
  do! store handles (Some hs) (λ h, HDFStream (Some exe) pool (hs_max_open_files h) (hs_max_open_datasets h)) in
  if is_null pool then
    do! free strings (Some exe) in
    do! free handles (Some hs) in
    ret None
  else ret (Some hs).

Definition hdfstream_free (hs : ptr) : M program () :=
  let! h := load handles hs in
  do! on_pool (hs_pool h) process_pool_free in
  do! when (negb (is_null (hs_executable h))) (free strings (hs_executable h)) in
  free handles hs.

Definition state_code (st : worker_state_t) : Z := match st with IDLE => 0 | BUSY => 1 | STOPPED => 2 end.
(** [hits] are the counters in the shared memory of each worker. *)
Definition hdfstream_cache_info (hits : positive → Z * Z) (hs : ptr) (worker_nr : Z) : M program (Z * Z * Z) :=
  let! h := load handles hs in
  let! s := load pools (hs_pool h) in
  if ((worker_nr >=? 0) && (worker_nr <? max_nr_processes (po_pool s)))%Z then
    let! st := lift (arr_get (worker_state (po_pool s)) worker_nr) in
    if bool_decide (st = IDLE ∨ st = BUSY) then
      let! w := lift (arr_get (worker (po_pool s)) worker_nr) in
      match w with
      | None => ub
      | Some w => ret (state_code st, (hits w).1, (hits w).2)
      end
    else ret (state_code st, 0, 0)%Z
  else ret (-1, -1, -1)%Z.
End hdfstream.
