(* ===== verification/LifetimesMain.v ===== *)
(** * The life of the library's objects: the theorem

    However often the library is started and freed, nothing is freed twice or
    used after it was freed, and when the program exits only what belongs to
    handles that are still open is left. *)
From Stdlib Require Import Strings.Byte Strings.String.
From stdpp Require Import base tactics numbers list gmap relations.
From S2P Require Import Prelude Bytes ProcessPool ProcessPoolProof ProcessPoolMain Lifetimes.

(** ** Ownership *)

(** The addresses of [l] are those that [m] has allocated, each once. *)
Definition owns {V} (m : gmap positive V) (l : list positive) : Prop :=
  NoDup l ∧ ∀ a, a ∈ l ↔ is_Some (m !! a).

#[export] Instance owns_perm {V} (m : gmap positive V) : Proper ((≡ₚ) ==> iff) (owns m).
Proof.
  assert (∀ l l', l ≡ₚ l' → owns m l → owns m l') as H; [|by intros l l' E; split; apply H].
  intros l l' E [Hn Ha]. split; [by rewrite <- E|]. intros a. by rewrite <- E.
Qed.
Lemma owns_empty {V} : owns (∅ : gmap positive V) [].
Proof. split; [constructor|]. intros a. rewrite lookup_empty, elem_of_nil. split; [done|by intros []]. Qed.
Lemma owns_nil {V} (m : gmap positive V) : owns m [] → m = ∅.
Proof.
  intros [_ Ha]. apply map_empty. intros a. apply eq_None_not_Some. intros Hs.
  apply Ha in Hs. by apply elem_of_nil in Hs.
Qed.
Lemma owns_insert {V} (m : gmap positive V) l a v : owns m l → m !! a = None → owns (<[a := v]> m) (a :: l).
Proof.
  intros [Hn Ha] Hm. split.
  - constructor; [|done]. rewrite Ha, Hm. by intros [].
  - intros b. rewrite elem_of_cons, lookup_insert_is_Some', Ha. naive_solver.
Qed.
Lemma owns_update {V} (m : gmap positive V) l a v : owns m l → a ∈ l → owns (<[a := v]> m) l.
Proof.
  intros [Hn Ha] Hl. split; [done|]. intros b. rewrite lookup_insert_is_Some', Ha. apply Ha in Hl. naive_solver.
Qed.
Lemma owns_free {V} (m : gmap positive V) l a l' : owns m l → l ≡ₚ a :: l' → is_Some (m !! a) ∧ owns (delete a m) l'.
Proof.
  intros Ho E. rewrite E in Ho. destruct Ho as [[Hn1 Hn2]%NoDup_cons Ha]. split; [apply Ha; constructor|].
  split; [done|]. intros b. rewrite lookup_delete_is_Some, <- Ha, elem_of_cons.
  split; [|naive_solver]. intros Hb. split; [by intros ->|by right].
Qed.
Lemma owns_size {V} (m : gmap positive V) l : owns m l → size m = length l.
Proof.
  intros [Hn Ha]. rewrite <- size_dom. assert (dom m = list_to_set l) as ->; [|by apply size_list_to_set].
  apply set_eq. intros a. by rewrite elem_of_list_to_set, elem_of_dom, Ha.
Qed.
Lemma owns_NoDup {V} (m : gmap positive V) l : owns m l → NoDup l.
Proof. by intros [? _]. Qed.
Lemma owns_lookup {V} (m : gmap positive V) l a : owns m l → a ∈ l → is_Some (m !! a).
Proof. intros [_ Ha]. apply Ha. Qed.

(** ** The pools and what they own *)

Record owned := Owned {
  ow_pool : loc;
  ow_exe : loc;
  ow_copies : list loc;
  ow_args : loc;
  ow_worker : loc;
  ow_state : loc;
}.
Definition ow_strings (o : owned) : list loc := ow_exe o :: ow_copies o.
Definition ow_arrays (o : owned) : list loc := [ow_worker o; ow_state o].

Record pool_at (pr : program) (next : ptr) (o : owned) : Prop := {
  pa_struct : ∃ q, pr_pools pr !! ow_pool o = Some (PoolStruct q (Some (ow_exe o)) (len (ow_copies o))
    (Some (ow_args o)) (Some (ow_worker o)) (Some (ow_state o)) next);
  pa_args : pr_args pr !! ow_args o = Some ((Some <$> ow_copies o) ++ [None]);
}.
Fixpoint chained (pr : program) (os : list owned) (first : ptr) : Prop :=
  match os with
  | [] => first = None
  | o :: os => first = Some (ow_pool o) ∧ ∃ next, pool_at pr next o ∧ chained pr os next
  end.

Lemma chained_mono pr pr' os first :
  (∀ o next, o ∈ os → pool_at pr next o → pool_at pr' next o) → chained pr os first → chained pr' os first.
Proof.
  revert first. induction os as [|o os IH]; intros first Hm; simpl; [done|].
  intros (-> & next & Ho & Hc). split; [done|]. exists next. split; [apply Hm; [constructor|done]|].
  apply IH; [|done]. intros o' n' Ho'. apply Hm. by right.
Qed.

(** The pools of a list, in this order, with all they own; [es] are the
    strings that are not theirs. *)
Record pools_owned (os : list owned) (es : list loc) (pr : program) : Prop := {
  po_strings : owns (pr_strings pr) (es ++ concat (ow_strings <$> os));
  po_copies : owns (pr_args pr) (ow_args <$> os);
  po_arrays : owns (pr_arrays pr) (concat (ow_arrays <$> os));
  po_structs : owns (pr_pools pr) (ow_pool <$> os);
  po_sems : pr_sems pr = list_to_set (ow_pool <$> os);
  po_mutexes : pr_mutexes pr = list_to_set (ow_pool <$> os);
}.

(** [process_pool_cleanup] frees them. *)
Lemma wp_free_args a cs es pr (Q : () → program → Prop) :
  pr_args pr !! a = Some ((Some <$> cs) ++ [None]) → owns (pr_strings pr) (cs ++ es) →
  (∀ h, owns h es → Q () (heap_put strings h pr)) →
  wp (forM (length cs) 0 (free_arg (Some a))) Q pr.
Proof.
  intros Ha Hs HQ.
  apply (wp_forM (λ i s, ∃ h, owns h (drop (Z.to_nat i) cs ++ es) ∧ s = heap_put strings h pr)).
  - intros i s Hi (h & Hh & ->). unfold free_arg. wp_step. eapply wp_load; [exact Ha|].
    destruct (lookup_lt_is_Some_2 cs (Z.to_nat i)) as [c Hc]; [lia|].
    wp_step. eapply (wp_lift _ (Some c)).
    { rewrite arr_get_nth by lia. rewrite lookup_app_l by (rewrite length_fmap; lia). by rewrite list_lookup_fmap, Hc. }
    rewrite (drop_S _ _ _ Hc) in Hh. destruct (owns_free _ _ c (drop (S (Z.to_nat i)) cs ++ es) Hh) as [[v Hv] Hh']; [done|].
    simpl. eapply wp_free; [exact Hv|]. exists (delete c h). split; [|done].
    by replace (Z.to_nat (i + 1)) with (S (Z.to_nat i)) by lia.
  - exists (pr_strings pr). split; [done|by destruct pr].
  - intros s (h & Hh & ->). apply HQ. by rewrite drop_ge in Hh by lia.
Qed.

Lemma wp_destroy_both p pr (Q : () → program → Prop) k :
  p ∈ pr_mutexes pr → p ∈ pr_sems pr →
  wp k Q (set_sems (pr_sems pr ∖ {[p]}) (set_mutexes (pr_mutexes pr ∖ {[p]}) pr)) →
  wp (do! pthread_mutex_destroy p in do! sem_destroy p in k) Q pr.
Proof.
  intros Hm Hs HQ. unfold pthread_mutex_destroy, sem_destroy.
  do 4 wp_step. apply wp_assert; [by apply bool_decide_eq_true_2|]. wp_steps.
  apply wp_assert; [by apply bool_decide_eq_true_2|]. by wp_steps.
Qed.

Lemma wp_cleanup_loop fuel os es first (Q : () → program → Prop) pr :
  pools_owned os es pr → chained pr os first → length os ≤ fuel →
  (∀ pr', pools_owned [] es pr' → pr_handles pr' = pr_handles pr → pr_atexit pr' = pr_atexit pr → Q () pr') →
  wp (cleanup_loop fuel first) Q pr.
Proof.
  revert fuel first pr. induction os as [|o os IH]; intros fuel first pr Ho Hc Hf HQ.
  { simpl in Hc. subst. destruct fuel; simpl; wp_step; by apply HQ. }
  destruct Hc as (-> & next & [[q Hq] Ha] & Hc). destruct fuel as [|fuel]; [simpl in Hf; lia|].
  destruct Ho as [Hs Hcp Har Hp Hse Hmu]. cbn [fmap list_fmap concat] in *.
  cbn [cleanup_loop]. wp_step. eapply wp_load; [exact Hq|]. cbn [po_worker po_worker_state po_executable po_nargs po_args po_next_pool].
  destruct (owns_free _ _ (ow_worker o) (ow_state o :: concat (ow_arrays <$> os)) Har) as [[? Hw] Har1]; [done|].
  wp_step. eapply wp_free; [exact Hw|]. cbn.
  destruct (owns_free _ _ (ow_state o) (concat (ow_arrays <$> os)) Har1) as [[? Hst] Har2]; [done|].
  wp_step. eapply wp_free; [exact Hst|]. cbn.
  apply wp_destroy_both; [rewrite Hmu; set_solver|rewrite Hse; set_solver|]. cbn.
  destruct (owns_free _ _ (ow_exe o) (ow_copies o ++ es ++ concat (ow_strings <$> os)) Hs) as [[? Hex] Hs1].
  { unfold ow_strings. simpl. rewrite <- Permutation_middle. by rewrite Permutation_app_swap_app. }
  wp_step. eapply wp_free; [exact Hex|]. cbn.
  wp_step. unfold len. rewrite Nat2Z.id. eapply wp_free_args; [exact Ha|exact Hs1|]. intros h Hh. cbn.
  destruct (owns_free _ _ (ow_args o) (ow_args <$> os) Hcp) as [[? Hag] Hcp1]; [done|].
  wp_step. eapply wp_free; [exact Hag|]. cbn.
  destruct (owns_free _ _ (ow_pool o) (ow_pool <$> os) Hp) as [_ Hp1]; [done|].
  wp_step. eapply wp_free; [exact Hq|]. cbn.
  apply owns_NoDup, NoDup_cons in Hp as [Hnp _]. apply owns_NoDup, NoDup_cons in Hcp as [Hnc _].
  apply IH; [| |simpl in Hf; lia|].
  - split; cbn; [done..| |]; [rewrite Hse|rewrite Hmu]; set_solver.
  - eapply chained_mono; [|exact Hc]. intros o' n' Ho' [Hst' Hag']. split; cbn.
    + rewrite lookup_delete_ne; [done|]. intros E. apply Hnp. rewrite E. by apply list_elem_of_fmap_2.
    + rewrite lookup_delete_ne; [done|]. intros E. apply Hnc. rewrite E. by apply list_elem_of_fmap_2.
  - cbn. auto.
Qed.

(** ** A new pool *)

Lemma count_args_ends (ss : list (list byte)) n :
  count_args ((Some <$> ss) ++ [None]) n = Some (n + Z.of_nat (length ss))%Z.
Proof.
  revert n. induction ss as [|s ss IH]; intros n; simpl; [f_equal; lia|]. rewrite IH. f_equal. lia.
Qed.

Lemma wp_copy_args a (ss : list (list byte)) es pr (Q : () → program → Prop) :
  pr_args pr !! a = Some (replicate (S (length ss)) None) → owns (pr_strings pr) es →
  (∀ h cs, owns h (cs ++ es) → length cs = length ss →
     Q () (heap_put arg_arrays (<[a := (Some <$> cs) ++ [None]]> (pr_args pr)) (heap_put strings h pr))) →
  wp (forM (length ss) 0 (copy_arg ((Some <$> ss) ++ [None]) a)) Q pr.
Proof.
  intros Ha Hs HQ.
  apply (wp_forM (λ i s, ∃ h cs, owns h (cs ++ es) ∧ Z.of_nat (length cs) = i ∧
    s = heap_put arg_arrays (<[a := (Some <$> cs) ++ replicate (S (length ss) - length cs) None]> (pr_args pr)) (heap_put strings h pr))).
  - intros i s Hi (h & cs & Hh & Hcs & ->).
    destruct (lookup_lt_is_Some_2 ss (Z.to_nat i)) as [t Ht]; [lia|].
    unfold copy_arg. wp_step. eapply (wp_lift _ (Some t)).
    { rewrite arr_get_nth by lia. rewrite lookup_app_l by (rewrite length_fmap; lia). by rewrite list_lookup_fmap, Ht. }
    unfold copy_string. wp_step. apply wp_malloc. intros c Hc. cbn in Hc |- *.
    wp_step. eapply wp_load; [apply lookup_insert_eq|]. wp_step. eapply wp_lift.
    { apply arr_set_total. rewrite length_app, length_fmap, length_replicate. lia. }
    eapply wp_store; [apply lookup_insert_eq|]. cbn. exists (<[c := t]> h), (cs ++ [c]).
    split; [|split; [rewrite length_app; simpl; lia|]].
    + rewrite <- app_assoc. simpl. rewrite <- Permutation_middle. by apply owns_insert.
    + cbn. f_equal. rewrite insert_insert_eq. f_equal.
      replace (Z.to_nat i) with (length (Some <$> cs) + 0) by (rewrite length_fmap; lia).
      rewrite insert_app_r, fmap_app, <- app_assoc, length_app. f_equal.
      replace (S (length ss) - length cs) with (S (length ss - length cs)) by lia. simpl.
      f_equal. f_equal. simpl. lia.
  - exists (pr_strings pr), []. split; [done|]. split; [done|]. cbn. rewrite insert_id by done. by destruct pr.
  - intros s (h & cs & Hh & Hcs & ->). simpl in Hcs.
    replace (S (length ss) - length cs) with 1 by lia. apply HQ; [done|lia].
Qed.

(** What has changed when a pool was made. *)
Definition pool_made (max : Z) (os : list owned) (es : list loc) (pr : program) (r : ptr) (pr' : program) : Prop :=
  match r with
  | None => ∃ l, pr' = set_answers l pr
  | Some p => ∃ o s, p = ow_pool o ∧ pools_owned (o :: os) es pr' ∧ chained pr' (o :: os) (pr_first_pool pr') ∧
      pr_handles pr' = pr_handles pr ∧ po_pool s = process_pool_new max ∧ pr_pools pr !! p = None ∧ pr_pools pr' = <[p := s]> (pr_pools pr) ∧
      pr_atexit pr' = if is_null (pr_first_pool pr) then S (pr_atexit pr) else pr_atexit pr
  end.

Lemma wp_call_ok pr (Q : bool → program → Prop) : (∀ b l, Q b (set_answers l pr)) → wp call_ok Q pr.
Proof.
  intros HQ. unfold call_ok, wp. destruct (pr_answers pr) as [|b l] eqn:E.
  - eexists _, _. split; [done|]. specialize (HQ true []). by rewrite <- E in HQ; destruct pr.
  - eexists _, _. split; [done|]. apply HQ.
Qed.

Lemma wp_count_atexit (b : bool) pr (Q : () → program → Prop) :
  Q () (set_atexit (if b then S (pr_atexit pr) else pr_atexit pr) pr) →
  wp (when b (modify (λ p, set_atexit (S (pr_atexit p)) p))) Q pr.
Proof. intros HQ. apply wp_when; intros ->; [by wp_step|]. by destruct pr. Qed.

(** Without success the pool is freed again. *)
Lemma pool_not_made max os es pr p s l :
  pr_pools pr !! p = None →
  pool_made max os es pr None
    (Program (pr_strings pr) (pr_args pr) (pr_arrays pr) (delete p (<[p := s]> (pr_pools pr))) (pr_handles pr)
       (pr_sems pr) (pr_mutexes pr) (pr_first_pool pr) (pr_atexit pr) l).
Proof. intros Hp. exists l. by rewrite delete_insert_id. Qed.

Lemma wp_pool_new max exe (ss : list (list byte)) os es pr (Q : ptr → program → Prop) :
  pools_owned os es pr → chained pr os (pr_first_pool pr) →
  (∀ r pr', pool_made max os es pr r pr' → Q r pr') →
  wp (pool_new max exe ((Some <$> ss) ++ [None])) Q pr.
Proof.
  intros Ho Hc HQ. pose proof Ho as [Hs Hcp Har Hp Hse Hmu]. unfold pool_new, sem_init, pthread_mutex_init.
  wp_step. apply wp_malloc. intros p Hpf. cbn in Hpf |- *.
  assert (p ∉ list_to_set (C := gset positive) (ow_pool <$> os)) as Hpn.
  { rewrite elem_of_list_to_set. intros Hin. apply (owns_lookup _ _ _ Hp) in Hin as [? Hin]. congruence. }
  do 2 wp_step. apply wp_call_ok. intros [] l1; cbn; wp_steps; cycle 1.
  { eapply wp_free; [apply lookup_insert_eq|]. cbn. wp_step. apply HQ. by apply pool_not_made. }
  apply wp_call_ok. intros [] l2; cbn; wp_steps; cycle 1.
  { unfold sem_destroy. wp_steps. apply wp_assert; [apply bool_decide_eq_true_2; set_solver|]. wp_steps.
    eapply wp_free; [apply lookup_insert_eq|]. cbn. wp_step. apply HQ.
    replace (({[p]} ∪ pr_sems pr) ∖ {[p]}) with (pr_sems pr); [by apply pool_not_made|].
    apply leibniz_equiv. rewrite Hse. set_solver. }
  apply wp_malloc. intros w Hw. cbn in Hw |- *. wp_step. apply wp_malloc. intros st Hst. cbn in Hst |- *.
  unfold copy_string. wp_step. apply wp_malloc. intros e He. cbn in He |- *.
  rewrite count_args_ends. wp_step. eapply wp_lift; [reflexivity|].
  wp_step. apply wp_malloc. intros c Hcf. cbn in Hcf |- *. rewrite Z.add_0_l, Nat2Z.id.
  replace (Z.to_nat (Z.of_nat (length ss) + 1)) with (S (length ss)) by lia.
  wp_step. eapply (wp_copy_args _ _ (e :: es ++ concat (ow_strings <$> os))).
  { apply lookup_insert_eq. }
  { cbn. by apply owns_insert. }
  intros h cs Hh Hlen. cbn. rewrite insert_insert_eq.
  wp_step. apply wp_gets. wp_step.
  cbn [pr_first_pool]. apply wp_count_atexit. cbn.
  wp_step. eapply wp_store; [apply lookup_insert_eq|]. cbn. wp_step. wp_step. wp_step. cbn. apply HQ.
  rewrite insert_insert_eq. exists (Owned p e cs c w st), (PoolStruct (process_pool_new max) (Some e)
    (Z.of_nat (length ss)) (Some c) (Some w) (Some st) (pr_first_pool pr)).
  assert (owns (<[c := (Some <$> cs) ++ [None]]> (pr_args pr)) (c :: (ow_args <$> os))) as Hcp' by by apply owns_insert.
  split; [done|]. split; [|split; [|done]].
  - split; cbn; [|done|..].
    + assert (es ++ e :: cs ++ concat (ow_strings <$> os) ≡ₚ cs ++ e :: es ++ concat (ow_strings <$> os)) as ->; [|done].
      rewrite <- !Permutation_middle. f_equiv. by rewrite Permutation_app_swap_app.
    + assert (w :: st :: concat (ow_arrays <$> os) ≡ₚ st :: w :: concat (ow_arrays <$> os)) as -> by constructor.
      apply owns_insert; [by apply owns_insert|done].
    + by apply owns_insert.
    + by rewrite Hse.
    + by rewrite Hmu.
  - cbn. split; [done|]. exists (pr_first_pool pr). split.
    + split; cbn; [|by rewrite lookup_insert_eq]. eexists. rewrite lookup_insert_eq. unfold len. by rewrite Hlen.
    + eapply chained_mono; [|exact Hc]. intros o n Ho' [Hst' Hag']. split; cbn.
      * rewrite lookup_insert_ne; [done|]. intros ->. destruct Hst' as [? E]. congruence.
      * rewrite lookup_insert_ne; [done|]. intros ->. congruence.
Qed.

(** ** The library *)

(** A pool that no thread uses. *)
Definition unused (q : process_pool) : Prop := pinv q ∧ ∀ j, worker_state q !! j ≠ Some BUSY.

Lemma unused_new max : (0 ≤ max)%Z → unused (process_pool_new max).
Proof.
  intros Hm. split; [by apply process_pool_new_pinv|]. intros j Hj. simpl in Hj.
  by apply lookup_replicate in Hj as [? _].
Qed.
(** The states that threads can reach and in which all of them are done. *)
Lemma unused_reachable max n q ts :
  (0 ≤ max)%Z → rtc sstep (start_system max n) (System q ts SNone) → Forall (λ t, t = TOut) ts → unused q.
Proof.
  intros Hm Hr Hout. pose proof (reachable_sinv _ _ _ Hm Hr) as [_ _ _ Hl]. simpl in Hl.
  split; [apply Hl|]. intros j Hj. destruct (pinv_slot _ _ _ (lv_pool _ _ Hl) Hj) as (w & Hw & _); [done|].
  destruct (lv_busy _ _ Hl w) as (i & t & Hi & Ht); [by exists j|].
  apply (proj1 (Forall_lookup _ _) Hout) in Hi as ->. done.
Qed.

Lemma wp_count_none q n i nr (Q : Z → process_pool → Prop) :
  (∀ j, worker_state q !! j ≠ Some BUSY) → i + n ≤ length (worker_state q) → Q nr q →
  wp (count_busy n (Z.of_nat i) nr) Q q.
Proof.
  intros Hno. revert i. induction n as [|n IH]; intros i Hn HQ; simpl; [by wp_step|].
  destruct (lookup_lt_is_Some_2 (worker_state q) i) as [st Hst]; [lia|].
  wp_step. eapply wp_get_state; [exact Hst|]. replace (Z.of_nat i + 1)%Z with (Z.of_nat (S i)) by lia.
  rewrite bool_decide_eq_false_2 by (intros ->; by apply Hno in Hst). apply IH; [lia|done].
Qed.
Lemma wp_process_pool_free q (Q : () → process_pool → Prop) :
  unused q → (∀ q', pp_workers q' = ∅ → Q () q') → wp process_pool_free Q q.
Proof.
  intros [Hq Hno] HQ. unfold process_pool_free. wp_step. apply wp_stop_pool; [done|]. intros a.
  unfold nr_slots. wp_step. apply wp_gets. wp_step.
  assert (pinv (set_sem (sem q + 1) (set_alive a (set_stop true q)))) as Hq' by (destruct Hq; by split).
  pose proof (pi_states _ Hq') as Hl. apply (wp_count_none _ _ 0); [done|simpl in *; lia|].
  simpl. apply wp_free_workers; [done|]. intros q' Hq2. apply HQ, Hq2.
Qed.

(** The handles that are open, with their strings and pools. *)
Record opened := Opened { op_handle : loc; op_exe : loc; op_pool : loc }.

Record linv (os : list owned) (hs : list opened) (pr : program) : Prop := {
  li_pools : pools_owned os (op_exe <$> hs) pr;
  li_chain : chained pr os (pr_first_pool pr);
  li_atexit : pr_atexit pr = if is_null (pr_first_pool pr) then 0 else 1;
  li_handles : owns (pr_handles pr) (op_handle <$> hs);
  li_once : NoDup (op_pool <$> hs);
  li_handle h : h ∈ hs → ∃ mf md, pr_handles pr !! op_handle h = Some (HDFStream (Some (op_exe h)) (Some (op_pool h)) mf md);
  li_unused h : h ∈ hs → ∃ s, pr_pools pr !! op_pool h = Some s ∧ unused (po_pool s);
}.

(** Threads, or [process_pool_free], change the pool at an address. *)
Lemma chained_with_pool pr os first p s q :
  pr_pools pr !! p = Some s → chained pr os first →
  chained (heap_put pools (<[p := with_pool q s]> (pr_pools pr)) pr) os first.
Proof.
  intros Hs. apply chained_mono. intros o n _ [[q' Hp] Ha]. split; [|done]. cbn.
  destruct (decide (ow_pool o = p)) as [<-|]; [|rewrite lookup_insert_ne by done; by exists q'].
  rewrite lookup_insert_eq. exists q. rewrite Hs in Hp. by injection Hp as ->.
Qed.
Lemma linv_with_pool os hs pr p s q :
  pr_pools pr !! p = Some s → (∀ h, h ∈ hs → op_pool h = p → unused q) → linv os hs pr →
  linv os hs (heap_put pools (<[p := with_pool q s]> (pr_pools pr)) pr).
Proof.
  intros Hs Hq [[? ? ? Hp ? ?] Hc Ha Hh Hon Hhd Hun]. split; try done; [|by apply chained_with_pool|].
  - split; try done. apply owns_update; [done|]. destruct Hp as [_ Hp]. by apply Hp.
  - cbn. intros h Hin. destruct (decide (op_pool h = p)) as [E|Hne].
    + rewrite E, lookup_insert_eq. eexists. split; [done|]. by eapply Hq.
    + rewrite lookup_insert_ne by done. by apply Hun.
Qed.

Lemma linv_perm os hs hs' pr : hs ≡ₚ hs' → linv os hs pr → linv os hs' pr.
Proof.
  intros E [[? ? ? ? ? ?] Hc Ha Hh Hon Hhd Hun]. split; rewrite <- ?E; try done.
  - split; rewrite <- ?E; done.
  - intros h. rewrite <- E. apply Hhd.
  - intros h. rewrite <- E. apply Hun.
Qed.

(** Closing a handle. *)
Lemma wp_hdfstream_free os h hs pr :
  linv os (h :: hs) pr → wp (hdfstream_free (Some (op_handle h))) (λ _ pr', linv os hs pr') pr.
Proof.
  intros Hi. pose proof Hi as [_ _ _ _ Hon Hhd Hun]. destruct (Hhd h) as (mf & md & Hh); [constructor|].
  destruct (Hun h) as (s & Hs & Hu); [constructor|].
  unfold hdfstream_free, on_pool. wp_step. eapply wp_load; [exact Hh|]. cbn [hs_pool hs_executable].
  do 2 wp_step. eapply wp_load; [exact Hs|]. wp_step.
  destruct (wp_process_pool_free (po_pool s) (λ _ _, True)) as ([] & q & E & _); [done|by intros|].
  eapply wp_lift; [exact E|]. wp_step. eapply wp_store; [exact Hs|]. cbn [snd]. do 2 wp_step.
  destruct Hi as [[Hst ? ? Hp ? ?] Hc Ha Hhs _ _ _]. apply NoDup_cons in Hon as [Hnp Hon].
  destruct (owns_free _ _ (op_exe h) ((op_exe <$> hs) ++ concat (ow_strings <$> os)) Hst) as [[t Ht] Hst']; [done|].
  eapply wp_free; [exact Ht|]. destruct (owns_free _ _ (op_handle h) (op_handle <$> hs) Hhs) as [_ Hhs']; [done|].
  eapply wp_free; [exact Hh|]. apply (chained_with_pool pr os _ _ s q Hs) in Hc.
  assert (∀ h', h' ∈ hs → op_pool h' ≠ op_pool h ∧ op_handle h' ≠ op_handle h) as Hne.
  { intros h' Hin. apply owns_NoDup, NoDup_cons in Hhs as [Hnh _].
    split; intros E'; [apply Hnp|apply Hnh]; rewrite <- E'; by apply list_elem_of_fmap_2. }
  split; [|eapply chained_mono; [|exact Hc]; intros ? ? _ [? ?]; by split|cbn; try done..].
  - split; try done. cbn. apply owns_update; [done|]. destruct Hp as [_ Hp]. by apply Hp.
  - intros h' Hin. rewrite lookup_delete_ne by (destruct (Hne h' Hin); congruence). apply Hhd. by right.
  - intros h' Hin. rewrite lookup_insert_ne by (destruct (Hne h' Hin); congruence). apply Hun. by right.
Qed.

Section library.
Context (HDFSTREAM_EXECUTABLE : list byte).

Lemma sprintf_d_fits n pr (Q : list byte → program → Prop) : is_s32 n → Q (fmt_d n) pr → wp (sprintf_d n) Q pr.
Proof.
  intros Hn HQ. unfold sprintf_d. destruct (Z.ltb_spec (len (fmt_d n)) 100) as [|H]; [by wp_step|].
  exfalso. unfold is_s32, fmt_d, len in *. destruct (Z.ltb_spec n 0); simpl in H.
  - pose proof (length_dec_go 9 10 (- n) [] ltac:(lia)). simpl in *. lia.
  - pose proof (length_dec_go 9 10 n [] ltac:(lia)). simpl in *. lia.
Qed.

(** Starting the library: a new handle, or everything is as before. *)
Lemma wp_hdfstream_new n exe mf md ci ei os hs pr :
  (0 ≤ n)%Z → is_s32 mf → is_s32 md → is_s32 ci → is_s32 ei → linv os hs pr →
  wp (hdfstream_new_with_executable HDFSTREAM_EXECUTABLE n exe mf md ci ei)
    (λ r pr', match r with
              | None => ∃ l, pr' = set_answers l pr
              | Some h => ∃ o e, linv (o :: os) (Opened h e (ow_pool o) :: hs) pr'
              end) pr.
Proof.
  intros Hn Hmf Hmd Hci Hei [Ho Hc Ha Hh Hon Hhd Hun]. unfold hdfstream_new_with_executable, copy_string.
  wp_step. apply wp_malloc. intros h Hhf. cbn in Hhf |- *. wp_step. apply wp_malloc. intros e Hef. cbn in Hef |- *.
  do 4 (wp_step; apply sprintf_d_fits; [done|]). wp_step. eapply wp_load; [apply lookup_insert_eq|]. wp_step.
  set (text := default _ _). set (ss := [text; fmt_d mf; fmt_d md; fmt_d ci; fmt_d ei]).
  apply (wp_pool_new n text ss os (e :: (op_exe <$> hs))).
  { destruct Ho as [Hs ? ? ? ? ?]. split; try done. cbn. by apply owns_insert. }
  { cbn. eapply chained_mono; [|exact Hc]. intros o nx _ [? ?]. by split. }
  intros [p|] pr' Hp.
  - destruct Hp as (o & s & -> & Ho' & Hc' & Hh' & Hs & Hpf & Hps & Hat). cbn in Hh', Hps, Hat, Hpf.
    wp_step. eapply wp_store; [cbn; rewrite Hh'; apply lookup_insert_eq|]. cbn. wp_step. exists o, e.
    rewrite Hh', insert_insert_eq.
    split; [|eapply chained_mono; [|exact Hc']; intros o' nx _ [? ?]; by split|cbn..].
    + destruct Ho' as [? ? ? ? ? ?]. by split.
    + destruct Hc' as [-> _]. rewrite Hat, Ha. by destruct (pr_first_pool pr).
    + by apply owns_insert.
    + constructor; [|done]. rewrite list_elem_of_fmap. intros (h' & E & Hin). apply Hun in Hin as (s' & Hs' & _).
      rewrite <- E in Hs'. congruence.
    + intros h' [->|Hin]%elem_of_cons; [simpl; rewrite lookup_insert_eq; by eexists _, _|].
      rewrite lookup_insert_ne; [by apply Hhd|]. intros ->. destruct (Hhd _ Hin) as (? & ? & E). congruence.
    + intros h' [->|Hin]%elem_of_cons; simpl.
      * exists s. rewrite Hps, lookup_insert_eq, Hs. split; [done|]. by apply unused_new.
      * destruct (Hun _ Hin) as (s' & Hs' & ?). exists s'. split; [|done]. rewrite Hps, lookup_insert_ne; [done|]. congruence.
  - destruct Hp as [l ->]. cbn. wp_step. eapply wp_store; [apply lookup_insert_eq|]. cbn.
    wp_step. eapply wp_free; [apply lookup_insert_eq|]. cbn. wp_step. eapply wp_free; [rewrite insert_insert_eq; apply lookup_insert_eq|]. cbn. wp_step.
    exists l. unfold set_answers. by rewrite insert_insert_eq, !delete_insert_id.
Qed.
(** What the program does, one call at a time: it starts the library, with any
    arguments; its threads use the pool of a handle, until all of them are done;
    it frees a handle that is open. *)
Inductive lstep : program → program → Prop :=
  | l_new n exe mf md ci ei r pr pr' :
      (0 ≤ n)%Z → is_s32 mf → is_s32 md → is_s32 ci → is_s32 ei →
      hdfstream_new_with_executable HDFSTREAM_EXECUTABLE n exe mf md ci ei pr = Some (r, pr') → lstep pr pr'
  | l_use h hd p s q pr :
      pr_handles pr !! h = Some hd → hs_pool hd = Some p → pr_pools pr !! p = Some s → unused q →
      lstep pr (heap_put pools (<[p := with_pool q s]> (pr_pools pr)) pr)
  | l_free h pr pr' :
      is_Some (pr_handles pr !! h) → hdfstream_free (Some h) pr = Some ((), pr') → lstep pr pr'.

Definition program_start (answers : list bool) : program := Program ∅ ∅ ∅ ∅ ∅ ∅ ∅ None 0 answers.

Lemma linv_start answers : linv [] [] (program_start answers).
Proof.
  split; try done; try apply owns_empty; [|constructor|..].
  - split; try apply owns_empty; done.
  - by intros h ?%elem_of_nil.
  - by intros h ?%elem_of_nil.
Qed.

Lemma linv_open os hs pr a : linv os hs pr → is_Some (pr_handles pr !! a) →
  ∃ h hs', a = op_handle h ∧ hs ≡ₚ h :: hs' ∧ linv os (h :: hs') pr.
Proof.
  intros Hi Ha. pose proof (li_handles _ _ _ Hi) as [_ Hin]. apply Hin, list_elem_of_fmap in Ha as (h & -> & Hh).
  apply elem_of_Permutation in Hh as [hs' E]. exists h, hs'. split; [done|]. split; [done|]. by eapply linv_perm.
Qed.

Lemma linv_step os hs pr pr' : linv os hs pr → lstep pr pr' → ∃ os' hs', linv os' hs' pr'.
Proof.
  intros Hi Hs. destruct Hs as [n exe mf md ci ei r pr pr' Hn Hmf Hmd Hci Hei E|a hd p s q pr Ha Hp Hs Hq|a pr pr' Ha E].
  - pose proof (wp_run _ _ _ _ _ (wp_hdfstream_new n exe mf md ci ei os hs pr Hn Hmf Hmd Hci Hei Hi) E) as Hr.
    destruct r as [h|]; [destruct Hr as (o & e & Hr); by eexists _, _|]. destruct Hr as [l ->].
    exists os, hs. destruct Hi as [[? ? ? ? ? ?] Hc ? ? ? ? ?]. split; try done.
    eapply chained_mono; [|exact Hc]. intros ? ? _ [? ?]. by split.
  - exists os, hs. apply linv_with_pool; [done|by intros|done].
  - destruct (linv_open _ _ _ _ Hi Ha) as (h & hs' & -> & _ & Hi'). exists os, hs'.
    exact (wp_run _ _ _ _ _ (wp_hdfstream_free os h hs' pr Hi') E).
Qed.

Lemma wp_cache_info hits os h hs nr pr :
  linv os (h :: hs) pr → wp (hdfstream_cache_info hits (Some (op_handle h)) nr) (λ _ pr', pr' = pr) pr.
Proof.
  intros Hi. destruct (li_handle _ _ _ Hi h) as (mf & md & Hh); [constructor|].
  destruct (li_unused _ _ _ Hi h) as (s & Hs & [Hp _]); [constructor|].
  unfold hdfstream_cache_info. wp_step. eapply wp_load; [exact Hh|]. wp_step. eapply wp_load; [exact Hs|].
  destruct ((nr >=? 0) && (nr <? max_nr_processes (po_pool s)))%Z eqn:En; [|by wp_step].
  pose proof (pi_states _ Hp). pose proof (pi_workers _ Hp).
  destruct (lookup_lt_is_Some_2 (worker_state (po_pool s)) (Z.to_nat nr)) as [st Hst]; [lia|].
  wp_step. eapply wp_lift; [rewrite arr_get_nth by lia; exact Hst|]. case_bool_decide as Est; [|by wp_step].
  destruct (pinv_slot _ _ _ Hp Hst) as (w & Hw & _); [naive_solver|].
  wp_step. eapply wp_lift; [rewrite arr_get_nth by lia; exact Hw|]. by apply wp_ret.
Qed.

Lemma wp_exit os hs fuel pr :
  linv os hs pr → length os ≤ fuel →
  wp (exit_program fuel) (λ _ pr', pools_owned [] (op_exe <$> hs) pr' ∧ pr_handles pr' = pr_handles pr) pr.
Proof.
  intros [Ho Hc Ha _ _ _ _] Hf. unfold exit_program. wp_step. wp_step. rewrite Ha.
  destruct (pr_first_pool pr) as [p|] eqn:Ep; cbn [is_null forM].
  - wp_step. unfold process_pool_cleanup. wp_step. wp_step. rewrite Ep. wp_step.
    eapply wp_cleanup_loop; [exact Ho|exact Hc|done|]. intros pr' [? ? ? ? ? ?] Hh _. wp_step. wp_step.
    split; [by split|done].
  - destruct os as [|o os]; [|by destruct Hc]. by wp_step.
Qed.

(** C11: the library can be started and freed any number of times.
    Whatever calls fail, in every state that a program can reach, starting the
    library returns, and when it returns NULL nothing has changed; an open
    handle can be freed and asked about any worker; and when the program exits,
    all memory, semaphores and mutexes of all pools are freed, each once, and
    what is left are the handles that were not freed with their strings. *)
Theorem library_lifetimes answers pr :
  rtc lstep (program_start answers) pr →
  (∀ n exe mf md ci ei, (0 ≤ n)%Z → is_s32 mf → is_s32 md → is_s32 ci → is_s32 ei →
     ∃ r pr', hdfstream_new_with_executable HDFSTREAM_EXECUTABLE n exe mf md ci ei pr = Some (r, pr') ∧
       (r = None → ∃ l, pr' = set_answers l pr)) ∧
  (∀ h, is_Some (pr_handles pr !! h) →
     (∃ pr', hdfstream_free (Some h) pr = Some ((), pr')) ∧
     ∀ hits nr, ∃ r, hdfstream_cache_info hits (Some h) nr pr = Some (r, pr)) ∧
  (∀ fuel, size (pr_pools pr) ≤ fuel → ∃ pr', exit_program fuel pr = Some ((), pr') ∧
     pr_pools pr' = ∅ ∧ pr_args pr' = ∅ ∧ pr_arrays pr' = ∅ ∧ pr_sems pr' = ∅ ∧ pr_mutexes pr' = ∅ ∧
     pr_handles pr' = pr_handles pr ∧ size (pr_strings pr') = size (pr_handles pr)).
Proof.
  intros Hr. assert (∃ os hs, linv os hs pr) as (os & hs & Hi).
  { assert (∃ os hs, linv os hs (program_start answers)) as H0 by (eexists _, _; apply linv_start). revert H0.
    induction Hr as [|p1 p2 p3 Hs _ IH]; [done|]. intros (os & hs & Hi). apply IH. by eapply linv_step. }
  split; [|split].
  - intros n exe mf md ci ei Hn Hmf Hmd Hci Hei.
    destruct (wp_hdfstream_new n exe mf md ci ei os hs pr Hn Hmf Hmd Hci Hei Hi) as (r & pr' & E & Hp).
    exists r, pr'. split; [done|]. by intros ->.
  - intros a Ha. destruct (linv_open _ _ _ _ Hi Ha) as (h & hs' & -> & _ & Hi'). split.
    + destruct (wp_hdfstream_free os h hs' pr Hi') as ([] & pr' & E & _). by exists pr'.
    + intros hits nr. destruct (wp_cache_info hits os h hs' nr pr Hi') as (r & pr' & E & ->). by exists r.
  - intros fuel Hf. pose proof (owns_size _ _ (po_structs _ _ _ (li_pools _ _ _ Hi))) as Hl. rewrite length_fmap in Hl.
    destruct (wp_exit os hs fuel pr Hi) as ([] & pr' & E & [Hst Hcp Har Hps Hse Hmu] & Hh); [lia|].
    exists pr'. split; [done|]. simpl in *. rewrite app_nil_r in Hst.
    rewrite (owns_nil _ Hps), (owns_nil _ Hcp), (owns_nil _ Har), Hse, Hmu, Hh.
    rewrite (owns_size _ _ Hst), (owns_size _ _ (li_handles _ _ _ Hi)), !length_fmap. done.
Qed.
End library.

(** ** A program *)

Module LifetimesDemo.
Definition reader_path : list byte := lit "reader".
(** The library is started, started again without success, and freed. *)
Definition first_start : option (ptr * program) :=
  hdfstream_new_with_executable reader_path 2 None 10 10 0 0 (program_start [true; true; true; false]).
Definition with_handle : program := match first_start with Some (_, pr) => pr | None => program_start [] end.
Definition handle : loc := match first_start with Some (Some h, _) => h | _ => 1%positive end.
Definition second_start : option (ptr * program) :=
  hdfstream_new_with_executable reader_path 3 (Some (lit "r2")) 5 5 60 60 with_handle.
Definition still : program := match second_start with Some (_, pr) => pr | None => program_start [] end.
Definition freeing : option (() * program) := hdfstream_free (Some handle) still.
Definition freed : program := match freeing with Some (_, pr) => pr | None => program_start [] end.

Definition got (b : bool) (o : option (ptr * program)) : bool :=
  match o with Some (Some _, _) => b | Some (None, _) => negb b | None => false end.
Lemma step_first : got true first_start = true →
  lstep reader_path (program_start [true; true; true; false]) with_handle.
Proof.
  intros Hg. apply (l_new _ 2 None 10 10 0 0 (Some handle)); [lia|unfold is_s32; lia..|].
  revert Hg. unfold handle, with_handle, first_start.
  by destruct (hdfstream_new_with_executable _ _ _ _ _ _ _ _) as [[[] ?]|].
Qed.
Lemma step_second : got false second_start = true → lstep reader_path with_handle still.
Proof.
  intros Hg. apply (l_new _ 3 (Some (lit "r2")) 5 5 60 60 None); [lia|unfold is_s32; lia..|].
  revert Hg. unfold still, second_start. generalize with_handle. intros pr.
  by destruct (hdfstream_new_with_executable _ _ _ _ _ _ _ _) as [[[] ?]|].
Qed.
Lemma step_free : bool_decide (is_Some freeing) = true → bool_decide (is_Some (pr_handles still !! handle)) = true →
  lstep reader_path still freed.
Proof.
  intros Hg Hh. apply (l_free _ handle); [by apply (bool_decide_eq_true_1 _)|].
  revert Hg. unfold freed, freeing. generalize still handle. intros pr h. by destruct (hdfstream_free _ _) as [[[] ?]|].
Qed.

Lemma reached_freed : rtc (lstep reader_path) (program_start [true; true; true; false]) freed.
Proof.
  apply (rtc_l _ _ with_handle); [apply step_first; by_vm|].
  apply (rtc_l _ _ still); [apply step_second; by_vm|]. apply rtc_once, step_free; by_vm.
Qed.
End LifetimesDemo.

(** Both pools are gone at the end: the one that was freed and the one that was
    not made. *)
Lemma library_lifetimes_witness :
  (size (pr_pools LifetimesDemo.with_handle) =? 1) = true ∧
  ∃ pr', exit_program 1 LifetimesDemo.freed = Some ((), pr') ∧
    pr_pools pr' = ∅ ∧ pr_args pr' = ∅ ∧ pr_arrays pr' = ∅ ∧ pr_sems pr' = ∅ ∧ pr_mutexes pr' = ∅ ∧
    pr_handles pr' = pr_handles LifetimesDemo.freed ∧ size (pr_strings pr') = size (pr_handles LifetimesDemo.freed).
Proof.
  split; [by_vm|].
  apply (proj2 (proj2 (library_lifetimes LifetimesDemo.reader_path [true; true; true; false] LifetimesDemo.freed
    LifetimesDemo.reached_freed))). apply (Nat.leb_le _ _). by_vm.
Defined.
