(* ===== verification/Jni.v ===== *)
(** * The functions that Java calls (src/jni)

    HDFStream.c and DataStream.c turn the values of Java into those of the C
    library and back.  The strings and arrays that the Java VM lends to C, and
    the arrays that C allocates, are in the state: what a function does not give
    back stays there.  The VM itself is not modelled: its strings are a
    parameter, with the bytes that [GetStringUTFChars] gives for them, and the
    calls that lend memory succeed, as the code assumes. *)
From Stdlib Require Import Strings.Byte Strings.String.
From stdpp Require Import base tactics numbers list gmap.
From S2P Require Import Prelude Bytes Multislice Stream ProcessPool Lifetimes MapInterface Caches Requests.

(** [(jlong) ((intptr_t) p)] and back. *)
Definition jlong_of_ptr (p : ptr) : Z := match p with Some a => Zpos a | None => 0 end.
Definition ptr_of_jlong (z : Z) : ptr := match z with Zpos a => Some a | _ => None end.

Section jni.
Context {L : Type}.

(** What the VM has lent: strings, arrays of long, arrays of int; the arrays
    that C has allocated; and the state of the library. *)
Record jenv := Env {
  e_chars : gmap positive (list byte);
  e_longs : gmap positive (list Z);
  e_ints : gmap positive (list Z);
  e_blocks : gmap positive (list Z);
  e_lib : L;
}.
Definition chars : heap_of jenv (list byte) := HeapOf e_chars (λ h e, Env h (e_longs e) (e_ints e) (e_blocks e) (e_lib e)).
Definition longs : heap_of jenv (list Z) := HeapOf e_longs (λ h e, Env (e_chars e) h (e_ints e) (e_blocks e) (e_lib e)).
Definition ints : heap_of jenv (list Z) := HeapOf e_ints (λ h e, Env (e_chars e) (e_longs e) h (e_blocks e) (e_lib e)).
Definition c_arrays : heap_of jenv (list Z) := HeapOf e_blocks (λ h e, Env (e_chars e) (e_longs e) (e_ints e) h (e_lib e)).
Definition with_lib (l : L) (e : jenv) : jenv := Env (e_chars e) (e_longs e) (e_ints e) (e_blocks e) l.
Definition on_lib {A} : M L A → M jenv A := zoom e_lib with_lib.

Context {jstring : Type} (utf : jstring → list byte).

Definition GetStringUTFChars (s : jstring) : M jenv loc := malloc chars (utf s).
Definition ReleaseStringUTFChars (p : loc) : M jenv () := free chars (Some p).
Definition GetLongArrayElements (a : list Z) : M jenv loc := malloc longs a.
Definition ReleaseLongArrayElements (p : loc) : M jenv () := free longs (Some p).

(** [for(i = 0; i < n; i += 1) c[i] = data[i];] from [jlong] to [hsize_t]. *)
Definition copy_long (data c : loc) (i : Z) : M jenv () :=
  let! l := load longs (Some data) in
  let! v := lift (arr_get l i) in
  let! d := load c_arrays (Some c) in
  let! d := lift (arr_set d i (u64 v)) in
  store c_arrays (Some c) (λ _, d).
(** The elements of a Java array of [n] longs, in a new array of C. *)
Definition copy_longs (a : list Z) (n : Z) : M jenv loc :=
  let! data := GetLongArrayElements a in
  let! c := malloc c_arrays (replicate (Z.to_nat n) 0%Z) in
  do! forM (Z.to_nat n) 0 (copy_long data c) in
  do! ReleaseLongArrayElements data in
  ret c.

(** [hdfstream_dataset_multi_slice_open] and [hdfstream_object_open]. *)
Context (multi_slice_open : option (list byte) → option (list byte) → Z → Z → option (list Z) → option (list Z) → Z → M L (option loc)).
Context (object_open : option (list byte) → option (list byte) → Z → Z → Z → M L (option loc)).

(** The [cleanup] of [c_open_slices]. *)
Definition slices_cleanup (c_file_name c_dataset_name : loc) (c_start c_count : ptr) (result : Z) : M jenv Z :=
  do! ReleaseStringUTFChars c_file_name in
  do! ReleaseStringUTFChars c_dataset_name in
  do! when (negb (is_null c_start)) (free c_arrays c_start) in
  do! when (negb (is_null c_count)) (free c_arrays c_count) in
  ret result.

Definition c_open_slices (file_name dataset_name : jstring) (nr_slices rank : Z) (start count : list Z)
    (buffer_size : Z) : M jenv Z :=
  let! c_file_name := GetStringUTFChars file_name in
  let! c_dataset_name := GetStringUTFChars dataset_name in
  let cleanup := slices_cleanup c_file_name c_dataset_name in
  if ((nr_slices >? HDFSTREAM_MAX_SLICES) || (nr_slices <? 1))%Z then cleanup None None 0%Z else
  if ((rank >? HDFSTREAM_MAX_DIMS) || (rank <? 0))%Z then cleanup None None 0%Z else
  let! arr_len := int_mul nr_slices rank in
  if negb (len start =? arr_len)%Z then cleanup None None 0%Z else
  let! c_start := copy_longs start arr_len in
  if negb (len count =? arr_len)%Z then cleanup (Some c_start) None 0%Z else
  let! c_count := copy_longs count arr_len in
  let c_buffer_size := u64 buffer_size in
  let! f := load chars (Some c_file_name) in
  let! d := load chars (Some c_dataset_name) in
  let! st := load c_arrays (Some c_start) in
  let! ct := load c_arrays (Some c_count) in
  let! stream := on_lib (multi_slice_open (Some f) (Some d) nr_slices rank (Some st) (Some ct) c_buffer_size) in
  if is_null stream then cleanup (Some c_start) (Some c_count) 0%Z else
  cleanup (Some c_start) (Some c_count) (jlong_of_ptr stream).

Definition c_open_object (file_name object_name : jstring) (max_depth buffer_size data_size_limit : Z) : M jenv Z :=
  let! c_file_name := GetStringUTFChars file_name in
  let! c_object_name := GetStringUTFChars object_name in
  let! f := load chars (Some c_file_name) in
  let! o := load chars (Some c_object_name) in
  let! stream := on_lib (object_open (Some f) (Some o) max_depth (u64 buffer_size) (u64 data_size_limit)) in
  let result := if is_null stream then 0%Z else jlong_of_ptr stream in
  do! ReleaseStringUTFChars c_file_name in
  do! ReleaseStringUTFChars c_object_name in
  ret result.

(** [new], [new_with_executable], [free] and [cache_info]. *)
Context (new : Z → option (list byte) → Z → Z → Z → Z → M L ptr).
Context (free_library : ptr → M L ()).
Context (cache_info : ptr → Z → M L (Z * Z * Z)).

Definition c_new (nr_processes max_open_files max_open_datasets check expiry : Z) : M jenv Z :=
  let! hs := on_lib (new nr_processes None max_open_files max_open_datasets check expiry) in
  ret (jlong_of_ptr hs).
Definition c_new_with_executable (nr_processes : Z) (executable : jstring)
    (max_open_files max_open_datasets check expiry : Z) : M jenv Z :=
  let! c_path := GetStringUTFChars executable in
  let! path := load chars (Some c_path) in
  let! hs := on_lib (new nr_processes (Some path) max_open_files max_open_datasets check expiry) in
  do! ReleaseStringUTFChars c_path in
  ret (jlong_of_ptr hs).
Definition c_free (p : Z) : M jenv () := on_lib (free_library (ptr_of_jlong p)).
(** The entries of the Java array afterwards. *)
Definition c_cache_info (p worker_nr : Z) (fields : list Z) : M jenv (list Z) :=
  let! ci := on_lib (cache_info (ptr_of_jlong p) worker_nr) in
  let! data := malloc ints fields in
  let! l := lift (arr_set fields 0 ci.1.1) in
  let! l := lift (arr_set l 1 ci.1.2) in
  let! l := lift (arr_set l 2 ci.2) in
  do! store ints (Some data) (λ _, l) in
  let! l := load ints (Some data) in
  do! free ints (Some data) in
  ret l.
End jni.

(** [read_chunk] of DataStream.c, on a Java array of [room] bytes.  [status] is
    not initialized: it must not be read unless [hdfstream_read_chunk] set it. *)
Definition chunk_code {byte} (room : Z) (r : chunk_result (byte := byte)) : option Z :=
  if (r_len r >? room)%Z then None else
  if (r_len r =? 0)%Z then
    match r_status r with
    | Some status => Some (if (status =? 0)%Z then 0 else -1)%Z
    | None => None
    end
  else Some (r_len r).
Definition c_read_chunk {byte} (NR_BUFFERS : Z) (room : Z) (stream : data_stream)
    : prog (byte := byte) (data_stream * (Z * list byte)) :=
  pbind (hdfstream_read_chunk NR_BUFFERS stream true) (λ r,
  match chunk_code room r.2 with
  | Some n => Ret (r.1, (n, r_bytes r.2))
  | None => Crash
  end).
