(* ===== verification/JniMain.v ===== *)
(** * The functions that Java calls: the theorems

    Each function gives back what it took from the VM and from [malloc], on
    every path, and passes the values of Java on as the library expects them. *)
From Stdlib Require Import Strings.Byte Strings.String.
From stdpp Require Import base tactics numbers list gmap.
From S2P Require Import Prelude Bytes Multislice Pipe Stream SharedData StreamProof ProcessPool MapInterface Caches.
From S2P Require Import DatasetCache FileCache FileCacheProof FileCacheMain Requests RequestsProof RequestsMain Lifetimes Jni.

Section resources.
Context {L : Type} {jstring : Type} (utf : jstring → list byte).
Implicit Types e : jenv (L := L).

(** The arrays of C get the elements modulo 2^64. *)
Lemma wp_copy_longs a e (Q : loc → jenv → Prop) :
  (∀ c, e_blocks e !! c = None → Q c (heap_put c_arrays (<[c := u64 <$> a]> (e_blocks e)) e)) →
  wp (copy_longs a (len a)) Q e.
Proof.
  intros HQ. unfold copy_longs, GetLongArrayElements, ReleaseLongArrayElements, len.
  wp_step. apply wp_malloc. intros p Hp. cbn in Hp |- *. wp_step. apply wp_malloc. intros c Hc. cbn in Hc |- *.
  rewrite Nat2Z.id. wp_step.
  apply (wp_forM (λ i s, s = Env (e_chars e) (<[p := a]> (e_longs e)) (e_ints e)
    (<[c := (u64 <$> take (Z.to_nat i) a) ++ replicate (length a - Z.to_nat i) 0%Z]> (e_blocks e)) (e_lib e))).
  - intros i s Hi ->. destruct (lookup_lt_is_Some_2 a (Z.to_nat i)) as [v Hv]; [lia|].
    unfold copy_long. wp_step. eapply wp_load; [apply lookup_insert_eq|].
    wp_step. eapply wp_lift; [rewrite arr_get_nth by lia; exact Hv|].
    wp_step. eapply wp_load; [apply lookup_insert_eq|]. wp_step. eapply wp_lift.
    { apply arr_set_total. rewrite length_app, length_fmap, length_take, length_replicate. lia. }
    eapply wp_store; [apply lookup_insert_eq|]. cbn. f_equal. rewrite insert_insert_eq. f_equal.
    assert (length (u64 <$> take (Z.to_nat i) a) = Z.to_nat i) as Hl by (rewrite length_fmap, length_take; lia).
    replace (Z.to_nat i) with (length (u64 <$> take (Z.to_nat i) a) + 0) at 1 by lia. rewrite insert_app_r.
    replace (length a - Z.to_nat i) with (S (length a - Z.to_nat (i + 1))) by lia. simpl.
    replace (Z.to_nat (i + 1)) with (S (Z.to_nat i)) by lia. rewrite (take_S_r _ _ _ Hv), fmap_app, <- app_assoc. done.
  - cbn. f_equal. by rewrite Nat.sub_0_r.
  - intros s ->. wp_step. eapply wp_free; [apply lookup_insert_eq|]. cbn. wp_step.
    rewrite delete_insert_id by done. rewrite take_ge by lia.
    replace (length a - Z.to_nat (0 + Z.of_nat (length a))) with 0 by lia. rewrite app_nil_r. by apply HQ.
Qed.

(** Two strings that are given back in the order in which they were taken. *)
Lemma wp_give_back {A} f d vf vd e (k : M jenv A) (Q : A → jenv → Prop) C :
  C !! f = None → <[f := vf]> C !! d = None → e_chars e = <[d := vd]> (<[f := vf]> C) →
  wp k Q (heap_put chars C e) → wp (do! ReleaseStringUTFChars f in do! ReleaseStringUTFChars d in k) Q e.
Proof.
  intros Hf Hd He HQ. assert (f ≠ d) by (intros ->; by rewrite lookup_insert_eq in Hd).
  rewrite lookup_insert_ne in Hd by done. unfold ReleaseStringUTFChars.
  wp_step. eapply (wp_free _ _ vf). { cbn. by rewrite He, lookup_insert_ne, lookup_insert_eq. }
  cbn. rewrite He, delete_insert_ne, delete_insert_id by done.
  wp_step. eapply wp_free; [apply lookup_insert_eq|]. cbn. by rewrite delete_insert_id.
Qed.

(** The arrays of C that are to be freed. *)
Definition extra (c_start c_count : ptr) (B b : gmap positive (list Z)) : Prop :=
  match c_start, c_count with
  | None, None => b = B
  | Some c, None => B !! c = None ∧ ∃ v, b = <[c := v]> B
  | Some c, Some k => B !! c = None ∧ ∃ v w, <[c := v]> B !! k = None ∧ b = <[k := w]> (<[c := v]> B)
  | None, Some _ => False
  end.
Lemma wp_slices_cleanup f d vf vd c_start c_count r e B C (Q : Z → jenv → Prop) :
  C !! f = None → <[f := vf]> C !! d = None → e_chars e = <[d := vd]> (<[f := vf]> C) →
  extra c_start c_count B (e_blocks e) →
  Q r (Env C (e_longs e) (e_ints e) B (e_lib e)) → wp (slices_cleanup f d c_start c_count r) Q e.
Proof.
  intros Hf Hd He Hx HQ. unfold slices_cleanup. eapply wp_give_back; [exact Hf|exact Hd|exact He|].
  destruct c_start as [c|], c_count as [k|]; simpl in Hx.
  - destruct Hx as (Hc & v & w & Hk & Hx). assert (c ≠ k) by (intros ->; by rewrite lookup_insert_eq in Hk).
    rewrite lookup_insert_ne in Hk by done. cbn [is_null negb when].
    wp_step. eapply (wp_free _ _ v). { cbn. by rewrite Hx, lookup_insert_ne, lookup_insert_eq. }
    cbn. rewrite Hx, delete_insert_ne, delete_insert_id by done.
    wp_step. eapply wp_free; [apply lookup_insert_eq|]. cbn. wp_step. by rewrite delete_insert_id.
  - destruct Hx as (Hc & v & Hx). cbn [is_null negb when]. wp_step.
    eapply (wp_free _ _ v). { cbn. by rewrite Hx, lookup_insert_eq. }
    cbn. rewrite Hx, delete_insert_id by done. by wp_steps.
  - done.
  - cbn. wp_steps. by rewrite Hx.
Qed.

(** The values with which the library is called. *)
Definition slices_ok (nr_slices rank : Z) (start count : list Z) : bool :=
  ((1 <=? nr_slices) && (nr_slices <=? HDFSTREAM_MAX_SLICES) && (0 <=? rank) && (rank <=? HDFSTREAM_MAX_DIMS) &&
   (len start =? nr_slices * rank) && (len count =? nr_slices * rank))%Z.

Context (open : option (list byte) → option (list byte) → Z → Z → option (list Z) → option (list Z) → Z → M L (option loc)).

Lemma wp_c_open_slices f d n rank st ct bs e (Q : Z → jenv → Prop) :
  (slices_ok n rank st ct = false → Q 0%Z e) →
  (slices_ok n rank st ct = true →
     wp (open (Some (utf f)) (Some (utf d)) n rank (Some (u64 <$> st)) (Some (u64 <$> ct)) (u64 bs))
       (λ r l, Q (jlong_of_ptr r) (with_lib l e)) (e_lib e)) →
  wp (c_open_slices utf open f d n rank st ct bs) Q e.
Proof.
  intros Hbad Hopen. unfold c_open_slices, GetStringUTFChars.
  wp_step. apply wp_malloc. intros a Ha. cbn in Ha |- *. wp_step. apply wp_malloc. intros b Hb. cbn in Hb |- *.
  assert (∀ c k r bl l, extra c k (e_blocks e) bl → Q r (with_lib l e) →
    wp (slices_cleanup a b c k r) Q (Env (<[b := utf d]> (<[a := utf f]> (e_chars e))) (e_longs e) (e_ints e) bl l)) as Hclean.
  { intros c k r bl l Hx HQ. by eapply wp_slices_cleanup. }
  assert (∀ bl c, slices_ok n rank st ct = false → extra c None (e_blocks e) bl →
    wp (slices_cleanup a b c None 0) Q (Env (<[b := utf d]> (<[a := utf f]> (e_chars e))) (e_longs e) (e_ints e) bl (e_lib e))) as Hfail.
  { intros bl c Hs Hx. apply Hclean; [done|]. specialize (Hbad Hs). by destruct e. }
  clear Hbad. unfold slices_ok, HDFSTREAM_MAX_SLICES, HDFSTREAM_MAX_DIMS in *.
  destruct ((n >? 16777216) || (n <? 1))%Z eqn:En; [apply Hfail; [lia|done]|].
  destruct ((rank >? 32) || (rank <? 0))%Z eqn:Er; [apply Hfail; [lia|done]|].
  unfold int_mul. rewrite decide_True by (unfold is_s32; nia). do 2 wp_step.
  destruct (Z.eqb_spec (len st) (n * rank)) as [Est|]; [|apply Hfail; [lia|done]]. cbn [negb]. rewrite <- Est.
  wp_step. apply wp_copy_longs. intros c Hc. cbn in Hc |- *.
  destruct (Z.eqb_spec (len ct) (len st)) as [Ect|]; [|apply Hfail; [lia|split; [done|by eexists]]]. cbn [negb].
  wp_step. rewrite <- Ect. apply wp_copy_longs. intros k Hk. cbn in Hk |- *.
  wp_step. eapply wp_load. { cbn. rewrite lookup_insert_ne by (intros ->; by rewrite lookup_insert_eq in Hb). apply lookup_insert_eq. }
  wp_step. eapply wp_load; [apply lookup_insert_eq|].
  wp_step. eapply wp_load. { cbn. rewrite lookup_insert_ne by (intros ->; by rewrite lookup_insert_eq in Hk). apply lookup_insert_eq. }
  wp_step. eapply wp_load; [apply lookup_insert_eq|].
  wp_step. apply wp_zoom. cbn [e_lib]. eapply wp_mono; [apply Hopen; lia|]. intros r l HQ.
  unfold with_lib. cbn [e_chars e_longs e_ints e_blocks].
  assert (extra (Some c) (Some k) (e_blocks e) (<[k := u64 <$> ct]> (<[c := u64 <$> st]> (e_blocks e)))) as Hx
    by (split; [done|by eexists _, _]).
  destruct r as [r|]; cbn [is_null]; by apply Hclean.
Qed.

Lemma wp_c_open_object f o depth bs limit e
    (open_object : option (list byte) → option (list byte) → Z → Z → Z → M L (option loc)) (Q : Z → jenv → Prop) :
  wp (open_object (Some (utf f)) (Some (utf o)) depth (u64 bs) (u64 limit))
    (λ r l, Q (jlong_of_ptr r) (with_lib l e)) (e_lib e) →
  wp (c_open_object utf open_object f o depth bs limit) Q e.
Proof.
  intros Hopen. unfold c_open_object, GetStringUTFChars.
  wp_step. apply wp_malloc. intros a Ha. cbn in Ha |- *. wp_step. apply wp_malloc. intros b Hb. cbn in Hb |- *.
  wp_step. eapply wp_load. { cbn. rewrite lookup_insert_ne by (intros ->; by rewrite lookup_insert_eq in Hb). apply lookup_insert_eq. }
  wp_step. eapply wp_load; [apply lookup_insert_eq|].
  wp_step. apply wp_zoom. cbn [e_lib]. eapply wp_mono; [exact Hopen|]. intros r l HQ.
  eapply wp_give_back; [exact Ha|exact Hb|done|]. wp_step. by destruct r.
Qed.
End resources.

(** ** Calls from Java *)

Section java.
Context {T L : Type} `{!KVMap T (list byte) positive, !KVMapLaws T (list byte) positive}.
Context `{!H5Files (list byte) L, !H5FilesLaws (list byte) L}.
Abbreviation library := (library (T := T) (L := L)).
(** The bytes that the VM gives for a string end with the only null byte. *)
Context {jstring : Type} (utf : jstring → list byte) (Hutf : ∀ s, name_ok (utf s)).
Context (NR_BUFFERS : nat) (cap : Z) (bl : gmap Z h5_what) (mf md : nat).

Inductive java_call :=
  | JSlices (file_name dataset_name : jstring) (nr_slices rank : Z) (start count : list Z) (buffer_size : Z)
  | JObject (file_name object_name : jstring) (max_depth buffer_size data_size_limit : Z).
Definition java_open (now : Z) (q : java_call) : M (jenv (L := library)) Z :=
  match q with
  | JSlices f d n rank st ct bs =>
      c_open_slices utf (hdfstream_dataset_multi_slice_open NR_BUFFERS now) f d n rank st ct bs
  | JObject f o depth bs limit => c_open_object utf (hdfstream_object_open NR_BUFFERS now) f o depth bs limit
  end.
(** The arguments of the library: unsigned numbers modulo 2^64. *)
Definition java_request (q : java_call) : request :=
  match q with
  | JSlices f d n rank st ct bs =>
      DatasetRequest (Some (utf f)) (Some (utf d)) n rank (Some (u64 <$> st)) (Some (u64 <$> ct)) (u64 bs)
  | JObject f o depth bs limit => ObjectRequest (Some (utf f)) (Some (utf o)) depth (u64 bs) (u64 limit)
  end.
Definition java_ok (q : java_call) : bool :=
  match q with JSlices _ _ n rank st ct _ => slices_ok n rank st ct | JObject _ _ _ _ _ => true end.
Definition jints_ok (q : java_call) : Prop :=
  match q with JSlices _ _ n rank _ _ _ => is_s32 n ∧ is_s32 rank | JObject _ _ depth _ _ => is_s32 depth end.

Lemma java_request_ok q : jints_ok q → java_ok q = true → request_ok (java_request q).
Proof.
  destruct q as [f d n rank st ct bs|f o depth bs limit]; simpl.
  - intros [Hn Hr] Hs. unfold slices_ok in Hs. split; [by intros s [[= <-]|[= <-]]|]. split; [done|]. split; [done|].
    split; [|apply u64_range]. assert (∀ a, len a = (n * rank)%Z → (n * rank ≤ len (u64 <$> a))%Z ∧ Forall is_u64 (u64 <$> a)) as Ha.
    { intros a <-. unfold len. rewrite length_fmap. split; [done|]. apply Forall_fmap, Forall_true. intros. apply u64_range. }
    intros a [[= <-]|[= <-]]; apply Ha; lia.
  - intros Hd _. split; [by intros s [[= <-]|[= <-]]|]. split; [done|]. split; apply u64_range.
Qed.

(** C8: a call from Java opens a stream or leaves no trace.  Whatever the
    values that Java passes, the worker and the operating system do, the call
    returns; the VM has got its strings and arrays back and C has freed its own;
    arrays of the wrong length or numbers of slices and dimensions out of range
    give 0 and do not reach the library.  Otherwise the worker was sent the
    request with the values of Java modulo 2^64 if the result is not 0, and the
    result is 0 exactly if there is no new stream. *)
Theorem java_open_robust now q (e : jenv (L := library)) ws :
  0 < mf → 0 < md → jints_ok q → link_ok (l_link (e_lib e)) → l_held (e_lib e) = false →
  ring_usable NR_BUFFERS cap (l_srd (e_lib e)) → fc_state true bl mf md ws (l_shadow (e_lib e)) →
  ∃ r l, java_open now q e = Some (jlong_of_ptr r, with_lib l e) ∧ (jlong_of_ptr r = 0%Z ↔ r = None) ∧
    (java_ok q = true → left_in_order NR_BUFFERS cap bl mf md (java_request q) (e_lib e) r l) ∧
    (java_ok q = false → r = None ∧ l = e_lib e).
Proof.
  intros Hmf Hmd Hq Hl Hheld Hring Hws.
  assert (java_ok q = true → wp (open_stream NR_BUFFERS now (java_request q))
    (left_in_order NR_BUFFERS cap bl mf md (java_request q) (e_lib e)) (e_lib e)) as Hopen.
  { intros Hok. by eapply wp_open_stream, java_request_ok. }
  cut (wp (java_open now q) (λ z e', ∃ r l, z = jlong_of_ptr r ∧ e' = with_lib l e ∧ (jlong_of_ptr r = 0%Z ↔ r = None) ∧
    (java_ok q = true → left_in_order NR_BUFFERS cap bl mf md (java_request q) (e_lib e) r l) ∧
    (java_ok q = false → r = None ∧ l = e_lib e)) e).
  { intros (z & e' & E & r & l & -> & -> & ?). by exists r, l. }
  assert (∀ r l, java_ok q = true → left_in_order NR_BUFFERS cap bl mf md (java_request q) (e_lib e) r l →
    ∃ r' l', jlong_of_ptr r = jlong_of_ptr r' ∧ with_lib l e = with_lib l' e ∧ (jlong_of_ptr r' = 0%Z ↔ r' = None) ∧
    (java_ok q = true → left_in_order NR_BUFFERS cap bl mf md (java_request q) (e_lib e) r' l') ∧
    (java_ok q = false → r' = None ∧ l' = e_lib e)) as Hdone.
  { intros r l Hok Hr. exists r, l. rewrite Hok. repeat (split; [by destruct r|]). done. }
  destruct q as [f d n rank st ct bs|f o depth bs limit]; simpl in *.
  - apply wp_c_open_slices.
    + intros Hbad. exists None, (e_lib e). rewrite Hbad. by destruct e.
    + intros Hok. eapply wp_mono; [by apply Hopen|]. intros r l. by apply Hdone.
  - apply wp_c_open_object. eapply wp_mono; [by apply Hopen|]. intros r l. by apply Hdone.
Qed.
End java.

(** Reading a chunk after the end of the stream: [status] is read without having
    been set. *)
Lemma read_after_end_undefined {byte} NR_BUFFERS room i :
  c_read_chunk (byte := byte) NR_BUFFERS room (Stream.DS true i) = Crash.
Proof. unfold c_read_chunk, hdfstream_read_chunk, chunk_code. simpl. by destruct (0 >? room)%Z. Qed.

(** ** A call *)

Import RequestDemo.
Module JniDemo.
(** Java has two strings. *)
Definition utf (s : bool) : list byte := if s then lit "a.h5" else lit "x".
Lemma utf_ok s : name_ok (utf s).
Proof. destruct s; (split; [by apply (bool_decide_eq_true_1 _); vm_compute|done]). Qed.
Definition call : java_call (jstring := bool) := JSlices true false 2 1 [0; 5]%Z [3; 4]%Z 1000.
(** A worker that takes the request and does not answer. *)
Definition silent : library (T := AvlTree.avltree (list byte) positive) (L := gset Z) :=
  Library (Link (Endpoint [Moves 3; Errno EINTR; Moves 7] [] [] [] false false) false false)
    (∅, file_cache_new 2 1) RequestDemo.ring true false ∅.
Definition vm : jenv := Env ∅ ∅ ∅ ∅ silent.
End JniDemo.

Lemma java_open_robust_witness :
  ∃ r l, java_open JniDemo.utf 2 200 JniDemo.call JniDemo.vm = Some (jlong_of_ptr r, with_lib l JniDemo.vm) ∧
    (jlong_of_ptr r = 0%Z ↔ r = None) ∧
    (java_ok JniDemo.call = true →
       left_in_order 2 4 ∅ 2 1 (java_request JniDemo.utf JniDemo.call) (e_lib JniDemo.vm) r l) ∧
    (java_ok JniDemo.call = false → r = None ∧ l = e_lib JniDemo.vm).
Proof.
  apply (java_open_robust JniDemo.utf JniDemo.utf_ok 2 4 ∅ 2 1 200 JniDemo.call JniDemo.vm []);
    [lia|lia|done|by split|reflexivity|exact RequestDemo.usable|exact (fc_state_new true (∅ : gset Z) 2 1)].
Defined.
